(* ===== verification/_CoqProject ===== *)
-Q . S2P
Prelude.v
GoStd.v
Duration.v
Sys.v
Net.v
Utf8.v
Logging.v
Domain.v
Config.v
Paths.v
Retry.v
Acme.v
CertEntry.v
CertStore.v
Server.v
Http.v
Sds.v
Fanout.v
Failover.v
Handler.v
Mtls.v
SdsServer.v
Base64.v
Json.v
Rfc3339.v
Challenge.v
Daemon.v
Install.v
HttpClient.v
Codec.v
HttpEndToEnd.v
ClientSds.v
SdsEndToEnd.v
K8s.v
Txc.v
Caddy.v
Stream.v
ClientStream.v
EndToEnd.v
Shutdown.v
Commands.v
Output.v
Startup.v
Updaters.v
ClientMain.v
ClientProcess.v
GrpcProcess.v
