(* ===== verification/Prelude.v ===== *)
(** * certdx: a verification development

    certdx distributes TLS certificates.  A server obtains them over ACME,
    caches and renews them, and hands them out over an HTTP API and over the
    Envoy secret discovery service (SDS, gRPC); clients (a daemon, a Caddy
    plugin, updaters for Kubernetes and Tencent Cloud) keep copies up to
    date.  This library models the Go code of the repository and proves what
    makes it correct.  Paths below are relative to the repository.

    ** How the parts interact

    - A request or a stream names a set of domains.  The allow-list decides
      (Domain), the set is hashed into the key of a cache entry (Domain,
      Server), and the entry serves any number of goroutines (CertEntry).
    - An entry is renewed by a request when nobody is subscribed, by its own
      renewal goroutine while somebody is.  A renewal asks ACME (Acme, over
      Retry), publishes the certificate to the waiting streams and hands it
      to the store writer (CertStore), which persists it.
    - The HTTP API (Http) answers a poll; the SDS server (Sds) runs a handler
      per certificate that offers each renewal and waits for its
      acknowledgement.
    - On the client, poll loops (HttpClient) or SDS streams (ClientSds), the
      latter under a failover state machine (Failover), feed a channel per
      certificate; a watcher hands every change to its handlers (Daemon), the
      usual one of which replaces two files and runs a command (Handler).
    - Configurations are validated first (Config); certificates for mutual
      TLS come from a private authority (Mtls).
    - The plugin (Caddy) and the updaters (K8s, Txc) drive the same daemon.

    ** Files

    - Prelude: tactics, reachability and the invariant rule, list lemmas.
    - GoStd, Duration, Net, Sys: what the code uses of Go's library: integers
      of fixed width, strings, errors, time.ParseDuration, net.ParseIP, and
      the file system as an interface with laws and an in-memory instance.
    - Utf8, Base64, Json, Rfc3339: encoding/json with what it writes strings,
      byte slices and times as.
    - Logging: pkg/logging/logging.go.
    - Domain: pkg/domain/domain.go.
    - Config: pkg/config/*.go, pkg/acme/acmeproviders/provider.go.
    - Paths: pkg/paths/paths.go, the save paths of pkg/config/client.go.
    - Retry: pkg/retry/retry.go.
    - Acme: pkg/acme/*.go, the constructors of the challenge providers.
    - CertEntry: pkg/server/cert_entry.go and the locked sections of
      pkg/server/server.go, as a transition system of goroutines with the
      state of one entry ([certEntry], [world], [step]).
    - CertStore: pkg/server/cert_store.go; its writer is the relation [wstep],
      in which receiving a certificate, starting the write of the file, the
      states of the file during the write and its end are separate steps.
    - Server: the rest of pkg/server/server.go, sequentially.
    - Http: pkg/server/http.go, pkg/api/http.go.
    - Codec: the JSON texts of the wire types and of cache.json.
    - Sds: pkg/server/sds.go; a handler is the relation [hstep].
    - Fanout: one entry with all the handlers on it ([fstep]), each of them a
      run of [hstep].
    - Stream: one SDS stream with all its goroutines, relation [sstep] and,
      for what the client and the connection do, [estep].
    - SdsServer: the listener of pkg/server/sds.go and its interceptor.
    - Challenge: pkg/acme/challengeproviders/s3, pkg/acme/acmeproviders/google.
    - Failover: pkg/client/grpc_streamer.go; relation [step] on [grpcStreamer].
    - Handler: pkg/client/handler.go.
    - Mtls: pkg/mtls/mtls.go, pkg/tools/cert.go.
    - Daemon: pkg/client/daemon.go; relation [watchStep] on a watched
      certificate with its producers.
    - Install: a watcher with its handler and the disk at every moment, for
      any producer ([fileStep]).
    - HttpClient: pkg/client/http.go, pkg/client/http_poller.go.
    - HttpEndToEnd: one server, a poll loop and Install ([dstep]).
    - ClientSds: pkg/client/sds.go; relation [jstep] joins its handler with
      the server's of Sds.
    - ClientStream: one stream of the client with all its goroutines and
      deferred calls, relations [cstep] and [cenv].
    - SdsEndToEnd: any number of streams, each with its server, feeding
      Install ([fdStep]).
    - EndToEnd: the streams of both ends joined by a connection ([bstep]).
    - Shutdown: the end of the gRPC client, and of the server process
      (exec/server/main.go, pkg/cli/signal.go) with its renewals and its
      store writer, relation [pstep]; an exit can come between any two steps.
    - Commands: exec/tools, the registry of commands, [main] and the tasks.
    - Output: the help text, the version line, the listing of the cache.
    - Startup: [init] and [main] of exec/server and exec/client, the
      initialisation of the updaters, pkg/cli.
    - Updaters: the receivers of the two updaters from the constructor to the
      end of the wait, and the tools' registry with them.
    - ClientMain: what a host needs of the client's main function, as a class,
      with the two hosts: the client process ([clientRun]) and the Caddy app
      ([appStep]), which a goroutine of the client may end by [logging.Fatal]; ClientProcess and GrpcProcess are its instances, HttpMain
      with its wait group and GRPCMain with Failover's machine.
    - K8s: exec/tools/tasks/kubernetesCertificateUpdater.
    - Txc: exec/tools/tasks/txcCertificateUpdater.
    - Caddy: exec/caddytls.

    Names follow the Go code: a function [f] of the source is [f] here, the
    fields of a struct are the fields of a record, with a prefix where two
    structs share a name.  Code that returns [(T, error)] returns [result T];
    a panic is a value of [outcome]; state is threaded through a world [W].
    Where goroutines interleave, a relation has one constructor per atomic
    step, with ghost fields for the history.  Third-party code (lego, gRPC,
    PEM and X.509, the flag and TOML libraries, the Kubernetes, Tencent Cloud
    and other cloud clients, Caddy's dispenser) is a class of operations; what the theorems need of it
    is a second class of laws that state its documented behaviour, and every
    such class has an instance the witnesses compute with.  The JSON codecs
    are classes too, so that their clients do not depend on the texts; Codec
    gives the instances the programs use.

    ** What the theorems show

    - Renewal and waiting: no renewal is missed and no wait is spurious, one
      ACME call per expiry, no valid certificate is replaced, the renewer
      lives exactly while somebody is subscribed, [renewMu] is never stuck
      (CertEntry); the sequential code refines this system (Server); one
      renewal reaches the handlers of all streams (Fanout).
    - Delivery: a handler offers each renewal once and in order (Sds); a
      stream winds down with all its goroutines on either end (Stream,
      ClientStream) and never stalls between them (EndToEnd); the
      repository's own client always acknowledges so that the server does
      not fail and gets every offer (ClientSds); updates reach the handlers
      once and in order, and a restart is quiet (Daemon); an observer of the
      disk never sees half a file (Handler); a poll delivers what a server
      answered (HttpClient); the client and the server agree (HttpClient).
    - The whole way: over HTTP, the files hold at every moment what they held
      at the start or the whole of something the server's entry held, by either
      authentication (HttpEndToEnd); over gRPC, moreover, only certificates that were
      unexpired when the stream started or renewed since, and a stream at rest
      leaves the client with its entry's present certificate (SdsEndToEnd).
    - Access: the allow-list accepts exactly names at or under an allowed
      domain (Domain), enforced on the API (Http), on streams (Sds) and for
      annotated secrets (K8s); the SDS endpoint serves only over mutual TLS
      (SdsServer); a presented challenge is where the authority looks for it
      (Challenge).
    - Persistence: what is saved is loaded back, nothing handed to the writer
      is lost when the writer ends by itself, down to what the next start-up
      reads from the file (CertStore); the JSON texts read back (Codec); a started server
      serves the saved certificates that are still valid (Startup); bundles written by the tools load, serial numbers
      advance (Mtls).
    - Failover: the dispatcher cannot deadlock, the streams and the retry
      count are bounded, the main server is never lost without a standby
      (Failover).
    - The tools' command line means the same whatever order its registry is
      ranged over in (Commands), and the help lists every command (Output);
      an updater that exits with 0 has done what it was called for: every
      secret it was to update carries what the client delivered (Updaters).
    - Start and end: a start ends with an exit code or runs on a well-formed
      configuration (Startup); the client shuts down cleanly in both modes and
      under Caddy (ClientMain, ClientProcess, GrpcProcess), unless a request
      cannot load its mutual-TLS bundle, which is fatal (ClientProcess); the
      server does not wait for its store writer, and can lose renewals and leave
      a cut-off file (Shutdown).
    - Validation accepts exactly the well-formed configurations (Config); a
      Caddyfile means what its tree says and survives a round trip (Caddy).
    - Termination: retries, listings and parsers end (Retry, Txc, Caddy), and
      so does the gRPC client after Stop, on every schedule (Shutdown).
    - Flaws: theorems named [bare_nack_panics], [main_can_be_lost],
      [Load_null_panics], [ca_serial_reused], [wait_counts_deliveries],
      [twins_skipped], [run_waits_for_all], [stream_stalls], [server_exit],
      [empty_overwrites], [nul_shares_key], [short_lifetime_expired],
      [fatal_without_stop], [default_provider_rejected] and
      [default_auth_method_fails] state behaviour the code does not intend.

    ** Fuel and bounds

    Loops that are not structural take fuel.  [Do] computes its own from the
    retry count and is proved total.  [pemBlocks] and the duration and number
    parsers take the length of their input, which every iteration shortens.
    [FetchTencentCloudCertificate] needs one round per page of 100 and two
    more (with offsets below 2^62, so the [uint64] does not wrap);
    the Caddyfile parser needs the size of its tree.  The accept loops of
    Http run for as long as fuel is given and return [None] without it.
    The wait of an updater is driven by a schedule, a finite list of what
    happens beside it, and [Unfinished] when the list is used up before the
    wait is over; its theorems are about every schedule.
    Versions wrap at 2^64 and the refcount is bounded by 2^63-2 goroutines.

    ** Not modelled

    The decoding of flags, TOML and protobuf and the SDKs of the clouds, of
    Kubernetes and of Caddy are interfaces.  The time stamps of log lines,
    most log lines of the operations, the construction of the SDK clients from
    their options and the end-to-end test harness are left out.  The exit of a
    client in gRPC mode whose bundles do not load at its start comes before the
    steps of GrpcProcess begin ([newGRPCStreamer]).
    Data races that the Go memory model allows on unsynchronised fields
    (the failover session) are modelled as interleavings of whole reads. *)

From Stdlib Require Import ZArith Lia.
From stdpp Require Import base option list gmap sets strings sorting relations.

(** ** Notations and automation *)

Declare Scope go_scope.
Delimit Scope go_scope with go.

Create HintDb certdx discriminated.
#[export] Hint Constants Opaque : certdx.
#[export] Hint Variables Opaque : certdx.

(** [simp_match] case-splits every [match] or [if] of the goal or of a
    hypothesis and simplifies the resulting equations. *)
Ltac simp_match := repeat (case_match; simplify_eq/=).

(** [invs H] inverts [H] and substitutes. *)
Ltac invs H := inversion H; subst; clear H.

(** [split_all] splits conjunctions in the goal down to the leaves. *)
Ltac split_all := repeat match goal with |- _ ∧ _ => split end.

(** [bool_simp] turns boolean equations into propositions. *)
Ltac bool_simp :=
  repeat match goal with
  | H : andb _ _ = true |- _ => apply andb_true_iff in H as [? ?]
  | H : orb _ _ = false |- _ => apply orb_false_iff in H as [? ?]
  | H : negb _ = true |- _ => apply negb_true_iff in H
  | H : negb _ = false |- _ => apply negb_false_iff in H
  | H : bool_decide _ = true |- _ => apply bool_decide_eq_true in H
  | H : bool_decide _ = false |- _ => apply bool_decide_eq_false in H
  | H : Z.eqb _ _ = true |- _ => apply Z.eqb_eq in H
  | H : Z.eqb _ _ = false |- _ => apply Z.eqb_neq in H
  | H : Z.ltb _ _ = true |- _ => apply Z.ltb_lt in H
  | H : Z.ltb _ _ = false |- _ => apply Z.ltb_ge in H
  | H : Z.leb _ _ = true |- _ => apply Z.leb_le in H
  | H : Z.leb _ _ = false |- _ => apply Z.leb_gt in H
  | H : String.eqb _ _ = true |- _ => apply String.eqb_eq in H
  | H : String.eqb _ _ = false |- _ => apply String.eqb_neq in H
  end.

(** ** Reachability *)

(** Reachable states of a transition system given by its initial states and
    its step relation; invariants are proved by rule induction on it. *)
Inductive reachable {St : Type} (init : St → Prop) (step : St → St → Prop) : St → Prop :=
| reach_init s : init s → reachable init step s
| reach_step s s' : reachable init step s → step s s' → reachable init step s'.

#[export] Hint Constructors reachable : certdx.

(** [run_step R c] extends the reachable state of [R] by the step [c] of a
    relation, or of either side of a union of two, and computes the new
    state. *)
Tactic Notation "run_step" hyp(R) uconstr(c) :=
  match type of R with reachable ?i ?st ?s =>
    let R' := fresh in
    eassert (R' : reachable i st _);
      [ eapply (reach_step i st s _ R); first [left; eapply c; reflexivity | right; eapply c; reflexivity | eapply c; reflexivity]
      | clear R; match type of R' with reachable _ _ ?s' => let v := eval vm_compute in s' in change (reachable i st v) in R' end;
        rename R' into R ]
  end.

(** The induction principle of invariants: established initially and
    preserved by the steps taken from reachable states. *)
Lemma reachable_invariant {St} (init : St → Prop) (step : St → St → Prop) (I : St → Prop) :
  (∀ s, init s → I s) →
  (∀ s s', reachable init step s → I s → step s s' → I s') →
  ∀ s, reachable init step s → I s.
Proof. intros Hi Hs s H. induction H; eauto. Qed.

Lemma reachable_rtc {St} (init : St → Prop) (step : St → St → Prop) s s' :
  reachable init step s → rtc step s s' → reachable init step s'.
Proof. intros Hr H. induction H; eauto using reachable. Qed.

(** ** Lists *)

(** What a log with several parties has of one of them. *)
Definition sel {A} (i : nat) (l : list (nat * A)) : list A :=
  omap (λ '(j, x), if decide (j = i) then Some x else None) l.

Lemma sel_snoc {A} i j (x : A) l : sel i (l ++ [(j, x)]) = sel i l ++ (if decide (j = i) then [x] else []).
Proof. unfold sel. rewrite omap_app. simpl. by case_decide. Qed.

Lemma elem_of_sel {A} i (x : A) l : x ∈ sel i l ↔ (i, x) ∈ l.
Proof.
  unfold sel. rewrite list_elem_of_omap. split.
  - intros ([j y]&Hin&E). simpl in E. case_decide; [|done]. by simplify_eq.
  - intros Hin. exists (i, x). split; [done|]. simpl. by rewrite decide_True.
Qed.

Lemma Forall_forallb {A} (f : A → bool) (l : list A) :
  forallb f l = true ↔ Forall (λ x, f x = true) l.
Proof.
  rewrite forallb_forall, List.Forall_forall. done.
Qed.

Lemma existsb_elem_of {A} (f : A → bool) (l : list A) :
  existsb f l = true ↔ ∃ x, x ∈ l ∧ f x = true.
Proof.
  rewrite existsb_exists. by setoid_rewrite list_elem_of_In.
Qed.

Lemma forallb_elem_of {A} (f : A → bool) (l : list A) :
  forallb f l = true ↔ ∀ x, x ∈ l → f x = true.
Proof. rewrite forallb_forall. by setoid_rewrite list_elem_of_In. Qed.

(** Inserting distinct keys one after the other. *)
Lemma foldl_insert_NoDup {V} (l : list (string * V)) : ∀ (m : gmap string V) k,
  NoDup l.*1 → foldl (λ m '(k, v), <[ k := v ]> m) m l !! k =
  match list_to_map (M := gmap string V) l !! k with Some v => Some v | None => m !! k end.
Proof.
  induction l as [|[k' v] l IH]; intros m k Hnd; simpl; [by rewrite lookup_empty|].
  apply NoDup_cons in Hnd as [Hk Hnd]. rewrite IH by done. destruct (decide (k = k')) as [->|Hne].
  - rewrite !lookup_insert_eq. by rewrite not_elem_of_list_to_map_1.
  - by rewrite !lookup_insert_ne by done.
Qed.

(** ** Runs that end *)

(** Steps that use up a measure, and that are possible until the end is
    reached: every run is finite, and some run reaches the end. *)
Lemma measured_run {A} (R : A → A → Prop) (P fin : A → Prop) (m : A → nat) :
  (∀ a b, P a → R a b → P b ∧ (m b < m a)%nat) → (∀ a, P a → fin a ∨ ∃ b, R a b) →
  ∀ a, P a → sn R a ∧ ∃ b, rtc R a b ∧ fin b ∧ P b.
Proof.
  intros Hm Hp a. remember (m a) as n eqn:En. revert a En.
  induction n as [n IH] using lt_wf_ind. intros a -> Ha. split.
  - constructor. intros b Hb. destruct (Hm a b Ha Hb) as [HPb Hlt]. by apply (IH (m b) Hlt b).
  - destruct (Hp a Ha) as [?|[b Hb]]; [by exists a|]. destruct (Hm a b Ha Hb) as [HPb Hlt].
    destruct (IH (m b) Hlt b eq_refl HPb) as [_ (c&?&?&?)]. exists c. split_all; [by eapply rtc_l|done|done].
Qed.
