(* ===== verification/GoStd.v ===== *)
(** The parts of the Go language and of its standard library that the modelled
    code relies on: fixed-width integers, byte strings and the [strings]
    package, error values with [errors.Is] and [errors.Join], [time].

    Go strings and [[]byte] values are byte sequences; both are [string].
    [strings.ToLower], [strings.TrimSpace] and [strings.Fields] are modelled
    on their ASCII fast path: bytes of 128 and above are left unchanged and
    count as non-space.  Domain names, header values and commands are ASCII. *)

From Stdlib Require Import ZArith Lia Ascii.
From stdpp Require Import base option list gmap sets strings sorting.
From S2P Require Import Prelude.

(** ** Integers *)

Open Scope Z_scope.

Definition u64_mod : Z := 2 ^ 64.

(** Conversion to [uint64]: reduction modulo 2^64. *)
Definition to_u64 (z : Z) : Z := z mod u64_mod.

(** Conversion to [int64]: two's complement wrap-around. *)
Definition to_i64 (z : Z) : Z := (z + 2 ^ 63) mod u64_mod - 2 ^ 63.

Lemma to_u64_range z : 0 ≤ to_u64 z < u64_mod.
Proof. apply Z.mod_pos_bound. done. Qed.

Lemma to_u64_id z : 0 ≤ z < u64_mod → to_u64 z = z.
Proof. apply Z.mod_small. Qed.

Lemma to_i64_range z : - 2 ^ 63 ≤ to_i64 z < 2 ^ 63.
Proof.
  unfold to_i64. pose proof (Z.mod_pos_bound (z + 2 ^ 63) u64_mod eq_refl).
  unfold u64_mod in *. lia.
Qed.

Lemma to_i64_id z : - 2 ^ 63 ≤ z < 2 ^ 63 → to_i64 z = z.
Proof. intros. unfold to_i64. rewrite Z.mod_small; unfold u64_mod; lia. Qed.

(** ** Strings *)

Definition slen (s : string) : nat := String.length s.

(** [s[n:]] and [s[:n]]. *)
Fixpoint str_drop (n : nat) (s : string) : string :=
  match n, s with
  | S n', String _ s' => str_drop n' s'
  | _, _ => s
  end.

Fixpoint str_take (n : nat) (s : string) : string :=
  match n, s with
  | S n', String a s' => String a (str_take n' s')
  | _, _ => EmptyString
  end.

Definition HasPrefix (s p : string) : bool :=
  (slen p <=? slen s)%nat && String.eqb (str_take (slen p) s) p.

Definition HasSuffix (s p : string) : bool :=
  (slen p <=? slen s)%nat && String.eqb (str_drop (slen s - slen p) s) p.

Definition TrimPrefix (s p : string) : string :=
  if HasPrefix s p then str_drop (slen p) s else s.

Definition TrimSuffix (s p : string) : string :=
  if HasSuffix s p then str_take (slen s - slen p) s else s.

Definition Join (elems : list string) (sep : string) : string := String.concat sep elems.

Definition lower_ascii (a : ascii) : ascii :=
  let n := N_of_ascii a in
  if (65 <=? n)%N && (n <=? 90)%N then ascii_of_N (n + 32) else a.

Fixpoint ToLower (s : string) : string :=
  match s with
  | EmptyString => EmptyString
  | String a s' => String (lower_ascii a) (ToLower s')
  end.

(** [strings.EqualFold] on ASCII. *)
Definition EqualFold (s t : string) : bool := String.eqb (ToLower s) (ToLower t).

(** '\t', '\n', '\v', '\f', '\r' and ' '. *)
Definition is_space (a : ascii) : bool :=
  let n := N_of_ascii a in ((9 <=? n)%N && (n <=? 13)%N) || (n =? 32)%N.

Fixpoint TrimLeftSpace (s : string) : string :=
  match s with
  | EmptyString => EmptyString
  | String a s' => if is_space a then TrimLeftSpace s' else s
  end.

Fixpoint TrimRightSpace (s : string) : string :=
  match s with
  | EmptyString => EmptyString
  | String a s' =>
      match TrimRightSpace s' with
      | EmptyString => if is_space a then EmptyString else String a EmptyString
      | r => String a r
      end
  end.

Definition TrimSpace (s : string) : string := TrimRightSpace (TrimLeftSpace s).

(** [strings.Split(s, sep)] for a one-byte separator. *)
Fixpoint Split1 (s : string) (sep : ascii) : list string :=
  match s with
  | EmptyString => [EmptyString]
  | String a s' =>
      if Ascii.eqb a sep then EmptyString :: Split1 s' sep
      else match Split1 s' sep with
           | [] => [String a EmptyString]
           | w :: ws => String a w :: ws
           end
  end.

Lemma app_String a s t : String a s +:+ t = String a (s +:+ t).
Proof. reflexivity. Qed.

(** [strings.IndexByte(s, a) >= 0] *)
Fixpoint has_byte (a : ascii) (s : string) : bool :=
  match s with EmptyString => false | String b s' => Ascii.eqb a b || has_byte a s' end.

Lemma has_byte_app a s t : has_byte a (s +:+ t) = has_byte a s || has_byte a t.
Proof.
  induction s as [|b s IH]; [done|]. rewrite app_String. simpl. rewrite IH. by rewrite orb_assoc.
Qed.

(** [strings.Fields]: the maximal runs of non-space bytes. *)
Fixpoint fields_aux (s : string) : list string * bool :=
  match s with
  | EmptyString => ([], false)
  | String a s' =>
      let '(ws, open) := fields_aux s' in
      if is_space a then (ws, false)
      else match ws, open with
           | w :: ws', true => (String a w :: ws', true)
           | _, _ => (String a EmptyString :: ws, true)
           end
  end.

Definition Fields (s : string) : list string := fst (fields_aux s).

(** [sort.Strings]: bytewise order.  The order is total and antisymmetric, so
    every sorting algorithm gives the same list. *)
Definition SortStrings (l : list string) : list string := merge_sort String.le l.

Lemma app_nil_string t : "" +:+ t = t.
Proof. reflexivity. Qed.

Lemma app_nil_r_string s : s +:+ "" = s.
Proof. induction s; [done|]. rewrite app_String. by f_equal. Qed.

Lemma app_string_assoc s t u : s +:+ (t +:+ u) = (s +:+ t) +:+ u.
Proof. induction s; [done|]. rewrite !app_String. by f_equal. Qed.

Lemma str_take_app s t : str_take (slen s) (s +:+ t) = s.
Proof. unfold slen. induction s; [by destruct t | rewrite app_String; simpl; by f_equal]. Qed.

Lemma str_drop_app s t : str_drop (slen s) (s +:+ t) = t.
Proof. unfold slen. induction s; [by destruct t | done]. Qed.

Lemma str_take_drop n s : str_take n s +:+ str_drop n s = s.
Proof.
  revert s; induction n as [|n IH]; intros [|a s]; simpl; try done.
  rewrite app_String. f_equal. apply IH.
Qed.

Lemma slen_app s t : slen (s +:+ t) = (slen s + slen t)%nat.
Proof. unfold slen. induction s; [done | rewrite app_String; simpl; by f_equal]. Qed.

Lemma slen_take n s : (n ≤ slen s)%nat → slen (str_take n s) = n.
Proof.
  unfold slen. revert s; induction n as [|n IH]; intros [|a s]; simpl; try lia.
  intros. rewrite IH; lia.
Qed.

Lemma HasPrefix_spec s p : HasPrefix s p = true ↔ ∃ t, s = p +:+ t.
Proof.
  unfold HasPrefix. rewrite andb_true_iff, Nat.leb_le, String.eqb_eq. split.
  - intros [_ H]. exists (str_drop (slen p) s). by rewrite <- H at 1; rewrite str_take_drop.
  - intros [t ->]. rewrite slen_app, str_take_app. split; [lia | done].
Qed.

Lemma HasSuffix_spec s p : HasSuffix s p = true ↔ ∃ t, s = t +:+ p.
Proof.
  unfold HasSuffix. rewrite andb_true_iff, Nat.leb_le, String.eqb_eq. split.
  - intros [_ H]. exists (str_take (slen s - slen p) s).
    by rewrite <- H at 2; rewrite str_take_drop.
  - intros [t ->]. rewrite slen_app. split; [lia|].
    replace (slen t + slen p - slen p)%nat with (slen t) by lia. apply str_drop_app.
Qed.

Lemma TrimPrefix_app p t : TrimPrefix (p +:+ t) p = t.
Proof.
  unfold TrimPrefix. assert (HasPrefix (p +:+ t) p = true) as -> by (apply HasPrefix_spec; eauto).
  apply str_drop_app.
Qed.

Lemma TrimSuffix_app t p : TrimSuffix (t +:+ p) p = t.
Proof.
  unfold TrimSuffix. assert (HasSuffix (t +:+ p) p = true) as -> by (apply HasSuffix_spec; eauto).
  rewrite slen_app. replace (slen t + slen p - slen p)%nat with (slen t) by lia.
  apply str_take_app.
Qed.

Lemma TrimSuffix_no s p : HasSuffix s p = false → TrimSuffix s p = s.
Proof. unfold TrimSuffix. by intros ->. Qed.

Lemma lower_ascii_idem a : lower_ascii (lower_ascii a) = lower_ascii a.
Proof. destruct a as [[] [] [] [] [] [] [] []]; vm_compute; reflexivity. Qed.

Lemma ToLower_idem s : ToLower (ToLower s) = ToLower s.
Proof. induction s; simpl; [done|]. by rewrite lower_ascii_idem, IHs. Qed.

Lemma ToLower_app s t : ToLower (s +:+ t) = ToLower s +:+ ToLower t.
Proof. induction s; [done | rewrite app_String; simpl; rewrite app_String; by f_equal]. Qed.

Lemma SortStrings_Permutation l : SortStrings l ≡ₚ l.
Proof. apply merge_sort_Permutation. Qed.

Lemma SortStrings_Sorted l : StronglySorted String.le (SortStrings l).
Proof. apply StronglySorted_merge_sort; apply _. Qed.

(** The sorted list depends only on the multiset. *)
Lemma SortStrings_perm l k : l ≡ₚ k → SortStrings l = SortStrings k.
Proof.
  intros H. apply (StronglySorted_unique String.le); try apply SortStrings_Sorted.
  by rewrite !SortStrings_Permutation.
Qed.

(** ** Errors *)

(** Sentinel errors compared with [errors.Is]. *)
Inductive sentinel :=
  | ErrNotAllowed          (* domain.ErrNotAllowed *)
  | Canceled               (* context.Canceled *)
  | DeadlineExceeded       (* context.DeadlineExceeded *)
  | ErrNotExist            (* os.ErrNotExist *)
  | EOF                    (* io.EOF *)
  | ErrServerClosed        (* http.ErrServerClosed *)
  | ErrServerStopped.      (* grpc.ErrServerStopped *)

#[export] Instance sentinel_eq_dec : EqDecision sentinel.
Proof. solve_decision. Defined.

(** [EText] is [errors.New] or [fmt.Errorf] without [%w]; [EWrap] is
    [fmt.Errorf] with [%w]; [EJoin] is [errors.Join]. *)
Inductive error :=
  | ESentinel (s : sentinel)
  | EText (msg : string)
  | EWrap (msg : string) (inner : error)
  | EJoin (es : list error).

(** [errors.Is] on sentinels: walks the wrap chain and the joined errors. *)
Fixpoint errIs (e : error) (s : sentinel) : bool :=
  match e with
  | ESentinel s' => bool_decide (s' = s)
  | EText _ => false
  | EWrap _ e' => errIs e' s
  | EJoin es => existsb (λ e', errIs e' s) es
  end.

(** [os.IsNotExist], which looks through no wrapping: the file system's own
    errors are their sentinels here. *)
Definition osIsNotExist (e : error) : bool :=
  match e with ESentinel s => bool_decide (s = ErrNotExist) | _ => false end.

(** [errors.Join] of a slice without nil elements: nil when it is empty. *)
Definition errorsJoin (es : list error) : option error :=
  match es with [] => None | _ => Some (EJoin es) end.

Lemma errorsJoin_None es : errorsJoin es = None ↔ es = [].
Proof. by destruct es. Qed.

(** ** Results of fallible functions *)

Inductive result (A : Type) : Type :=
  | Ok (a : A)
  | Err (e : error).
Arguments Ok {A} a.
Arguments Err {A} e.

Definition bindR {A B} (r : result A) (f : A → result B) : result B :=
  match r with Ok a => f a | Err e => Err e end.

Notation "'let*' x ':=' r 'in' k" := (bindR r (λ x, k))
  (at level 200, x name, r at level 100, k at level 200) : go_scope.

(** A call that returns, or brings the process down: by a panic, or by
    [logging.Fatal], which exits. *)
Inductive outcome (A : Type) : Type :=
  | Ret (a : A)
  | Panic (msg : string).
Arguments Ret {A} a.
Arguments Panic {A} msg.

Definition nil_deref : string := "invalid memory address or nil pointer dereference".

(** ** Time *)

(** A [time.Time] is the number of nanoseconds since the zero time (January 1,
    year 1, UTC), so the zero value is 0; a [time.Duration] is a number of
    nanoseconds. *)
Definition Time : Type := Z.
Definition Duration : Type := Z.

Definition zeroTime : Time := 0.
Definition Nanosecond : Duration := 1.
Definition Microsecond : Duration := 1000 * Nanosecond.
Definition Millisecond : Duration := 1000 * Microsecond.
Definition Second : Duration := 1000 * Millisecond.
Definition Minute : Duration := 60 * Second.
Definition Hour : Duration := 60 * Minute.

Definition Before (t u : Time) : bool := t <? u.
Definition Add (t : Time) (d : Duration) : Time := t + d.

(** [t.Truncate(d)] rounds down to a multiple of [d] since the zero time. *)
Definition Truncate (t : Time) (d : Duration) : Time :=
  if d <=? 0 then t else t - t mod d.

Lemma Truncate_bounds t d : 0 < d → t - d < Truncate t d ≤ t.
Proof.
  intros. unfold Truncate. destruct (d <=? 0) eqn:E; bool_simp; [lia|].
  pose proof (Z.mod_pos_bound t d). lia.
Qed.
