(* ===== verification/Duration.v ===== *)
(** [time.ParseDuration] of the standard library, on bytes: sign, digits,
    fraction and unit, with the [uint64] overflow checks, and the binary64
    arithmetic of the fraction computed with the [SpecFloat] operations. *)

From Stdlib Require Import ZArith Lia Ascii SpecFloat.
From stdpp Require Import base option list strings.
From S2P Require Import Prelude.
From S2P Require Import GoStd.

Open Scope Z_scope.

Definition is_digit (a : ascii) : bool :=
  let n := N_of_ascii a in (48 <=? n)%N && (n <=? 57)%N.

Definition digit (a : ascii) : Z := Z.of_N (N_of_ascii a) - 48.

Definition max63 : Z := 2 ^ 63.

(** [leadingInt]: [None] on overflow. *)
Fixpoint leadingInt (x : Z) (s : string) : option (Z * string) :=
  match s with
  | String a s' =>
      if is_digit a then
        if max63 / 10 <? x then None
        else let y := x * 10 + digit a in
             if max63 <? y then None else leadingInt y s'
      else Some (x, s)
  | EmptyString => Some (x, s)
  end.

(** *** binary64 *)

Definition f64 : Type := spec_float.
Definition f64_of_Z (z : Z) : f64 := binary_normalize 53 1024 z 0 false.
Definition f64_mul (a b : f64) : f64 := SFmul 53 1024 a b.
Definition f64_div (a b : f64) : f64 := SFdiv 53 1024 a b.

(** Truncation to an integer, for finite values. *)
Definition f64_to_Z (a : f64) : Z :=
  match a with
  | S754_finite s m e =>
      let v := if 0 <=? e then Z.pos m * 2 ^ e else Z.pos m / 2 ^ (- e) in
      if s then - v else v
  | _ => 0
  end.

(** [leadingFraction]: digits, scale as binary64, rest. *)
Fixpoint leadingFraction (x : Z) (scale : f64) (overflow : bool) (s : string)
  : Z * f64 * string :=
  match s with
  | String a s' =>
      if is_digit a then
        if overflow then leadingFraction x scale true s'
        else if (max63 - 1) / 10 <? x then leadingFraction x scale true s'
        else let y := x * 10 + digit a in
             if max63 <? y then leadingFraction x scale true s'
             else leadingFraction y (f64_mul scale (f64_of_Z 10)) false s'
      else (x, scale, s)
  | EmptyString => (x, scale, s)
  end.

(** The maximal prefix without '.' and digits. *)
Fixpoint takeUnit (s : string) : string * string :=
  match s with
  | String a s' =>
      if Ascii.eqb a "." || is_digit a then (EmptyString, s)
      else let '(u, r) := takeUnit s' in (String a u, r)
  | EmptyString => (EmptyString, EmptyString)
  end.

Definition bytes2 (a b : nat) (s : string) : string :=
  String (ascii_of_nat a) (String (ascii_of_nat b) s).

Definition unitMap (u : string) : option Z :=
  if String.eqb u "ns" then Some Nanosecond
  else if String.eqb u "us" then Some Microsecond
  else if String.eqb u (bytes2 194 181 "s") then Some Microsecond (* U+00B5 *)
  else if String.eqb u (bytes2 206 188 "s") then Some Microsecond (* U+03BC *)
  else if String.eqb u "ms" then Some Millisecond
  else if String.eqb u "s" then Some Second
  else if String.eqb u "m" then Some Minute
  else if String.eqb u "h" then Some Hour
  else None.

Definition errDuration (orig : string) : error := EText ("time: invalid duration " +:+ orig).

(** One number with its unit: the nanoseconds it denotes and the rest. *)
Definition parseTerm (orig s : string) : result (Z * string) :=
  match leadingInt 0 s with
  | None => Err (errDuration orig)
  | Some (v, s1) =>
      let pre := negb (slen s1 =? slen s)%nat in
      let '(f, scale, s2, post) :=
        match s1 with
        | String a s1' =>
            if Ascii.eqb a "." then
              let '(f, scale, s2) := leadingFraction 0 (f64_of_Z 1) false s1' in
              (f, scale, s2, negb (slen s2 =? slen s1')%nat)
            else (0, f64_of_Z 1, s1, false)
        | EmptyString => (0, f64_of_Z 1, s1, false)
        end in
      if negb pre && negb post then Err (errDuration orig)
      else
        let '(u, s3) := takeUnit s2 in
        if String.eqb u "" then Err (EText ("time: missing unit in duration " +:+ orig))
        else match unitMap u with
        | None => Err (EText ("time: unknown unit " +:+ u +:+ " in duration " +:+ orig))
        | Some unit =>
            if max63 / unit <? v then Err (errDuration orig)
            else
              let v1 := v * unit in
              let v2 := if 0 <? f
                        then to_u64 (v1 + to_u64 (f64_to_Z
                               (f64_mul (f64_of_Z f) (f64_div (f64_of_Z unit) scale))))
                        else v1 in
              if max63 <? v2 then Err (errDuration orig) else Ok (v2, s3)
        end
  end.

(** The loop over the terms.  Every term consumes at least one byte, so the
    length of the text is enough fuel. *)
Fixpoint parseTerms (fuel : nat) (orig s : string) (d : Z) : result Z :=
  match s with
  | EmptyString => Ok d
  | String a _ =>
      if negb (Ascii.eqb a "." || is_digit a) then Err (errDuration orig)
      else match fuel with
      | O => Err (EText "out of fuel")
      | S fuel' =>
          match parseTerm orig s with
          | Err e => Err e
          | Ok (v, s') =>
              let d' := to_u64 (d + v) in
              if max63 <? d' then Err (errDuration orig) else parseTerms fuel' orig s' d'
          end
      end
  end.

Definition ParseDuration (orig : string) : result Duration :=
  let '(neg, s) :=
    match orig with
    | String a s' =>
        if Ascii.eqb a "-" then (true, s')
        else if Ascii.eqb a "+" then (false, s')
        else (false, orig)
    | EmptyString => (false, orig)
    end in
  if String.eqb s "0" then Ok 0
  else if String.eqb s "" then Err (errDuration orig)
  else match parseTerms (slen s) orig s 0 with
       | Err e => Err e
       | Ok d =>
           if neg then Ok (- d)
           else if max63 - 1 <? d then Err (errDuration orig) else Ok d
       end.

Example ParseDuration_24h : ParseDuration "24h" = Ok (24 * Hour).
Proof. vm_compute. reflexivity. Qed.

Example ParseDuration_compound : ParseDuration "-1h2.5m0.5s3us" = Ok (- (1 * Hour + 150 * Second + 500 * Millisecond + 3 * Microsecond)).
Proof. vm_compute. reflexivity. Qed.

Example ParseDuration_bad : ∃ e, ParseDuration "10" = Err e.
Proof. eexists. vm_compute. reflexivity. Qed.

(** ** Bounds and totality *)

Lemma digit_range a : is_digit a = true → 0 ≤ digit a ≤ 9.
Proof.
  unfold is_digit, digit. intros [H1 H2]%andb_true_iff. apply N.leb_le in H1, H2. lia.
Qed.

Lemma leadingInt_bounds x s v r :
  0 ≤ x ≤ max63 → leadingInt x s = Some (v, r) → 0 ≤ v ≤ max63 ∧ (slen r ≤ slen s)%nat.
Proof.
  revert x. induction s as [|a s IH]; intros x Hx; simpl.
  - intros [= <- <-]. done.
  - destruct (is_digit a) eqn:Ha; [|by intros [= <- <-]].
    pose proof (digit_range a Ha).
    repeat case_match; bool_simp; try done. intros [? ?]%IH; [|lia].
    split; [done|]. unfold slen in *. simpl. lia.
Qed.

Lemma leadingFraction_len x sc o s f sc' r :
  leadingFraction x sc o s = (f, sc', r) → (slen r ≤ slen s)%nat.
Proof.
  revert x sc o. induction s as [|a s IH]; intros x sc o; simpl.
  - by intros [= _ _ <-].
  - repeat case_match; try (intros H'%IH; unfold slen in *; simpl; lia). by intros [= _ _ <-].
Qed.

Lemma takeUnit_len s u r : takeUnit s = (u, r) → slen s = (slen u + slen r)%nat.
Proof.
  revert u. induction s as [|a s IH]; intros u; simpl; [by intros [= <- <-]|].
  case_match; [by intros [= <- <-]|]. destruct (takeUnit s) as [u' r'].
  intros [= <- <-]. unfold slen in *. simpl. f_equal. by apply IH.
Qed.

Lemma parseTerm_consumes orig s v r :
  parseTerm orig s = Ok (v, r) → (slen r < slen s)%nat.
Proof.
  unfold parseTerm. destruct (leadingInt 0 s) as [[v0 s1]|] eqn:Hi; [|done].
  apply leadingInt_bounds in Hi as [_ Hi]; [|done].
  set (mid := match s1 with EmptyString => _ | String _ _ => _ end).
  assert (Hmid : (slen (snd (fst mid)) ≤ slen s1)%nat).
  { unfold mid. destruct s1 as [|a s1]; [done|]. case_match; [|done].
    destruct (leadingFraction 0 (f64_of_Z 1) false s1) as [[f sc] s2] eqn:E.
    apply leadingFraction_len in E. unfold slen in *. simpl. lia. }
  destruct mid as [[[f sc] s2] post]. simpl in Hmid.
  case_match; [done|]. destruct (takeUnit s2) as [u s3] eqn:Hu. apply takeUnit_len in Hu.
  destruct (String.eqb_spec u "") as [->|Hne]; [done|].
  assert (0 < slen u)%nat by (destruct u; [done | unfold slen; simpl; lia]).
  repeat case_match; try done; intros; simplify_eq; lia.
Qed.

(** The length of the text is enough fuel: the result does not change when
    more is given. *)
Lemma parseTerms_fuel fuel fuel' orig s d :
  (slen s ≤ fuel)%nat → (slen s ≤ fuel')%nat →
  parseTerms fuel orig s d = parseTerms fuel' orig s d.
Proof.
  revert fuel' s d. induction fuel as [|fuel IH]; intros [|fuel'] [|a s] d H H';
    try (unfold slen in *; simpl in *; lia); try done.
  simpl. case_match; [done|]. destruct (parseTerm orig (String a s)) as [[v r]|e] eqn:E; [|done].
  apply parseTerm_consumes in E. case_match; [done|].
  apply IH; unfold slen in *; simpl in *; lia.
Qed.

Lemma parseTerms_bounds fuel orig s d r :
  0 ≤ d ≤ max63 → parseTerms fuel orig s d = Ok r → 0 ≤ r ≤ max63.
Proof.
  revert s d. induction fuel as [|fuel IH]; intros [|a s] d Hd; simpl;
    try (by intros; simplify_eq); case_match; try done.
  destruct (parseTerm orig (String a s)) as [[v r']|e]; [|done].
  case_match; [done|]. apply IH. bool_simp. pose proof (to_u64_range (d + v)). lia.
Qed.

(** Every parsed duration is an [int64]. *)
Lemma ParseDuration_range s d : ParseDuration s = Ok d → - 2 ^ 63 ≤ d < 2 ^ 63.
Proof.
  unfold ParseDuration. set (p := match s with EmptyString => _ | String _ _ => _ end).
  destruct p as [neg s0]. destruct (String.eqb s0 "0"); [intros; simplify_eq; lia|].
  destruct (String.eqb s0 ""); [done|]. destruct (parseTerms _ _ _ _) as [r|] eqn:E; [|done].
  apply parseTerms_bounds in E; [|unfold max63; lia]. unfold max63 in *.
  repeat case_match; bool_simp; intros; simplify_eq; lia.
Qed.
