(* ===== verification/Sys.v ===== *)
(** The operating-system services the program calls: the file system
    (os.Stat, os.ReadFile, os.WriteFile, os.Rename, temporary files, ...) as
    an interface [FileSystem] with its laws, and an in-memory instance.  Also
    the helpers of pkg/paths that only ask whether a file exists. *)

From Stdlib Require Import ZArith Lia.
From stdpp Require Import base option list gmap strings.
From Stdlib Require Import Ascii.
From S2P Require Import Prelude.
From S2P Require Import GoStd.

Open Scope Z_scope.

Definition slash : ascii := ascii_of_nat 47.

Class FileSystem (F : Type) := {
  Stat : string → F → option error;
  ReadFile : string → F → result string;
  WriteFile : string → string → F → option error * F;
  MkdirAll : string → F → option error * F;
  Remove : string → F → option error * F;
  Rename : string → string → F → option error * F;
  CreateTemp : string → string → F → result string * F;   (* dir, pattern before its '*' *)
  TmpWrite : string → string → F → option error * F;
  TmpChmod : string → Z → F → option error * F;
  TmpClose : string → F → option error * F;
}.

(** The two states read the same outside the given paths. *)
Definition same_except {F} `{FileSystem F} (ps : list string) (f f' : F) : Prop :=
  ∀ q, q ∉ ps → ReadFile q f' = ReadFile q f.

(** A state that os.WriteFile goes through, or leaves behind when the process
    ends in the middle of it: the file is truncated (or created) first, and then
    grows to the text. *)
Definition writing {F} `{FileSystem F} (p b : string) (f f' : F) : Prop :=
  same_except [p] f f' ∧ Stat p f' = None ∧ ∃ pre rest, b = pre +:+ rest ∧ ReadFile p f' = Ok pre.

(** Documented behaviour: an operation touches the paths it names, a
    successful one has its effect, a failed rename has none. *)
Class FileSystemLaws (F : Type) `{FileSystem F} := {
  write_stat p b f f' : WriteFile p b f = (None, f') → Stat p f' = None;
  write_read p b f f' : WriteFile p b f = (None, f') → ReadFile p f' = Ok b;
  write_frame p b f o f' : WriteFile p b f = (o, f') → same_except [p] f f';
  mkdir_frame p f o f' : MkdirAll p f = (o, f') → same_except [] f f';
  remove_gone p f f' : Remove p f = (None, f') → Stat p f' = Some (ESentinel ErrNotExist);
  remove_frame p f o f' : Remove p f = (o, f') → same_except [p] f f';
  rename_ok a b f f' : a ≠ b → Rename a b f = (None, f') → ReadFile b f' = ReadFile a f;
  rename_frame a b f o f' : Rename a b f = (o, f') → same_except [a; b] f f';
  rename_err a b f e f' : Rename a b f = (Some e, f') → same_except [] f f';
  temp_fresh d p f n f' : CreateTemp d p f = (Ok n, f') →
    (∃ e, ReadFile n f = Err e) ∧ ReadFile n f' = Ok "" ∧ same_except [n] f f';
  temp_name d p f n f' : CreateTemp d p f = (Ok n, f') →
    ∃ r, n = d +:+ "/" +:+ (p +:+ r) ∧ has_byte slash (p +:+ r) = false;
  temp_err d p f e f' : CreateTemp d p f = (Err e, f') → same_except [] f f';
  tmpwrite_ok n b s f f' : ReadFile n f = Ok s → TmpWrite n b f = (None, f') →
    ReadFile n f' = Ok (s +:+ b);
  tmpwrite_frame n b f o f' : TmpWrite n b f = (o, f') → same_except [n] f f';
  tmpchmod_frame n m f o f' : TmpChmod n m f = (o, f') → same_except [] f f';
  tmpclose_frame n f o f' : TmpClose n f = (o, f') → same_except [] f f';
}.

Lemma same_except_refl {F} `{FileSystem F} ps (f : F) : same_except ps f f.
Proof. by intros q _. Qed.

Lemma same_except_trans {F} `{FileSystem F} ps (f g h : F) :
  same_except ps f g → same_except ps g h → same_except ps f h.
Proof. intros H1 H2 q Hq. by rewrite (H2 q Hq), (H1 q Hq). Qed.

Lemma same_except_mono {F} `{FileSystem F} ps qs (f g : F) :
  same_except ps f g → ps ⊆ qs → same_except qs f g.
Proof. intros H1 Hs q Hq. apply H1. set_solver. Qed.

(** ** pkg/paths: [FileExists] *)

Definition FileExists {F} `{FileSystem F} (p : string) (f : F) : bool :=
  match Stat p f with None => true | Some _ => false end.

(** ** An in-memory file system *)

(** Regular files by path; [readonly] lists path prefixes where every write,
    rename or removal fails; directories exist implicitly. *)
Record Disk := mkDisk { files : gmap string string; readonly : list string }.

Definition ro (d : Disk) (p : string) : bool := existsb (HasPrefix p) (readonly d).
Definition set_files (m : gmap string string) (d : Disk) : Disk := mkDisk m (readonly d).
Definition denied : error := EText "permission denied".

(** A name with the given start that is not in use. *)
Fixpoint freshSuffix (fuel : nat) (base r : string) (m : gmap string string) : string :=
  match fuel with
  | O => r
  | S fuel' =>
      if decide (is_Some (m !! (base +:+ r)))
      then freshSuffix fuel' base (String (ascii_of_nat 48) r) m else r
  end.

Definition disk_temp (dir pat : string) (d : Disk) : result string * Disk :=
  let base := dir +:+ "/" +:+ pat in
  let r := freshSuffix (size (files d)) base "" (files d) in
  let n := dir +:+ "/" +:+ (pat +:+ r) in
  if has_byte slash pat || ro d n || bool_decide (is_Some (files d !! n)) then (Err denied, d)
  else (Ok n, set_files (<[ n := "" ]> (files d)) d).

Lemma freshSuffix_slash fuel base m : ∀ r,
  has_byte slash r = false → has_byte slash (freshSuffix fuel base r m) = false.
Proof. induction fuel; intros r Hr; simpl; [done|]. case_decide; auto. Qed.

Definition upd (p : string) (m : gmap string string) (d : Disk) : option error * Disk :=
  if ro d p then (Some denied, d) else (None, set_files m d).

#[export] Instance disk_fs : FileSystem Disk := {
  Stat p d := match files d !! p with Some _ => None | None => Some (ESentinel ErrNotExist) end;
  ReadFile p d := match files d !! p with Some b => Ok b | None => Err (ESentinel ErrNotExist) end;
  WriteFile p b d := upd p (<[ p := b ]> (files d)) d;
  MkdirAll p d := (None, d);
  Remove p d := upd p (delete p (files d)) d;
  Rename a b d :=
    match files d !! a with
    | None => (Some (ESentinel ErrNotExist), d)
    | Some c => upd b (<[ b := c ]> (delete a (files d))) d
    end;
  CreateTemp := disk_temp;
  TmpWrite n b d := upd n (<[ n := default "" (files d !! n) +:+ b ]> (files d)) d;
  TmpChmod n m d := (None, d);
  TmpClose n d := (None, d);
}.

Lemma upd_spec p m d o d' : upd p m d = (o, d') → (o = None ∧ d' = set_files m d) ∨ (is_Some o ∧ d' = d).
Proof. unfold upd. destruct (ro d p); intros [= <- <-]; eauto. Qed.

Lemma read_insert_ne (m : gmap string string) p q b :
  q ∉ [p] → <[ p := b ]> m !! q = m !! q.
Proof. intros Hq. apply lookup_insert_ne. set_solver. Qed.

#[export] Instance disk_laws : FileSystemLaws Disk.
Proof.
  split; unfold same_except; simpl; intros *.
  - intros [[_ ->]|[[? ?] ->]]%upd_spec; [|done]. simpl. by rewrite lookup_insert_eq.
  - intros [[_ ->]|[[? ?] ->]]%upd_spec; [|done]. simpl. by rewrite lookup_insert_eq.
  - intros [[_ ->]|[[? ?] ->]]%upd_spec q Hq; [|done]. simpl. by rewrite read_insert_ne.
  - intros; by simplify_eq.
  - intros [[_ ->]|[[? ?] ->]]%upd_spec; [|done]. simpl. by rewrite lookup_delete_eq.
  - intros [[_ ->]|[[? ?] ->]]%upd_spec q Hq; [|done]. simpl. by rewrite lookup_delete_ne by set_solver.
  - intros Hab. destruct (files f !! a) as [c|]; [|done].
    intros [[_ ->]|[[? ?] ->]]%upd_spec; [|done]. simpl. by rewrite lookup_insert_eq.
  - destruct (files f !! a) as [c|]; [|intros; by simplify_eq].
    intros [[_ ->]|[[? ?] ->]]%upd_spec q Hq; [|done]. simpl.
    by rewrite lookup_insert_ne, lookup_delete_ne by set_solver.
  - destruct (files f !! a) as [c|]; [|intros; by simplify_eq].
    intros [[? _]|[_ ->]]%upd_spec; done.
  - unfold disk_temp. case_match eqn:E; [done|]. intros [= <- <-].
    apply orb_false_iff in E as [_ E]. apply bool_decide_eq_false in E.
    rewrite <- eq_None_not_Some in E. rewrite E. simpl. rewrite lookup_insert_eq.
    split_all; [eauto|done|]. intros q Hq. by rewrite read_insert_ne.
  - unfold disk_temp. case_match eqn:E; [done|]. intros [= <- _].
    apply orb_false_iff in E as [E _]. apply orb_false_iff in E as [E _].
    eexists. split; [done|]. rewrite has_byte_app, E. by apply freshSuffix_slash.
  - unfold disk_temp. case_match; [|done]. intros; by simplify_eq.
  - intros Hs. destruct (files f !! n) eqn:En; [|done]. simplify_eq.
    intros [[_ ->]|[[? ?] ->]]%upd_spec; [|done]. simpl. by rewrite lookup_insert_eq.
  - intros [[_ ->]|[[? ?] ->]]%upd_spec q Hq; [|done]. simpl. by rewrite read_insert_ne.
  - intros; by simplify_eq.
  - intros; by simplify_eq.
Qed.

(** ** Worlds that carry a file system *)

Definition onSnd {A F R} (f : F → R * F) (x : A * F) : R * (A * F) :=
  let '(r, y) := f (snd x) in (r, (fst x, y)).

#[export] Instance prod_fs {A F} `{FileSystem F} : FileSystem (A * F) := {
  Stat p x := Stat p (snd x);
  ReadFile p x := ReadFile p (snd x);
  WriteFile p b := onSnd (WriteFile p b);
  MkdirAll p := onSnd (MkdirAll p);
  Remove p := onSnd (Remove p);
  Rename a b := onSnd (Rename a b);
  CreateTemp d p := onSnd (CreateTemp d p);
  TmpWrite n b := onSnd (TmpWrite n b);
  TmpChmod n m := onSnd (TmpChmod n m);
  TmpClose n := onSnd (TmpClose n);
}.

Lemma onSnd_spec {A F R} (f : F → R * F) (x : A * F) r y :
  onSnd f x = (r, y) → f (snd x) = (r, snd y).
Proof. unfold onSnd. destruct (f (snd x)) as [? ?] eqn:E. by intros [= <- <-]. Qed.

#[export] Instance prod_fs_laws {A F} `{FileSystemLaws F} : FileSystemLaws (A * F).
Proof.
  split; unfold same_except; simpl.
  - intros p b [a f] f' ?%onSnd_spec. by eapply write_stat.
  - intros p b [a f] f' ?%onSnd_spec. by eapply write_read.
  - intros p b [a f] o f' E%onSnd_spec. exact (write_frame _ _ _ _ _ E).
  - intros p [a f] o f' E%onSnd_spec. exact (mkdir_frame _ _ _ _ E).
  - intros p [a f] f' ?%onSnd_spec. by eapply remove_gone.
  - intros p [a f] o f' E%onSnd_spec. exact (remove_frame _ _ _ _ E).
  - intros a b [? f] f' Hab E%onSnd_spec. exact (rename_ok _ _ _ _ Hab E).
  - intros a b [? f] o f' E%onSnd_spec. exact (rename_frame _ _ _ _ _ E).
  - intros a b [? f] e f' E%onSnd_spec. exact (rename_err _ _ _ _ _ E).
  - intros d p [? f] n f' E%onSnd_spec. exact (temp_fresh _ _ _ _ _ E).
  - intros d p [? f] n f' E%onSnd_spec. exact (temp_name _ _ _ _ _ E).
  - intros d p [? f] n f' E%onSnd_spec. exact (temp_err _ _ _ _ _ E).
  - intros n b s [? f] f' Hr E%onSnd_spec. exact (tmpwrite_ok _ _ _ _ _ Hr E).
  - intros n b [? f] o f' E%onSnd_spec. exact (tmpwrite_frame _ _ _ _ _ E).
  - intros n m [? f] o f' E%onSnd_spec. exact (tmpchmod_frame _ _ _ _ _ E).
  - intros n [? f] o f' E%onSnd_spec. exact (tmpclose_frame _ _ _ _ E).
Qed.

(** ** Histories *)

(** A file system with the states it went through, newest first; what holds
    of all of them holds at every moment an observer can look at the disk. *)
Record Traced (F : Type) := mkTraced { current : F; history : list F }.
Arguments mkTraced {F}.
Arguments current {F}.
Arguments history {F}.

Definition traced {F R} (f : F → R * F) (x : Traced F) : R * Traced F :=
  let '(r, y) := f (current x) in (r, mkTraced y (y :: history x)).

#[export] Instance traced_fs {F} `{FileSystem F} : FileSystem (Traced F) := {
  Stat p x := Stat p (current x);
  ReadFile p x := ReadFile p (current x);
  WriteFile p b := traced (WriteFile p b);
  MkdirAll p := traced (MkdirAll p);
  Remove p := traced (Remove p);
  Rename a b := traced (Rename a b);
  CreateTemp d p := traced (CreateTemp d p);
  TmpWrite n b := traced (TmpWrite n b);
  TmpChmod n m := traced (TmpChmod n m);
  TmpClose n := traced (TmpClose n);
}.

Lemma traced_spec {F R} (f : F → R * F) (x : Traced F) r y :
  traced f x = (r, y) → f (current x) = (r, current y) ∧ history y = current y :: history x.
Proof. unfold traced. destruct (f (current x)) as [? ?] eqn:E. by intros [= <- <-]. Qed.

#[export] Instance traced_laws {F} `{FileSystemLaws F} : FileSystemLaws (Traced F).
Proof.
  split; unfold same_except; simpl.
  - intros p b f f' [E _]%traced_spec. by eapply write_stat.
  - intros p b f f' [E _]%traced_spec. by eapply write_read.
  - intros p b f o f' [E _]%traced_spec. exact (write_frame _ _ _ _ _ E).
  - intros p f o f' [E _]%traced_spec. exact (mkdir_frame _ _ _ _ E).
  - intros p f f' [E _]%traced_spec. by eapply remove_gone.
  - intros p f o f' [E _]%traced_spec. exact (remove_frame _ _ _ _ E).
  - intros a b f f' Hab [E _]%traced_spec. exact (rename_ok _ _ _ _ Hab E).
  - intros a b f o f' [E _]%traced_spec. exact (rename_frame _ _ _ _ _ E).
  - intros a b f e f' [E _]%traced_spec. exact (rename_err _ _ _ _ _ E).
  - intros d p f n f' [E _]%traced_spec. exact (temp_fresh _ _ _ _ _ E).
  - intros d p f n f' [E _]%traced_spec. exact (temp_name _ _ _ _ _ E).
  - intros d p f e f' [E _]%traced_spec. exact (temp_err _ _ _ _ _ E).
  - intros n b s f f' Hr [E _]%traced_spec. exact (tmpwrite_ok _ _ _ _ _ Hr E).
  - intros n b f o f' [E _]%traced_spec. exact (tmpwrite_frame _ _ _ _ _ E).
  - intros n m f o f' [E _]%traced_spec. exact (tmpchmod_frame _ _ _ _ _ E).
  - intros n f o f' [E _]%traced_spec. exact (tmpclose_frame _ _ _ _ E).
Qed.
