(* ===== verification/Net.v ===== *)
(** [net.ParseIP] of the Go standard library (netip.ParseAddr without zones)
    and the splitting of mixed lists of host names and addresses that
    pkg/tools/cert.go and pkg/acme/mock.go do with it. *)

From Stdlib Require Import ZArith Lia Ascii.
From stdpp Require Import base option list strings.
From S2P Require Import Prelude.
From S2P Require Import GoStd.

Open Scope Z_scope.

(** A [net.IP] in its 16-byte form. *)
Definition IP : Type := list Z.

Definition code (a : ascii) : Z := Z.of_N (N_of_ascii a).
Definition is_dec (a : ascii) : bool := (48 <=? code a) && (code a <=? 57).

(** The value of a hexadecimal digit. *)
Definition hex_val (a : ascii) : option Z :=
  let c := code a in
  if (48 <=? c) && (c <=? 57) then Some (c - 48)
  else if (97 <=? c) && (c <=? 102) then Some (c - 97 + 10)
  else if (65 <=? c) && (c <=? 70) then Some (c - 65 + 10)
  else None.

Definition dot : ascii := ascii_of_nat 46.
Definition colon : ascii := ascii_of_nat 58.
Definition percent : ascii := ascii_of_nat 37.

(** [parseIPv4Fields]: [digLen] digits of the current field are read with
    value [val]; [fields] are the completed ones. *)
Fixpoint parseIPv4Fields (s : string) (val : Z) (digLen : nat) (fields : list Z) : option (list Z) :=
  match s with
  | EmptyString =>
      if (length fields <? 3)%nat || (digLen =? 0)%nat then None else Some (fields ++ [val])
  | String a s' =>
      if is_dec a then
        if (digLen =? 1)%nat && (val =? 0) then None
        else let val := val * 10 + (code a - 48) in
             if 255 <? val then None else parseIPv4Fields s' val (S digLen) fields
      else if Ascii.eqb a dot then
        if (digLen =? 0)%nat || (length fields =? 3)%nat then None
        else parseIPv4Fields s' 0 0 (fields ++ [val])
      else None
  end.

Definition parseIPv4 (s : string) : option (list Z) := parseIPv4Fields s 0 0 [].

(** The digits of one group of an IPv6 address: their number, their value and
    the rest of the text. *)
Fixpoint hexGroup (s : string) (off : nat) (acc : Z) : option (nat * Z * string) :=
  match s with
  | EmptyString => Some (off, acc, s)
  | String a s' =>
      match hex_val a with
      | None => Some (off, acc, s)
      | Some v => if (3 <? off)%nat then None else hexGroup s' (S off) (acc * 16 + v)
      end
  end.

(** What follows the groups: the text must be used up, and an ellipsis must
    stand for at least one zero group. *)
Definition finishIPv6 (ip : list Z) (ellipsis : option nat) (s : string) : option IP :=
  if negb (slen s =? 0)%nat then None
  else if (length ip <? 16)%nat then
    match ellipsis with
    | None => None
    | Some e => Some (take e ip ++ replicate (16 - length ip) 0 ++ drop e ip)
    end
  else match ellipsis with Some _ => None | None => Some ip end.

(** The loop of [parseIPv6]; [fuel] bounds the groups (at most eight). *)
Fixpoint groupsIPv6 (fuel : nat) (ip : list Z) (ellipsis : option nat) (s : string) : option IP :=
  match fuel with
  | O => finishIPv6 ip ellipsis s
  | S fuel' =>
      match hexGroup s 0 0 with
      | None => None
      | Some (off, acc, rest) =>
          if (off =? 0)%nat then None
          else match rest with
          | EmptyString => finishIPv6 (ip ++ [Z.shiftr acc 8; Z.land acc 255]) ellipsis rest
          | String c rest' =>
              if Ascii.eqb c dot then
                if (match ellipsis with None => negb (length ip =? 12)%nat | Some _ => false end)
                   || (16 <? length ip + 4)%nat then None
                else match parseIPv4 s with
                     | None => None
                     | Some v4 => finishIPv6 (ip ++ v4) ellipsis EmptyString
                     end
              else
                let ip := ip ++ [Z.shiftr acc 8; Z.land acc 255] in
                if negb (Ascii.eqb c colon) then None
                else match rest' with
                | EmptyString => None
                | String c2 rest2 =>
                    if Ascii.eqb c2 colon then
                      match ellipsis with
                      | Some _ => None
                      | None =>
                          if (slen rest2 =? 0)%nat then finishIPv6 ip (Some (length ip)) rest2
                          else groupsIPv6 fuel' ip (Some (length ip)) rest2
                      end
                    else groupsIPv6 fuel' ip ellipsis rest'
                end
          end
      end
  end.

Definition parseIPv6 (s : string) : option IP :=
  match s with
  | String a (String b s') =>
      if Ascii.eqb a colon && Ascii.eqb b colon then
        if (slen s' =? 0)%nat then Some (replicate 16 0) else groupsIPv6 8 [] (Some 0%nat) s'
      else groupsIPv6 8 [] None s
  | _ => groupsIPv6 8 [] None s
  end.

(** Which of '.', ':' and '%' comes first. *)
Fixpoint firstSep (s : string) : option ascii :=
  match s with
  | EmptyString => None
  | String a s' =>
      if Ascii.eqb a dot || Ascii.eqb a colon || Ascii.eqb a percent then Some a else firstSep s'
  end.

(** The 16-byte form of an IPv4 address. *)
Definition v4InV6 (v4 : list Z) : IP := replicate 10 0 ++ [255; 255] ++ v4.

Definition ParseIP (s : string) : option IP :=
  match firstSep s with
  | None => None
  | Some a =>
      if Ascii.eqb a dot then v4InV6 <$> parseIPv4 s
      else if Ascii.eqb a colon then if has_byte percent s then None else parseIPv6 s
      else None
  end.

(** ** [splitIPsAndDNS] *)

Fixpoint splitIPsAndDNS (names : list string) : list string * list IP :=
  match names with
  | [] => ([], [])
  | n :: names' =>
      let '(dns, ips) := splitIPsAndDNS names' in
      match ParseIP n with
      | Some ip => (dns, ip :: ips)
      | None => (n :: dns, ips)
      end
  end.

(** ** Facts *)

Example ParseIP_v4 : ParseIP "192.0.2.17" = Some (replicate 10 0 ++ [255; 255; 192; 0; 2; 17]).
Proof. vm_compute. reflexivity. Qed.
Example ParseIP_v6 : ParseIP "2001:db8::1" =
  Some [32; 1; 13; 184; 0; 0; 0; 0; 0; 0; 0; 0; 0; 0; 0; 1].
Proof. vm_compute. reflexivity. Qed.
Example ParseIP_mixed : ParseIP "::ffff:192.0.2.17" = ParseIP "192.0.2.17".
Proof. vm_compute. reflexivity. Qed.
Example ParseIP_rejects :
  ParseIP <$> ["example.com"; "1.2.3"; "01.2.3.4"; "256.1.1.1"; "1.2.3.4."; "1:2:3:4:5:6:7"; "1::2::3";
    "fe80::1%eth0"; "12345::"; ":1"; ""; "1:2:3:4:5:6:7::8"; "1.2.3.4.5"]
  = replicate 13 None.
Proof. vm_compute. reflexivity. Qed.

Definition is_byte (z : Z) : Prop := 0 ≤ z < 256.

Lemma parseIPv4Fields_bytes s : ∀ val digLen fields v,
  0 ≤ val < 256 → Forall is_byte fields → (length fields ≤ 3)%nat →
  parseIPv4Fields s val digLen fields = Some v → length v = 4%nat ∧ Forall is_byte v.
Proof.
  induction s as [|a s IH]; intros val digLen fields v Hv Hf Hl; simpl.
  - destruct (length fields <? 3)%nat eqn:E; [done|]. apply Nat.ltb_ge in E.
    destruct (digLen =? 0)%nat; [done|]. simpl. intros [= <-].
    rewrite length_app, Forall_app, Forall_singleton. simpl. split; [lia | done].
  - destruct (is_dec a) eqn:Ed.
    + case_match; [done|]. unfold is_dec in Ed. bool_simp.
      destruct (Z.ltb_spec 255 (val * 10 + (code a - 48))); [done|]. apply IH; auto; lia.
    + case_match; [|done]. destruct (digLen =? 0)%nat; [done|].
      destruct (length fields =? 3)%nat eqn:E; [done|]. apply Nat.eqb_neq in E. simpl.
      apply IH; [lia| |rewrite length_app; simpl; lia].
      apply Forall_app. by rewrite Forall_singleton.
Qed.

Lemma parseIPv4_bytes s v : parseIPv4 s = Some v → length v = 4%nat ∧ Forall is_byte v.
Proof. apply parseIPv4Fields_bytes; [lia | done | simpl; lia]. Qed.

Lemma hex_val_range a v : hex_val a = Some v → 0 ≤ v < 16.
Proof. unfold hex_val. intros H. simp_match; bool_simp; lia. Qed.

Lemma hexGroup_range s : ∀ off acc off' acc' rest, (off ≤ 4)%nat → 0 ≤ acc < 16 ^ (Z.of_nat off) →
  hexGroup s off acc = Some (off', acc', rest) → 0 ≤ acc' < 65536.
Proof.
  assert (Hpow : ∀ off, (off ≤ 4)%nat → 16 ^ Z.of_nat off ≤ 65536).
  { intros off Ho. change 65536 with (16 ^ 4). apply Z.pow_le_mono_r; lia. }
  induction s as [|a s IH]; intros off acc off' acc' rest Ho Ha; simpl.
  - intros [= <- <- <-]. specialize (Hpow off Ho). lia.
  - destruct (hex_val a) as [v|] eqn:Ev.
    + destruct (3 <? off)%nat eqn:E; [done|]. apply Nat.ltb_ge in E. apply IH; [lia|].
      apply hex_val_range in Ev. rewrite Nat2Z.inj_succ, Z.pow_succ_r by lia. lia.
    + intros [= <- <- <-]. specialize (Hpow off Ho). lia.
Qed.

Lemma group_bytes acc : 0 ≤ acc < 65536 → Forall is_byte [Z.shiftr acc 8; Z.land acc 255].
Proof.
  intros H. repeat constructor.
  - rewrite Z.shiftr_div_pow2 by lia. apply Z.div_pos; lia.
  - rewrite Z.shiftr_div_pow2 by lia. apply Z.div_lt_upper_bound; lia.
  - apply Z.land_nonneg. lia.
  - change 255 with (Z.ones 8). rewrite Z.land_ones by lia. by apply Z.mod_pos_bound.
Qed.

Lemma finishIPv6_bytes ip e s v : (length ip ≤ 16)%nat → Forall is_byte ip →
  finishIPv6 ip e s = Some v → length v = 16%nat ∧ Forall is_byte v.
Proof.
  intros Hl Hf. unfold finishIPv6. destruct (slen s =? 0)%nat; [simpl|done].
  destruct (length ip <? 16)%nat eqn:E.
  - destruct e as [e|]; [|done]. intros [= <-].
    rewrite !length_app, length_replicate, length_take, length_drop. split; [lia|].
    rewrite !Forall_app. split_all; [by apply Forall_take| |by apply Forall_drop].
    by apply Forall_replicate.
  - apply Nat.ltb_ge in E. destruct e; [done|]. intros [= <-]. split; [lia|done].
Qed.

Lemma groupsIPv6_bytes fuel : ∀ ip e s v, (length ip + 2 * fuel ≤ 16)%nat → Forall is_byte ip →
  groupsIPv6 fuel ip e s = Some v → length v = 16%nat ∧ Forall is_byte v.
Proof.
  induction fuel as [|fuel IH]; intros ip e s v Hl Hf; simpl.
  { apply finishIPv6_bytes; [lia|done]. }
  destruct (hexGroup s 0 0) as [[[off acc] rest]|] eqn:Eh; [|done].
  assert (Hacc : 0 ≤ acc < 65536) by (eapply (hexGroup_range s 0 0); eauto; simpl; lia).
  assert (Hf' : Forall is_byte (ip ++ [Z.shiftr acc 8; Z.land acc 255]))
    by (apply Forall_app; split; [done | by apply group_bytes]).
  assert (Hl' : length (ip ++ [Z.shiftr acc 8; Z.land acc 255]) = (length ip + 2)%nat)
    by (rewrite length_app; simpl; lia).
  destruct (off =? 0)%nat; [done|]. destruct rest as [|c rest].
  { apply finishIPv6_bytes; [lia|done]. }
  destruct (Ascii.eqb c dot).
  { destruct ((match e with None => _ | Some _ => _ end || _)) eqn:Eb; [done|].
    apply orb_false_iff in Eb as [_ Eb]. apply Nat.ltb_ge in Eb.
    destruct (parseIPv4 s) as [v4|] eqn:E4; [|done]. apply parseIPv4_bytes in E4 as [L4 F4].
    apply finishIPv6_bytes; [rewrite length_app; lia | by apply Forall_app]. }
  destruct (negb (Ascii.eqb c colon)); [done|]. destruct rest as [|c2 rest2]; [done|].
  destruct (Ascii.eqb c2 colon).
  - destruct e; [done|]. destruct (slen rest2 =? 0)%nat.
    + apply finishIPv6_bytes; [lia|done].
    + apply IH; [lia|done].
  - apply IH; [lia|done].
Qed.

(** A parsed address is always sixteen bytes. *)
Lemma ParseIP_bytes s ip : ParseIP s = Some ip → length ip = 16%nat ∧ Forall is_byte ip.
Proof.
  unfold ParseIP. destruct (firstSep s) as [a|]; [|done]. destruct (Ascii.eqb a dot).
  - destruct (parseIPv4 s) as [v4|] eqn:E4; [|done]. simpl. intros [= <-].
    apply parseIPv4_bytes in E4 as [L F]. unfold v4InV6.
    rewrite !length_app, L, !Forall_app. split; [done|].
    split_all; [by apply Forall_replicate | repeat constructor; unfold is_byte; lia | done].
  - destruct (Ascii.eqb a colon); [|done]. destruct (has_byte percent s); [done|].
    assert (Hg : ∀ e t v, groupsIPv6 8 [] e t = Some v → length v = 16%nat ∧ Forall is_byte v)
      by (intros e t v; apply groupsIPv6_bytes; [simpl; lia | done]).
    unfold parseIPv6. destruct s as [|x [|y s]]; try apply Hg.
    destruct (Ascii.eqb x colon && Ascii.eqb y colon); [|apply Hg].
    destruct (slen s =? 0)%nat; [|apply Hg]. intros [= <-]. split; [done|].
    apply (Forall_replicate is_byte 16). done.
Qed.

(** [splitIPsAndDNS] is a partition: the DNS names are exactly the names
    that are not address literals and the addresses exactly the parsed
    literals, both in the order given; each address is 16 bytes. *)
Theorem splitIPsAndDNS_partition names :
  splitIPsAndDNS names = (filter (λ n, ParseIP n = None) names, omap ParseIP names) ∧
  Forall (λ ip, length ip = 16%nat ∧ Forall is_byte ip) (snd (splitIPsAndDNS names)).
Proof.
  assert (E : splitIPsAndDNS names = (filter (λ n, ParseIP n = None) names, omap ParseIP names)).
  { induction names as [|n names IH]; simpl; [done|]. rewrite IH.
    destruct (ParseIP n) as [ip|] eqn:En.
    - by rewrite filter_cons_False by congruence.
    - by rewrite filter_cons_True by congruence. }
  split; [done|]. rewrite E. simpl. apply Forall_forall. intros ip Hip.
  apply list_elem_of_omap in Hip as (n&_&Hn). by eapply ParseIP_bytes.
Qed.
