(* ===== verification/Utf8.v ===== *)
(** unicode/utf8: which byte sequences are encodings, and how long the one at
    the head of a string is. *)

From Stdlib Require Import ZArith Lia Ascii.
From stdpp Require Import base option list strings.
From S2P Require Import Prelude.
From S2P Require Import GoStd.
From S2P Require Import Net.

Open Scope Z_scope.

Definition in_range (lo hi : Z) (a : ascii) : bool := (lo <=? code a) && (code a <=? hi).
Definition cont : ascii → bool := in_range 128 191.

(** The admissible first two bytes of three- and four-byte sequences. *)
Definition head3 (a b : ascii) : bool :=
  if code a =? 224 then in_range 160 191 b
  else if code a =? 237 then in_range 128 159 b
  else in_range 225 239 a && cont b.
Definition head4 (a b : ascii) : bool :=
  if code a =? 240 then in_range 144 191 b
  else if code a =? 244 then in_range 128 143 b
  else in_range 241 243 a && cont b.

Fixpoint ValidString (s : string) : bool :=
  match s with
  | EmptyString => true
  | String a s1 =>
      if code a <? 128 then ValidString s1
      else match s1 with
      | EmptyString => false
      | String b s2 =>
          if in_range 194 223 a && cont b then ValidString s2
          else match s2 with
          | EmptyString => false
          | String c s3 =>
              if head3 a b && cont c then ValidString s3
              else match s3 with
              | EmptyString => false
              | String d s4 => head4 a b && cont c && cont d && ValidString s4
              end
          end
      end
  end.

(** The length of the encoding at the head; 0 when there is none. *)
Definition runeLen (s : string) : nat :=
  match s with
  | EmptyString => 0
  | String a s1 =>
      if code a <? 128 then 1
      else match s1 with
      | EmptyString => 0
      | String b s2 =>
          if in_range 194 223 a && cont b then 2
          else match s2 with
          | EmptyString => 0
          | String c s3 =>
              if head3 a b && cont c then 3
              else match s3 with
              | EmptyString => 0
              | String d _ => if head4 a b && cont c && cont d then 4 else 0
              end
          end
      end
  end.

Example ValidString_examples :
  ValidString "plain.example.com" = true ∧
  ValidString (String (ascii_of_nat 195) (String (ascii_of_nat 188) "")) = true ∧      (* U+00FC *)
  ValidString (String (ascii_of_nat 195) "") = false ∧
  ValidString (String (ascii_of_nat 237) (String (ascii_of_nat 160) (String (ascii_of_nat 128) ""))) = false.
Proof. vm_compute. done. Qed.

(** ** Valid strings, rune by rune *)

Inductive multibyte : string → Prop :=
| mb_2 a b : code a <? 128 = false → in_range 194 223 a && cont b = true → multibyte (String a (String b ""))
| mb_3 a b c : code a <? 128 = false → in_range 194 223 a && cont b = false → head3 a b && cont c = true →
    multibyte (String a (String b (String c "")))
| mb_4 a b c d : code a <? 128 = false → in_range 194 223 a && cont b = false → head3 a b && cont c = false →
    head4 a b && cont c && cont d = true → multibyte (String a (String b (String c (String d "")))).

Lemma ValidString_ind (P : string → Prop) :
  P "" →
  (∀ a t, code a < 128 → ValidString t = true → P t → P (String a t)) →
  (∀ r t, multibyte r → ValidString t = true → P t → P (r +:+ t)) →
  ∀ s, ValidString s = true → P s.
Proof.
  intros H0 H1 H2 s. remember (slen s) as n eqn:En. revert s En.
  induction n as [n IH] using lt_wf_ind. intros s ->. unfold slen in *. destruct s as [|a s1]; [done|]. simpl.
  destruct (code a <? 128) eqn:Ea.
  { intros Hv. apply H1; [by apply Z.ltb_lt|done|]. by apply (IH (String.length s1)); [simpl; lia|..]. }
  destruct s1 as [|b s2]; [done|]. destruct (in_range 194 223 a && cont b) eqn:Eb.
  { intros Hv. apply (H2 (String a (String b ""))); [by apply mb_2|done|].
    by apply (IH (String.length s2)); [simpl; lia|..]. }
  destruct s2 as [|c s3]; [done|]. destruct (head3 a b && cont c) eqn:Ec.
  { intros Hv. apply (H2 (String a (String b (String c "")))); [by apply mb_3|done|].
    by apply (IH (String.length s3)); [simpl; lia|..]. }
  destruct s3 as [|d s4]; [done|]. intros [Hd Hv]%andb_true_iff.
  apply (H2 (String a (String b (String c (String d ""))))); [by apply mb_4|done|].
  by apply (IH (String.length s4)); [simpl; lia|..].
Qed.

Lemma multibyte_runeLen r t : multibyte r → runeLen (r +:+ t) = slen r.
Proof. by intros [a b Ha Hb|a b c Ha Hb Hc|a b c d Ha Hb Hc Hd]; rewrite !app_String; simpl; rewrite Ha, Hb, ?Hc, ?Hd. Qed.

Lemma multibyte_head r : multibyte r → ∃ a r', r = String a r' ∧ 128 ≤ code a ∧ (1 ≤ slen r' ≤ 3)%nat.
Proof.
  intros [a b Ha _|a b c Ha _ _|a b c d Ha _ _ _]; apply Z.ltb_ge in Ha; eexists _, _; (split; [done|]); simpl; lia.
Qed.
