(* ===== verification/Logging.v ===== *)
(** pkg/logging/logging.go: levels, the debug switch, the log file, and the
    adapters that bring the lines of net/http and of lego into the log.  A
    message comes formatted; the time stamp of a line is left out. *)

From Stdlib Require Import ZArith Lia Ascii.
From stdpp Require Import base option list strings.
From S2P Require Import Prelude.
From S2P Require Import GoStd.

Open Scope Z_scope.

(** [os.OpenFile] of a log file, which it may create. *)
Class LogFile (F : Type) := { OpenAppend : string → F → option error * F }.

(** Debug output, and the file that is written beside standard error. *)
Record logger := mkLogger { debugEnabled : bool; logTo : option string }.

Definition SetLogFile {F} `{LogFile F} (logFilePath : string) (l : logger) (w : F) : logger * F :=
  if String.eqb logFilePath "" then (l, w)
  else
    let '(err, w) := OpenAppend logFilePath w in
    match err with
    | Some _ => (l, w)
    | None => (mkLogger (debugEnabled l) (Some logFilePath), w)
    end.

Definition SetDebug (enabled : bool) (l : logger) : logger := mkLogger enabled (logTo l).

(** ** Levels *)

(** The lines written so far. *)
Definition lines : Type := list string.

Definition logf (prefix msg : string) (out : lines) : lines := out ++ [prefix +:+ " " +:+ msg].

Definition Debug (l : logger) (msg : string) (out : lines) : lines :=
  if debugEnabled l then logf "[DEB]" msg out else out.
Definition Info : string → lines → lines := logf "[INF]".
Definition Notice : string → lines → lines := logf "[NOT]".
Definition Warn : string → lines → lines := logf "[WRN]".
Definition Error : string → lines → lines := logf "[ERR]".

(** [Fatal] writes its line and ends the process: the exit code comes first. *)
Definition Fatal (msg : string) (out : lines) : Z * lines := (1, out ++ ["[ERR] " +:+ msg]).

(** ** Adapters *)

Definition newline : ascii := ascii_of_nat 10.

(** [strings.TrimRight(s, "\n")]: what precedes the trailing line breaks. *)
Fixpoint trimNewlines (s : string) : string :=
  match s with
  | EmptyString => ""
  | String a s' =>
      let r := trimNewlines s' in
      if Ascii.eqb a newline && String.eqb r "" then "" else String a r
  end.

(** [warnWriter.Write]: the number of bytes taken, and no error. *)
Definition warnWrite (p : string) (out : lines) : Z * lines :=
  let s := trimNewlines p in
  (Z.of_nat (slen p), if String.eqb s "" then out else Warn s out).

(** A line logged through [ErrorLogger]: [log.Logger] ends it with a line break
    unless it has one. *)
Definition ErrorLogger (msg : string) (out : lines) : lines :=
  snd (warnWrite (if HasSuffix msg (String newline "") then msg else msg +:+ String newline "") out).

Definition LegoPrintf (msg : string) (out : lines) : lines :=
  if HasPrefix msg "[INFO] " then Info (TrimPrefix msg "[INFO] ") out
  else if HasPrefix msg "[WARN] " then Warn (TrimPrefix msg "[WARN] ") out
  else Info msg out.

Definition LegoPrint : string → lines → lines := Info.
Definition LegoFatal : string → lines → Z * lines := Fatal.

(** ** What reaches the log *)

Lemma trimNewlines_id s a : a ≠ newline → trimNewlines (s +:+ String a "") = s +:+ String a "".
Proof.
  intros Ha. induction s as [|b s IH].
  - rewrite app_nil_string. simpl. by rewrite (proj2 (Ascii.eqb_neq _ _) Ha).
  - rewrite app_String. simpl. rewrite IH. destruct s; by rewrite andb_false_r.
Qed.

Lemma trimNewlines_break s : trimNewlines (s +:+ String newline "") = trimNewlines s.
Proof. induction s as [|b s IH]; [done|]. rewrite app_String. simpl. by rewrite IH. Qed.

(** The HTTP server's complaints: each one that is not blank is one warning,
    without its line break, and the writer never fails, so no complaint stops
    the logger. *)
Theorem ErrorLogger_warns s a out : a ≠ newline →
  ErrorLogger (s +:+ String a "") out = out ++ ["[WRN] " +:+ (s +:+ String a "")] ∧
  (∀ p out', (warnWrite p out').1 = Z.of_nat (slen p)) ∧
  ErrorLogger "" out = out.
Proof.
  intros Ha. split_all; [|done..]. unfold ErrorLogger, warnWrite.
  assert (Ht : trimNewlines (if HasSuffix (s +:+ String a "") (String newline "")
    then s +:+ String a "" else (s +:+ String a "") +:+ String newline "") = s +:+ String a "").
  { destruct (HasSuffix _ _); [|rewrite trimNewlines_break]; by apply trimNewlines_id. }
  rewrite Ht. simpl. rewrite (proj2 (String.eqb_neq _ _)); [done|]. by destruct s.
Qed.

(** lego's messages keep their level and lose only its old name. *)
Theorem LegoPrintf_levels msg out :
  LegoPrintf ("[INFO] " +:+ msg) out = out ++ ["[INF] " +:+ msg] ∧
  LegoPrintf ("[WARN] " +:+ msg) out = out ++ ["[WRN] " +:+ msg] ∧
  (HasPrefix msg "[INFO] " = false → HasPrefix msg "[WARN] " = false → LegoPrintf msg out = out ++ ["[INF] " +:+ msg]).
Proof.
  unfold LegoPrintf. split_all.
  - rewrite (proj2 (HasPrefix_spec _ _)) by eauto. by rewrite TrimPrefix_app.
  - assert (E : HasPrefix ("[WARN] " +:+ msg) "[INFO] " = false) by by rewrite !app_String.
    rewrite E, (proj2 (HasPrefix_spec _ _)) by eauto. by rewrite TrimPrefix_app.
  - by intros -> ->.
Qed.
