(* ===== verification/Domain.v ===== *)
(** pkg/domain: matching domain names against allow-lists and hashing a set of
    names into the cache key.  [AsKey] is the FNV-1a hash of a canonical byte
    sequence; the theorems show that the sequence determines exactly the set
    of normalised non-empty names, so two bundles can share a key only when
    they are the same set or FNV-1a collides. *)

From Stdlib Require Import ZArith Lia Ascii.
From stdpp Require Import base option list gmap sets strings sorting.
From S2P Require Import Prelude.
From S2P Require Import GoStd.

Open Scope Z_scope.

(** ** Definitions *)

(** [type Key uint64] *)
Definition Key : Type := Z.

Definition normalizeName (name : string) : string := ToLower (TrimSuffix name ".").

(** hash/fnv New64a. *)
Definition fnv_offset64 : Z := 14695981039346656037.
Definition fnv_prime64 : Z := 1099511628211.

Definition fnv_step (h : Z) (a : ascii) : Z :=
  to_u64 (Z.lxor h (Z.of_N (N_of_ascii a)) * fnv_prime64).

Fixpoint fnv_write (h : Z) (s : string) : Z :=
  match s with
  | EmptyString => h
  | String a s' => fnv_write (fnv_step h a) s'
  end.

Definition fnv1a (s : string) : Z := fnv_write fnv_offset64 s.

(** The loop of [AsKey]: [seen] is the map, [canon] the slice built so far. *)
Fixpoint canonLoop (ds : list string) (seen : gset string) (canon : list string) : list string :=
  match ds with
  | [] => canon
  | d0 :: ds' =>
      let d := normalizeName d0 in
      if String.eqb d "" then canonLoop ds' seen canon
      else if bool_decide (d ∈ seen) then canonLoop ds' seen canon
      else canonLoop ds' ({[ d ]} ∪ seen) (canon ++ [d])
  end.

Definition NUL : string := String (ascii_of_nat 0) EmptyString.

Definition canonical (domains : list string) : list string :=
  SortStrings (canonLoop domains ∅ []).

Definition AsKey (domains : list string) : Key :=
  fnv1a (Join (canonical domains) NUL).

Fixpoint IsSubdomain (domain : string) (allowedDomains : list string) : bool :=
  match allowedDomains with
  | [] => false
  | allowedDomain :: rest =>
      let d := normalizeName domain in
      let parent := normalizeName allowedDomain in
      if String.eqb d parent then true
      else if HasSuffix d ("." +:+ parent) then true
      else IsSubdomain domain rest
  end.

Fixpoint AllAllowed (allowedList toCheck : list string) : bool :=
  match toCheck with
  | [] => true
  | i :: rest => if negb (IsSubdomain i allowedList) then false else AllAllowed allowedList rest
  end.

Definition Allowed (allowedList : list string) (toCheck : string) : bool :=
  IsSubdomain toCheck allowedList.

(** ** The set a bundle denotes *)

(** The normalised non-empty names of a bundle. *)
Definition names (domains : list string) : gset string :=
  list_to_set (normalizeName <$> domains) ∖ {[ "" ]}.

Lemma elem_of_names d ds :
  d ∈ names ds ↔ d ≠ "" ∧ ∃ d0, d0 ∈ ds ∧ normalizeName d0 = d.
Proof.
  unfold names. rewrite elem_of_difference, elem_of_list_to_set, list_elem_of_fmap,
    elem_of_singleton. naive_solver.
Qed.

Lemma names_cons d ds :
  names (d :: ds) = if decide (normalizeName d = "") then names ds
                    else {[ normalizeName d ]} ∪ names ds.
Proof.
  apply set_eq. intros x. destruct (decide _) as [E|E];
    rewrite ?elem_of_union, ?elem_of_singleton, !elem_of_names; set_solver.
Qed.

(** The loop keeps [seen] in step with [canon] and adds every name once. *)
Lemma canonLoop_spec ds seen canon :
  list_to_set canon = seen → NoDup canon → "" ∉ canon →
  NoDup (canonLoop ds seen canon) ∧ "" ∉ canonLoop ds seen canon ∧
  list_to_set (canonLoop ds seen canon) = seen ∪ names ds.
Proof.
  revert seen canon. induction ds as [|d0 ds IH]; intros seen canon Hs Hn He; simpl.
  { split_all; try done. rewrite Hs. unfold names. set_solver. }
  rewrite names_cons. destruct (String.eqb_spec (normalizeName d0) "") as [E|E].
  { rewrite decide_True by done. by apply IH. }
  rewrite decide_False by done. case_bool_decide as Hin.
  { destruct (IH seen canon) as (?&?&->); try done. split_all; try done. set_solver. }
  destruct (IH ({[ normalizeName d0 ]} ∪ seen) (canon ++ [normalizeName d0])) as (?&?&->).
  - rewrite list_to_set_app_L. set_solver.
  - apply NoDup_app. split_all; try done; [|apply NoDup_singleton].
    intros x Hx. set_solver.
  - set_solver.
  - split_all; try done. set_solver.
Qed.

Lemma canonical_spec ds :
  NoDup (canonical ds) ∧ "" ∉ canonical ds ∧ list_to_set (canonical ds) = names ds.
Proof.
  destruct (canonLoop_spec ds ∅ []) as (Hn&He&Hs); [done|constructor|set_solver|].
  unfold canonical. pose proof (SortStrings_Permutation (canonLoop ds ∅ [])) as Hp.
  split_all.
  - by rewrite Hp.
  - by rewrite Hp.
  - rewrite (list_to_set_perm_L _ _ Hp), Hs. set_solver.
Qed.

Lemma elem_of_canonical d ds : d ∈ canonical ds ↔ d ∈ names ds.
Proof.
  destruct (canonical_spec ds) as (_&_&<-). by rewrite elem_of_list_to_set.
Qed.

(** Equal sets have equal canonical lists, and conversely. *)
Lemma canonical_names ds ds' : canonical ds = canonical ds' ↔ names ds = names ds'.
Proof.
  destruct (canonical_spec ds) as (Hn&_&Hs), (canonical_spec ds') as (Hn'&_&Hs'). split.
  - intros H. by rewrite <- Hs, H, Hs'.
  - intros H. apply (StronglySorted_unique String.le); try apply SortStrings_Sorted.
    apply NoDup_Permutation; try done. intros x.
    by rewrite !elem_of_canonical, H.
Qed.

(** *** Injectivity of the NUL-separated encoding *)

Fixpoint no_nul (s : string) : bool :=
  match s with
  | EmptyString => true
  | String a s' => negb (Ascii.eqb a (ascii_of_nat 0)) && no_nul s'
  end.

Lemma no_nul_app s t : no_nul (s +:+ t) = no_nul s && no_nul t.
Proof.
  induction s; [done|]. rewrite app_String. simpl. by rewrite IHs, andb_assoc.
Qed.

Lemma no_nul_take n s : no_nul s = true → no_nul (str_take n s) = true.
Proof.
  intros H. rewrite <- (str_take_drop n s), no_nul_app in H. by bool_simp.
Qed.

Lemma no_nul_lower s : no_nul (ToLower s) = no_nul s.
Proof.
  induction s as [|a s IH]; [done|]. simpl. rewrite IH. f_equal.
  destruct a as [[] [] [] [] [] [] [] []]; reflexivity.
Qed.

Lemma no_nul_normalize s : no_nul s = true → no_nul (normalizeName s) = true.
Proof.
  intros H. unfold normalizeName. rewrite no_nul_lower. unfold TrimSuffix.
  case_match; auto using no_nul_take.
Qed.

(** A word without NUL is read back from an encoding that continues with a
    separator or ends. *)
Lemma nul_split s s' t t' :
  no_nul s = true → no_nul s' = true →
  s +:+ NUL +:+ t = s' +:+ NUL +:+ t' → s = s' ∧ t = t'.
Proof.
  revert s'. unfold NUL. induction s as [|a s IH]; intros [|a' s'] H H' E; simpl in *; bool_simp;
    rewrite ?app_nil_string, ?app_String, ?app_nil_string in E.
  - injection E as ->. done.
  - injection E as <- _. done.
  - injection E as -> _. done.
  - injection E as -> E. destruct (IH s') as [-> ->]; done.
Qed.

Lemma nul_absent s s' t' : no_nul s = true → s = s' +:+ NUL +:+ t' → False.
Proof. intros H ->. rewrite !no_nul_app in H. bool_simp. done. Qed.

Lemma Join_cons x y l sep : Join (x :: y :: l) sep = x +:+ sep +:+ Join (y :: l) sep.
Proof. reflexivity. Qed.

Lemma Join_NUL_inj l l' :
  Forall (λ s, s ≠ "" ∧ no_nul s = true) l → Forall (λ s, s ≠ "" ∧ no_nul s = true) l' →
  Join l NUL = Join l' NUL → l = l'.
Proof.
  intros Hl. revert l'. induction Hl as [|x l [Hx Hx0] Hl IH]; intros l' Hl' E.
  - destruct Hl' as [|y [|z l'] [Hy _] Hl']; [done|simpl in E; congruence|].
    rewrite Join_cons in E. by destruct y.
  - destruct Hl' as [|y l' [Hy Hy0] Hl'].
    { destruct l; [simpl in E; congruence|]. rewrite Join_cons in E. by destruct x. }
    destruct l as [|x1 l], l' as [|y1 l']; rewrite ?Join_cons in E.
    + simpl in E. by subst.
    + exfalso. by apply (nul_absent x y (Join (y1 :: l') NUL)).
    + exfalso. by apply (nul_absent y x (Join (x1 :: l) NUL)).
    + apply nul_split in E as [-> E]; [|done..]. f_equal. by apply IH.
Qed.

Lemma canonical_words ds :
  Forall (λ d, no_nul d = true) ds →
  Forall (λ s, s ≠ "" ∧ no_nul s = true) (canonical ds).
Proof.
  rewrite !Forall_forall. intros H s Hs.
  apply elem_of_canonical, elem_of_names in Hs as (?&d&Hd&<-).
  auto using no_nul_normalize.
Qed.

(** ** Key theorems *)

Lemma fnv_write_range h s : 0 ≤ h < u64_mod → 0 ≤ fnv_write h s < u64_mod.
Proof.
  revert h. induction s as [|a s IH]; intros h Hh; simpl; [done|].
  apply IH, to_u64_range.
Qed.

Lemma AsKey_range ds : 0 ≤ AsKey ds < u64_mod.
Proof. apply fnv_write_range. done. Qed.

Lemma encoding_injective ds ds' :
  Forall (λ d, no_nul d = true) ds → Forall (λ d, no_nul d = true) ds' →
  Join (canonical ds) NUL = Join (canonical ds') NUL → names ds = names ds'.
Proof. intros H H' E. apply canonical_names. apply Join_NUL_inj; auto using canonical_words. Qed.

(** C16: [AsKey] is a function of the set of normalised non-empty names: case,
    one trailing dot, duplicates, empty names and order do not change it; and
    the byte sequence it hashes is an injective encoding of this set when no
    name holds a NUL byte, so that a shared key is either the same set of
    names or a collision of FNV-1a itself. *)
Theorem AsKey_set ds ds' :
  (names ds = names ds' → AsKey ds = AsKey ds') ∧
  (Forall (λ d, no_nul d = true) ds → Forall (λ d, no_nul d = true) ds' → names ds ≠ names ds' →
     Join (canonical ds) NUL ≠ Join (canonical ds') NUL).
Proof.
  split.
  - intros H. unfold AsKey. by rewrite (proj2 (canonical_names ds ds') H).
  - intros H H' Hne E. by apply Hne, encoding_injective.
Qed.

Lemma AsKey_set_witness :
  AsKey ["API.Example.COM."; "example.com"; "api.example.com"; ""] = AsKey ["example.com."; "api.example.com"] ∧
  Join (canonical ["a.example.com"; "bc.example.com"]) NUL ≠ Join (canonical ["ab.example.com"; "c.example.com"]) NUL.
Proof.
  split.
  - apply (AsKey_set ["API.Example.COM."; "example.com"; "api.example.com"; ""] ["example.com."; "api.example.com"]).
    vm_compute. reflexivity.
  - apply (AsKey_set ["a.example.com"; "bc.example.com"] ["ab.example.com"; "c.example.com"]); [by repeat constructor..|].
    intros E. apply (f_equal (λ s, bool_decide ("a.example.com" ∈ s))) in E. vm_compute in E. discriminate.
Defined.

(** With a NUL byte in a name the encoding is ambiguous: one name and two
    names, all of them allowed, share a key without any collision of the hash. *)
Example nul_shares_key :
  let one := ["x.example.com" +:+ NUL +:+ "y.example.com"] in
  let two := ["x.example.com"; "y.example.com"] in
  AllAllowed ["example.com"] one = true ∧ AllAllowed ["example.com"] two = true ∧
  AsKey one = AsKey two ∧ bool_decide (names one = names two) = false.
Proof. vm_compute. done. Qed.

(** ** Allow-lists *)

(** [d] is the domain [parent] or one of its subdomains, at a label boundary. *)
Definition under (d parent : string) : Prop :=
  d = parent ∨ ∃ label, d = label +:+ "." +:+ parent.

Lemma under_trans a b c : under a b → under b c → under a c.
Proof.
  intros [->|[l ->]] [->|[l' ->]]; unfold under; eauto.
  right. exists (l +:+ "." +:+ l'). by rewrite !app_string_assoc.
Qed.

Lemma IsSubdomain_iff d allowed :
  IsSubdomain d allowed = true ↔
  ∃ a, a ∈ allowed ∧ under (normalizeName d) (normalizeName a).
Proof.
  induction allowed as [|a al IH]; simpl; [set_solver|].
  destruct (String.eqb_spec (normalizeName d) (normalizeName a)) as [E|E].
  { split; [|done]. intros _. exists a. split; [set_solver | by left]. }
  destruct (HasSuffix (normalizeName d) ("." +:+ normalizeName a)) eqn:Es.
  { split; [|done]. intros _. apply HasSuffix_spec in Es as [l El].
    exists a. split; [set_solver | right; by exists l]. }
  rewrite IH. split.
  - intros (b&?&?). exists b. set_solver.
  - intros (b&[->|Hb]%elem_of_cons&Hu); [|eauto].
    exfalso. destruct Hu as [|[l Hl]]; [done|].
    assert (HasSuffix (normalizeName d) ("." +:+ normalizeName a) = true) by
      (apply HasSuffix_spec; eauto). congruence.
Qed.

(** C18: [IsSubdomain] decides membership in the allow-list up to
    normalisation: the name is an allowed domain or ends with a dot followed
    by one, and nothing else is accepted (a shared suffix inside a label is
    not enough). *)
Theorem IsSubdomain_spec d allowed :
  IsSubdomain d allowed = true ↔
  ∃ a, a ∈ allowed ∧ under (normalizeName d) (normalizeName a).
Proof. apply IsSubdomain_iff. Qed.

Lemma AllAllowed_forall allowed ds :
  AllAllowed allowed ds = true ↔ ∀ d, d ∈ ds → IsSubdomain d allowed = true.
Proof.
  induction ds as [|d ds IH]; simpl; [set_solver|].
  destruct (IsSubdomain d allowed) eqn:E; simpl.
  - rewrite IH. split; [intros H x [->|Hx]%elem_of_cons; eauto | set_solver].
  - split; [done|]. intros H. rewrite <- E. apply H. set_solver.
Qed.

Lemma AllAllowed_app allowed ds ds' :
  AllAllowed allowed (ds ++ ds') = AllAllowed allowed ds && AllAllowed allowed ds'.
Proof.
  induction ds as [|d ds IH]; simpl; [done|]. rewrite IH. by destruct (IsSubdomain d allowed).
Qed.

(** Delegation is transitive: when every domain of an intermediate list
    is allowed by an outer list, whatever the intermediate list allows, the
    outer list allows. *)
Theorem AllAllowed_trans outer mid ds :
  AllAllowed outer mid = true → AllAllowed mid ds = true → AllAllowed outer ds = true.
Proof.
  rewrite !AllAllowed_forall. intros Ho Hm d Hd.
  apply Hm, IsSubdomain_iff in Hd as (m&Hm'&Hu).
  apply Ho, IsSubdomain_iff in Hm' as (o&Ho'&Hu').
  apply IsSubdomain_iff. eauto using under_trans.
Qed.

Lemma AllAllowed_trans_witness :
  AllAllowed ["example.com."] ["Api.example.com"] = true ∧
  AllAllowed ["Api.example.com"] ["v1.api.EXAMPLE.com"; "api.example.com."] = true ∧
  AllAllowed ["example.com."] ["v1.api.EXAMPLE.com"; "api.example.com."] = true.
Proof.
  split_all; [vm_compute; reflexivity..|].
  apply (AllAllowed_trans _ ["Api.example.com"]); vm_compute; reflexivity.
Defined.

(** ** Wildcards *)

Lemma has_star_normalize s : has_byte "*" (normalizeName s) = has_byte "*" s.
Proof.
  assert (Hl : ∀ t, has_byte "*" (ToLower t) = has_byte "*" t).
  { intros t. induction t as [|a t IH]; [done|]. simpl. rewrite IH. f_equal.
    destruct a as [[] [] [] [] [] [] [] []]; reflexivity. }
  unfold normalizeName. rewrite Hl. destruct (HasSuffix s ".") eqn:Es; [|by rewrite TrimSuffix_no].
  apply HasSuffix_spec in Es as [l ->]. rewrite TrimSuffix_app, has_byte_app. by rewrite orb_false_r.
Qed.

Lemma under_star d a : under d a → has_byte "*" a = true → has_byte "*" d = true.
Proof. intros [->|[l ->]] Ha; [done|]. rewrite !has_byte_app, Ha. by rewrite !orb_true_r. Qed.

(** An asterisk in an allow-list is a character like any other: a list of
    wildcard names allows wildcard names only. *)
Theorem wildcards_allow_wildcards allowed d :
  (∀ a, a ∈ allowed → has_byte "*" a = true) → IsSubdomain d allowed = true → has_byte "*" d = true.
Proof.
  intros Ha (a&Hin&Hu)%IsSubdomain_iff. rewrite <- has_star_normalize. eapply under_star; [exact Hu|].
  rewrite has_star_normalize. by apply Ha.
Qed.

(** The verdict depends only on the set of names, so every bundle with the
    same set of non-empty names gets the same verdict. *)
Lemma IsSubdomain_normalize d d' allowed :
  normalizeName d = normalizeName d' → IsSubdomain d allowed = IsSubdomain d' allowed.
Proof. intros E. apply eq_true_iff_eq. by rewrite !IsSubdomain_iff, E. Qed.

Lemma AllAllowed_names allowed ds ds' :
  "" ∉ normalizeName <$> ds → "" ∉ normalizeName <$> ds' →
  names ds = names ds' → AllAllowed allowed ds = AllAllowed allowed ds'.
Proof.
  intros He He' Hn. apply eq_true_iff_eq. rewrite !AllAllowed_forall.
  assert (Hkey : ∀ xs ys, "" ∉ normalizeName <$> ys → names xs = names ys →
    (∀ d, d ∈ xs → IsSubdomain d allowed = true) →
    ∀ d, d ∈ ys → IsSubdomain d allowed = true).
  { intros xs ys Hys Hxy H d Hd.
    assert (Hin : normalizeName d ∈ names xs).
    { rewrite Hxy. apply elem_of_names. split; [|eauto].
      intros E. apply Hys. rewrite <- E. by apply list_elem_of_fmap_2. }
    apply elem_of_names in Hin as (_&d0&Hd0&E).
    rewrite <- (IsSubdomain_normalize d0 d allowed E). eauto. }
  split; eauto.
Qed.
