(* ===== verification/Config.v ===== *)
(** pkg/config and pkg/acme/acmeproviders: the configuration records of the
    server and of the client, their defaults and their validation.  A
    validation collects every error it finds and joins them; the theorems say
    which configurations are accepted. *)

From Stdlib Require Import ZArith Lia Ascii.
From stdpp Require Import base option list gmap strings.
From S2P Require Import Prelude.
From S2P Require Import GoStd.
From S2P Require Import Duration.

Open Scope Z_scope.

(** ** const.go *)

Definition HTTP_AUTH_TOKEN : string := "token".
Definition HTTP_AUTH_MTLS : string := "mtls".
Definition DnsProviderTypeCloudflare : string := "cloudflare".
Definition DnsProviderTypeTencentCloud : string := "tencentcloud".
Definition HttpProviderTypeS3 : string := "s3".
Definition ChallengeTypeDns01 : string := "dns".
Definition ChallengeTypeHttp01 : string := "http".
Definition CLIENT_MODE_HTTP : string := "http".
Definition CLIENT_MODE_GRPC : string := "grpc".

(** ** acmeproviders/provider.go *)

Definition providerURLs : gmap string string := list_to_map [
  ("google", "https://dv.acme-v02.api.pki.goog/directory");
  ("googletest", "https://dv.acme-v02.test-api.pki.goog/directory");
  ("r3", "https://acme-v02.api.letsencrypt.org/directory");
  ("r3test", "https://acme-staging-v02.api.letsencrypt.org/directory");
  ("mock", "")].

Definition Mock : string := "mock".
Definition Supported (provider : string) : bool := bool_decide (is_Some (providerURLs !! provider)).
Definition IsMock (provider : string) : bool := String.eqb provider Mock.
Definition IsGoogle (provider : string) : bool := HasPrefix provider "google".
Definition URL (provider : string) : string := default "" (providerURLs !! provider).

(** Appends a non-nil error to the list being collected. *)
Definition collect (ret : list error) (err : option error) : list error :=
  match err with Some e => ret ++ [e] | None => ret end.

(** ** server.go *)

Record ACMEConfig := mkACMEConfig {
  ChallengeType : string;
  AcmeEmail : string;
  Provider : string;
  AcmeRetryCount : Z;
  CertLifeTime : string;
  RenewTimeLeft : string;
  AllowedDomains : list string;
  CertLifeTimeDuration : Duration;
  RenewTimeLeftDuration : Duration;
}.

Record DnsProvider := mkDnsProvider {
  DnsType : string;
  DisableCompletePropagationRequirement : bool;
  DnsEmail : string;
  APIKey : string;
  AuthToken : string;
  ZoneToken : string;
  SecretID : string;
  SecretKey : string;
}.

Record S3Client := mkS3Client {
  S3Region : string; S3Bucket : string; S3PartitionID : string; S3URL : string;
  S3AccessKeyId : string; S3AccessKeySecret : string; S3SessionToken : string;
}.

Record HttpProvider := mkHttpProvider {
  HttpType : string;
  HttpS3 : option S3Client;
  HttpLocal : option string;
}.

Record HttpServerConfig := mkHttpServerConfig {
  HttpEnabled : bool;
  HttpListen : string;
  APIPath : string;
  AuthMethod : string;
  Secure : bool;
  HttpNames : list string;
  HttpToken : string;
}.

Record GRPCServerConfig := mkGRPCServerConfig {
  GrpcEnabled : bool;
  GrpcListen : string;
}.

Record ServerConfig := mkServerConfig {
  sc_ACME : ACMEConfig;
  sc_GoogleCloudCredential : gmap string string;
  sc_DnsProvider : option DnsProvider;
  sc_HttpProvider : option HttpProvider;
  sc_MTLS_PEM : string;
  sc_HttpServer : HttpServerConfig;
  sc_GRPCSDSServer : GRPCServerConfig;
}.

Definition ACMEConfig_Validate (c : ACMEConfig) : option error :=
  match AllowedDomains c with
  | [] => Some (EText "AllowedDomains is empty")
  | _ =>
    if IsMock (Provider c) then None
    else if String.eqb (ChallengeType c) "" then Some (EText "challenge type is empty")
    else if negb (String.eqb (ChallengeType c) ChallengeTypeDns01)
            && negb (String.eqb (ChallengeType c) ChallengeTypeHttp01)
    then Some (EText ("challenge type: " +:+ ChallengeType c +:+ " not supported"))
    else if negb (Supported (Provider c))
    then Some (EText ("ACME provider not supported: " +:+ Provider c))
    else None
  end.

Definition DnsProvider_Validate (p : DnsProvider) : option error :=
  if String.eqb (DnsType p) DnsProviderTypeCloudflare then
    if (String.eqb (DnsEmail p) "" || String.eqb (APIKey p) "")
       && (String.eqb (AuthToken p) "" || String.eqb (ZoneToken p) "")
    then Some (EText "DnsProvider Cloudflare: empty Email or APIKey") else None
  else if String.eqb (DnsType p) DnsProviderTypeTencentCloud then
    if String.eqb (SecretID p) "" || String.eqb (SecretKey p) ""
    then Some (EText "DnsProvider TencentCloud: empty SecretID or SecretKey") else None
  else Some (EText ("unknown DnsProvider: " +:+ DnsType p)).

Definition HttpProvider_Validate (p : HttpProvider) : option error :=
  if String.eqb (HttpType p) HttpProviderTypeS3 then
    match HttpS3 p with None => Some (EText "HttpProvider S3: empty S3") | Some _ => None end
  else Some (EText ("unknown HttpProvider: " +:+ HttpType p)).

(** Adds the leading slash of [APIPath] in place. *)
Definition HttpServerConfig_Validate (c : HttpServerConfig) : HttpServerConfig * option error :=
  if negb (HttpEnabled c) then (c, None)
  else
    let c1 := if negb (HasPrefix (APIPath c) "/")
              then mkHttpServerConfig (HttpEnabled c) (HttpListen c) ("/" +:+ APIPath c)
                     (AuthMethod c) (Secure c) (HttpNames c) (HttpToken c)
              else c in
    if Secure c1 && (length (HttpNames c1) =? 0)%nat
    then (c1, Some (EText "secure http server with no name"))
    else (c1, None).

Definition GRPCServerConfig_Validate (c : GRPCServerConfig) : option error :=
  if negb (GrpcEnabled c) then None else None.

Definition needsMTLS (c : ServerConfig) : bool :=
  if GrpcEnabled (sc_GRPCSDSServer c) then true
  else if HttpEnabled (sc_HttpServer c) && String.eqb (AuthMethod (sc_HttpServer c)) HTTP_AUTH_MTLS
  then true else false.

Definition set_ACME (a : ACMEConfig) (c : ServerConfig) : ServerConfig :=
  mkServerConfig a (sc_GoogleCloudCredential c) (sc_DnsProvider c) (sc_HttpProvider c)
    (sc_MTLS_PEM c) (sc_HttpServer c) (sc_GRPCSDSServer c).

Definition set_HttpServer (h : HttpServerConfig) (c : ServerConfig) : ServerConfig :=
  mkServerConfig (sc_ACME c) (sc_GoogleCloudCredential c) (sc_DnsProvider c) (sc_HttpProvider c)
    (sc_MTLS_PEM c) h (sc_GRPCSDSServer c).

Definition set_lifetime (d : Duration) (a : ACMEConfig) : ACMEConfig :=
  mkACMEConfig (ChallengeType a) (AcmeEmail a) (Provider a) (AcmeRetryCount a) (CertLifeTime a)
    (RenewTimeLeft a) (AllowedDomains a) d (RenewTimeLeftDuration a).

Definition set_renewLeft (d : Duration) (a : ACMEConfig) : ACMEConfig :=
  mkACMEConfig (ChallengeType a) (AcmeEmail a) (Provider a) (AcmeRetryCount a) (CertLifeTime a)
    (RenewTimeLeft a) (AllowedDomains a) (CertLifeTimeDuration a) d.

(** [parseDuration]: a failed parse stores 0 in its field and stops. *)
Definition parseDuration (c : ServerConfig) : ServerConfig * option error :=
  match ParseDuration (CertLifeTime (sc_ACME c)) with
  | Err e => (set_ACME (set_lifetime 0 (sc_ACME c)) c, Some (EWrap "can not parse CertLifeTime: %w" e))
  | Ok d =>
      let a1 := set_lifetime d (sc_ACME c) in
      match ParseDuration (RenewTimeLeft a1) with
      | Err e => (set_ACME (set_renewLeft 0 a1) c, Some (EWrap "can not parse RenewTimeLeft: %w" e))
      | Ok d' => (set_ACME (set_renewLeft d' a1) c, None)
      end
  end.

(** The challenge section of [Validate]. *)
Definition challengeErrors (c : ServerConfig) : option error :=
  if negb (IsMock (Provider (sc_ACME c))) then
    let ty := ChallengeType (sc_ACME c) in
    if String.eqb ty ChallengeTypeDns01 then
      match sc_DnsProvider c with
      | Some p => DnsProvider_Validate p
      | None => Some (EText "no dns provider")
      end
    else if String.eqb ty ChallengeTypeHttp01 then
      match sc_HttpProvider c with
      | Some p => HttpProvider_Validate p
      | None => Some (EText "no http provider")
      end
    else None
  else None.

Section ServerValidate.
(** [paths.FileExists]. *)
Variable FileExists : string → bool.

Definition MTLSConfig_Validate (pem : string) : option error :=
  if String.eqb pem "" then Some (EText "[MTLS] pem is required when using mTLS or gRPC SDS")
  else if negb (FileExists pem) then Some (EText ("[MTLS] file not found: " +:+ pem))
  else None.

Definition ServerConfig_Validate (c : ServerConfig) : ServerConfig * option error :=
  let ret := collect [] (ACMEConfig_Validate (sc_ACME c)) in
  let ret := collect ret (challengeErrors c) in
  let '(c, err) := parseDuration c in
  let ret := collect ret err in
  let '(h, err) := HttpServerConfig_Validate (sc_HttpServer c) in
  let c := set_HttpServer h c in
  let ret := collect ret err in
  let ret := collect ret (GRPCServerConfig_Validate (sc_GRPCSDSServer c)) in
  let ret := if needsMTLS c then collect ret (MTLSConfig_Validate (sc_MTLS_PEM c)) else ret in
  (c, errorsJoin ret).
End ServerValidate.

(** The zero value of the configuration, then [SetDefault]. *)
Definition zeroServerConfig : ServerConfig :=
  mkServerConfig (mkACMEConfig "" "" "" 0 "" "" [] 0 0) ∅ None None ""
    (mkHttpServerConfig false "" "" "" false [] "") (mkGRPCServerConfig false "").

Definition ServerConfig_SetDefault (c : ServerConfig) : ServerConfig :=
  mkServerConfig
    (mkACMEConfig "dns" "" "" 5 "168h" "24h" [] (168 * Hour) (24 * Hour))
    (sc_GoogleCloudCredential c) (sc_DnsProvider c) (sc_HttpProvider c) (sc_MTLS_PEM c)
    (mkHttpServerConfig false ":10001" "/" "" false [] "")
    (mkGRPCServerConfig false ":10002").

(** ** client.go *)

Record ClientCommonConfig := mkClientCommonConfig {
  RetryCount : Z;
  Mode : string;
  ReconnectInterval : string;
  ReconnectDuration : Duration;
}.

Record ClientHttpServer := mkClientHttpServer {
  Url : string;
  ClientAuthMethod : string;
  Token : string;
  HttpPEM : string;
}.

Record ClientGRPCServer := mkClientGRPCServer {
  GServer : string;
  GrpcPEM : string;
}.

Record ClientCertification := mkClientCertification {
  cc_Name : string;
  cc_SavePath : string;
  cc_Domains : list string;
  cc_ReloadCommand : string;
}.

Record ClientConfig := mkClientConfig {
  Common : ClientCommonConfig;
  HttpMain : ClientHttpServer;
  HttpStandby : ClientHttpServer;
  GrpcMain : ClientGRPCServer;
  GrpcStandby : ClientGRPCServer;
  Certifications : list ClientCertification;
}.

Record validatingConfiguration := mkValidating {
  acceptEmptyCertificateSavePath : bool;
  acceptEmptyCertificatesList : bool;
}.

Definition ValidatingOption : Type := validatingConfiguration → validatingConfiguration.

Definition makeValidatingConfiguration : validatingConfiguration := mkValidating false false.

Definition WithAcceptEmptyCertificateSavePath (value : bool) : ValidatingOption :=
  λ v, mkValidating value (acceptEmptyCertificatesList v).

Definition WithAcceptEmptyCertificatesList (value : bool) : ValidatingOption :=
  λ v, mkValidating (acceptEmptyCertificateSavePath v) value.

(** The options of a [Validate] call, applied in order. *)
Definition applyOptions (optionList : list ValidatingOption) : validatingConfiguration :=
  foldl (λ o (it : ValidatingOption), it o) makeValidatingConfiguration optionList.

Definition ClientCertification_Validate (options : validatingConfiguration)
    (c : ClientCertification) : option error :=
  let savePathAccepted := negb (String.eqb (cc_SavePath c) "") in
  let savePathAccepted :=
    if acceptEmptyCertificateSavePath options && String.eqb (cc_SavePath c) "" then true
    else savePathAccepted in
  if (length (cc_Domains c) =? 0)%nat || String.eqb (cc_Name c) "" || negb savePathAccepted
  then Some (EText ("wrong certification configuration for " +:+ cc_Name c))
  else None.

Definition set_Common (k : ClientCommonConfig) (c : ClientConfig) : ClientConfig :=
  mkClientConfig k (HttpMain c) (HttpStandby c) (GrpcMain c) (GrpcStandby c) (Certifications c).

Definition client_parseDuration (c : ClientConfig) : ClientConfig * option error :=
  let k := Common c in
  match ParseDuration (ReconnectInterval k) with
  | Err e => (set_Common (mkClientCommonConfig (RetryCount k) (Mode k) (ReconnectInterval k) 0) c,
              Some (EWrap "can not parse ReconnectInterval: %w" e))
  | Ok d => (set_Common (mkClientCommonConfig (RetryCount k) (Mode k) (ReconnectInterval k) d) c, None)
  end.

Section ClientValidate.
Variable FileExists : string → bool.

Definition ClientMtlsConfig_Validate (pem : string) : option error :=
  if negb (FileExists pem) then Some (EText ("file not found: " +:+ pem)) else None.

Definition ClientHttpServer_Validate (s : ClientHttpServer) : option error :=
  if String.eqb (ClientAuthMethod s) HTTP_AUTH_MTLS then ClientMtlsConfig_Validate (HttpPEM s)
  else None.

Definition ClientGRPCServer_Validate (s : ClientGRPCServer) : option error :=
  ClientMtlsConfig_Validate (GrpcPEM s).

Definition validateHttpMode (c : ClientConfig) : option error :=
  if String.eqb (Url (HttpMain c)) "" then Some (EText "http main server url is empty")
  else match ClientHttpServer_Validate (HttpMain c) with
  | Some e => Some e
  | None =>
      if negb (String.eqb (Url (HttpStandby c)) "")
      then match ClientHttpServer_Validate (HttpStandby c) with Some e => Some e | None => None end
      else None
  end.

Definition validateGrpcMode (c : ClientConfig) : option error :=
  if String.eqb (GServer (GrpcMain c)) "" then Some (EText "grpc main server url is empty")
  else match ClientGRPCServer_Validate (GrpcMain c) with
  | Some e => Some e
  | None =>
      if negb (String.eqb (GServer (GrpcStandby c)) "")
      then match ClientGRPCServer_Validate (GrpcStandby c) with Some e => Some e | None => None end
      else None
  end.

Definition ClientConfig_Validate (optionList : list ValidatingOption) (c : ClientConfig)
    : ClientConfig * option error :=
  let option := applyOptions optionList in
  let '(c, err) := client_parseDuration c in
  let ret := collect [] err in
  let ret :=
    if (length (Certifications c) =? 0)%nat && negb (acceptEmptyCertificatesList option)
    then ret ++ [EText "no certification configured"] else ret in
  let ret := foldl (λ ret cert, collect ret (ClientCertification_Validate option cert))
               ret (Certifications c) in
  let ret :=
    if String.eqb (Mode (Common c)) CLIENT_MODE_HTTP then collect ret (validateHttpMode c)
    else if String.eqb (Mode (Common c)) CLIENT_MODE_GRPC then collect ret (validateGrpcMode c)
    else ret ++ [EText ("unsupported mode: " +:+ Mode (Common c))] in
  (c, errorsJoin ret).
End ClientValidate.

Definition set_authMethod (m : string) (s : ClientHttpServer) : ClientHttpServer :=
  mkClientHttpServer (Url s) m (Token s) (HttpPEM s).

Definition zeroClientConfig : ClientConfig :=
  mkClientConfig (mkClientCommonConfig 0 "" "" 0) (mkClientHttpServer "" "" "" "")
    (mkClientHttpServer "" "" "" "") (mkClientGRPCServer "" "") (mkClientGRPCServer "" "") [].

Definition ClientConfig_SetDefault (c : ClientConfig) : ClientConfig :=
  mkClientConfig (mkClientCommonConfig 5 CLIENT_MODE_HTTP "10m" 0)
    (set_authMethod HTTP_AUTH_TOKEN (HttpMain c)) (set_authMethod HTTP_AUTH_TOKEN (HttpStandby c))
    (GrpcMain c) (GrpcStandby c) (Certifications c).

(** ** Which configurations are accepted *)

Lemma collect_nil ret err : collect ret err = [] ↔ ret = [] ∧ err = None.
Proof.
  destruct err as [e|]; simpl; [|naive_solver].
  split; [intros H; by apply app_nil in H as [_ ?] | by intros [_ ?]].
Qed.

Lemma snoc_not_nil {A} (l : list A) x : l ++ [x] = [] ↔ False.
Proof. split; [|done]. intros H. by apply app_nil in H as [_ ?]. Qed.

(** What a DNS or HTTP challenge provider must configure. *)
Definition DnsProvider_ok (p : DnsProvider) : Prop :=
  (DnsType p = "cloudflare" ∧
     (DnsEmail p ≠ "" ∧ APIKey p ≠ "" ∨ AuthToken p ≠ "" ∧ ZoneToken p ≠ "")) ∨
  (DnsType p = "tencentcloud" ∧ SecretID p ≠ "" ∧ SecretKey p ≠ "").

Definition HttpProvider_ok (p : HttpProvider) : Prop := HttpType p = "s3" ∧ is_Some (HttpS3 p).

Lemma DnsProvider_Validate_ok p : DnsProvider_Validate p = None ↔ DnsProvider_ok p.
Proof.
  unfold DnsProvider_Validate, DnsProvider_ok, DnsProviderTypeCloudflare, DnsProviderTypeTencentCloud.
  repeat match goal with |- context [String.eqb ?a ?b] => destruct (String.eqb_spec a b) end;
    simpl; naive_solver congruence.
Qed.

Lemma HttpProvider_Validate_ok p : HttpProvider_Validate p = None ↔ HttpProvider_ok p.
Proof.
  unfold HttpProvider_Validate, HttpProvider_ok, HttpProviderTypeS3.
  destruct (String.eqb_spec (HttpType p) "s3"), (HttpS3 p); naive_solver.
Qed.

(** The challenge a non-mock provider needs. *)
Definition challenge_ok (c : ServerConfig) : Prop :=
  Supported (Provider (sc_ACME c)) = true ∧
  ((ChallengeType (sc_ACME c) = "dns" ∧ ∃ p, sc_DnsProvider c = Some p ∧ DnsProvider_ok p) ∨
   (ChallengeType (sc_ACME c) = "http" ∧ ∃ p, sc_HttpProvider c = Some p ∧ HttpProvider_ok p)).

Lemma acme_errors_ok c :
  ACMEConfig_Validate (sc_ACME c) = None ∧ challengeErrors c = None ↔
  AllowedDomains (sc_ACME c) ≠ [] ∧ (Provider (sc_ACME c) = "mock" ∨ challenge_ok c).
Proof.
  unfold ACMEConfig_Validate, challengeErrors, challenge_ok, IsMock, Mock,
    ChallengeTypeDns01, ChallengeTypeHttp01.
  destruct (AllowedDomains (sc_ACME c)) as [|d ds]; [naive_solver|].
  destruct (String.eqb_spec (Provider (sc_ACME c)) "mock") as [->|Hp]; simpl; [naive_solver|].
  destruct (Supported (Provider (sc_ACME c))); simpl;
    destruct (String.eqb_spec (ChallengeType (sc_ACME c)) "dns") as [Hd|Hd];
    rewrite ?Hd; simpl; try naive_solver.
  - destruct (sc_DnsProvider c) as [p|]; [|naive_solver]. rewrite DnsProvider_Validate_ok. naive_solver.
  - destruct (String.eqb_spec (ChallengeType (sc_ACME c)) "http") as [Hh|Hh];
      rewrite ?Hh; simpl; [|case_match; naive_solver].
    destruct (sc_HttpProvider c) as [p|]; [|naive_solver]. rewrite HttpProvider_Validate_ok. naive_solver.
  - case_match; [naive_solver|]. case_match; naive_solver.
Qed.

(** The accepted server configurations. *)
Record ServerConfig_ok (fe : string → bool) (c : ServerConfig) : Prop := {
  ok_allowed : AllowedDomains (sc_ACME c) ≠ [];
  ok_challenge : Provider (sc_ACME c) = "mock" ∨ challenge_ok c;
  ok_lifetime : ∃ d, ParseDuration (CertLifeTime (sc_ACME c)) = Ok d;
  ok_renewLeft : ∃ d, ParseDuration (RenewTimeLeft (sc_ACME c)) = Ok d;
  ok_names : HttpEnabled (sc_HttpServer c) = true → Secure (sc_HttpServer c) = true →
             HttpNames (sc_HttpServer c) ≠ [];
  ok_mtls : needsMTLS c = true → sc_MTLS_PEM c ≠ "" ∧ fe (sc_MTLS_PEM c) = true;
}.

Lemma parseDuration_None c c' :
  parseDuration c = (c', None) ↔
  ∃ d d', ParseDuration (CertLifeTime (sc_ACME c)) = Ok d ∧
    ParseDuration (RenewTimeLeft (sc_ACME c)) = Ok d' ∧
    c' = set_ACME (set_renewLeft d' (set_lifetime d (sc_ACME c))) c.
Proof.
  unfold parseDuration. simpl.
  destruct (ParseDuration (CertLifeTime (sc_ACME c))); [|naive_solver].
  destruct (ParseDuration (RenewTimeLeft (sc_ACME c))); naive_solver.
Qed.

Lemma HttpServer_Validate_None h :
  snd (HttpServerConfig_Validate h) = None ↔
  (HttpEnabled h = true → Secure h = true → HttpNames h ≠ []).
Proof.
  unfold HttpServerConfig_Validate.
  destruct (HttpEnabled h), (Secure h) eqn:Es, (HttpNames h) eqn:En, (HasPrefix (APIPath h) "/");
    simpl; rewrite ?Es, ?En; simpl; naive_solver.
Qed.

Lemma HttpServer_Validate_keeps h :
  let h' := fst (HttpServerConfig_Validate h) in
  HttpEnabled h' = HttpEnabled h ∧ AuthMethod h' = AuthMethod h ∧ HttpNames h' = HttpNames h ∧
  HttpToken h' = HttpToken h ∧ Secure h' = Secure h ∧
  (HttpEnabled h = true → HasPrefix (APIPath h') "/" = true).
Proof.
  unfold HttpServerConfig_Validate. destruct (HttpEnabled h) eqn:Ee; simpl; [|by split_all].
  destruct (HasPrefix (APIPath h) "/") eqn:Hp; simpl; case_match; simpl; split_all; try done;
    intros _; apply HasPrefix_spec; by exists (APIPath h).
Qed.

Lemma GRPCServerConfig_Validate_None g : GRPCServerConfig_Validate g = None.
Proof. unfold GRPCServerConfig_Validate. by case_match. Qed.

(** Acceptance, shared by the theorems below. *)
Lemma ServerConfig_accept_iff fe c :
  snd (ServerConfig_Validate fe c) = None ↔ ServerConfig_ok fe c.
Proof.
  unfold ServerConfig_Validate.
  destruct (parseDuration c) as [c1 e1] eqn:E1.
  destruct (HttpServerConfig_Validate (sc_HttpServer c1)) as [h e2] eqn:E2.
  assert (Hsame : sc_HttpServer c1 = sc_HttpServer c ∧ sc_GRPCSDSServer c1 = sc_GRPCSDSServer c ∧
    sc_MTLS_PEM c1 = sc_MTLS_PEM c).
  { unfold parseDuration in E1. simp_match; done. }
  destruct Hsame as (Hh&Hg&Hpem). rewrite Hh in E2.
  pose proof (HttpServer_Validate_None (sc_HttpServer c)) as Hn.
  destruct (HttpServer_Validate_keeps (sc_HttpServer c)) as (K1&K2&_). rewrite E2 in *. simpl in *.
  assert (Hm : needsMTLS (set_HttpServer h c1) = needsMTLS c).
  { unfold needsMTLS. simpl. by rewrite Hg, K1, K2. }
  assert (Hd : e1 = None ↔ (∃ d, ParseDuration (CertLifeTime (sc_ACME c)) = Ok d) ∧
                           (∃ d, ParseDuration (RenewTimeLeft (sc_ACME c)) = Ok d)).
  { split.
    - intros ->. apply parseDuration_None in E1 as (d&d'&?&?&_). eauto.
    - intros [[d Hd] [d' Hd']]. unfold parseDuration in E1. simpl in E1. rewrite Hd, Hd' in E1.
      by simplify_eq. }
  rewrite Hm, Hpem, errorsJoin_None.
  rewrite ?GRPCServerConfig_Validate_None, ?Hpem.
  pose proof (acme_errors_ok c) as HA.
  destruct (needsMTLS c) eqn:Em; rewrite ?collect_nil.
  - assert (HM : MTLSConfig_Validate fe (sc_MTLS_PEM c) = None ↔
      sc_MTLS_PEM c ≠ "" ∧ fe (sc_MTLS_PEM c) = true).
    { unfold MTLSConfig_Validate. destruct (String.eqb_spec (sc_MTLS_PEM c) ""), (fe (sc_MTLS_PEM c));
        simpl; naive_solver. }
    split; [intros; split | intros []]; naive_solver.
  - split; [intros; split | intros []]; naive_solver congruence.
Qed.

(** [ServerConfig.Validate] accepts exactly the well-formed
    configurations: an allow-list, either the mock provider or a supported one
    with a complete challenge section, two parseable durations, names for a
    secure listener and an existing bundle whenever mTLS is used. *)
Theorem ServerConfig_Validate_spec fe c :
  snd (ServerConfig_Validate fe c) = None ↔ ServerConfig_ok fe c.
Proof. apply ServerConfig_accept_iff. Qed.

(** An accepted configuration is normalised in place: its durations are
    the parsed texts, the API path of an enabled listener starts with a slash,
    and nothing else of what the server runs on is changed. *)
Theorem ServerConfig_Validate_normalises fe c c' :
  ServerConfig_Validate fe c = (c', None) →
  ParseDuration (CertLifeTime (sc_ACME c)) = Ok (CertLifeTimeDuration (sc_ACME c')) ∧
  ParseDuration (RenewTimeLeft (sc_ACME c)) = Ok (RenewTimeLeftDuration (sc_ACME c')) ∧
  AllowedDomains (sc_ACME c') = AllowedDomains (sc_ACME c) ∧
  HttpToken (sc_HttpServer c') = HttpToken (sc_HttpServer c) ∧
  (HttpEnabled (sc_HttpServer c') = true → HasPrefix (APIPath (sc_HttpServer c')) "/" = true).
Proof.
  intros H. assert (Hok : snd (ServerConfig_Validate fe c) = None) by by rewrite H.
  apply ServerConfig_accept_iff in Hok as [_ _ [d Hd] [d' Hd'] _ _].
  unfold ServerConfig_Validate in H.
  destruct (parseDuration c) as [c1 e1] eqn:E1.
  unfold parseDuration in E1. simpl in E1. rewrite Hd, Hd' in E1. simplify_eq/=.
  destruct (HttpServer_Validate_keeps (sc_HttpServer c)) as (K1&_&_&K4&_&K6).
  destruct (HttpServerConfig_Validate (sc_HttpServer c)) as [h e2]. simplify_eq/=.
  split_all; try done. by rewrite K1.
Qed.

Definition exampleServerConfig : ServerConfig :=
  mkServerConfig (mkACMEConfig "dns" "" "mock" 5 "168h" "24h" ["example.com"] 0 0) ∅ None None ""
    (mkHttpServerConfig true ":10001" "api" "token" false [] "secret") (mkGRPCServerConfig false "").

Lemma ServerConfig_Validate_normalises_witness :
  ∃ c', ServerConfig_Validate (λ _, false) exampleServerConfig = (c', None) ∧
    ParseDuration "168h" = Ok (CertLifeTimeDuration (sc_ACME c')).
Proof.
  eexists. split; [vm_compute; reflexivity|].
  refine (proj1 (ServerConfig_Validate_normalises (λ _, false) exampleServerConfig _ _)).
  vm_compute. reflexivity.
Defined.

(** The documented default provider is not a default: a server
    configuration that sets everything but [ACME.provider] after [SetDefault]
    is always rejected. *)
Theorem default_provider_rejected fe c c' :
  Provider (sc_ACME c') = Provider (sc_ACME (ServerConfig_SetDefault c)) →
  snd (ServerConfig_Validate fe c') ≠ None.
Proof.
  simpl. intros Hp H. apply ServerConfig_accept_iff in H as [_ [Hm|[Hs _]] _ _ _ _].
  - by rewrite Hm in Hp.
  - rewrite Hp in Hs. vm_compute in Hs. discriminate.
Qed.

Lemma default_provider_rejected_witness :
  snd (ServerConfig_Validate (λ _, true) (ServerConfig_SetDefault zeroServerConfig)) ≠ None.
Proof. by apply (default_provider_rejected _ zeroServerConfig). Defined.

(** The accepted client configurations. *)
Definition mode_ok (fe : string → bool) (c : ClientConfig) : Prop :=
  let http_ok s := ClientAuthMethod s = "mtls" → fe (HttpPEM s) = true in
  (Mode (Common c) = "http" ∧ Url (HttpMain c) ≠ "" ∧ http_ok (HttpMain c) ∧
     (Url (HttpStandby c) ≠ "" → http_ok (HttpStandby c))) ∨
  (Mode (Common c) = "grpc" ∧ GServer (GrpcMain c) ≠ "" ∧ fe (GrpcPEM (GrpcMain c)) = true ∧
     (GServer (GrpcStandby c) ≠ "" → fe (GrpcPEM (GrpcStandby c)) = true)).

Definition cert_ok (emptyPath : bool) (x : ClientCertification) : Prop :=
  cc_Domains x ≠ [] ∧ cc_Name x ≠ "" ∧ (cc_SavePath x ≠ "" ∨ emptyPath = true).

Lemma ClientCertification_Validate_ok o x :
  ClientCertification_Validate o x = None ↔ cert_ok (acceptEmptyCertificateSavePath o) x.
Proof.
  unfold ClientCertification_Validate, cert_ok.
  destruct (String.eqb_spec (cc_SavePath x) ""), (String.eqb_spec (cc_Name x) ""),
    (cc_Domains x), (acceptEmptyCertificateSavePath o); simpl; naive_solver.
Qed.

Lemma collect_certs_nil o certs ret :
  foldl (λ ret cert, collect ret (ClientCertification_Validate o cert)) ret certs = [] ↔
  ret = [] ∧ Forall (cert_ok (acceptEmptyCertificateSavePath o)) certs.
Proof.
  revert ret. induction certs as [|x certs IH]; intros ret; simpl.
  - split; [by intros ->; auto | by intros []].
  - rewrite IH, collect_nil, ClientCertification_Validate_ok, Forall_cons. naive_solver.
Qed.

Lemma validateHttpMode_ok fe c :
  validateHttpMode fe c = None ↔
  Url (HttpMain c) ≠ "" ∧ (ClientAuthMethod (HttpMain c) = "mtls" → fe (HttpPEM (HttpMain c)) = true) ∧
  (Url (HttpStandby c) ≠ "" → ClientAuthMethod (HttpStandby c) = "mtls" → fe (HttpPEM (HttpStandby c)) = true).
Proof.
  unfold validateHttpMode, ClientHttpServer_Validate, ClientMtlsConfig_Validate, HTTP_AUTH_MTLS.
  destruct (String.eqb_spec (Url (HttpMain c)) ""), (String.eqb_spec (Url (HttpStandby c)) ""),
    (String.eqb_spec (ClientAuthMethod (HttpMain c)) "mtls"),
    (String.eqb_spec (ClientAuthMethod (HttpStandby c)) "mtls"),
    (fe (HttpPEM (HttpMain c))), (fe (HttpPEM (HttpStandby c))); simpl; naive_solver.
Qed.

Lemma validateGrpcMode_ok fe c :
  validateGrpcMode fe c = None ↔
  GServer (GrpcMain c) ≠ "" ∧ fe (GrpcPEM (GrpcMain c)) = true ∧
  (GServer (GrpcStandby c) ≠ "" → fe (GrpcPEM (GrpcStandby c)) = true).
Proof.
  unfold validateGrpcMode, ClientGRPCServer_Validate, ClientMtlsConfig_Validate.
  destruct (String.eqb_spec (GServer (GrpcMain c)) ""), (String.eqb_spec (GServer (GrpcStandby c)) ""),
    (fe (GrpcPEM (GrpcMain c))), (fe (GrpcPEM (GrpcStandby c))); simpl; naive_solver.
Qed.

Lemma mode_ok_http fe c : Mode (Common c) = "http" → mode_ok fe c ↔ validateHttpMode fe c = None.
Proof. intros Hm. rewrite validateHttpMode_ok. unfold mode_ok. rewrite Hm. intuition discriminate. Qed.

Lemma mode_ok_grpc fe c : Mode (Common c) = "grpc" → mode_ok fe c ↔ validateGrpcMode fe c = None.
Proof. intros Hm. rewrite validateGrpcMode_ok. unfold mode_ok. rewrite Hm. intuition discriminate. Qed.

Lemma mode_ok_other fe c :
  Mode (Common c) ≠ "http" → Mode (Common c) ≠ "grpc" → mode_ok fe c ↔ False.
Proof. intros H1 H2. unfold mode_ok. tauto. Qed.

(** [ClientConfig.Validate] accepts exactly the configurations with a
    parseable reconnect interval, complete certificates (a missing save path
    or an empty list only under the caller's options) and a mode whose main
    server is set and whose bundles exist. *)
Theorem ClientConfig_Validate_spec fe opts c :
  let o := applyOptions opts in
  snd (ClientConfig_Validate fe opts c) = None ↔
  (∃ d, ParseDuration (ReconnectInterval (Common c)) = Ok d) ∧
  (Certifications c = [] → acceptEmptyCertificatesList o = true) ∧
  Forall (cert_ok (acceptEmptyCertificateSavePath o)) (Certifications c) ∧
  mode_ok fe c.
Proof.
  intros o. unfold ClientConfig_Validate. fold o. clearbody o.
  destruct (client_parseDuration c) as [c1 e1] eqn:E1.
  assert (Hs : Certifications c1 = Certifications c ∧ Mode (Common c1) = Mode (Common c) ∧
    HttpMain c1 = HttpMain c ∧ HttpStandby c1 = HttpStandby c ∧ GrpcMain c1 = GrpcMain c ∧
    GrpcStandby c1 = GrpcStandby c ∧
    (e1 = None ↔ ∃ d, ParseDuration (ReconnectInterval (Common c)) = Ok d)).
  { unfold client_parseDuration in E1.
    destruct (ParseDuration (ReconnectInterval (Common c))) as [d|e]; simplify_eq/=;
      split_all; try done; split; [eauto | done | done | by intros [? ?]]. }
  destruct Hs as (Hc&Hm&H1&H2&H3&H4&He). simpl. rewrite Hc, Hm, errorsJoin_None.
  assert (Hh : validateHttpMode fe c1 = validateHttpMode fe c)
    by (unfold validateHttpMode; rewrite H1, H2; done).
  assert (Hg : validateGrpcMode fe c1 = validateGrpcMode fe c)
    by (unfold validateGrpcMode; rewrite H3, H4; done).
  set (ret1 := if _ && _ then _ else _).
  assert (Hr : ret1 = [] ↔ e1 = None ∧ (Certifications c = [] → acceptEmptyCertificatesList o = true)).
  { unfold ret1. destruct (Certifications c), (acceptEmptyCertificatesList o); simpl;
      rewrite ?snoc_not_nil, ?collect_nil; naive_solver. }
  unfold CLIENT_MODE_HTTP, CLIENT_MODE_GRPC.
  destruct (String.eqb_spec (Mode (Common c)) "http") as [Hm1|Hm1];
    [rewrite (mode_ok_http fe c Hm1)|destruct (String.eqb_spec (Mode (Common c)) "grpc") as [Hm2|Hm2];
      [rewrite (mode_ok_grpc fe c Hm2)|rewrite (mode_ok_other fe c Hm1 Hm2)]];
    rewrite ?collect_nil, ?snoc_not_nil, ?collect_certs_nil, ?Hr, ?Hh, ?Hg, ?He; tauto.
Qed.
