(* ===== verification/Paths.v ===== *)
(** pkg/paths: where the program keeps its files, with the lexical path
    functions of the standard library it uses ([Clean], [Join], [Dir], [Base],
    Unix rules), and the save paths of a client certification. *)

From Stdlib Require Import ZArith Lia Ascii.
From stdpp Require Import base option list strings.
From S2P Require Import Prelude.
From S2P Require Import GoStd.
From S2P Require Import Sys.
From S2P Require Import Config.

Open Scope Z_scope.

(** ** path/filepath *)

(** The effect of one path element on the cleaned elements (innermost first):
    "" and "." vanish, ".." removes an element, or is dropped at the root, or
    is kept at the front of a relative path. *)
Definition clean_elem (rooted : bool) (out : list string) (e : string) : list string :=
  if String.eqb e "" || String.eqb e "." then out
  else if String.eqb e ".." then
    match out with
    | x :: out' => if String.eqb x ".." then ".." :: out else out'
    | [] => if rooted then [] else [".."]
    end
  else e :: out.

Definition rooted (p : string) : bool := HasPrefix p "/".

Definition clean_elems (p : string) : list string :=
  reverse (foldl (clean_elem (rooted p)) [] (Split1 p slash)).

(** [filepath.Clean] *)
Definition Clean (p : string) : string :=
  if String.eqb p "" then "."
  else
    let r := (if rooted p then "/" else "") +:+ Join (clean_elems p) "/" in
    if String.eqb r "" then "." else r.

(** [filepath.Join]: empty elements are dropped, the rest is cleaned. *)
Definition PathJoin (elem : list string) : string :=
  match filter (λ e, e ≠ "") elem with
  | [] => ""
  | es => Clean (Join es "/")
  end.

(** The path up to and including its last slash, and what follows it. *)
Fixpoint last_slash (s : string) : option (string * string) :=
  match s with
  | EmptyString => None
  | String a s' =>
      match last_slash s' with
      | Some (d, b) => Some (String a d, b)
      | None => if Ascii.eqb a slash then Some (String a EmptyString, s') else None
      end
  end.

(** [filepath.Dir] *)
Definition Dir (p : string) : string :=
  match last_slash p with Some (d, _) => Clean d | None => Clean "" end.

Fixpoint trim_slashes (s : string) : string :=
  match s with
  | EmptyString => EmptyString
  | String a s' =>
      match trim_slashes s' with
      | EmptyString => if Ascii.eqb a slash then EmptyString else String a EmptyString
      | r => String a r
      end
  end.

(** [filepath.Base] *)
Definition Base (p : string) : string :=
  if String.eqb p "" then "."
  else
    let s := trim_slashes p in
    let b := match last_slash s with Some (_, b) => b | None => s end in
    if String.eqb b "" then "/" else b.

(** ** paths.go *)

Definition MtlsCertificateDir : string := "mtls".
Definition ACMEPrivateKeyDir : string := "private".
Definition ServerCacheFile : string := "cache.json".
Definition fhsConfigDir : string := "/etc/certdx".
Definition fhsStateDir : string := "/var/lib/certdx".

(** What the process knows of itself: [runtime.GOOS], [os.Executable] and
    [filepath.EvalSymlinks]. *)
Class ProcessEnv (W : Type) := {
  GOOS : W → string;
  Executable : W → result string;
  EvalSymlinks : string → W → result string;
}.

(** The package variable [dataDirOverride] at first, and its assignment. *)
Definition noOverride : string := "".
Definition SetDataDir (dir dataDirOverride : string) : string := dir.

Section Paths.
Context {W : Type} `{ProcessEnv W} `{FileSystem W}.

Variable dataDirOverride : string.

Definition isFHSInstall (w : W) : bool :=
  if negb (String.eqb (GOOS w) "linux") then false
  else match Executable w with
  | Err _ => false
  | Ok exe =>
      let d := Dir exe in
      String.eqb d "/usr/bin" || String.eqb d "/usr/sbin"
      || String.eqb d "/usr/local/bin" || String.eqb d "/usr/local/sbin"
  end.

Definition localBaseDir (w : W) : result string :=
  match Executable w with
  | Err e => Err e
  | Ok exe =>
      let exe := match EvalSymlinks exe w with Ok r => r | Err _ => exe end in
      Ok (Dir exe)
  end.

Definition configRoot (w : W) : result string :=
  if negb (String.eqb dataDirOverride "") then Ok dataDirOverride
  else if isFHSInstall w then Ok fhsConfigDir else localBaseDir w.

Definition stateRoot (w : W) : result string :=
  if negb (String.eqb dataDirOverride "") then Ok dataDirOverride
  else if isFHSInstall w then Ok fhsStateDir else localBaseDir w.

(** [os.Chmod] of a directory changes no content; it can fail. *)
Definition Chmod (p : string) (mode : Z) (w : W) : option error * W := TmpChmod p mode w.

Definition MtlsDir (w : W) : result string * W :=
  match configRoot w with
  | Err e => (Err e, w)
  | Ok root =>
      let dir := PathJoin [root; MtlsCertificateDir] in
      let '(err, w) := MkdirAll dir w in
      match err with
      | Some e => (Err e, w)
      | None =>
          let '(err, w) := Chmod dir 448 w in
          match err with Some e => (Err e, w) | None => (Ok dir, w) end
      end
  end.

Definition MtlsCAPath (w : W) : result string * W :=
  let '(r, w) := MtlsDir w in
  match r with Err e => (Err e, w) | Ok dir => (Ok (PathJoin [dir; "ca.pem"]), w) end.

Definition CACounterPath (w : W) : result string * W :=
  let '(r, w) := MtlsDir w in
  match r with Err e => (Err e, w) | Ok dir => (Ok (PathJoin [dir; "counter.txt"]), w) end.

Definition MtlsBundlePath (name : string) (w : W) : result string * W :=
  let '(r, w) := MtlsDir w in
  match r with Err e => (Err e, w) | Ok dir => (Ok (PathJoin [dir; name +:+ ".pem"]), w) end.

Definition ACMEPrivateKey (email acmeProvider : string) (w : W) : result string * W :=
  match stateRoot w with
  | Err e => (Err e, w)
  | Ok root =>
      let saveDir := PathJoin [root; ACMEPrivateKeyDir] in
      let '(err, w) := MkdirAll saveDir w in
      match err with
      | Some e => (Err (EWrap "cannot create path: %s to save account key: %w" e), w)
      | None => (Ok (PathJoin [saveDir; email +:+ "_" +:+ acmeProvider +:+ ".key"]), w)
      end
  end.

Definition ServerCachePath (w : W) : result string * W :=
  match stateRoot w with
  | Err e => (Err e, w)
  | Ok root =>
      let '(err, w) := MkdirAll root w in
      match err with
      | Some e => (Err e, w)
      | None => (Ok (PathJoin [root; ServerCacheFile]), w)
      end
  end.
End Paths.

(** [ClientCertification.GetFullChainAndKeyPath] of pkg/config. *)
Definition GetFullChainAndKeyPath (c : ClientCertification) : result (string * string) :=
  if (slen (cc_SavePath c) =? 0)%nat || (slen (cc_Name c) =? 0)%nat
  then Err (EText "empty save path")
  else Ok (PathJoin [cc_SavePath c; cc_Name c +:+ ".pem"],
           PathJoin [cc_SavePath c; cc_Name c +:+ ".key"]).

Example Clean_examples :
  Clean <$> ["a//b"; "a/./b/"; "/../a"; "../../a/../b"; "/"; ""; "a/.."; "/a/b/../.."]
    = ["a/b"; "a/b"; "/a"; "../../b"; "/"; "."; "."; "/"].
Proof. vm_compute. reflexivity. Qed.

Example Dir_Base_examples :
  (Dir <$> ["/usr/bin/certdx"; "x"; "/x"; "a/b/"; ""]) = ["/usr/bin"; "."; "/"; "a/b"; "."] ∧
  (Base <$> ["/usr/bin/certdx"; "x"; "/"; "a/b//"; ""]) = ["certdx"; "x"; "/"; "b"; "."].
Proof. vm_compute. done. Qed.

Example save_paths :
  GetFullChainAndKeyPath (mkClientCertification "web" "/etc/ssl/./site" ["example.com"] "")
    = Ok ("/etc/ssl/site/web.pem", "/etc/ssl/site/web.key").
Proof. vm_compute. reflexivity. Qed.

(** ** Facts *)

Lemma Split1_not_nil s a : Split1 s a ≠ [].
Proof.
  induction s as [|b s IH]; simpl; [done|]. destruct (Ascii.eqb b a); [done|].
  by destruct (Split1 s a).
Qed.

Lemma Split1_app s t a :
  Split1 (s +:+ String a t) a = Split1 s a ++ Split1 t a.
Proof.
  induction s as [|b s IH].
  - rewrite app_nil_string. simpl. by rewrite Ascii.eqb_refl.
  - rewrite app_String. simpl. rewrite IH. destruct (Ascii.eqb b a); [done|].
    pose proof (Split1_not_nil s a). by destruct (Split1 s a).
Qed.

(** The last element of a split keeps a suffix without separators. *)
Lemma Split1_suffix n a : ∃ l x, has_byte a x = false ∧
  ∀ suf, Split1 suf a = [suf] → Split1 (n +:+ suf) a = l ++ [x +:+ suf].
Proof.
  induction n as [|b n (l&x&Hx&E)].
  - exists [], "". split; [done|]. intros suf Hs. by rewrite !app_nil_string.
  - destruct (Ascii.eqb b a) eqn:Eb.
    + exists ("" :: l), x. split; [done|]. intros suf Hs.
      rewrite app_String. simpl. by rewrite (E suf Hs), Eb.
    + destruct l as [|w l].
      * exists [], (String b x). split.
        { simpl. rewrite Hx, orb_false_r. rewrite Ascii.eqb_sym. done. }
        intros suf Hs. rewrite !app_String. simpl. by rewrite (E suf Hs), Eb.
      * exists (String b w :: l), x. split; [done|]. intros suf Hs.
        rewrite app_String. simpl. by rewrite (E suf Hs), Eb.
Qed.

(** The directory part of a path: empty or ending with a slash. *)
Definition dir_part (d : string) : Prop := d = "" ∨ ∃ d', d = d' +:+ "/".

Lemma dir_part_app p d : dir_part p → dir_part d → dir_part (p +:+ d).
Proof.
  intros Hp [->|[d' ->]].
  - by rewrite app_nil_r_string.
  - right. exists (p +:+ d'). by rewrite app_string_assoc.
Qed.

Lemma Join_snoc l y : ∃ q, dir_part q ∧ Join (l ++ [y]) "/" = q +:+ y.
Proof.
  unfold Join. induction l as [|x l (q&Hq&E)]; simpl; [by exists ""; split; [left|]|].
  destruct (l ++ [y]) as [|z r] eqn:Er; [by destruct l|].
  exists ((x +:+ "/") +:+ q). split.
  - apply dir_part_app; [right; by exists x | done].
  - rewrite E. by rewrite !app_string_assoc.
Qed.

Lemma app_nonempty x y : y ≠ "" → x +:+ y ≠ "".
Proof. intros Hy. destruct x; [by rewrite app_nil_string | by rewrite app_String]. Qed.

Lemma slen_lt_ne x y : (slen x < slen y)%nat → y ≠ x.
Proof. intros H ->. lia. Qed.

(** Cleaning keeps the extension of a file name; the name itself is what
    follows the last slash of the configured one. *)
Lemma PathJoin_file s n : s ≠ "" → ∃ x, has_byte slash x = false ∧
  ∀ suf, (2 < slen suf)%nat → Split1 suf slash = [suf] →
    ∃ d, dir_part d ∧ PathJoin [s; n +:+ suf] = d +:+ (x +:+ suf).
Proof.
  intros Hs. destruct (Split1_suffix n slash) as (l&x&Hx&E). exists x. split; [done|].
  intros suf Hlen Hsuf.
  assert (Hne : suf ≠ "") by (intros ->; simpl in Hlen; lia).
  unfold PathJoin. rewrite !filter_cons_True by (done || by apply app_nonempty).
  assert (Ej : Join [s; n +:+ suf] "/" = s +:+ String slash (n +:+ suf)) by reflexivity.
  rewrite filter_nil, Ej. unfold Clean.
  set (p := s +:+ String slash (n +:+ suf)).
  assert (Hp : p ≠ "") by (unfold p; apply app_nonempty; done).
  apply String.eqb_neq in Hp. rewrite Hp.
  assert (Hc : ∃ es, clean_elems p = es ++ [x +:+ suf]).
  { unfold clean_elems. unfold p at 2. rewrite Split1_app, (E suf Hsuf), app_assoc, foldl_app. simpl.
    unfold clean_elem at 1.
    assert (Hy : ∀ y, (slen y ≤ 2)%nat → x +:+ suf ≠ y)
      by (intros y Hy; apply slen_lt_ne; rewrite slen_app; lia).
    rewrite !(proj2 (String.eqb_neq (x +:+ suf) _)) by (apply Hy; simpl; lia). simpl.
    rewrite reverse_cons. eauto. }
  destruct Hc as [es ->]. destruct (Join_snoc es (x +:+ suf)) as (q&Hq&Eq). rewrite Eq.
  set (pre := if rooted p then _ else _).
  rewrite (proj2 (String.eqb_neq _ _)) by (by do 3 apply app_nonempty).
  exists (pre +:+ q). split; [|by rewrite app_string_assoc].
  apply dir_part_app; [|done]. unfold pre. destruct (rooted p); [right; by exists ""|by left].
Qed.

Lemma Clean_ne p : Clean p ≠ "".
Proof.
  unfold Clean. destruct (String.eqb p ""); [done|].
  destruct (String.eqb _ "") eqn:E; [done|]. by apply String.eqb_neq in E.
Qed.

Lemma PathJoin_ne a b : b ≠ "" → PathJoin [a; b] ≠ "".
Proof.
  intros Hb. unfold PathJoin. destruct (filter _ _) as [|x l] eqn:E; [|apply Clean_ne].
  exfalso. assert (H : b ∈ filter (λ e, e ≠ "") [a; b]) by (apply list_elem_of_filter; split; [done|by right; left]).
  rewrite E in H. by apply not_elem_of_nil in H.
Qed.

Lemma PathJoin_suffix s n suf :
  s ≠ "" → (2 < slen suf)%nat → Split1 suf slash = [suf] →
  ∃ q, PathJoin [s; n +:+ suf] = q +:+ suf.
Proof.
  intros Hs Hl Hsuf. destruct (PathJoin_file s n Hs) as (x&_&H).
  destruct (H suf Hl Hsuf) as (d&_&->). exists (d +:+ x). by rewrite app_string_assoc.
Qed.

Lemma suffix_inj q q' s s' : slen s = slen s' → q +:+ s = q' +:+ s' → s = s'.
Proof.
  intros Hl E. assert (slen q = slen q') as Hq.
  { apply (f_equal slen) in E. rewrite !slen_app in E. lia. }
  apply (f_equal (str_drop (slen q))) in E. rewrite str_drop_app, Hq, str_drop_app in E. done.
Qed.

(** The certificate and the key of a client certification are never
    written to the same file, whatever the name and the save path, and both
    keep their extensions; a path is missing exactly when the save path or
    the name is empty. *)
Theorem save_paths_distinct c :
  (GetFullChainAndKeyPath c = Err (EText "empty save path") ∧ (cc_SavePath c = "" ∨ cc_Name c = "")) ∨
  ∃ fullchain key, GetFullChainAndKeyPath c = Ok (fullchain, key) ∧ fullchain ≠ key ∧
    HasSuffix fullchain ".pem" = true ∧ HasSuffix key ".key" = true.
Proof.
  unfold GetFullChainAndKeyPath.
  assert (Hz : ∀ s, (slen s =? 0)%nat = true ↔ s = "") by (intros []; simpl; split; done).
  destruct (slen (cc_SavePath c) =? 0)%nat eqn:Es; simpl.
  { left. split; [done|]. left. by apply Hz. }
  destruct (slen (cc_Name c) =? 0)%nat eqn:En.
  { left. split; [done|]. right. by apply Hz. }
  right. assert (Hs : cc_SavePath c ≠ "") by (intros E; apply Hz in E; congruence).
  destruct (PathJoin_suffix (cc_SavePath c) (cc_Name c) ".pem") as [q Eq]; [done|simpl; lia|done|].
  destruct (PathJoin_suffix (cc_SavePath c) (cc_Name c) ".key") as [q' Eq']; [done|simpl; lia|done|].
  eexists _, _. rewrite Eq, Eq'. split_all; [done| |apply HasSuffix_spec; eauto..].
  intros E. by apply suffix_inj in E.
Qed.

(** With a data directory set, both roots are that directory. *)
Lemma data_dir_roots {W} `{ProcessEnv W} d (w : W) :
  d ≠ "" → configRoot d w = Ok d ∧ stateRoot d w = Ok d.
Proof. intros Hd. unfold configRoot, stateRoot. by rewrite (proj2 (String.eqb_neq d "") Hd). Qed.
