(* ===== verification/Retry.v ===== *)
(** pkg/retry: [Do] runs a closure up to [retryCount+1] times.  The closure
    acts on a world [W]; the runtime services it is interleaved with (the
    context, the clock and the two-way select of the sleep) are the interface
    [Runtime W].  [Do_spec] gives the exact shape of every run. *)

From Stdlib Require Import ZArith Lia.
From stdpp Require Import base option list strings.
From S2P Require Import Prelude.
From S2P Require Import GoStd.

Open Scope Z_scope.

(** What a goroutine that holds a context observes of the runtime:
    [ctxErr] is [ctx.Err()], [timeNow] is [time.Now()], and [selectAfter d] is
    [select { case <-time.After(d): case <-ctx.Done(): }], [true] when the
    timer branch is taken. *)
Class Runtime (W : Type) := {
  ctxErr : W → option error;
  timeNow : W → Time;
  selectAfter : Duration → W → bool * W;
}.

(** The documented behaviour of contexts and timers: the Done branch is taken
    only for a finished context, and a finished context stays finished with
    the same error. *)
Class RuntimeLaws (W : Type) `{Runtime W} := {
  select_done d w w' : selectAfter d w = (false, w') → is_Some (ctxErr w');
  select_sticky d w b w' e : selectAfter d w = (b, w') → ctxErr w = Some e → ctxErr w' = Some e;
}.

Definition Interval : Duration := 15 * Second.
Definition fastFailThreshold : Duration := Second.

Definition err_fast : string := "errored too fast, give up retry. last error is: %w".
Definition err_many : string := "errored too many times, give up retry. last error is: %w".
Definition err_cancelled : string := "retry cancelled: %w".

(** [fmt.Errorf(msg, err)] with a [%w] verb; a nil operand prints as text. *)
Definition wrapErr (msg : string) (e : option error) : error :=
  match e with Some e => EWrap msg e | None => EText "%!w(<nil>)" end.

Section Retry.
Context {W : Type} `{RT : Runtime W}.
Variable retryCount : Z.
Variable work : W → option error * W.

(** The [for attempt := 0; ; attempt++] loop; [None] when [fuel] runs out. *)
Fixpoint doLoop (fuel : nat) (attempt : Z) (w : W) : option (option error * W) :=
  match fuel with
  | O => None
  | S fuel' =>
      let begin := timeNow w in
      let '(err, w1) := work w in
      match err with
      | None => Some (None, w1)
      | Some e =>
          if timeNow w1 - begin <? fastFailThreshold
          then Some (Some (wrapErr err_fast err), w1)
          else if retryCount <=? attempt
          then Some (Some (wrapErr err_many err), w1)
          else
            let '(fired, w2) := selectAfter Interval w1 in
            if fired then doLoop fuel' (attempt + 1) w2
            else Some (Some (wrapErr err_cancelled (ctxErr w2)), w2)
      end
  end.

(** At most [retryCount] retries follow the first attempt. *)
Definition doFuel : nat := S (Z.to_nat retryCount).

Definition Do (w : W) : option (option error * W) :=
  match ctxErr w with
  | Some e => Some (Some e, w)
  | None => doLoop doFuel 0 w
  end.

(** ** Specification *)

(** [k] attempts in a row that fail after the threshold, each followed by a
    complete sleep. *)
Inductive slow_fails : nat → W → W → Prop :=
| sf_nil w : slow_fails 0 w w
| sf_cons k w e w1 w2 w' :
    work w = (Some e, w1) →
    fastFailThreshold ≤ timeNow w1 - timeNow w →
    selectAfter Interval w1 = (true, w2) →
    slow_fails k w2 w' →
    slow_fails (S k) w w'.

(** How the last attempt, started in [w] after [k] retries, ends the run. *)
Inductive last_attempt (k : nat) (w : W) : option error * W → Prop :=
| la_success w1 : work w = (None, w1) → last_attempt k w (None, w1)
| la_fast e w1 :
    work w = (Some e, w1) → timeNow w1 - timeNow w < fastFailThreshold →
    last_attempt k w (Some (EWrap err_fast e), w1)
| la_many e w1 :
    work w = (Some e, w1) → fastFailThreshold ≤ timeNow w1 - timeNow w →
    retryCount ≤ Z.of_nat k →
    last_attempt k w (Some (EWrap err_many e), w1)
| la_cancelled e w1 w2 :
    work w = (Some e, w1) → fastFailThreshold ≤ timeNow w1 - timeNow w →
    Z.of_nat k < retryCount →
    selectAfter Interval w1 = (false, w2) →
    last_attempt k w (Some (wrapErr err_cancelled (ctxErr w2)), w2).

Lemma doLoop_spec fuel k0 w :
  (Z.to_nat retryCount < fuel + k0)%nat → (k0 ≤ Z.to_nat retryCount)%nat →
  ∃ k wk r, (k0 + k ≤ Z.to_nat retryCount)%nat ∧ slow_fails k w wk ∧
    last_attempt (k0 + k) wk r ∧ doLoop fuel (Z.of_nat k0) w = Some r.
Proof.
  revert k0 w. induction fuel as [|fuel IH]; intros k0 w Hf Hk; [lia|]. simpl.
  assert (Hstop : ∀ r, last_attempt k0 w r →
    ∃ k wk r', (k0 + k ≤ Z.to_nat retryCount)%nat ∧ slow_fails k w wk ∧
      last_attempt (k0 + k) wk r' ∧ Some r = Some r').
  { intros r Hr. exists 0%nat, w, r. rewrite Nat.add_0_r. eauto using slow_fails. }
  destruct (work w) as [[e|] w1] eqn:Hw; [|eauto using last_attempt].
  destruct (timeNow w1 - timeNow w <? fastFailThreshold) eqn:Ht; bool_simp;
    [eauto using last_attempt|].
  destruct (retryCount <=? Z.of_nat k0) eqn:Hc; bool_simp; [eauto using last_attempt|].
  destruct (selectAfter Interval w1) as [[] w2] eqn:Hs; [|eauto using last_attempt].
  destruct (IH (S k0) w2) as (k & wk & r & Hk' & Hsf & Hla & Hd); [lia..|].
  exists (S k), wk, r. replace (Z.of_nat k0 + 1) with (Z.of_nat (S k0)) by lia.
  replace (k0 + S k)%nat with (S k0 + k)%nat by lia. eauto using slow_fails.
Qed.

(** C36: [Do] always terminates.  With a context that is already done it
    returns the context's error and never runs the closure.  Otherwise it
    makes [k <= retryCount] attempts that fail slowly, each followed by a
    complete sleep, and one last attempt that succeeds, fails fast, exhausts
    the budget or is cancelled during its sleep: the closure runs at most
    [retryCount+1] times, and once when [retryCount] is not positive. *)
Theorem Do_spec w :
  match ctxErr w with
  | Some e => Do w = Some (Some e, w)
  | None => ∃ k wk r, (k ≤ Z.to_nat retryCount)%nat ∧ slow_fails k w wk ∧
              last_attempt k wk r ∧ Do w = Some r
  end.
Proof.
  unfold Do, doFuel. destruct (ctxErr w) eqn:Hc; [done|].
  destruct (doLoop_spec (S (Z.to_nat retryCount)) 0 w) as (k&wk&r&?&?&?&?); [lia..|].
  exists k, wk, r. done.
Qed.

Lemma Do_live w :
  ctxErr w = None →
  ∃ k wk r, (k ≤ Z.to_nat retryCount)%nat ∧ slow_fails k w wk ∧
    last_attempt k wk r ∧ Do w = Some r.
Proof.
  intros Hc. unfold Do, doFuel. rewrite Hc.
  destruct (doLoop_spec (S (Z.to_nat retryCount)) 0 w) as (k&wk&r&?&?&?&?); [lia..|].
  exists k, wk, r. done.
Qed.

Lemma Do_total w : is_Some (Do w).
Proof.
  destruct (ctxErr w) as [e|] eqn:E; [unfold Do; rewrite E; eauto|].
  destruct (Do_live w E) as (?&?&r&_&_&_&->). eauto.
Qed.

(** A nil error means that the last run of the closure, after at most
    [retryCount] failed ones, returned nil. *)
Lemma Do_success w w' :
  Do w = Some (None, w') →
  ∃ k wk, (k ≤ Z.to_nat retryCount)%nat ∧ slow_fails k w wk ∧ work wk = (None, w').
Proof.
  destruct (ctxErr w) as [e|] eqn:E; [unfold Do; rewrite E; done|]. intros H.
  destruct (Do_live w E) as (k&wk&r&?&Hs&Hl&Hd). simplify_eq. inversion Hl; subst. eauto.
Qed.

(** [errors.Is] sees through the error [Do] returns: it wraps either the
    error of the finished context or the error of the last attempt. *)
Theorem Do_error_chain `{!RuntimeLaws W} w e w' :
  Do w = Some (Some e, w') →
  ∃ c, (∀ s, errIs e s = errIs c s) ∧
    (ctxErr w' = Some c ∨ ∃ k wk, slow_fails k w wk ∧ work wk = (Some c, w')).
Proof.
  destruct (ctxErr w) as [e0|] eqn:E.
  { unfold Do. rewrite E. intros ?; simplify_eq. exists e. eauto. }
  intros H. destruct (Do_live w E) as (k&wk&r&_&Hs&Hl&Hd). simplify_eq.
  inversion Hl as [|c ? Hw|c ? Hw|c w1 w2 Hw _ _ Hsel]; subst.
  1,2: exists c; split; [done | right; eauto].
  destruct (select_done _ _ _ Hsel) as [c' Hc']. exists c'. rewrite Hc'. eauto.
Qed.
End Retry.

Arguments Do {W RT} retryCount work w : rename.

(** ** A simulated runtime *)

(** A clock and the instant at which the context is cancelled.  Waiting moves
    the clock; at a tie the Done branch is taken. *)
Record Sim := { sim_now : Time; sim_cancel : option Time }.

Definition sim_done (w : Sim) : bool :=
  match sim_cancel w with Some c => c <=? sim_now w | None => false end.

Definition sim_sleep (d : Duration) (w : Sim) : bool * Sim :=
  match sim_cancel w with
  | Some c =>
      if c <=? sim_now w + d
      then (false, {| sim_now := Z.max (sim_now w) c; sim_cancel := Some c |})
      else (true, {| sim_now := Z.max (sim_now w) (sim_now w + d); sim_cancel := Some c |})
  | None => (true, {| sim_now := Z.max (sim_now w) (sim_now w + d); sim_cancel := None |})
  end.

#[export] Instance Sim_Runtime : Runtime Sim := {
  ctxErr w := if sim_done w then Some (ESentinel Canceled) else None;
  timeNow := sim_now;
  selectAfter := sim_sleep;
}.

#[export] Instance Sim_RuntimeLaws : RuntimeLaws Sim.
Proof.
  split; intros d [n [c|]] w' *; unfold selectAfter, ctxErr; simpl;
    unfold sim_sleep, sim_done; simpl; intros H; simp_match; bool_simp; try done; lia.
Qed.

(** The runtime of a world paired with program state. *)
#[export] Instance prod_Runtime {W A} `{Runtime W} : Runtime (W * A) := {
  ctxErr w := ctxErr (fst w);
  timeNow w := timeNow (fst w);
  selectAfter d w := let '(b, w') := selectAfter d (fst w) in (b, (w', snd w));
}.

#[export] Instance prod_RuntimeLaws {W A} `{RuntimeLaws W} : RuntimeLaws (W * A).
Proof.
  split; intros d [w a] *; unfold selectAfter, ctxErr; simpl; intros Hs;
    destruct (selectAfter d w) as [b' w1] eqn:E; simplify_eq/=;
    [by eapply select_done | by eapply select_sticky].
Qed.

(** A closure that always fails after [d], counting its runs. *)
Definition failing (d : Duration) (e : error) (w : Sim * nat) : option error * (Sim * nat) :=
  let '(s, n) := w in
  (Some e, ({| sim_now := sim_now s + d; sim_cancel := sim_cancel s |}, S n)).

Example Do_counts :
  Do 3 (failing Second (EText "boom")) ({| sim_now := 0; sim_cancel := None |}, O)
    = Some (Some (EWrap err_many (EText "boom")),
            ({| sim_now := 49 * Second; sim_cancel := None |}, 4%nat)).
Proof. vm_compute. reflexivity. Qed.

Definition demo_start : Sim * nat :=
  ({| sim_now := 0; sim_cancel := Some (20 * Second) |}, O).

Definition demo_end : Sim * nat :=
  ({| sim_now := 20 * Second; sim_cancel := Some (20 * Second) |}, 2%nat).

Lemma Do_error_chain_witness :
  Do 5 (failing Second (EText "boom")) demo_start
    = Some (Some (EWrap err_cancelled (ESentinel Canceled)), demo_end) ∧
  ∃ c, (∀ s, errIs (EWrap err_cancelled (ESentinel Canceled)) s = errIs c s) ∧
      (ctxErr demo_end = Some c ∨
       ∃ k wk, slow_fails (failing Second (EText "boom")) k demo_start wk ∧
        failing Second (EText "boom") wk = (Some c, demo_end)).
Proof.
  assert (H : Do 5 (failing Second (EText "boom")) demo_start
    = Some (Some (EWrap err_cancelled (ESentinel Canceled)), demo_end))
    by (vm_compute; reflexivity).
  split; [exact H|]. exact (Do_error_chain 5 _ _ _ _ H).
Defined.
