(* ===== verification/Acme.v ===== *)
(** pkg/acme: the [Obtainer] interface the server is written against, its
    lego-backed implementation with retries, the mock implementation, the
    choice of the challenge solver and the ACME account key file.  The lego
    client, the challenge SDKs and the X.509/key primitives are interfaces. *)

From Stdlib Require Import ZArith Lia.
From stdpp Require Import base option list gmap strings.
From S2P Require Import Prelude.
From S2P Require Import GoStd.
From S2P Require Import Sys.
From S2P Require Import Net.
From S2P Require Import Config.
From S2P Require Import Paths.
From S2P Require Import Retry.

Open Scope Z_scope.

(** Certificate chain and private key, both PEM. *)
Definition CertKey : Type := string * string.

(** The interface: the context is part of the world. *)
Class Obtainer (W : Type) := {
  obtain : list string → Time → W → result CertKey * W;
  retryObtain : list string → Time → W → result CertKey * W;
}.

(** ** Third-party clients *)

Record ObtainRequest := mkObtainRequest {
  or_Domains : list string;
  or_Bundle : bool;
  or_NotAfter : Time;
}.

(** The cloudflare client configuration: a zone/auth token pair or the global
    e-mail/key pair with its timings. *)
Inductive CloudflareConfig :=
  | ZoneTokens (zoneToken authToken : string)
  | GlobalKey (email key : string) (ttl : Z) (propagation polling : Duration).

Inductive Challenger :=
  | Cloudflare (c : CloudflareConfig)
  | TencentCloud (secretID secretKey : string)
  | S3 (bucket : string) (c : S3Client).

(** An ACME account: e-mail and private key. *)
Record ACMEUser := mkACMEUser { u_Email : string; u_Key : string }.

(** go-acme/lego, and the key primitives of the standard library. *)
Class Lego (W : Type) := {
  Client : Type;
  NewClient : string → ACMEUser → W → result Client * W;      (* CADirURL *)
  CertObtain : Client → ObtainRequest → W → result CertKey * W;
  NewProvider : Challenger → option error;
  SetDNS01Provider : Client → Challenger → bool → W → option error * W;  (* disable full propagation *)
  SetHTTP01Provider : Client → Challenger → W → option error * W;
  ResolveAccountByKey : Client → W → option error * W;
  Register : Client → W → option error * W;
  RegisterEAB : Client → string → string → W → option error * W;         (* kid, hmac *)
  GoogleEAB : gmap string string → W → result (string * string) * W;     (* kid, hmac *)
  GenerateKey : W → result string * W;
  MarshalECPrivateKey : string → result string;                (* to PEM *)
  ParsePEMPrivateKey : string → result string;
  MarshalRegistration : W → option error;
}.

Record ACME {W} `{Lego W} := mkACME {
  a_Client : Client;
  a_retry : Z;
  needNotAfter : bool;
}.
Arguments mkACME {W _}.

(** ** acme.go *)

Section Acme.
Context {W : Type} `{RT : Runtime W} `{LG : Lego W}.

Definition Obtain (a : ACME) (domains : list string) (deadline : Time) (w : W) : result CertKey * W :=
  match ctxErr w with
  | Some err => (Err err, w)
  | None =>
      let request := mkObtainRequest domains true (if needNotAfter a then deadline else zeroTime) in
      let '(r, w) := CertObtain (a_Client a) request w in
      match r with
      | Err err => (Err (EWrap "failed obtaining cert: %w" err), w)
      | Ok certificates => (Ok certificates, w)
      end
  end.

(** The closure of [RetryObtain], with the captured results beside the world. *)
Definition obtainAttempt (a : ACME) (domains : list string) (deadline : Time)
    (x : W * CertKey) : option error * (W * CertKey) :=
  let '(w, _) := x in
  let '(r, w) := Obtain a domains deadline w in
  match r with
  | Ok ck => (None, (w, ck))
  | Err err => (Some err, (w, ("", "")))
  end.

(** The fuel of [Do] always suffices ([Do_total]). *)
Definition RetryObtain (a : ACME) (domains : list string) (deadline : Time) (w : W)
    : result CertKey * W :=
  match Do (a_retry a) (obtainAttempt a domains deadline) (w, ("", "")) with
  | Some (None, (w, ck)) => (Ok ck, w)
  | Some (Some err, (w, _)) => (Err err, w)
  | None => (Err (EText "unreachable"), w)
  end.

(** ** challenge.go *)

Definition cloudflare_New (p : DnsProvider) : CloudflareConfig :=
  if negb (String.eqb (ZoneToken p) "") && negb (String.eqb (AuthToken p) "")
  then ZoneTokens (ZoneToken p) (AuthToken p)
  else GlobalKey (DnsEmail p) (APIKey p) 120 (30 * Second) (2 * Second).

(** A constructed provider with the challenge type it solves. *)
Definition made (ty : string) (c : Challenger) : result (string * Challenger) :=
  match NewProvider c with None => Ok (ty, c) | Some e => Err e end.

Definition s3_NewHTTPProvider (c : S3Client) : result (string * Challenger) :=
  if String.eqb (S3Bucket c) "" then Err (EText "s3 challenge provider: bucket is required")
  else made ChallengeTypeHttp01 (S3 (S3Bucket c) c).

(** A missing section is a nil pointer. *)
Definition getChallenger (p : ServerConfig) : outcome (result (string * Challenger)) :=
  let ty := ChallengeType (sc_ACME p) in
  if String.eqb ty ChallengeTypeDns01 then
    match sc_DnsProvider p with
    | None => Panic nil_deref
    | Some d =>
        if String.eqb (DnsType d) DnsProviderTypeCloudflare
        then Ret (made ChallengeTypeDns01 (Cloudflare (cloudflare_New d)))
        else if String.eqb (DnsType d) DnsProviderTypeTencentCloud
        then Ret (made ChallengeTypeDns01 (TencentCloud (SecretID d) (SecretKey d)))
        else Ret (Err (EText ("unknown dns provider type: " +:+ DnsType d)))
    end
  else if String.eqb ty ChallengeTypeHttp01 then
    match sc_HttpProvider p with
    | None => Panic nil_deref
    | Some h =>
        if String.eqb (HttpType h) HttpProviderTypeS3 then
          match HttpS3 h with None => Panic nil_deref | Some s => Ret (s3_NewHTTPProvider s) end
        else Ret (Err (EText ("unknown http provider type: " +:+ HttpType h)))
    end
  else Ret (Err (EText ("unknown challenge type: " +:+ ty))).

Definition SetChallenger (instance : ACME) (p : ServerConfig) (w : W) : outcome (option error * W) :=
  match getChallenger p with
  | Panic m => Panic m
  | Ret (Err err) => Ret (Some (EWrap "unexpected error constructing cloudflare dns client: %w" err), w)
  | Ret (Ok (typ, clg)) =>
      if String.eqb typ ChallengeTypeDns01 then
        match sc_DnsProvider p with
        | None => Panic nil_deref
        | Some d =>
            let '(err, w) := SetDNS01Provider (a_Client instance) clg
                               (DisableCompletePropagationRequirement d) w in
            Ret (EWrap "unexpected error setting up dns challenge: %w" <$> err, w)
        end
      else if String.eqb typ ChallengeTypeHttp01 then
        let '(err, w) := SetHTTP01Provider (a_Client instance) clg w in
        Ret (EWrap "unexpected error setting up http challenge: %w" <$> err, w)
      else Ret (Some (EText ("unknown provider: type " +:+ typ)), w)
  end.

(** ** user.go *)

Context `{PE : ProcessEnv W} `{FS : FileSystem W}.
Variable dataDir : string.

(** [os.Remove], its error ignored. *)
Definition removeQuietly (p : string) (w : W) : W := snd (Remove p w).

Definition RegisterAccount (provider email kid hmac : string) (w : W) : option error * W :=
  let '(r, w) := ACMEPrivateKey dataDir email provider w in
  match r with
  | Err err => (Some err, w)
  | Ok keyPath =>
      let '(r, w) := GenerateKey w in
      match r with
      | Err err => (Some (EWrap "failed generating key: %w" err), w)
      | Ok privateKey =>
          match MarshalECPrivateKey privateKey with
          | Err err => (Some (EWrap "marshal ACME account key: %w" err), w)
          | Ok pemEncoded =>
              let '(err, w) := WriteFile keyPath pemEncoded w in
              match err with
              | Some err => (Some (EWrap "save ACME account key: %w" err), w)
              | None =>
                  let '(r, w) := NewClient (URL provider) (mkACMEUser email privateKey) w in
                  match r with
                  | Err err => (Some (EWrap "failed constructing acme client: %w" err),
                                removeQuietly keyPath w)
                  | Ok client =>
                      let '(err, w) :=
                        if negb (String.eqb hmac "") && negb (String.eqb kid "")
                        then RegisterEAB client kid hmac w else Register client w in
                      match err with
                      | Some err => (Some (EWrap "failed to register: %w" err), removeQuietly keyPath w)
                      | None =>
                          match MarshalRegistration w with
                          | Some err => (Some (EWrap "failed marshaling registration: %w" err),
                                         removeQuietly keyPath w)
                          | None => (None, w)
                          end
                      end
                  end
              end
          end
      end
  end.

(** The registration of a missing account in [makeACMEUser]. *)
Definition registerMissing (c : ServerConfig) (w : W) : option error * W :=
  let provider := Provider (sc_ACME c) in
  let email := AcmeEmail (sc_ACME c) in
  if IsGoogle provider then
    let '(r, w) := GoogleEAB (sc_GoogleCloudCredential c) w in
    match r with
    | Err err => (Some (EWrap "failed to register google ca: %w" err), w)
    | Ok (kid, hmac) => RegisterAccount provider email kid hmac w
    end
  else RegisterAccount provider email "" "" w.

(** What follows once the key file is there. *)
Definition loadACMEUser (c : ServerConfig) (keyPath : string) (w : W) : result ACMEUser * W :=
  match ReadFile keyPath w with
  | Err err => (Err err, w)
  | Ok keyFile =>
      match ParsePEMPrivateKey keyFile with
      | Err err => (Err (EWrap "parse ACME account key: %w" err), w)
      | Ok key =>
          let user := mkACMEUser (AcmeEmail (sc_ACME c)) key in
          let '(r, w) := NewClient (URL (Provider (sc_ACME c))) user w in
          match r with
          | Err err => (Err (EWrap "failed constructing acme client: %w" err), w)
          | Ok client =>
              let '(err, w) := ResolveAccountByKey client w in
              match err with
              | Some err =>
                  (Err (EWrap "resolve ACME account by key (is the account registered?): %w" err), w)
              | None => (Ok user, w)
              end
          end
      end
  end.

Definition makeACMEUser (c : ServerConfig) (w : W) : result ACMEUser * W :=
  let '(r, w) := ACMEPrivateKey dataDir (AcmeEmail (sc_ACME c)) (Provider (sc_ACME c)) w in
  match r with
  | Err err => (Err err, w)
  | Ok keyPath =>
      match Stat keyPath w with
      | Some err =>
          if errIs err ErrNotExist then
            let '(err, w) := registerMissing c w in
            match err with
            | Some err => (Err err, w)
            | None => loadACMEUser c keyPath w
            end
          else (Err err, w)
      | None => loadACMEUser c keyPath w
      end
  end.
End Acme.

Arguments ACME W {_}.

(** ** mock.go *)

(** The fields of the minted template that depend on the call. *)
Record MockTemplate := mkMockTemplate {
  mt_SerialNumber : Z;
  mt_CommonName : string;
  mt_OrganizationalUnit : list string;
  mt_DNSNames : list string;
  mt_IPAddresses : list IP;
  mt_NotBefore : Time;
  mt_NotAfter : Time;
}.

Record MockACME := mkMockACME {
  m_lifetime : Duration;
  m_tag : string;
  m_serial : Z;              (* atomic.Int64 *)
}.

(** [lifetime], the value of CERTDX_MOCK_TAG, and the time in microseconds. *)
Definition NewMockACME (lifetime : Duration) (tag : string) (unixMicro : Z) : MockACME :=
  mkMockACME (if lifetime <=? 0 then Hour else lifetime) tag unixMicro.

(** [m.serial.Add(1)] *)
Definition nextSerial (m : MockACME) : Z * MockACME :=
  let s := to_i64 (m_serial m + 1) in (s, mkMockACME (m_lifetime m) (m_tag m) s).

(** The split of the requested names in [Obtain]. *)
Definition mockTemplate (m : MockACME) (serial : Z) (domains : list string) (now : Time) : MockTemplate :=
  let '(dnsNames, ipAddresses) := splitIPsAndDNS domains in
  mkMockTemplate serial (hd "" domains) (if negb (String.eqb (m_tag m) "") then [m_tag m] else [])
    dnsNames ipAddresses (Add now (- 1 * Minute)) (Add now (m_lifetime m)).

(** Key generation, self-signing and PEM encoding. *)
Class Minter (W : Type) := {
  mintKey : W → result string * W;
  mintCert : MockTemplate → string → W → result CertKey * W;
}.

Section Mock.
Context {W : Type} `{RT : Runtime W} `{MI : Minter W}.

Definition MockObtain (m : MockACME) (domains : list string) (w : W)
    : result CertKey * (MockACME * W) :=
  match ctxErr w with
  | Some err => (Err err, (m, w))
  | None =>
      if (length domains =? 0)%nat then (Err (EText "mock acme: no domains"), (m, w))
      else
        let '(r, w) := mintKey w in
        match r with
        | Err err => (Err err, (m, w))
        | Ok priv =>
            let now := timeNow w in
            let '(serial, m) := nextSerial m in
            let '(r, w) := mintCert (mockTemplate m serial domains now) priv w in
            (r, (m, w))
        end
  end.

(** The mock does not retry. *)
Definition MockRetryObtain := MockObtain.
End Mock.

(** ** Which implementation the server runs on *)

Inductive ObtainerImpl {W} `{Lego W} :=
  | ImplMock (m : MockACME)
  | ImplACME (a : ACME W).

Section MakeACME.
Context {W : Type} `{RT : Runtime W} `{LG : Lego W} `{PE : ProcessEnv W} `{FS : FileSystem W}.
Variable dataDir : string.

(** [tag] is the value of CERTDX_MOCK_TAG and [unixMicro] the present time. *)
Definition MakeACME (tag : string) (unixMicro : Z) (c : ServerConfig) (w : W)
    : outcome (result ObtainerImpl * W) :=
  if IsMock (Provider (sc_ACME c))
  then Ret (Ok (ImplMock (NewMockACME (CertLifeTimeDuration (sc_ACME c)) tag unixMicro)), w)
  else
    let '(r, w) := makeACMEUser dataDir c w in
    match r with
    | Err err => Ret (Err err, w)
    | Ok user =>
        let '(r, w) := NewClient (URL (Provider (sc_ACME c))) user w in
        match r with
        | Err err => Ret (Err (EWrap "unexpected error constructing acme client: %w" err), w)
        | Ok client =>
            let instance := mkACME client (AcmeRetryCount (sc_ACME c)) (IsGoogle (Provider (sc_ACME c))) in
            match SetChallenger instance c w with
            | Panic m => Panic m
            | Ret (Some err, w) => Ret (Err err, w)
            | Ret (None, w) => Ret (Ok (ImplACME instance), w)
            end
        end
    end.
End MakeACME.

(** ** Theorems *)

Section AcmeTheorems.
Context {W : Type} `{RT : Runtime W} `{LG : Lego W} `{PE : ProcessEnv W} `{FS : FileSystem W}.

(** [RetryObtain] returns a certificate exactly when its last attempt
    obtained it: with a finished context no request is made; otherwise at
    most [retry] attempts fail slowly before the last one, whose certificate,
    or some error, is what is returned. *)
Theorem RetryObtain_spec a domains deadline (w : W) :
  match ctxErr w with
  | Some e => RetryObtain a domains deadline w = (Err e, w)
  | None => ∃ k wk, (k ≤ Z.to_nat (a_retry a))%nat ∧
      slow_fails (obtainAttempt a domains deadline) k (w, ("", "")) wk ∧
      match Obtain a domains deadline (fst wk) with
      | (Ok ck, w') => RetryObtain a domains deadline w = (Ok ck, w')
      | (Err _, _) => ∃ e w', RetryObtain a domains deadline w = (Err e, w')
      end
  end.
Proof.
  unfold RetryObtain. destruct (ctxErr w) as [e|] eqn:Ec.
  { unfold Do. simpl. by rewrite Ec. }
  destruct (Do_live (a_retry a) (obtainAttempt a domains deadline) (w, ("", "")))
    as (k&[wk s]&r&Hk&Hs&Hl&Hd); [exact Ec|].
  exists k, (wk, s). split_all; [done..|]. rewrite Hd. simpl.
  destruct (Obtain a domains deadline wk) as [[ck|e] w'] eqn:Eo.
  - inversion Hl as [? Hw|? ? Hw|? ? Hw|? ? ? Hw]; subst; unfold obtainAttempt in Hw;
      rewrite Eo in Hw; by simplify_eq.
  - inversion Hl as [? Hw|? [w1 s1] Hw|? [w1 s1] Hw|? ? [w2 s2] Hw]; subst; [|eauto..].
    unfold obtainAttempt in Hw. rewrite Eo in Hw. by simplify_eq.
Qed.

(** On a validated configuration the choice of the challenge solver never
    panics and never reports an unknown type: it builds the configured solver
    with complete credentials, and the only errors are the provider SDK's and
    an empty S3 bucket. *)
Theorem getChallenger_validated fe c :
  snd (ServerConfig_Validate fe c) = None → Provider (sc_ACME c) ≠ "mock" →
  (∃ d, sc_DnsProvider c = Some d ∧ ChallengeType (sc_ACME c) = "dns" ∧
     ((DnsType d = "cloudflare" ∧
       (getChallenger c = Ret (made "dns" (Cloudflare (ZoneTokens (ZoneToken d) (AuthToken d)))) ∧
          ZoneToken d ≠ "" ∧ AuthToken d ≠ "" ∨
        getChallenger c = Ret (made "dns" (Cloudflare
            (GlobalKey (DnsEmail d) (APIKey d) 120 (30 * Second) (2 * Second)))) ∧
          DnsEmail d ≠ "" ∧ APIKey d ≠ "")) ∨
      (DnsType d = "tencentcloud" ∧
       getChallenger c = Ret (made "dns" (TencentCloud (SecretID d) (SecretKey d))) ∧
          SecretID d ≠ "" ∧ SecretKey d ≠ ""))) ∨
  (∃ h s, sc_HttpProvider c = Some h ∧ HttpS3 h = Some s ∧ ChallengeType (sc_ACME c) = "http" ∧
     getChallenger c = Ret (if String.eqb (S3Bucket s) ""
       then Err (EText "s3 challenge provider: bucket is required")
       else made "http" (S3 (S3Bucket s) s))).
Proof.
  intros Hv Hm.
  apply ServerConfig_accept_iff in Hv as [_ [Hmock|[_ Hch]] _ _ _ _]; [done|].
  unfold getChallenger, ChallengeTypeDns01, ChallengeTypeHttp01.
  destruct Hch as [(Ht&d&Hd&Hok)|(Ht&h&Hh&Hty&[s Hs])]; rewrite Ht; simpl.
  - left. exists d. split_all; [done..|]. rewrite Hd.
    destruct Hok as [[Hc Hcred]|[Hc Hcred]]; [left|right]; (split; [done|]);
      unfold DnsProviderTypeCloudflare, DnsProviderTypeTencentCloud; rewrite Hc; simpl; [|naive_solver].
    unfold cloudflare_New.
    destruct (String.eqb_spec (ZoneToken d) ""), (String.eqb_spec (AuthToken d) ""); simpl; naive_solver.
  - right. exists h, s. split_all; [done..|]. rewrite Hh, Hs. unfold HttpProviderTypeS3. rewrite Hty.
    simpl. unfold s3_NewHTTPProvider. by case_match.
Qed.

(** ** The account key file *)

(** Talking to the ACME server does not touch local files. *)
Class LegoFrame := {
  newclient_stat u a (w : W) r w' p : NewClient u a w = (r, w') → Stat p w' = Stat p w;
  register_stat c (w : W) r w' p : Register c w = (r, w') → Stat p w' = Stat p w;
  registerEAB_stat c k h (w : W) r w' p : RegisterEAB c k h w = (r, w') → Stat p w' = Stat p w;
}.

Variable dataDir : string.

(** The steps before the key is on disk. *)
Definition early (e : error) : Prop :=
  ∀ e', e ≠ EWrap "failed constructing acme client: %w" e' ∧
        e ≠ EWrap "failed to register: %w" e' ∧ e ≠ EWrap "failed marshaling registration: %w" e'.

(** A failed registration does not leave an account key behind: once the
    key file has been written, every later failure removes it again, so the
    next start registers anew instead of loading an unregistered key (unless
    the removal itself is refused); success keeps it. *)
Theorem RegisterAccount_no_orphan `{!LegoFrame} `{!FileSystemLaws W} provider email kid hmac w w' r keyPath w1 :
  ACMEPrivateKey dataDir email provider w = (Ok keyPath, w1) →
  RegisterAccount dataDir provider email kid hmac w = (r, w') →
  match r with
  | None => Stat keyPath w' = None
  | Some e => early e ∨
      ∃ w2, w' = snd (Remove keyPath w2) ∧
        (fst (Remove keyPath w2) = None → Stat keyPath w' = Some (ESentinel ErrNotExist))
  end.
Proof.
  intros Hp. unfold RegisterAccount. rewrite Hp.
  assert (Hgone : ∀ w0, ∃ w2, removeQuietly keyPath w0 = snd (Remove keyPath w2) ∧
    (fst (Remove keyPath w2) = None →
     Stat keyPath (removeQuietly keyPath w0) = Some (ESentinel ErrNotExist))).
  { intros w0. exists w0. split; [done|]. unfold removeQuietly.
    destruct (Remove keyPath w0) as [o w2] eqn:E. simpl. intros ->. by eapply remove_gone. }
  destruct (GenerateKey w1) as [[k|e] w2] eqn:Ek; [|intros [= <- <-]; by left].
  destruct (MarshalECPrivateKey k) as [pem|e]; [|intros [= <- <-]; by left].
  destruct (WriteFile keyPath pem w2) as [[e|] w3] eqn:Ew; [intros [= <- <-]; by left|].
  destruct (NewClient (URL provider) (mkACMEUser email k) w3) as [[c|e] w4] eqn:En;
    [|intros [= <- <-]; right; apply Hgone].
  destruct (if negb _ && negb _ then _ else _) as [[e|] w5] eqn:Er;
    [intros [= <- <-]; right; apply Hgone|].
  destruct (MarshalRegistration w5); intros [= <- <-]; [right; apply Hgone|].
  assert (Hs : Stat keyPath w5 = Stat keyPath w4)
    by (case_match; [by eapply registerEAB_stat | by eapply register_stat]).
  rewrite Hs, (newclient_stat _ _ _ _ _ keyPath En). by eapply write_stat.
Qed.
End AcmeTheorems.

Section MockTheorems.
Context {W : Type} `{RT : Runtime W} `{MI : Minter W}.

(** Serials of consecutive calls differ. *)
Lemma nextSerial_ne m : fst (nextSerial m) ≠ fst (nextSerial (snd (nextSerial m))).
Proof.
  unfold nextSerial, to_i64, u64_mod. simpl. intros E.
  set (s := m_serial m) in *.
  assert (Hm : (s + 1 + 2 ^ 63) mod 2 ^ 64 = (s + 2 + 2 ^ 63) mod 2 ^ 64).
  { assert (H2 : ((s + 1 + 2 ^ 63) mod 2 ^ 64 - 2 ^ 63 + 1 + 2 ^ 63) mod 2 ^ 64
      = (s + 2 + 2 ^ 63) mod 2 ^ 64).
    { replace ((s + 1 + 2 ^ 63) mod 2 ^ 64 - 2 ^ 63 + 1 + 2 ^ 63)
        with ((s + 1 + 2 ^ 63) mod 2 ^ 64 + 1) by lia.
      rewrite Zplus_mod_idemp_l. f_equal. lia. }
    lia. }
  pose proof (Z.div_mod (s + 1 + 2 ^ 63) (2 ^ 64) ltac:(lia)).
  pose proof (Z.div_mod (s + 2 + 2 ^ 63) (2 ^ 64) ltac:(lia)). lia.
Qed.
End MockTheorems.

(** ** A concrete world *)

Module Demo.
(** A clock with a file system, an ACME server that knows no account. *)
Definition World : Type := Sim * Disk.

#[export] Instance demo_env : ProcessEnv World := {
  GOOS _ := "linux";
  Executable _ := Ok "/usr/bin/certdx_server";
  EvalSymlinks p _ := Ok p;
}.

#[export] Instance demo_lego : Lego World := {
  Client := unit;
  NewClient _ _ w := (Ok (), w);
  CertObtain _ r w := (Ok (Join (or_Domains r) ",", "key"), w);
  NewProvider _ := None;
  SetDNS01Provider _ _ _ w := (None, w);
  SetHTTP01Provider _ _ w := (None, w);
  ResolveAccountByKey _ w := (None, w);
  Register _ w := (Some (EText "rate limited"), w);
  RegisterEAB _ _ _ w := (None, w);
  GoogleEAB _ w := (Ok ("kid", "hmac"), w);
  GenerateKey w := (Ok "key", w);
  MarshalECPrivateKey k := Ok ("PEM " +:+ k);
  ParsePEMPrivateKey := Ok;
  MarshalRegistration _ := None;
}.

#[export] Instance demo_frame : LegoFrame.
Proof. split; intros; simpl in *; by simplify_eq. Qed.

Definition w0 : World :=
  ({| sim_now := 0; sim_cancel := None |}, mkDisk ∅ []).

Definition dnsConfig : ServerConfig :=
  mkServerConfig (mkACMEConfig "dns" "a@b.c" "r3" 5 "168h" "24h" ["example.com"] 0 0) ∅
    (Some (mkDnsProvider "cloudflare" false "" "" "auth" "zone" "" "")) None ""
    (mkHttpServerConfig true ":10001" "/" "token" false [] "secret") (mkGRPCServerConfig false "").
End Demo.

Import (hints) Demo.

Lemma getChallenger_validated_witness :
  getChallenger Demo.dnsConfig = Ret (Ok ("dns", Cloudflare (ZoneTokens "zone" "auth"))) ∧
  ∃ d, sc_DnsProvider Demo.dnsConfig = Some d ∧ ZoneToken d ≠ "".
Proof.
  assert (Hv : snd (ServerConfig_Validate (λ _, false) Demo.dnsConfig) = None) by (vm_compute; reflexivity).
  split; [vm_compute; reflexivity|].
  destruct (getChallenger_validated (W := Demo.World) (λ _, false) Demo.dnsConfig Hv ltac:(discriminate))
    as [(d&Hd&_&[[_ [(_&Hz&_)|(Hg&_)]]|[Hc _]])|(h&s&Hh&_)].
  - exists d. split; assumption.
  - vm_compute in Hg. discriminate.
  - simpl in Hd. injection Hd as <-. discriminate.
  - discriminate.
Defined.

Lemma RegisterAccount_no_orphan_witness :
  ∃ e w', RegisterAccount "/data" "r3" "a@b.c" "" "" Demo.w0 = (Some e, w') ∧
    Stat "/data/private/a@b.c_r3.key" w' = Some (ESentinel ErrNotExist).
Proof.
  assert (Hp : ACMEPrivateKey "/data" "a@b.c" "r3" Demo.w0 = (Ok "/data/private/a@b.c_r3.key", Demo.w0))
    by (vm_compute; reflexivity).
  assert (Hr : RegisterAccount "/data" "r3" "a@b.c" "" "" Demo.w0
    = (Some (EWrap "failed to register: %w" (EText "rate limited")), Demo.w0)) by (vm_compute; reflexivity).
  eexists _, _. split; [exact Hr|].
  destruct (RegisterAccount_no_orphan (W := Demo.World) "/data" "r3" "a@b.c" "" "" Demo.w0 Demo.w0 _ _ _ Hp Hr)
    as [He|(w2&E&Hs)].
  - destruct (He (EText "rate limited")) as (_&Hne&_). by destruct Hne.
  - vm_compute. reflexivity.
Defined.
