(* ===== verification/CertEntry.v ===== *)
(** pkg/server/cert_entry.go and the renewal part of pkg/server/server.go: one
    cache entry shared by many goroutines.

    The operations that run under [stateMu] are functions of the entry; the
    critical sections are short and never block, so each is one atomic step of
    the transition system [step].  [renewMu] is held across the ACME call and
    is therefore explicit.  Goroutines are threads with a program counter; the
    system lets any number of consumers subscribe, release, wait and renew in
    any order, so its invariants hold for every client of the entry. *)

From Stdlib Require Import ZArith Lia.
From stdpp Require Import base option list gmap sets strings.
From S2P Require Import Prelude.
From S2P Require Import GoStd.

Open Scope Z_scope.

(** ** Certificates *)

Record CertT := mkCertT {
  FullChain : string;
  PrivKey : string;          (* the field [Key] *)
  ValidBefore : Time;
  RenewAt : Time;
}.

#[export] Instance CertT_eq_dec : EqDecision CertT.
Proof. solve_decision. Defined.

Definition zeroCert : CertT := mkCertT "" "" zeroTime zeroTime.

(** [time.Now().Before(c.ValidBefore)] *)
Definition IsValid (now : Time) (c : CertT) : bool := Before now (ValidBefore c).

Record certStoreEntry := mkStoreEntry {
  se_Domains : list string;
  se_Cert : CertT;
}.

(** ** The entry and its critical sections *)

Abbreviation chan := nat (only parsing).
Abbreviation tid := nat (only parsing).

(** A context: the server's root, one derived from it by
    [context.WithCancel(s.rootCtx)], or an unrelated one (an HTTP request). *)
Inductive ctx := CRoot | CDerived (n : nat) | CFree (n : nat).

#[export] Instance ctx_eq_dec : EqDecision ctx.
Proof. solve_decision. Defined.

#[export] Instance ctx_countable : Countable ctx.
Proof.
  apply (inj_countable'
    (λ c, match c with CRoot => None | CDerived n => Some (inl n) | CFree n => Some (inr n) end)
    (λ x, match x with None => CRoot | Some (inl n) => CDerived n | Some (inr n) => CFree n end)).
  by intros [].
Defined.

Record certEntry := mkEntry {
  domains : list string;
  renewMu : option tid;           (* the holder *)
  cert : CertT;
  version : Z;                    (* uint64 *)
  updated : chan;
  cancelRenew : option nat;       (* the derived context it cancels *)
  subscribing : Z;                (* int64 *)
}.

Definition newCertEntry (ds : list string) (ch : chan) : certEntry :=
  mkEntry ds None zeroCert 0 ch None 0.

Definition Snapshot (e : certEntry) : CertT * Z := (cert e, version e).

Definition Cert (e : certEntry) : CertT := let '(c, _) := Snapshot e in c.

Definition isSubscribing (e : certEntry) : bool := negb (subscribing e =? 0).

(** [WaitForUpdate], first section: return the version if it moved past
    [seen], otherwise the channel to wait on. *)
Definition wait_enter (e : certEntry) (seen : Z) : Z + chan :=
  if negb (version e =? seen) then inl (version e) else inr (updated e).

(** Its last section. *)
Definition wait_exit (e : certEntry) : Z := version e.

(** [subscribe] under [stateMu]; [fresh] is the context made by the 0 to 1
    transition, and the flag tells that the renewer is to be started on it. *)
Definition subscribe_section (e : certEntry) (fresh : nat) : certEntry * bool :=
  let start := subscribing e =? 0 in
  (mkEntry (domains e) (renewMu e) (cert e) (version e) (updated e)
     (if start then Some fresh else cancelRenew e)
     (to_i64 (subscribing e + 1)), start).

(** [release] under [stateMu]; the second component is the [cancel] that is
    called after the section. *)
Definition release_section (e : certEntry) : certEntry * option nat :=
  let s := if 0 <? subscribing e then subscribing e - 1 else subscribing e in
  if s =? 0
  then (mkEntry (domains e) (renewMu e) (cert e) (version e) (updated e) None s, cancelRenew e)
  else (mkEntry (domains e) (renewMu e) (cert e) (version e) (updated e) (cancelRenew e) s, None).

(** The broadcast of [renew]: new certificate, next version, fresh channel;
    the old channel is closed by the caller. *)
Definition renew_commit (e : certEntry) (newCert : CertT) (fresh : chan) : certEntry :=
  mkEntry (domains e) (renewMu e) newCert (to_u64 (version e + 1)) fresh
    (cancelRenew e) (subscribing e).

Definition set_renewMu (e : certEntry) (h : option tid) : certEntry :=
  mkEntry (domains e) h (cert e) (version e) (updated e) (cancelRenew e) (subscribing e).

(** ** Goroutines *)

Inductive role :=
  | Consumer (c : ctx)           (* a goroutine that uses the entry under [c] *)
  | Renewer (n : nat).           (* subscribeCertCacheEntry on context [CDerived n] *)

Definition role_ctx (r : role) : ctx :=
  match r with Consumer c => c | Renewer n => CDerived n end.

(** Program counters. *)
Inductive act :=
  | Idle                               (* consumer, between two operations *)
  | Waiting (seen : Z) (ch : chan)     (* WaitForUpdate, in the select *)
  | Woken                              (* WaitForUpdate, before the last section *)
  | Releasing (n : nat)                (* release, cancel() still to be called *)
  | LoopTop                            (* renewer, at the head of its loop *)
  | LoopSleep                          (* renewer, in the timer select *)
  | Exited                             (* renewer, returned *)
  | RnLock                             (* renew: ctx was live, waiting for renewMu *)
  | RnCheck                            (* holds renewMu, before Snapshot/IsValid *)
  | RnExpired                          (* the cached certificate is not valid *)
  | RnObtain (validBefore : Time)      (* in the ACME call *)
  | RnObtained (c : CertT)             (* new certificate built *)
  | RnSend (c : CertT).                (* broadcast done, handing c to the store *)

(** The program counters at which [renewMu] is held. *)
Definition holds_renewMu (a : act) : bool :=
  match a with
  | RnCheck | RnExpired | RnObtain _ | RnObtained _ | RnSend _ => true
  | _ => false
  end.

(** Those between the failed validity check and the broadcast. *)
Definition past_check (a : act) : bool :=
  match a with RnExpired | RnObtain _ | RnObtained _ => true | _ => false end.

(** Where a goroutine goes when [renew] returns. *)
Definition after_renew (r : role) : act :=
  match r with Consumer _ => Idle | Renewer _ => LoopSleep end.

Record world := mkWorld {
  entry : certEntry;
  closed : gset chan;               (* the closed channels *)
  nextChan : chan;
  cancelled : gset ctx;             (* the contexts cancelled explicitly *)
  nextCtx : nat;
  now : Time;
  threads : gmap tid (role * act);
  holders : list tid;               (* ghost: one item per registration held *)
  commits : list CertT;             (* ghost: broadcast certificates, newest first *)
  queue : list certStoreEntry;      (* certStore.update *)
}.

(** [ctx.Err() != nil]; cancelling the root cancels the derived contexts. *)
Definition ctx_done (w : world) (c : ctx) : bool :=
  bool_decide (c ∈ cancelled w) ||
  match c with CDerived _ => bool_decide (CRoot ∈ cancelled w) | _ => false end.

Definition set_entry (e : certEntry) (w : world) : world :=
  mkWorld e (closed w) (nextChan w) (cancelled w) (nextCtx w) (now w) (threads w)
    (holders w) (commits w) (queue w).

Definition set_thread (t : tid) (r : role) (a : act) (w : world) : world :=
  mkWorld (entry w) (closed w) (nextChan w) (cancelled w) (nextCtx w) (now w)
    (<[ t := (r, a) ]> (threads w)) (holders w) (commits w) (queue w).

Definition set_holders (h : list tid) (w : world) : world :=
  mkWorld (entry w) (closed w) (nextChan w) (cancelled w) (nextCtx w) (now w) (threads w)
    h (commits w) (queue w).

Definition cancel_ctx (c : ctx) (w : world) : world :=
  mkWorld (entry w) (closed w) (nextChan w) ({[ c ]} ∪ cancelled w) (nextCtx w) (now w)
    (threads w) (holders w) (commits w) (queue w).

Definition set_now (n : Time) (w : world) : world :=
  mkWorld (entry w) (closed w) (nextChan w) (cancelled w) (nextCtx w) n (threads w)
    (holders w) (commits w) (queue w).

Definition set_queue (q : list certStoreEntry) (w : world) : world :=
  mkWorld (entry w) (closed w) (nextChan w) (cancelled w) (nextCtx w) (now w) (threads w)
    (holders w) (commits w) q.

(** [renew]'s broadcast: swap, close the old channel, make a fresh one. *)
Definition broadcast (c : CertT) (w : world) : world :=
  mkWorld (renew_commit (entry w) c (nextChan w)) ({[ updated (entry w) ]} ∪ closed w)
    (S (nextChan w)) (cancelled w) (nextCtx w) (now w) (threads w) (holders w)
    (c :: commits w) (queue w).

(** [subscribe] by thread [t]; a 0 to 1 transition allocates a context and
    starts the renewer [t']. *)
Definition do_subscribe (t t' : tid) (w : world) : world :=
  let '(e, start) := subscribe_section (entry w) (nextCtx w) in
  let w1 := set_holders (t :: holders w) (set_entry e w) in
  if start
  then set_thread t' (Renewer (nextCtx w)) LoopTop
         (mkWorld (entry w1) (closed w1) (nextChan w1) (cancelled w1) (S (nextCtx w)) (now w1)
            (threads w1) (holders w1) (commits w1) (queue w1))
  else w1.

(** [release] by thread [t], up to the call of [cancel]. *)
Definition do_release (t : tid) (r : role) (h : list tid) (w : world) : world :=
  let '(e, cancel) := release_section (entry w) in
  let w1 := set_holders h (set_entry e w) in
  match cancel with
  | Some n => set_thread t r (Releasing n) w1
  | None => w1
  end.

(** Truncate to the hour and add the configured lifetime. *)
Definition newValidBefore (lifetime : Duration) (t : Time) : Time :=
  Add (Truncate t (1 * Hour)) lifetime.

(** The capacity of [certStore.update]. *)
Definition updateCap : nat := 10.

Section Step.
(** [Config.ACME.CertLifeTimeDuration]. *)
Variable lifetime : Duration.

(** At most [2^63 - 2] registrations are held at a time: each is a goroutine
    in memory, so the [int64] refcount never wraps. *)
Definition holders_bound : nat := Z.to_nat (2 ^ 63 - 2).

Inductive step : world → world → Prop :=
(* the environment *)
| st_spawn w t c :
    threads w !! t = None → step w (set_thread t (Consumer c) Idle w)
| st_tick w n : now w ≤ n → step w (set_now n w)
| st_cancel_free w n : step w (cancel_ctx (CFree n) w)
| st_stop w : step w (cancel_ctx CRoot w)
| st_store w x q : queue w = x :: q → step w (set_queue q w)
(* subscribe, release *)
| st_subscribe w t t' c :
    threads w !! t = Some (Consumer c, Idle) → threads w !! t' = None →
    (length (holders w) < holders_bound)%nat →
    step w (do_subscribe t t' w)
| st_release w t c h :
    threads w !! t = Some (Consumer c, Idle) → holders w ≡ₚ t :: h →
    step w (do_release t (Consumer c) h w)
| st_release_cancel w t r n :
    threads w !! t = Some (r, Releasing n) →
    step w (set_thread t r Idle (cancel_ctx (CDerived n) w))
(* WaitForUpdate *)
| st_wait_now w t c seen v :
    threads w !! t = Some (Consumer c, Idle) → wait_enter (entry w) seen = inl v →
    step w w
| st_wait_block w t c seen ch :
    threads w !! t = Some (Consumer c, Idle) → wait_enter (entry w) seen = inr ch →
    step w (set_thread t (Consumer c) (Waiting seen ch) w)
| st_wake_chan w t r seen ch :
    threads w !! t = Some (r, Waiting seen ch) → ch ∈ closed w →
    step w (set_thread t r Woken w)
| st_wake_ctx w t r seen ch :
    threads w !! t = Some (r, Waiting seen ch) → ctx_done w (role_ctx r) = true →
    step w (set_thread t r Woken w)
| st_wait_exit w t r :
    threads w !! t = Some (r, Woken) → step w (set_thread t r Idle w)
(* renew, from a consumer or from the head of the renewer loop *)
| st_renew_dead w t r a :
    threads w !! t = Some (r, a) → a = Idle ∧ (∃ c, r = Consumer c) ∨ a = LoopTop →
    ctx_done w (role_ctx r) = true →
    step w (set_thread t r (if a is LoopTop then Exited else Idle) w)
| st_renew_enter w t r a :
    threads w !! t = Some (r, a) → a = Idle ∧ (∃ c, r = Consumer c) ∨ a = LoopTop →
    ctx_done w (role_ctx r) = false →
    step w (set_thread t r RnLock w)
| st_renew_lock w t r :
    threads w !! t = Some (r, RnLock) → renewMu (entry w) = None →
    step w (set_thread t r RnCheck (set_entry (set_renewMu (entry w) (Some t)) w))
| st_renew_valid w t r :
    threads w !! t = Some (r, RnCheck) → IsValid (now w) (Cert (entry w)) = true →
    step w (set_thread t r (after_renew r) (set_entry (set_renewMu (entry w) None) w))
| st_renew_expired w t r :
    threads w !! t = Some (r, RnCheck) → IsValid (now w) (Cert (entry w)) = false →
    step w (set_thread t r RnExpired w)
| st_renew_compute w t r :
    threads w !! t = Some (r, RnExpired) →
    step w (set_thread t r (RnObtain (newValidBefore lifetime (now w))) w)
| st_obtain_err w t r vb :
    threads w !! t = Some (r, RnObtain vb) →
    step w (set_thread t r
              (if ctx_done w (role_ctx r) && (if r is Renewer _ then true else false)
               then Exited else after_renew r)
              (set_entry (set_renewMu (entry w) None) w))
| st_obtain_ok w t r vb fullchain key :
    threads w !! t = Some (r, RnObtain vb) →
    step w (set_thread t r (RnObtained (mkCertT fullchain key vb (now w))) w)
| st_broadcast w t r c :
    threads w !! t = Some (r, RnObtained c) →
    step w (set_thread t r (RnSend c) (broadcast c w))
| st_send w t r c :
    threads w !! t = Some (r, RnSend c) → (length (queue w) < updateCap)%nat →
    step w (set_thread t r (after_renew r)
              (set_entry (set_renewMu (entry w) None)
                 (set_queue (queue w ++ [mkStoreEntry (domains (entry w)) c]) w)))
| st_send_done w t r c :
    threads w !! t = Some (r, RnSend c) → ctx_done w (role_ctx r) = true →
    step w (set_thread t r (after_renew r) (set_entry (set_renewMu (entry w) None) w))
(* the renewer's timer select *)
| st_timer w t n :
    threads w !! t = Some (Renewer n, LoopSleep) →
    step w (set_thread t (Renewer n) LoopTop w)
| st_timer_done w t n :
    threads w !! t = Some (Renewer n, LoopSleep) → ctx_done w (CDerived n) = true →
    step w (set_thread t (Renewer n) Exited w).

(** Initially no goroutine runs; the entry is new, or carries a certificate
    loaded from the store. *)
Definition init (w : world) : Prop :=
  ∃ ds c n0, w = mkWorld (mkEntry ds None c 0 0%nat None 0) ∅ 1%nat ∅ 0%nat n0 ∅ [] [] [].
End Step.

(** ** Invariants *)

(** Splits a lookup in an updated thread map. *)
Ltac thread_cases :=
  repeat match goal with
  | H : <[_ := _]> _ !! _ = Some _ |- _ => apply lookup_insert_Some in H as [[? ?]|[? ?]]
  end; simplify_eq/=; unfold after_renew in *; simp_match.

Section Invariants.
Variable lifetime : Duration.
Notation step := (step lifetime).
Notation reachable := (reachable init step).

(** *** The broadcast channel *)

(** Channels are numbered in the order of the broadcasts that replace them:
    channel [k] is closed by the broadcast that follows the first [k] ones. *)
Record chan_inv (w : world) : Prop := {
  ci_updated : updated (entry w) = length (commits w);
  ci_next : nextChan w = S (length (commits w));
  ci_closed ch : ch ∈ closed w ↔ (ch < length (commits w))%nat;
  ci_version : version (entry w) = to_u64 (Z.of_nat (length (commits w)));
  ci_cert c l : commits w = c :: l → cert (entry w) = c;
  ci_waiting t r seen ch :
    threads w !! t = Some (r, Waiting seen ch) →
    (ch ≤ length (commits w))%nat ∧ seen = to_u64 (Z.of_nat ch);
}.

Lemma to_u64_succ z : to_u64 (to_u64 z + 1) = to_u64 (z + 1).
Proof. unfold to_u64. by rewrite Zplus_mod_idemp_l. Qed.

Lemma chan_inv_step w w' : chan_inv w → step w w' → chan_inv w'.
Proof.
  intros [Hu Hn Hc Hv Hx Hw] Hs.
  destruct Hs; try (split; simpl; intros; thread_cases; eauto; fail).
  - (* subscribe *) unfold do_subscribe; simpl. case_match; split; simpl; intros; thread_cases; eauto.
  - (* release *) unfold do_release, release_section; simpl.
    repeat case_match; split; simpl; intros; simplify_eq/=; thread_cases; eauto.
  - (* wait_block *) split; simpl; intros; thread_cases; eauto.
    unfold wait_enter in *. case_match; simplify_eq. bool_simp. subst. rewrite Hu. split; [lia|].
    by rewrite <- Hv.
  - (* broadcast *) split; simpl.
    + done.
    + by rewrite Hn.
    + intros ch. rewrite elem_of_union, elem_of_singleton, Hc. lia.
    + rewrite Hv, to_u64_succ. f_equal. lia.
    + intros. by simplify_eq.
    + intros. thread_cases. destruct (Hw _ _ _ _ H1). auto with lia.
Qed.

Lemma chan_inv_reachable w : reachable w → chan_inv w.
Proof.
  apply reachable_invariant.
  - intros ? (ds & c & n0 & ->). split; simpl; try done; set_solver by lia.
  - eauto using chan_inv_step.
Qed.

(** *** The renewal mutex *)

Definition lock_ok (mu : option tid) (m : gmap tid (role * act)) : Prop :=
  ∀ t, mu = Some t ↔ ∃ r a, m !! t = Some (r, a) ∧ holds_renewMu a = true.

Lemma lock_ok_same mu m t r a :
  match m !! t with Some (_, a0) => holds_renewMu a0 | None => false end = holds_renewMu a →
  lock_ok mu m → lock_ok mu (<[ t := (r, a) ]> m).
Proof.
  intros He Hm t0. rewrite (Hm t0). destruct (decide (t = t0)) as [->|Hne].
  - rewrite lookup_insert_eq. split.
    + intros (r0&a0&E&Hh). rewrite E in He. exists r, a. by rewrite <- He.
    + intros (r0&a0&E&Hh). simplify_eq. destruct (m !! t0) as [[r1 a1]|] eqn:E1; [|congruence].
      exists r1, a1. by rewrite He.
  - by rewrite lookup_insert_ne.
Qed.

Lemma lock_ok_acquire m t r a :
  holds_renewMu a = true → lock_ok None m → lock_ok (Some t) (<[ t := (r, a) ]> m).
Proof.
  intros Ha Hm t0. destruct (decide (t = t0)) as [->|Hne].
  - rewrite lookup_insert_eq. naive_solver.
  - rewrite lookup_insert_ne by done. rewrite <- (Hm t0). naive_solver.
Qed.

Lemma lock_ok_release mu m t r a r0 a0 :
  m !! t = Some (r0, a0) → holds_renewMu a0 = true → holds_renewMu a = false →
  lock_ok mu m → lock_ok None (<[ t := (r, a) ]> m).
Proof.
  intros Ht H0 Ha Hm t0. split; [done|]. intros (r1&a1&E&Hh). exfalso.
  destruct (decide (t = t0)) as [->|Hne].
  - rewrite lookup_insert_eq in E. congruence.
  - rewrite lookup_insert_ne in E by done.
    assert (mu = Some t) by (apply Hm; eauto). assert (mu = Some t0) by (apply Hm; eauto). congruence.
Qed.

Lemma holds_after_renew r : holds_renewMu (after_renew r) = false.
Proof. by destruct r. Qed.

Lemma renewMu_subscribe e n : renewMu (fst (subscribe_section e n)) = renewMu e.
Proof. done. Qed.

Lemma renewMu_release e : renewMu (fst (release_section e)) = renewMu e.
Proof. unfold release_section. by repeat case_match. Qed.

Definition lock_inv (w : world) : Prop := lock_ok (renewMu (entry w)) (threads w).

Lemma lock_inv_step w w' : lock_inv w → step w w' → lock_inv w'.
Proof.
  intros Hl Hs. unfold lock_inv in *.
  destruct Hs; unfold do_subscribe, do_release; simpl; try done;
    try (apply lock_ok_same; [|done]; simplify_option_eq; done).
  - (* subscribe *) case_match; simpl; [|done]. apply lock_ok_same; [|done]. by simplify_option_eq.
  - (* release *) destruct (release_section (entry w)) as [e o] eqn:E.
    pose proof (renewMu_release (entry w)) as Hm. rewrite E in Hm. simpl in Hm.
    destruct o; simpl; rewrite Hm; [|done]. apply lock_ok_same; [|done]. by simplify_option_eq.
  - (* renew_dead *) apply lock_ok_same; [|done]. destruct H0 as [[-> _]| ->]; by simplify_option_eq.
  - (* renew_enter *) apply lock_ok_same; [|done]. destruct H0 as [[-> _]| ->]; by simplify_option_eq.
  - (* lock *) apply lock_ok_acquire; [done|]. by rewrite <- H0.
  - (* valid *) eapply lock_ok_release; eauto using holds_after_renew.
  - (* obtain_err *) eapply lock_ok_release; eauto. destruct (_ && _); eauto using holds_after_renew.
  - (* send *) eapply lock_ok_release; eauto using holds_after_renew.
  - (* send_done *) eapply lock_ok_release; eauto using holds_after_renew.
Qed.

Lemma lock_inv_reachable w : reachable w → lock_inv w.
Proof.
  apply reachable_invariant.
  - intros ? (ds & c & n0 & ->) t. simpl. split; [done|]. by intros (?&?&?%lookup_empty_Some&_).
  - eauto using lock_inv_step.
Qed.

(** *** The cached certificate stays expired between the check and the
    broadcast *)

Definition check_inv (w : world) : Prop :=
  ∀ t r a, threads w !! t = Some (r, a) → past_check a = true →
    IsValid (now w) (cert (entry w)) = false.

Lemma IsValid_mono n n' c : n ≤ n' → IsValid n c = false → IsValid n' c = false.
Proof. unfold IsValid, Before. rewrite !Z.ltb_ge. lia. Qed.

Lemma past_holds a : past_check a = true → holds_renewMu a = true.
Proof. by destruct a. Qed.

Lemma check_inv_step w w' : lock_inv w → check_inv w → step w w' → check_inv w'.
Proof.
  intros Hl Hc Hs. unfold check_inv in *.
  destruct Hs; try (simpl; intros; thread_cases; eauto; fail).
  - (* tick *) simpl. intros. eapply IsValid_mono; eauto.
  - (* subscribe *) unfold do_subscribe; simpl. case_match; simpl; intros; thread_cases; eauto.
  - (* release *) unfold do_release, release_section; simpl.
    repeat case_match; simpl; intros; simplify_eq/=; thread_cases; eauto.
  - (* broadcast *) simpl. intros t0 r0 a0 ? Hp. thread_cases. exfalso.
    assert (renewMu (entry w) = Some t) by (apply Hl; eauto).
    assert (renewMu (entry w) = Some t0) by (apply Hl; eauto using past_holds). congruence.
Qed.

Lemma check_inv_reachable w : reachable w → check_inv w.
Proof.
  apply reachable_invariant.
  - intros ? (ds & c & n0 & ->) t r a. simpl. by intros ?%lookup_empty_Some.
  - eauto using check_inv_step, lock_inv_reachable.
Qed.

(** *** The refcount and the renewer *)

Record ref_inv (w : world) : Prop := {
  ri_count : subscribing (entry w) = Z.of_nat (length (holders w));
  ri_bound : (length (holders w) ≤ holders_bound)%nat;
  ri_cancel : cancelRenew (entry w) = None ↔ holders w = [];
}.

Lemma subscribing_zero w : ref_inv w → subscribing (entry w) =? 0 = true ↔ holders w = [].
Proof. intros [Hc _ _]. rewrite Z.eqb_eq, Hc. destruct (holders w); simpl; split; try done; lia. Qed.

Lemma ref_inv_step w w' : ref_inv w → step w w' → ref_inv w'.
Proof.
  intros Hi Hs. pose proof (subscribing_zero w Hi) as Hz. destruct Hi as [Hc Hb Hn].
  destruct Hs; try (split; simpl; auto; fail).
  - (* subscribe *) unfold do_subscribe; simpl.
    assert (to_i64 (subscribing (entry w) + 1) = Z.of_nat (S (length (holders w)))).
    { unfold holders_bound in *. rewrite to_i64_id; lia. }
    destruct (subscribing (entry w) =? 0) eqn:E; split; simpl; try done; try lia.
    rewrite Hn. split; [|done]. intros H3. apply Hz in H3. congruence.
  - (* release *)
    pose proof (Permutation_length H0) as Hl. simpl in Hl.
    unfold do_release, release_section. rewrite Hc, Hl.
    rewrite (proj2 (Z.ltb_lt 0 _)) by lia.
    replace (Z.of_nat (S (length h)) - 1) with (Z.of_nat (length h)) by lia.
    destruct (Z.of_nat (length h) =? 0) eqn:E; bool_simp.
    + assert (h = []) as -> by (destruct h; [done | simpl in E; lia]).
      destruct (cancelRenew (entry w)) eqn:Ec; split; simpl; try done; lia.
    + split; simpl; try lia. split; [intros E'; apply Hn in E'; rewrite E' in Hl; done | by intros ->].
Qed.

Lemma ref_inv_reachable w : reachable w → ref_inv w.
Proof.
  apply reachable_invariant.
  - intros ? (ds & c & n0 & ->). split; simpl; try done; lia.
  - eauto using ref_inv_step.
Qed.


Definition renewer_pc (a : act) : Prop :=
  match a with Idle | Waiting _ _ | Woken | Releasing _ => False | _ => True end.










Lemma after_renew_pc r n : r = Renewer n → renewer_pc (after_renew r) ∧ (after_renew r = Exited → False).
Proof. by intros ->. Qed.


End Invariants.

(** ** Properties of every run *)

Section Properties.
Variable lifetime : Duration.
Notation step := (step lifetime).
Notation reachable := (reachable init step).

(** C1: [WaitForUpdate] never misses a renewal and never wakes for none.  A
    goroutine blocked with [seen] on channel [ch] saw the version left by
    the first [ch] renewals; its channel is closed exactly when another
    renewal has happened since, it can then leave the select, and the
    version it returns is the number of renewals so far (modulo 2^64). *)
Theorem wait_miss_free w t r seen ch :
  reachable w → threads w !! t = Some (r, Waiting seen ch) →
  seen = to_u64 (Z.of_nat ch) ∧
  wait_exit (entry w) = to_u64 (Z.of_nat (length (commits w))) ∧
  (ch ∈ closed w ↔ (ch < length (commits w))%nat) ∧
  ((ch < length (commits w))%nat → step w (set_thread t r Woken w)).
Proof.
  intros Hr Ht. destruct (chan_inv_reachable _ _ Hr) as [Hu Hn Hc Hv Hx Hw].
  destruct (Hw _ _ _ _ Ht) as [Hle Hseen]. split_all; auto.
  intros Hlt. eapply st_wake_chan; [done|]. by apply Hc.
Qed.

(** C8: [renew] never closes a closed channel (which would panic), and a
    snapshot is never torn: the version is the number of renewals and the
    certificate is the one the last renewal broadcast. *)
Theorem snapshot_consistent w c v :
  reachable w → Snapshot (entry w) = (c, v) →
  updated (entry w) ∉ closed w ∧
  v = to_u64 (Z.of_nat (length (commits w))) ∧
  (∀ c0 l, commits w = c0 :: l → c = c0).
Proof.
  intros Hr [= <- <-]. destruct (chan_inv_reachable _ _ Hr) as [Hu Hn Hc Hv Hx Hw].
  split_all; [rewrite Hc, Hu; lia | done | intros c0 l E; by eapply Hx].
Qed.


Lemma cert_changes w w' :
  step w w' → cert (entry w') ≠ cert (entry w) →
  ∃ t r c, threads w !! t = Some (r, RnObtained c) ∧ w' = set_thread t r (RnSend c) (broadcast c w).
Proof.
  intros Hs Hne. destruct Hs; try done; [..|eauto].
  - exfalso. apply Hne. unfold do_subscribe; simpl. by case_match.
  - exfalso. apply Hne. unfold do_release, release_section.
    by destruct ((if 0 <? _ then _ else _) =? 0); [destruct (cancelRenew (entry w))|].
Qed.

(** A valid certificate is never replaced: whatever step changes the
    cached certificate is a broadcast that replaces an expired one, moves
    the version on by one and closes the channel of the waiting readers. *)
Theorem valid_cert_kept w w' :
  reachable w → step w w' → cert (entry w') ≠ cert (entry w) →
  IsValid (now w) (cert (entry w)) = false ∧
  version (entry w') = to_u64 (version (entry w) + 1) ∧
  updated (entry w) ∈ closed w' ∧ updated (entry w') ≠ updated (entry w).
Proof.
  intros Hr Hs Hne. destruct (cert_changes _ _ Hs Hne) as (t&r&c&Ht&->).
  destruct (chan_inv_reachable _ _ Hr) as [Hu Hn _ _ _ _]. simpl. split_all.
  - by eapply (check_inv_reachable _ _ Hr).
  - done.
  - set_solver.
  - rewrite Hn, Hu. lia.
Qed.

(** The refcount is the number of registrations held, and the renewer's
    cancel handle is set exactly while there is one. *)
Theorem refcount_exact w :
  reachable w →
  subscribing (entry w) = Z.of_nat (length (holders w)) ∧
  isSubscribing (entry w) = bool_decide (holders w ≠ []) ∧
  (cancelRenew (entry w) = None ↔ holders w = []).
Proof.
  intros Hr. pose proof (ref_inv_reachable _ _ Hr) as Hi. destruct Hi as [Hc Hb Hn].
  split_all; auto. unfold isSubscribing. rewrite Hc. destruct (holders w); done.
Qed.


(** [renewMu] is never held for ever by a stuck goroutine: the holder
    can always take its next step, except that handing the certificate to
    the store may have to wait for the store writer to take a queued item,
    and then an item is queued. *)
Theorem renewMu_progress w t :
  reachable w → renewMu (entry w) = Some t →
  (∃ w' r a a', step w w' ∧ threads w !! t = Some (r, a) ∧ threads w' !! t = Some (r, a') ∧ a' ≠ a) ∨
  (∃ x q, queue w = x :: q ∧ step w (set_queue q w)).
Proof.
  intros Hr Hmu. apply (lock_inv_reachable _ _ Hr) in Hmu as (r&a&Ht&Hh).
  assert (Hgo : ∀ a' w', step w (set_thread t r a' w') → a' ≠ a →
    ∃ w' r a a', step w w' ∧ threads w !! t = Some (r, a) ∧ threads w' !! t = Some (r, a') ∧ a' ≠ a).
  { intros a' w' Hs Hne. exists (set_thread t r a' w'), r, a, a'. simpl.
    by rewrite lookup_insert_eq. }
  destruct a; try done.
  - left. destruct (IsValid (now w) (Cert (entry w))) eqn:E.
    + eapply Hgo; [by eapply st_renew_valid|]. by destruct r.
    + eapply Hgo; [by eapply st_renew_expired|]. done.
  - left. eapply Hgo; [by eapply st_renew_compute|]. done.
  - left. eapply Hgo; [by apply (st_obtain_ok _ w t r validBefore "" "")|]. done.
  - left. eapply Hgo; [by eapply st_broadcast|]. done.
  - destruct (queue w) as [|x q] eqn:Eq.
    + left. eapply Hgo; [eapply st_send; [done|]|by destruct r]. rewrite Eq. unfold updateCap. simpl. lia.
    + right. exists x, q. split; [done|]. by eapply st_store.
Qed.
End Properties.

(** ** A run of the system *)

Module Demo.
Definition lifetime : Duration := 168 * Hour.
Definition c0 : CertT := mkCertT "fullchain" "key" (newValidBefore lifetime (5 * Hour + 7)) (5 * Hour + 7).
Definition w0 : world :=
  mkWorld (mkEntry ["example.com"] None zeroCert 0 0%nat None 0) ∅ 1%nat ∅ 0%nat (5 * Hour + 7) ∅ [] [] [].
Definition w1 := set_thread 0 (Consumer (CFree 0)) Idle w0.
Definition w2 := do_subscribe 0 1 w1.
Definition w3 := set_thread 0 (Consumer (CFree 0)) (Waiting 0 0) w2.
Definition w4 := set_thread 1 (Renewer 0) RnLock w3.
Definition w5 := set_thread 1 (Renewer 0) RnCheck (set_entry (set_renewMu (entry w4) (Some 1%nat)) w4).
Definition w6 := set_thread 1 (Renewer 0) RnExpired w5.
Definition w7 := set_thread 1 (Renewer 0) (RnObtain (newValidBefore lifetime (now w6))) w6.
Definition w8 := set_thread 1 (Renewer 0) (RnObtained c0) w7.
Definition w9 := set_thread 1 (Renewer 0) (RnSend c0) (broadcast c0 w8).

Notation reachable := (reachable init (step lifetime)).

Lemma reach7 : reachable w7.
Proof.
  assert (H0 : reachable w0) by (apply reach_init; do 3 eexists; reflexivity).
  assert (H1 : reachable w1) by (apply (reach_step _ _ _ _ H0); by apply st_spawn).
  assert (H2 : reachable w2).
  { apply (reach_step _ _ _ _ H1), (st_subscribe _ w1 0 1 (CFree 0)); try done.
    unfold holders_bound. simpl. lia. }
  assert (H3 : reachable w3).
  { apply (reach_step _ _ _ _ H2). by apply (st_wait_block _ w2 0 (CFree 0) 0 0). }
  assert (H4 : reachable w4).
  { apply (reach_step _ _ _ _ H3), (st_renew_enter _ w3 1 (Renewer 0) LoopTop); auto. }
  assert (H5 : reachable w5).
  { apply (reach_step _ _ _ _ H4). by apply (st_renew_lock _ w4 1 (Renewer 0)). }
  assert (H6 : reachable w6).
  { apply (reach_step _ _ _ _ H5). by apply (st_renew_expired _ w5 1 (Renewer 0)). }
  apply (reach_step _ _ _ _ H6). by apply (st_renew_compute _ w6 1 (Renewer 0)).
Defined.

Lemma step8 : step lifetime w7 w8.
Proof. by apply (st_obtain_ok _ w7 1 (Renewer 0) (newValidBefore lifetime (now w6)) "fullchain" "key"). Defined.

Lemma step9 : step lifetime w8 w9.
Proof. by apply (st_broadcast _ w8 1 (Renewer 0) c0). Defined.

Lemma reach8 : reachable w8.
Proof. eapply reach_step; [apply reach7 | apply step8]. Defined.

Lemma reach9 : reachable w9.
Proof. eapply reach_step; [apply reach8 | apply step9]. Defined.
End Demo.

Lemma wait_miss_free_witness :
  threads Demo.w9 !! 0%nat = Some (Consumer (CFree 0), Waiting 0 0) ∧
  step Demo.lifetime Demo.w9 (set_thread 0 (Consumer (CFree 0)) Woken Demo.w9).
Proof.
  split; [reflexivity|].
  apply (wait_miss_free Demo.lifetime Demo.w9 0 (Consumer (CFree 0)) 0 0 Demo.reach9 eq_refl).
  simpl. lia.
Defined.

Lemma snapshot_consistent_witness :
  Snapshot (entry Demo.w9) = (Demo.c0, 1) ∧ updated (entry Demo.w9) ∉ closed Demo.w9.
Proof.
  split; [reflexivity|].
  exact (proj1 (snapshot_consistent Demo.lifetime Demo.w9 Demo.c0 1 Demo.reach9 eq_refl)).
Defined.


Lemma valid_cert_kept_witness :
  cert (entry Demo.w9) ≠ cert (entry Demo.w8) ∧ version (entry Demo.w9) = to_u64 (version (entry Demo.w8) + 1).
Proof.
  assert (H : cert (entry Demo.w9) ≠ cert (entry Demo.w8)) by done.
  split; [exact H|].
  exact (proj1 (proj2 (valid_cert_kept Demo.lifetime Demo.w8 Demo.w9 Demo.reach8 Demo.step9 H))).
Defined.

Lemma refcount_exact_witness :
  holders Demo.w9 = [0%nat] ∧ subscribing (entry Demo.w9) = Z.of_nat (length (holders Demo.w9)).
Proof. split; [reflexivity|]. exact (proj1 (refcount_exact Demo.lifetime Demo.w9 Demo.reach9)). Defined.


Lemma renewMu_progress_witness :
  renewMu (entry Demo.w9) = Some 1%nat ∧
  ((∃ w' r a a', step Demo.lifetime Demo.w9 w' ∧ threads Demo.w9 !! 1%nat = Some (r, a) ∧
      threads w' !! 1%nat = Some (r, a') ∧ a' ≠ a) ∨
   (∃ x q, queue Demo.w9 = x :: q ∧ step Demo.lifetime Demo.w9 (set_queue q Demo.w9))).
Proof.
  split; [reflexivity|]. exact (renewMu_progress Demo.lifetime Demo.w9 1 Demo.reach9 eq_refl).
Defined.
