(* ===== verification/CertStore.v ===== *)
(** pkg/server/cert_store.go: the server's cache.json.

    [Load] reads the persisted map, drops the expired certificates and keys
    the others again with the current [AsKey]; [saveEntry] writes the whole map
    back; [listenUpdate] is the writer goroutine that drains the bounded
    [update] queue, also at shutdown.  The file system and encoding/json's
    codec of the map are interfaces. *)

From Stdlib Require Import ZArith Lia.
From stdpp Require Import base option list gmap strings relations.
From S2P Require Import Prelude.
From S2P Require Import GoStd.
From S2P Require Import Sys.
From S2P Require Import Utf8.
From S2P Require Import Domain.
From S2P Require Import CertEntry.

Open Scope Z_scope.

#[export] Instance Key_eq_dec : EqDecision Key := Z.eq_dec.
#[export] Instance Key_countable : Countable Key := Z_countable.

(** ** Interfaces *)

(** [json.Marshal] of a [map[Key]*certStoreEntry] and [json.Unmarshal] into
    one; a JSON null is a nil pointer. *)
Class CacheCodec := {
  MarshalCache : gmap Key (option certStoreEntry) → result string;
  UnmarshalCache : string → result (gmap Key (option certStoreEntry));
}.

(** Names are valid UTF-8: they come from JSON texts and protocol buffers,
    which hold nothing else. *)
Definition utf8_names (e : certStoreEntry) : Prop := Forall (λ d, ValidString d = true) (se_Domains e).

(** The maps that survive encoding/json: it replaces bytes that are not UTF-8,
    and a key is a [uint64]. *)
Definition storable (m : gmap Key (option certStoreEntry)) : Prop :=
  ∀ k e, m !! k = Some e → 0 ≤ k < u64_mod ∧ from_option utf8_names True e.

(** What is marshalled is what is read back. *)
Class CacheCodecLaws `{CacheCodec} := {
  cache_codec_roundtrip m b : storable m → MarshalCache m = Ok b → UnmarshalCache b = Ok m;
}.

(** ** The store *)

Record CertStore := mkCertStore {
  cs_path : string;
  cs_entries : gmap Key certStoreEntry;
  cs_update : list certStoreEntry;      (* the buffered channel *)
}.

(** [NewCertStore], given the result of [paths.ServerCachePath]. *)
Definition NewCertStore (path : result string) : result CertStore :=
  match path with
  | Err e => Err (EWrap "resolve cert store path: %w" e)
  | Ok path => Ok (mkCertStore path ∅ [])
  end.

Definition set_entries (m : gmap Key certStoreEntry) (s : CertStore) : CertStore :=
  mkCertStore (cs_path s) m (cs_update s).

(** The loop of [Load] over the decoded map, in some iteration order; the
    [i]-th validity check reads the clock at [nows i]. *)
Fixpoint loadLoop (nows : nat → Time) (i : nat) (raw : list (Key * option certStoreEntry))
    (entries : gmap Key certStoreEntry) : outcome (gmap Key certStoreEntry) :=
  match raw with
  | [] => Ret entries
  | (_, None) :: _ => Panic nil_deref
  | (_, Some entry) :: raw' =>
      if negb (IsValid (nows i) (se_Cert entry)) then loadLoop nows (S i) raw' entries
      else loadLoop nows (S i) raw' (<[ AsKey (se_Domains entry) := entry ]> entries)
  end.

Section Store.
Context {F : Type} `{FileSystem F} `{CacheCodec}.

(** The order in which the Go runtime ranges over a map. *)
Variable range : gmap Key (option certStoreEntry) → list (Key * option certStoreEntry).

Definition Load (nows : nat → Time) (s : CertStore) (f : F) : outcome (CertStore * option error) :=
  if negb (FileExists (cs_path s) f) then Ret (s, Some (ESentinel ErrNotExist))
  else match ReadFile (cs_path s) f with
  | Err err => Ret (s, Some (EWrap "opening cert store: %w" err))
  | Ok cfile =>
      match UnmarshalCache cfile with
      | Err err => Ret (s, Some (EWrap "unmarshaling cert store: %w" err))
      | Ok raw =>
          match loadLoop nows 0 (range raw) (cs_entries s) with
          | Panic m => Panic m
          | Ret entries => Ret (set_entries entries s, None)
          end
      end
  end.

Definition save (s : CertStore) (f : F) : option error * F :=
  match MarshalCache (Some <$> cs_entries s) with
  | Err err => (Some (EWrap "marshal cert store: %w" err), f)
  | Ok jsonBytes =>
      let '(err, f) := WriteFile (cs_path s) jsonBytes f in
      match err with
      | Some err => (Some (EWrap "write cert store: %w" err), f)
      | None => (None, f)
      end
  end.

Definition saveEntry (fe : certStoreEntry) (s : CertStore) (f : F) : CertStore * (option error * F) :=
  let s := set_entries (<[ AsKey (se_Domains fe) := fe ]> (cs_entries s)) s in
  (s, save s f).

(** [listenUpdate]'s [persist] when nothing interrupts it: a failed write is
    only logged. *)
Definition persist (fe : certStoreEntry) (s : CertStore) (f : F) : CertStore * F :=
  let '(s, (_, f)) := saveEntry fe s f in (s, f).

(** ** The writer goroutine *)

Inductive phase := Running | Draining | Exited.

(** Where [persist] is: not called, called with the entry just received,
    inside os.WriteFile, which has started from a state of the file system. *)
Inductive saving := NoSave | Received (fe : certStoreEntry) | Writing (text : string) (from : F).

Record writer := mkWriter {
  w_store : CertStore;
  w_fs : F;
  w_phase : phase;
  w_done : bool;                    (* the context is done *)
  w_saving : saving;
  w_sent : list certStoreEntry;     (* ghost: everything put in the queue *)
  w_taken : list certStoreEntry;    (* ghost: everything received from it *)
  w_last : option (option error);   (* ghost: the outcome of the last finished [save] *)
}.

Definition set_update (q : list certStoreEntry) (s : CertStore) : CertStore :=
  mkCertStore (cs_path s) (cs_entries s) q.

Definition send (fe : certStoreEntry) (w : writer) : writer :=
  mkWriter (set_update (cs_update (w_store w) ++ [fe]) (w_store w)) (w_fs w) (w_phase w) (w_done w)
    (w_saving w) (w_sent w ++ [fe]) (w_taken w) (w_last w).

Definition cancel (w : writer) : writer :=
  mkWriter (w_store w) (w_fs w) (w_phase w) true (w_saving w) (w_sent w) (w_taken w) (w_last w).

Definition set_phase (ph : phase) (w : writer) : writer :=
  mkWriter (w_store w) (w_fs w) ph (w_done w) (w_saving w) (w_sent w) (w_taken w) (w_last w).

(** [fe := <-s.update]: the slot of the queue is free from here on. *)
Definition receive (fe : certStoreEntry) (q : list certStoreEntry) (w : writer) : writer :=
  mkWriter (set_update q (w_store w)) (w_fs w) (w_phase w) (w_done w)
    (Received fe) (w_sent w) (w_taken w ++ [fe]) (w_last w).

(** [saveEntry] up to the call of os.WriteFile. *)
Definition beginSave (fe : certStoreEntry) (w : writer) : writer :=
  let s := set_entries (<[ AsKey (se_Domains fe) := fe ]> (cs_entries (w_store w))) (w_store w) in
  match MarshalCache (Some <$> cs_entries s) with
  | Err err =>
      mkWriter s (w_fs w) (w_phase w) (w_done w) NoSave (w_sent w) (w_taken w)
        (Some (Some (EWrap "marshal cert store: %w" err)))
  | Ok text =>
      mkWriter s (w_fs w) (w_phase w) (w_done w) (Writing text (w_fs w)) (w_sent w) (w_taken w) (w_last w)
  end.

Definition set_fs (f : F) (w : writer) : writer :=
  mkWriter (w_store w) f (w_phase w) (w_done w) (w_saving w) (w_sent w) (w_taken w) (w_last w).

(** The return of os.WriteFile; a failure is only logged. *)
Definition endSave (err : option error) (f : F) (w : writer) : writer :=
  mkWriter (w_store w) f (w_phase w) (w_done w) NoSave (w_sent w) (w_taken w)
    (Some (EWrap "write cert store: %w" <$> err)).

Inductive wstep : writer → writer → Prop :=
(* a renewal hands over a certificate *)
| ws_send w fe : (length (cs_update (w_store w)) < updateCap)%nat → wstep w (send fe w)
| ws_cancel w : wstep w (cancel w)
(* the outer select *)
| ws_update w fe q :
    w_phase w = Running → w_saving w = NoSave → cs_update (w_store w) = fe :: q → wstep w (receive fe q w)
| ws_done w :
    w_phase w = Running → w_saving w = NoSave → w_done w = true → wstep w (set_phase Draining w)
(* the drain loop *)
| ws_drain w fe q :
    w_phase w = Draining → w_saving w = NoSave → cs_update (w_store w) = fe :: q → wstep w (receive fe q w)
| ws_exit w :
    w_phase w = Draining → w_saving w = NoSave → cs_update (w_store w) = [] → wstep w (set_phase Exited w)
(* persist *)
| ws_marshal w fe : w_saving w = Received fe → wstep w (beginSave fe w)
| ws_partial w text f f' :
    w_saving w = Writing text f → writing (cs_path (w_store w)) text f f' → wstep w (set_fs f' w)
| ws_written w text f err f' :
    w_saving w = Writing text f → WriteFile (cs_path (w_store w)) text f = (err, f') → wstep w (endSave err f' w).

(** Started by [Init] on the loaded store, whose queue is empty. *)
Definition winit (s : CertStore) (f : F) (w : writer) : Prop :=
  cs_update s = [] ∧ w = mkWriter s f Running false NoSave [] [] None.

End Store.

Arguments writer F : clear implicits.
Arguments saving F : clear implicits.

(** ** Loading *)

(** Every entry is stored under the key of its own domains. *)
Definition well_keyed (m : gmap Key certStoreEntry) : Prop :=
  ∀ k e, m !! k = Some e → AsKey (se_Domains e) = k.

(** The certificates of a map, whatever the pointers are keyed by. *)
Definition stored (raw : list (Key * option certStoreEntry)) (e : certStoreEntry) : Prop :=
  ∃ k, (k, Some e) ∈ raw.

Lemma well_keyed_insert m e :
  well_keyed m → well_keyed (<[ AsKey (se_Domains e) := e ]> m).
Proof. intros Hm k e' [[<- <-]|[_ ?]]%lookup_insert_Some; eauto. Qed.

(** The loop keeps what is valid when it is examined, under its own key. *)
Lemma loadLoop_spec nows t0 t1 raw : (∀ i, t0 ≤ nows i ≤ t1) →
  Forall (λ x, is_Some x.2) raw → ∀ i m, well_keyed m → ∃ m',
    loadLoop nows i raw m = Ret m' ∧ well_keyed m' ∧
    (∀ k e, m' !! k = Some e → m !! k = Some e ∨ (stored raw e ∧ t0 < ValidBefore (se_Cert e))) ∧
    (∀ k, is_Some (m !! k) → is_Some (m' !! k)) ∧
    (∀ e, stored raw e → t1 < ValidBefore (se_Cert e) → is_Some (m' !! AsKey (se_Domains e))).
Proof.
  intros Ht Hraw. induction Hraw as [|[k0 o] raw [e0 He] Hraw IH]; intros i m Hm; simpl in *.
  { exists m. unfold stored. split_all; try done; [naive_solver|]. intros e [k Hk]. set_solver. }
  subst o. assert (Hst : ∀ e, stored ((k0, Some e0) :: raw) e ↔ e = e0 ∨ stored raw e).
  { unfold stored. intros e. setoid_rewrite elem_of_cons. naive_solver. }
  specialize (Ht i). unfold IsValid, Before.
  destruct (Z.ltb_spec (nows i) (ValidBefore (se_Cert e0))) as [Hv|Hv]; simpl.
  - destruct (IH (S i) _ (well_keyed_insert m e0 Hm)) as (m'&E&Hk&Hi&Hp&Hs).
    exists m'. setoid_rewrite Hst. split_all; try done.
    + intros k e [[[<- <-]|[? ?]]%lookup_insert_Some|[? ?]]%Hi; [right; split; [auto|lia]|auto..].
    + intros k Hkm. apply Hp. destruct (decide (AsKey (se_Domains e0) = k)) as [<-|?];
        [rewrite lookup_insert_eq; eauto | by rewrite lookup_insert_ne].
    + intros e [->|Hse] Hlt; [|by apply Hs]. apply Hp. rewrite lookup_insert_eq. eauto.
  - destruct (IH (S i) _ Hm) as (m'&E&Hk&Hi&Hp&Hs).
    exists m'. setoid_rewrite Hst. split_all; try done.
    + intros k e [?|[? ?]]%Hi; auto.
    + intros e [->|Hse] Hlt; [lia | by apply Hs].
Qed.

Lemma loadLoop_null nows raw k : (k, None) ∈ raw → ∀ i m, loadLoop nows i raw m = Panic nil_deref.
Proof.
  induction raw as [|[k0 [e0|]] raw IH]; intros Hin i m; simpl; [set_solver| |done].
  assert ((k, None) ∈ raw) by set_solver. case_match; by apply IH.
Qed.

Lemma loadLoop_panic nows raw : ∀ i m msg, loadLoop nows i raw m = Panic msg →
  msg = nil_deref ∧ ∃ k, (k, None) ∈ raw.
Proof.
  induction raw as [|[k0 [e0|]] raw IH]; intros i m msg; simpl; [done| |].
  - case_match; intros (?&k&?)%IH; (split; [done|exists k; by right]).
  - intros [= <-]. split; [done|]. exists k0. by left.
Qed.

Lemma loadLoop_keyed nows raw : ∀ i m m', well_keyed m → loadLoop nows i raw m = Ret m' → well_keyed m'.
Proof.
  induction raw as [|[k0 [e0|]] raw IH]; intros i m m' Hm; simpl; [by intros [= <-]| |done].
  case_match; intros E; eapply IH; try exact E; [done|by apply well_keyed_insert].
Qed.

Section StoreTheorems.
Context {F : Type} `{FileSystemLaws F} `{CacheCodecLaws}.
Variable range : gmap Key (option certStoreEntry) → list (Key * option certStoreEntry).

(** Ranging visits every entry once, in some order. *)
Hypothesis range_all : ∀ m, range m ≡ₚ map_to_list m.

Lemma stored_range raw e : stored (range raw) e ↔ ∃ k, raw !! k = Some (Some e).
Proof.
  unfold stored. setoid_rewrite range_all. by setoid_rewrite elem_of_map_to_list.
Qed.

Lemma range_ptrs raw : (∀ k o, raw !! k = Some o → is_Some o) → Forall (λ x, is_Some x.2) (range raw).
Proof.
  intros Hraw. rewrite range_all. apply Forall_forall. intros [k o] Hko%elem_of_map_to_list. eauto.
Qed.

Lemma Load_decoded nows t0 t1 s f b raw :
  (∀ i, t0 ≤ nows i ≤ t1) → cs_entries s = ∅ →
  FileExists (cs_path s) f = true → ReadFile (cs_path s) f = Ok b → UnmarshalCache b = Ok raw →
  (∀ k o, raw !! k = Some o → is_Some o) →
  ∃ s', Load range nows s f = Ret (s', None) ∧ well_keyed (cs_entries s') ∧
    (∀ k e, cs_entries s' !! k = Some e →
       (∃ k0, raw !! k0 = Some (Some e)) ∧ t0 < ValidBefore (se_Cert e)) ∧
    (∀ k0 e, raw !! k0 = Some (Some e) → t1 < ValidBefore (se_Cert e) →
       is_Some (cs_entries s' !! AsKey (se_Domains e))).
Proof.
  intros Ht Hs He Hr Hu Hraw. unfold Load. rewrite He, Hr, Hu, Hs. simpl.
  destruct (loadLoop_spec nows t0 t1 (range raw) Ht (range_ptrs raw Hraw) 0%nat ∅)
    as (m&E&Hk&Hi&_&Hv); [by intros ?? ?%lookup_empty_Some|].
  rewrite E. eexists. split_all; [done|done| |].
  - intros k e [?%lookup_empty_Some|[Hst ?]]%Hi; [done|]. split; [|done]. by apply stored_range.
  - intros k0 e Hk0. apply Hv. apply stored_range. eauto.
Qed.

(** [Load] on an empty store keeps exactly the certificates that are
    still valid: everything it keeps comes from the file, was valid when
    loading began and is stored under the key of its own domains; every
    certificate that is valid when loading ends leaves its bundle served. *)
Theorem Load_keeps_valid nows t0 t1 s f b raw :
  (∀ i, t0 ≤ nows i ≤ t1) → cs_entries s = ∅ →
  FileExists (cs_path s) f = true → ReadFile (cs_path s) f = Ok b → UnmarshalCache b = Ok raw →
  (∀ k o, raw !! k = Some o → is_Some o) →
  ∃ s', Load range nows s f = Ret (s', None) ∧ well_keyed (cs_entries s') ∧
    (∀ k e, cs_entries s' !! k = Some e →
       (∃ k0, raw !! k0 = Some (Some e)) ∧ t0 < ValidBefore (se_Cert e)) ∧
    (∀ k0 e, raw !! k0 = Some (Some e) → t1 < ValidBefore (se_Cert e) →
       is_Some (cs_entries s' !! AsKey (se_Domains e))).
Proof. apply Load_decoded. Qed.

(** The file holds the entries of the store. *)
Definition holds (s : CertStore) (f : F) : Prop :=
  FileExists (cs_path s) f = true ∧
  ∃ b, MarshalCache (Some <$> cs_entries s) = Ok b ∧ ReadFile (cs_path s) f = Ok b.

Lemma save_holds s f f' : save s f = (None, f') → holds s f'.
Proof.
  unfold save, holds, FileExists. destruct (MarshalCache _) as [b|e]; [|done].
  destruct (WriteFile (cs_path s) b f) as [[e|] f1] eqn:Ew; intros; simplify_eq.
  rewrite (write_stat _ _ _ _ Ew). split; [done|]. exists b. split; [done|]. by eapply write_read.
Qed.

Lemma keyed_storable m : well_keyed m → (∀ k e, m !! k = Some e → utf8_names e) → storable (Some <$> m).
Proof.
  intros Hk Hu k o Ho. rewrite lookup_fmap in Ho. destruct (m !! k) as [e|] eqn:E; [|done].
  injection Ho as <-. split; [|by eapply Hu]. rewrite <- (Hk k e E). apply AsKey_range.
Qed.

Lemma holds_loads nows t0 t1 s f :
  (∀ i, t0 ≤ nows i ≤ t1) → well_keyed (cs_entries s) → (∀ k e, cs_entries s !! k = Some e → utf8_names e) →
  holds s f →
  ∃ s', Load range nows (mkCertStore (cs_path s) ∅ []) f = Ret (s', None) ∧
    cs_entries s' ⊆ cs_entries s ∧
    (∀ k e, cs_entries s' !! k = Some e → t0 < ValidBefore (se_Cert e)) ∧
    (∀ k e, cs_entries s !! k = Some e → t1 < ValidBefore (se_Cert e) →
       cs_entries s' !! k = Some e).
Proof.
  intros Ht Hk Hu (Hf&b&Em&Hr).
  destruct (Load_decoded nows t0 t1 (mkCertStore (cs_path s) ∅ []) f b (Some <$> cs_entries s))
    as (s'&E&Hk'&Hi&Hv); simpl; try done.
  - by apply cache_codec_roundtrip; [apply keyed_storable|].
  - intros k o Ho. rewrite lookup_fmap in Ho. destruct (cs_entries s !! k); naive_solver.
  - assert (Hsub : ∀ k e, cs_entries s' !! k = Some e → cs_entries s !! k = Some e).
    { intros k e He. destruct (Hi k e He) as [[k0 Hk0] _]. rewrite lookup_fmap in Hk0.
      destruct (cs_entries s !! k0) eqn:E0; simplify_eq/=.
      by rewrite <- (Hk' k e He), (Hk k0 e E0). }
    exists s'. split_all; [done| | |].
    + by apply map_subseteq_spec.
    + intros k e He. by apply (Hi k e).
    + intros k e He Hlt. destruct (Hv k e) as [e' He']; [by rewrite lookup_fmap, He | done|].
      rewrite (Hk k e He) in He'. rewrite He'. rewrite <- He. symmetry. by apply Hsub.
Qed.

(** C13: restart recovers the store: after a successful [save], loading the
    file into a fresh store gives back each saved certificate that is still
    valid, unchanged and under the same key, and nothing else. *)
Theorem save_Load_roundtrip nows t0 t1 s f f' :
  (∀ i, t0 ≤ nows i ≤ t1) → well_keyed (cs_entries s) →
  (∀ k e, cs_entries s !! k = Some e → utf8_names e) →
  save s f = (None, f') →
  ∃ s', Load range nows (mkCertStore (cs_path s) ∅ []) f' = Ret (s', None) ∧
    cs_entries s' ⊆ cs_entries s ∧
    (∀ k e, cs_entries s' !! k = Some e → t0 < ValidBefore (se_Cert e)) ∧
    (∀ k e, cs_entries s !! k = Some e → t1 < ValidBefore (se_Cert e) →
       cs_entries s' !! k = Some e).
Proof. intros Ht Hk Hu Hs%save_holds. by apply holds_loads. Qed.

(** A JSON null among the persisted entries makes [Load] panic, whatever
    the iteration order: it is not one of the load errors that [Init]
    tolerates. *)
Theorem Load_null_panics nows s f b raw k :
  FileExists (cs_path s) f = true → ReadFile (cs_path s) f = Ok b → UnmarshalCache b = Ok raw →
  raw !! k = Some None → Load range nows s f = Panic nil_deref.
Proof.
  intros He Hr Hu Hk. unfold Load. rewrite He, Hr, Hu. simpl.
  rewrite (loadLoop_null nows (range raw) k); [done|].
  rewrite range_all. by apply elem_of_map_to_list.
Qed.

(** ** The writer *)

(** The entries after persisting a sequence of certificates. *)
Definition apply_saved (m : gmap Key certStoreEntry) (fes : list certStoreEntry) :=
  foldl (λ m fe, <[ AsKey (se_Domains fe) := fe ]> m) m fes.

Lemma apply_saved_keyed m fes : well_keyed m → well_keyed (apply_saved m fes).
Proof.
  unfold apply_saved. revert m. induction fes as [|fe fes IH]; intros m Hm; simpl;
    auto using well_keyed_insert.
Qed.

Lemma apply_saved_snoc m fes fe :
  apply_saved m (fes ++ [fe]) = <[ AsKey (se_Domains fe) := fe ]> (apply_saved m fes).
Proof. unfold apply_saved. by rewrite foldl_app. Qed.

Lemma apply_saved_in m fes k e : apply_saved m fes !! k = Some e → m !! k = Some e ∨ e ∈ fes.
Proof.
  induction fes as [|fe fes IH] using rev_ind; [by left|]. rewrite apply_saved_snoc.
  intros [[_ <-]|[_ ?]]%lookup_insert_Some; set_solver.
Qed.

(** What the map does not hold yet of the received entries. *)
Definition pending (sv : saving F) : list certStoreEntry :=
  match sv with Received fe => [fe] | _ => [] end.

(** Where the file is: as it was started with, as the last [save] left it, or
    somewhere in the middle of os.WriteFile. *)
Definition on_disk (f : F) (w : writer F) : Prop :=
  match w_saving w with
  | Writing text from => MarshalCache (Some <$> cs_entries (w_store w)) = Ok text ∧
      (w_fs w = from ∨ writing (cs_path (w_store w)) text from (w_fs w))
  | Received _ => True
  | NoSave =>
      match w_last w with
      | None => w_taken w = [] ∧ w_fs w = f
      | Some o => w_taken w ≠ [] ∧ ∃ f0, save (w_store w) f0 = (o, w_fs w)
      end
  end.

Record writer_inv (s : CertStore) (f : F) (w : writer F) : Prop := {
  wi_queue : w_sent w = w_taken w ++ cs_update (w_store w);
  wi_entries : ∃ l, w_taken w = l ++ pending (w_saving w) ∧
    cs_entries (w_store w) = apply_saved (cs_entries s) l;
  wi_path : cs_path (w_store w) = cs_path s;
  wi_taken : w_saving w ≠ NoSave → w_taken w ≠ [];
  wi_disk : on_disk f w;
  wi_bound : (length (cs_update (w_store w)) ≤ updateCap)%nat;
  wi_exited : w_phase w = Exited → w_saving w = NoSave;
}.

Lemma receive_inv s f w fe q : w_phase w ≠ Exited →
  writer_inv s f w → w_saving w = NoSave → cs_update (w_store w) = fe :: q → writer_inv s f (receive fe q w).
Proof.
  intros Hx [Hq (l&Hl&He) Hp Ht Hd Hb _] Hs Hu. rewrite Hs in Hl. simpl in Hl. rewrite app_nil_r in Hl. split; simpl.
  - rewrite Hq, Hu. by rewrite <- app_assoc.
  - exists (w_taken w). split; [done|]. by rewrite Hl.
  - done.
  - intros _ ?%app_nil. naive_solver.
  - done.
  - rewrite Hu in Hb. simpl in Hb. lia.
  - done.
Qed.

Lemma beginSave_inv s f w fe : writer_inv s f w → w_saving w = Received fe → writer_inv s f (beginSave fe w).
Proof.
  intros [Hq (l&Hl&He) Hp Ht Hd Hb Hx] Hs. rewrite Hs in Hl. simpl in Hl.
  assert (Hne : w_taken w ≠ []) by (apply Ht; by rewrite Hs).
  assert (Hent : ∃ l0, w_taken w = l0 ++ [] ∧
    <[ AsKey (se_Domains fe) := fe ]> (cs_entries (w_store w)) = apply_saved (cs_entries s) l0)
    by (exists (w_taken w); rewrite app_nil_r, Hl, apply_saved_snoc, He; done).
  unfold beginSave. simpl. destruct (MarshalCache _) as [text|err] eqn:E; split; simpl; try done; try (by rewrite Hs in Hx).
  - unfold on_disk. simpl. split; [done|]. by left.
  - intros Hp'. rewrite (Hx Hp') in Hs. done.
  - unfold on_disk. simpl. split; [done|]. exists (w_fs w). unfold save. simpl. by rewrite E.
Qed.

Lemma endSave_inv s f w text from err f' : writer_inv s f w → w_saving w = Writing text from →
  WriteFile (cs_path (w_store w)) text from = (err, f') → writer_inv s f (endSave err f' w).
Proof.
  intros [Hq (l&Hl&He) Hp Ht Hd Hb Hx] Hs Hw. unfold on_disk in Hd. rewrite Hs in Hl, Hd.
  split; simpl; try done; [by exists l|]. unfold on_disk. simpl. split; [apply Ht; by rewrite Hs|].
  exists from. unfold save. destruct Hd as [-> _]. rewrite Hw. by destruct err.
Qed.

Lemma writer_inv_step s f w w' : writer_inv s f w → wstep w w' → writer_inv s f w'.
Proof.
  intros Hi Hs. pose proof Hi as [Hq He Hp Ht Hd Hb Hx].
  destruct Hs as [w fe Hlt|w|w fe q Hr Hn Hu|w Hr Hn Hdn|w fe q Hr Hn Hu|w Hr Hn Hu|w fe Hn|w text g f' Hn Hw|w text g err f' Hn Hw].
  - split; try done; simpl; [by rewrite Hq, app_assoc|]. rewrite length_app. simpl. lia.
  - by split.
  - apply receive_inv; [congruence|done..].
  - by split.
  - apply receive_inv; [congruence|done..].
  - by split.
  - by apply beginSave_inv.
  - split; try done. unfold on_disk in *. simpl. rewrite Hn in *. destruct Hd as [Hd _]. split; [done|]. by right.
  - by eapply endSave_inv.
Qed.

Lemma writer_inv_reachable s f w : reachable (winit s f) wstep w → writer_inv s f w.
Proof.
  apply reachable_invariant.
  - intros w0 [Hq ->]. split; simpl; rewrite ?Hq; try done; [by exists []|simpl; lia].
  - intros w0 w' _. apply writer_inv_step.
Qed.

(** What the next start-up reads back: of the initial entries overwritten by
    the received ones, each one that is still valid and nothing else. *)
Definition recovers (s : CertStore) (received : list certStoreEntry) (f : F) : Prop :=
  ∀ nows t0 t1, (∀ i, t0 ≤ nows i ≤ t1) → well_keyed (cs_entries s) →
  (∀ k e, cs_entries s !! k = Some e → utf8_names e) → Forall utf8_names received →
  ∃ s', Load range nows (mkCertStore (cs_path s) ∅ []) f = Ret (s', None) ∧
    cs_entries s' ⊆ apply_saved (cs_entries s) received ∧
    ∀ k e, apply_saved (cs_entries s) received !! k = Some e → t1 < ValidBefore (se_Cert e) →
      cs_entries s' !! k = Some e.

Lemma inv_recovers s f w : writer_inv s f w → w_saving w = NoSave → w_last w = Some None →
  recovers s (w_taken w) (w_fs w).
Proof.
  intros [_ (l&Hl&He) Hp _ Hd _ _] Hs Hla nows t0 t1 Ht Hk Hu Hr. unfold on_disk in Hd. rewrite Hs, Hla in Hd.
  rewrite Hs in Hl. simpl in Hl. rewrite app_nil_r in Hl. rewrite Hl in *. destruct Hd as [_ [f0 Hd%save_holds]].
  destruct (holds_loads nows t0 t1 (w_store w) (w_fs w) Ht) as (s'&E&Hsub&_&Hv); try done.
  - rewrite He. by apply apply_saved_keyed.
  - rewrite He. intros k e [?|Hin]%apply_saved_in; [by eapply Hu|]. rewrite Forall_forall in Hr. by apply Hr.
  - rewrite Hp in E. rewrite He in Hsub, Hv. by exists s'.
Qed.

(** C32: no renewal handed to the writer before it exits is lost: when the
    goroutine returns, every certificate sent so far has been received, in
    order, the store holds exactly the initial entries overwritten by them, and
    the file is what saving that whole store left: when that last write
    succeeded, the next start-up reads back every one of these certificates
    that is still valid and nothing else; when nothing was sent, the file is
    untouched. *)
Theorem listenUpdate_lossless s f w w' :
  reachable (winit s f) wstep w → wstep w w' → w_phase w ≠ Exited → w_phase w' = Exited →
  w_taken w' = w_sent w' ∧
  cs_entries (w_store w') = apply_saved (cs_entries s) (w_sent w') ∧
  match w_last w' with
  | None => w_sent w' = [] ∧ w_fs w' = f
  | Some o => w_sent w' ≠ [] ∧ (∃ f0, save (w_store w') f0 = (o, w_fs w')) ∧
      (o = None → recovers s (w_sent w') (w_fs w'))
  end.
Proof.
  intros Hr Hs Hn Hx.
  assert (Hw' : writer_inv s f w') by (eapply writer_inv_reachable, reach_step; eauto).
  assert (Hq : cs_update (w_store w') = []).
  { destruct Hs; simpl in *; try done. revert Hn Hx. unfold beginSave. by destruct (MarshalCache _). }
  pose proof (inv_recovers s f w' Hw') as Hrec. destruct Hw' as [Hsent (l&Hl&He) _ _ Hd _ Hns].
  specialize (Hns Hx). unfold on_disk in Hd. rewrite Hns in Hd, Hl, Hrec. simpl in Hl.
  rewrite Hq, app_nil_r in Hsent. rewrite app_nil_r in Hl. rewrite Hsent. split_all; [done|by rewrite Hl|].
  destruct (w_last w') as [o|]; [|done]. destruct Hd as [? ?]. split_all; [done..|]. intros ->. by apply Hrec.
Qed.

(** An uninterrupted [persist] is a run of the writer. *)
Lemma persist_steps fe (w : writer F) : w_saving w = Received fe →
  ∃ n w', (n ≤ 2)%nat ∧ nsteps wstep n w w' ∧ w_saving w' = NoSave ∧
    (w_store w', w_fs w') = persist fe (w_store w) (w_fs w) ∧
    w_last w' = Some (saveEntry fe (w_store w) (w_fs w)).2.1 ∧
    w_phase w' = w_phase w ∧ w_done w' = w_done w ∧ w_taken w' = w_taken w.
Proof.
  intros Hs. pose proof (ws_marshal w fe Hs) as Hst1. unfold persist, saveEntry, save. unfold beginSave in Hst1. simpl in *.
  destruct (MarshalCache _) as [text|err] eqn:E.
  - match type of Hst1 with wstep _ ?w1 => set (w1' := w1) in * end.
    destruct (WriteFile (cs_path (w_store w)) text (w_fs w)) as [err f'] eqn:Ew.
    assert (Hst2 : wstep w1' (endSave err f' w1')) by (by eapply ws_written).
    exists 2%nat, (endSave err f' w1'). split; [lia|]. split; [econstructor; [exact Hst1|by apply nsteps_once]|].
    by destruct err.
  - eexists 1%nat, _. split; [lia|]. split; [by apply nsteps_once|]. done.
Qed.

Lemma finish_save (w : writer F) : ∃ n w', (n ≤ 2)%nat ∧ nsteps wstep n w w' ∧ w_saving w' = NoSave ∧
  w_phase w' = w_phase w ∧ w_done w' = w_done w ∧ w_taken w' = w_taken w ∧
  cs_update (w_store w') = cs_update (w_store w).
Proof.
  destruct (w_saving w) as [|fe|text g] eqn:Hs.
  - exists 0%nat, w. split_all; try done; [lia|constructor].
  - destruct (persist_steps fe w Hs) as (n&w'&Hn&Hsteps&Hns&Hp&_&?&?&?).
    exists n, w'. split_all; try done. unfold persist, saveEntry in Hp. destruct (save _ _). by injection Hp as -> _.
  - destruct (WriteFile (cs_path (w_store w)) text g) as [err f'] eqn:Ew.
    exists 1%nat, (endSave err f' w). split_all; try done; [lia|]. by eapply nsteps_once, ws_written.
Qed.

Lemma drain_exits : ∀ q (w : writer F), cs_update (w_store w) = q → w_phase w = Draining → w_saving w = NoSave →
  ∃ n w', (n ≤ 3 * length q + 1)%nat ∧ nsteps wstep n w w' ∧ w_phase w' = Exited ∧ w_taken w' = w_taken w ++ q.
Proof.
  induction q as [|fe q IH]; intros w Hq Hp Hs.
  - eexists 1%nat, _. split_all; [simpl; lia|by apply nsteps_once, ws_exit|done|by rewrite app_nil_r].
  - destruct (finish_save (receive fe q w)) as (n&w1&Hn&Hs1&Hns&Hp1&_&Ht1&Hu1). simpl in *.
    destruct (IH w1) as (m&w'&Hm&Hs2&Hx&Ht); [done|congruence|done|].
    exists (S (n + m)), w'. split_all; [simpl; lia| |done|by rewrite Ht, Ht1, <- app_assoc].
    econstructor; [by apply ws_drain|]. by eapply nsteps_trans.
Qed.

(** The writer never blocks shutdown: once the context is done, it exits
    within a bounded number of its own steps, three for each queued certificate
    and four more, when no more arrive, and has received the whole queue. *)
Theorem listenUpdate_exits (w : writer F) :
  w_done w = true → w_phase w ≠ Exited →
  ∃ n w', (n ≤ 3 * length (cs_update (w_store w)) + 4)%nat ∧ nsteps wstep n w w' ∧
    w_phase w' = Exited ∧ w_taken w' = w_taken w ++ cs_update (w_store w).
Proof.
  intros Hd Hx. destruct (finish_save w) as (n&w1&Hn&Hs1&Hns&Hp1&Hd1&Ht1&Hu1).
  assert (∃ k w2, (k ≤ 1)%nat ∧ nsteps wstep k w1 w2 ∧ w_phase w2 = Draining ∧ w_saving w2 = NoSave ∧
    w_taken w2 = w_taken w1 ∧ cs_update (w_store w2) = cs_update (w_store w1)) as (k&w2&Hk&Hs2&Hp2&Hn2&Ht2&Hu2).
  { destruct (w_phase w) eqn:Hp; [| |done].
    - exists 1%nat, (set_phase Draining w1). split_all; try done. apply nsteps_once, ws_done; congruence.
    - exists 0%nat, w1. split_all; try done; [lia|constructor]. }
  destruct (drain_exits (cs_update (w_store w)) w2) as (m&w'&Hm&Hs3&Hx'&Ht); [congruence|done..|].
  exists (n + (k + m))%nat, w'. split_all; [lia| |done|by rewrite Ht, Ht2, Ht1].
  eapply nsteps_trans; [done|]. by eapply nsteps_trans.
Qed.
End StoreTheorems.

(** ** A concrete file system and codec *)

Module Demo.
#[export] Instance entry_eq_dec : EqDecision certStoreEntry.
Proof. solve_decision. Defined.

#[export] Instance entry_countable : Countable certStoreEntry.
Proof.
  apply (inj_countable'
    (λ e, (se_Domains e, (FullChain (se_Cert e), PrivKey (se_Cert e)),
           (ValidBefore (se_Cert e), RenewAt (se_Cert e))))
    (λ '(ds, (c, k), (v, r)), mkStoreEntry ds (mkCertT c k v r))).
  by intros [? []].
Defined.

(** A bit-string codec. *)
Fixpoint bits (p : positive) : string :=
  match p with xH => "" | xO q => String (Ascii.ascii_of_nat 48) (bits q) | xI q => String (Ascii.ascii_of_nat 49) (bits q) end.

Fixpoint unbits (s : string) : positive :=
  match s with
  | EmptyString => xH
  | String a s' => if Ascii.eqb a (Ascii.ascii_of_nat 49) then xI (unbits s') else xO (unbits s')
  end.

Lemma unbits_bits p : unbits (bits p) = p.
Proof. induction p; simpl; by f_equal. Qed.

#[export] Instance bit_codec : CacheCodec := {
  MarshalCache m := Ok (bits (encode m));
  UnmarshalCache b := match decode (unbits b) with Some m => Ok m | None => Err (EText "bad") end;
}.

#[export] Instance bit_codec_laws : CacheCodecLaws.
Proof. split. intros m b _ [= <-]. simpl. by rewrite unbits_bits, decode_encode. Qed.

Definition range (m : gmap Key (option certStoreEntry)) := map_to_list m.

Definition old_cert := mkStoreEntry ["old.example.com"] (mkCertT "c0" "k0" 10 0).
Definition new_cert := mkStoreEntry ["example.com"] (mkCertT "c1" "k1" 1000 5).

(** A file whose keys come from another key algorithm. *)
Definition raw : gmap Key (option certStoreEntry) :=
  <[ 1 := Some old_cert ]> (<[ 2 := Some new_cert ]> ∅).
Definition file : string := bits (encode raw).
Definition disk : Disk := mkDisk (<[ "/var/lib/certdx/cache.json" := file ]> ∅) [].
Definition empty_disk : Disk := mkDisk ∅ [].
Definition empty_store : CertStore := mkCertStore "/var/lib/certdx/cache.json" ∅ [].
Definition clock (i : nat) : Time := 100.
Definition loaded : CertStore :=
  mkCertStore "/var/lib/certdx/cache.json"
    (<[ AsKey ["example.com"] := new_cert ]> (<[ AsKey ["old.example.com"] := old_cert ]> ∅)) [].
End Demo.

Import (hints) Demo.

Example Load_example :
  Load Demo.range Demo.clock Demo.empty_store Demo.disk
    = Ret (mkCertStore (cs_path Demo.empty_store)
             (<[ AsKey ["example.com"] := Demo.new_cert ]> ∅) [], None).
Proof. vm_compute. reflexivity. Qed.

Lemma demo_raw_ptrs k o : Demo.raw !! k = Some o → is_Some o.
Proof. unfold Demo.raw. rewrite !lookup_insert_Some, lookup_empty. naive_solver. Qed.

Lemma demo_raw_storable : storable Demo.raw.
Proof.
  intros k e. unfold Demo.raw. rewrite !lookup_insert_Some, lookup_empty.
  intros [[<- <-]|[_ [[<- <-]|[_ ?]]]]; [..|done]; (split; [done|by repeat constructor]).
Qed.

Lemma loaded_utf8 k e : cs_entries Demo.loaded !! k = Some e → utf8_names e.
Proof.
  unfold Demo.loaded. simpl. rewrite !lookup_insert_Some, lookup_empty.
  intros [[_ <-]|[_ [[_ <-]|[_ ?]]]]; [..|done]; by repeat constructor.
Qed.

Lemma loaded_keyed : well_keyed (cs_entries Demo.loaded).
Proof.
  apply (well_keyed_insert _ Demo.new_cert), (well_keyed_insert _ Demo.old_cert).
  by intros ? ? ?%lookup_empty_Some.
Qed.

Lemma Load_keeps_valid_witness :
  ∃ s', Load Demo.range Demo.clock Demo.empty_store Demo.disk = Ret (s', None) ∧
    is_Some (cs_entries s' !! AsKey ["example.com"]).
Proof.
  destruct (Load_keeps_valid Demo.range (λ m, reflexivity _) Demo.clock 100 100 Demo.empty_store
    Demo.disk Demo.file Demo.raw) as (s'&E&_&_&Hv).
  - intros i. unfold Demo.clock. lia.
  - reflexivity.
  - vm_compute. reflexivity.
  - vm_compute. reflexivity.
  - exact (cache_codec_roundtrip Demo.raw Demo.file demo_raw_storable eq_refl).
  - exact demo_raw_ptrs.
  - exists s'. split; [exact E|]. apply (Hv 2 Demo.new_cert); [|vm_compute]; reflexivity.
Defined.

Lemma save_Load_roundtrip_witness :
  ∃ f' s', save Demo.loaded Demo.empty_disk = (None, f') ∧
    Load Demo.range Demo.clock Demo.empty_store f' = Ret (s', None) ∧
    cs_entries s' !! AsKey ["example.com"] = Some Demo.new_cert.
Proof.
  assert (Hs : save Demo.loaded Demo.empty_disk = (None, snd (save Demo.loaded Demo.empty_disk)))
    by (vm_compute; reflexivity).
  destruct (save_Load_roundtrip Demo.range (λ m, reflexivity _) Demo.clock 100 100 Demo.loaded _ _
    ltac:(unfold Demo.clock; lia) loaded_keyed loaded_utf8 Hs) as (s'&E&_&_&Hv).
  eexists _, s'. split; [exact Hs|]. split; [exact E|].
  apply Hv; [|vm_compute; reflexivity]. apply lookup_insert_eq.
Defined.

Definition null_raw : gmap Key (option certStoreEntry) := <[ 7 := None ]> ∅.
Definition null_disk : Disk :=
  mkDisk (<[ "/var/lib/certdx/cache.json" := Demo.bits (encode null_raw) ]> ∅) [].

Lemma null_storable : storable null_raw.
Proof.
  intros k e. unfold null_raw. rewrite lookup_insert_Some, lookup_empty. by intros [[<- <-]|[_ ?]].
Qed.

Lemma Load_null_panics_witness :
  Load Demo.range Demo.clock Demo.empty_store null_disk = Panic nil_deref.
Proof.
  apply (Load_null_panics Demo.range (λ m, reflexivity _) _ _ _ (Demo.bits (encode null_raw)) null_raw 7);
    [vm_compute; reflexivity | vm_compute; reflexivity
    | exact (cache_codec_roundtrip null_raw (Demo.bits (encode null_raw)) null_storable eq_refl) | reflexivity].
Defined.

(** A renewal lands, the server stops, the writer drains, writes the file
    and exits. *)
Definition w0 : writer Disk := mkWriter Demo.loaded Demo.empty_disk Running false NoSave [] [] None.
Definition w1 := send Demo.old_cert w0.
Definition w2 := cancel w1.
Definition w3 := set_phase Draining w2.
Definition w4 := receive Demo.old_cert [] w3.
Definition w5 := beginSave Demo.old_cert w4.
Definition w6 :=
  let text := match w_saving w5 with Writing text _ => text | _ => "" end in
  endSave None (snd (WriteFile (cs_path Demo.loaded) text Demo.empty_disk)) w5.

Lemma w6_reachable : reachable (winit Demo.loaded Demo.empty_disk) wstep w6.
Proof.
  apply reach_step with w5.
  2:{ apply (ws_written w5 (match w_saving w5 with Writing text _ => text | _ => "" end) Demo.empty_disk);
      vm_compute; reflexivity. }
  apply reach_step with w4; [|by apply ws_marshal].
  apply reach_step with w3; [|by apply ws_drain].
  apply reach_step with w2; [|by apply (ws_done w2)].
  apply reach_step with w1; [|by apply (ws_cancel w1)].
  apply reach_step with w0; [|apply (ws_send w0 Demo.old_cert); vm_compute; lia].
  by apply reach_init.
Qed.

Lemma listenUpdate_lossless_witness :
  w_taken (set_phase Exited w6) = [Demo.old_cert] ∧
  recovers Demo.range Demo.loaded [Demo.old_cert] (w_fs w6).
Proof.
  assert (Hp : w_phase w6 = Draining) by (vm_compute; reflexivity).
  assert (Hu : cs_update (w_store w6) = []) by (vm_compute; reflexivity).
  assert (Hs : w_saving w6 = NoSave) by (vm_compute; reflexivity).
  destruct (listenUpdate_lossless Demo.range (λ m, reflexivity _) Demo.loaded Demo.empty_disk w6 (set_phase Exited w6)
    w6_reachable (ws_exit w6 Hp Hs Hu) ltac:(by rewrite Hp) eq_refl) as (E&_&H).
  assert (El : w_last (set_phase Exited w6) = Some None) by (vm_compute; reflexivity).
  assert (Esent : w_sent (set_phase Exited w6) = [Demo.old_cert]) by (vm_compute; reflexivity).
  rewrite El, Esent in H. split; [rewrite E; exact Esent|]. exact (proj2 (proj2 H) eq_refl).
Defined.

Lemma listenUpdate_exits_witness :
  ∃ n w', (n ≤ 7)%nat ∧ nsteps wstep n w2 w' ∧ w_phase w' = Exited.
Proof.
  destruct (listenUpdate_exits w2 eq_refl ltac:(discriminate)) as (n&w'&Hn&Hs&Hx&_).
  exists n, w'. split; [exact Hn|]. split; [exact Hs|exact Hx].
Defined.
