(* ===== verification/Server.v ===== *)
(** pkg/server/server.go: the server state, the entry cache, loading the store
    into it, and one run of [renew] and of the renewal loop as sequential
    functions.  [CertEntry] has the same code interleaved with other
    goroutines; [renew_refines] relates the two. *)

From Stdlib Require Import ZArith Lia.
From stdpp Require Import base option list gmap sets strings relations.
From S2P Require Import Prelude.
From S2P Require Import GoStd.
From S2P Require Import Sys.
From S2P Require Import Domain.
From S2P Require Import Config.
From S2P Require Import Retry.
From S2P Require Import Acme.
From S2P Require Import CertEntry.
From S2P Require Import CertStore.

Open Scope Z_scope.

(** ** The entry cache *)

(** An entry is referenced by its key: there is one per key, and none is ever
    removed. *)
Notation certCache := (gmap Key certEntry).

Definition makeCertCache : certCache := ∅.

Definition getNoLock (domains : list string) (c : certCache) : Key * certCache :=
  let entryKey := AsKey domains in
  match c !! entryKey with
  | Some _ => (entryKey, c)
  | None => (entryKey, <[ entryKey := newCertEntry domains 0%nat ]> c)
  end.

(** Under the cache mutex. *)
Definition get (domains : list string) (c : certCache) : Key * certCache := getNoLock domains c.

(** ** The server *)

Record CertDXServer := mkServer {
  sConfig : ServerConfig;
  sCache : certCache;
  sStore : CertStore;
}.

Definition MakeCertDXServer (path : result string) : result CertDXServer :=
  match NewCertStore path with
  | Err err => Err err
  | Ok store => Ok (mkServer (ServerConfig_SetDefault zeroServerConfig) makeCertCache store)
  end.

Definition set_cache (c : certCache) (s : CertDXServer) : CertDXServer :=
  mkServer (sConfig s) c (sStore s).

Definition set_cert (c : CertT) (e : certEntry) : certEntry :=
  mkEntry (domains e) (renewMu e) c (version e) (updated e) (cancelRenew e) (subscribing e).

(** The loop of [loadCertStore] over the store's entries, in some order. *)
Fixpoint cacheLoop (entries : list (Key * certStoreEntry)) (c : certCache) : certCache :=
  match entries with
  | [] => c
  | (_, cache) :: entries' =>
      let '(k, c) := getNoLock (se_Domains cache) c in
      cacheLoop entries' (alter (set_cert (se_Cert cache)) k c)
  end.

Section LoadStore.
Context {F : Type} `{FileSystem F} `{CacheCodec}.
Variable range : gmap Key (option certStoreEntry) → list (Key * option certStoreEntry).
Variable rangeEntries : gmap Key certStoreEntry → list (Key * certStoreEntry).

Definition loadCertStore (nows : nat → Time) (s : CertDXServer) (f : F)
    : outcome (CertDXServer * option error) :=
  match Load range nows (sStore s) f with
  | Panic m => Panic m
  | Ret (st, Some err) =>
      let s := mkServer (sConfig s) (sCache s) st in
      if osIsNotExist err then Ret (s, None) else Ret (s, Some err)
  | Ret (st, None) =>
      Ret (mkServer (sConfig s) (cacheLoop (rangeEntries (cs_entries st)) (sCache s)) st, None)
  end.
End LoadStore.

(** ** Renewal *)

(** The hand-over of a certificate to the store writer: [true] when the queue
    took it, [false] when the context ended first. *)
Class UpdateQueue (W : Type) := {
  sendUpdate : certStoreEntry → W → bool * W;
}.

Section Renew.
Context {W : Type} `{RT : Runtime W} `{OB : Obtainer W} `{UQ : UpdateQueue W}.
Variable acme : ACMEConfig.

(** The ACME call of [renew]. *)
Definition renewObtain (retry : bool) (ds : list string) (deadline : Time) (w : W)
    : result CertKey * W :=
  if retry then retryObtain ds deadline w else obtain ds deadline w.

(** [renew(ctx, c, retry)] on an entry nobody else is renewing; the world's
    context is [ctx]. *)
Definition renew (retry : bool) (c : certEntry) (w : W)
    : (bool * option error) * (certEntry * W) :=
  match ctxErr w with
  | Some err => ((false, Some err), (c, w))
  | None =>
      let '(current, _) := Snapshot c in
      if IsValid (timeNow w) current then ((false, None), (c, w))
      else
        let vb := newValidBefore (CertLifeTimeDuration acme) (timeNow w) in
        let '(r, w) := renewObtain retry (domains c) (Add vb (RenewTimeLeftDuration acme)) w in
        match r with
        | Err err => ((false, Some err), (c, w))
        | Ok (fullchain, key) =>
            let newCert := mkCertT fullchain key vb (timeNow w) in
            let c := renew_commit c newCert (S (updated c)) in
            let '(_, w) := sendUpdate (mkStoreEntry (domains c) newCert) w in
            ((true, None), (c, w))
        end
  end.

(** One round of [subscribeCertCacheEntry]: renew, then wait for the timer;
    [true] when the loop goes on. *)
Definition renewRound (c : certEntry) (w : W) : bool * (certEntry * W) :=
  let '((_, err), (c, w)) := renew true c w in
  match err, ctxErr w with
  | Some _, Some _ => (false, (c, w))
  | _, _ =>
      let '(fired, w) := selectAfter (RenewTimeLeftDuration acme / 4) w in (fired, (c, w))
  end.

(** [n] rounds of the loop. *)
Fixpoint renewRounds (n : nat) (c : certEntry) (w : W) : bool * (certEntry * W) :=
  match n with
  | O => (true, (c, w))
  | S n' =>
      let '(go, (c, w)) := renewRound c w in
      if go then renewRounds n' c w else (false, (c, w))
  end.
End Renew.

(** ** The cache *)

(** Every entry is stored under the key of its own domains. *)
Definition cache_keyed (c : certCache) : Prop :=
  ∀ k e, c !! k = Some e → AsKey (domains e) = k.

Lemma getNoLock_keyed ds c : cache_keyed c → cache_keyed (snd (getNoLock ds c)).
Proof.
  intros Hc k e. unfold getNoLock. destruct (c !! AsKey ds) eqn:E; simpl; [apply Hc|].
  intros [[<- <-]|[_ ?]]%lookup_insert_Some; [done | by apply Hc].
Qed.

Lemma getNoLock_lookup ds c : ∃ e, snd (getNoLock ds c) !! AsKey ds = Some e ∧
  (c !! AsKey ds = Some e ∨ (c !! AsKey ds = None ∧ e = newCertEntry ds 0%nat)).
Proof.
  unfold getNoLock. destruct (c !! AsKey ds) as [e|] eqn:E; simpl; [eauto|].
  rewrite lookup_insert_eq. eauto 6.
Qed.

Lemma getNoLock_other ds c k : k ≠ AsKey ds → snd (getNoLock ds c) !! k = c !! k.
Proof. intros Hk. unfold getNoLock. destruct (c !! AsKey ds); simpl; [done|]. by rewrite lookup_insert_ne. Qed.

Lemma getNoLock_fst ds c : fst (getNoLock ds c) = AsKey ds.
Proof. unfold getNoLock. by destruct (c !! AsKey ds). Qed.

(** One entry per set of names: asking for any spelling of the same
    names gives the same entry, creating it at most once, with the domains of
    the first request; existing entries are never touched. *)
Theorem get_shares_entry ds ds' c : names ds = names ds' →
  let '(k, c1) := get ds c in
  let '(k', c2) := get ds' c1 in
  k' = k ∧ c2 = c1 ∧ is_Some (c1 !! k) ∧ c ⊆ c1 ∧ (∀ k0, k0 ≠ k → c1 !! k0 = c !! k0).
Proof.
  intros Hn. unfold get.
  assert (Hk : AsKey ds' = AsKey ds).
  { unfold AsKey. by rewrite (proj2 (canonical_names ds' ds)). }
  destruct (getNoLock ds c) as [k c1] eqn:E1. destruct (getNoLock ds' c1) as [k' c2] eqn:E2.
  pose proof (getNoLock_fst ds c) as F1. pose proof (getNoLock_fst ds' c1) as F2.
  destruct (getNoLock_lookup ds c) as (e&L&Hor).
  pose proof (getNoLock_other ds c) as Ho. rewrite E1 in *. rewrite E2 in *. simpl in *. subst k k'.
  assert (Hc2 : c2 = c1) by (unfold getNoLock in E2; rewrite Hk, L in E2; by simplify_eq).
  split_all; [done|done|eauto| |done].
  apply map_subseteq_spec. intros k0 e0 He0.
  destruct (decide (k0 = AsKey ds)) as [->|Hne]; [|by rewrite Ho].
  destruct Hor as [Hor|[Hor _]]; congruence.
Qed.

Lemma get_shares_entry_witness :
  get ["Example.com."; "a.example.com"] (snd (get ["a.example.com"; "example.com"] ∅))
    = get ["a.example.com"; "example.com"] ∅.
Proof.
  pose proof (get_shares_entry ["a.example.com"; "example.com"] ["Example.com."; "a.example.com"] ∅
    ltac:(vm_compute; reflexivity)) as H.
  destruct (get ["a.example.com"; "example.com"] ∅) as [k c1]. simpl.
  destruct (get ["Example.com."; "a.example.com"] c1) as [k' c2].
  destruct H as (->&->&_). reflexivity.
Defined.

(** ** Loading the store into the cache *)

Definition loadedEntry (x : certStoreEntry) : certEntry :=
  set_cert (se_Cert x) (newCertEntry (se_Domains x) 0%nat).

Lemma cacheLoop_spec l : ∀ c,
  NoDup l.*1 → (∀ k x, (k, x) ∈ l → AsKey (se_Domains x) = k ∧ c !! k = None) →
  cacheLoop l c = (loadedEntry <$> list_to_map l) ∪ c.
Proof.
  induction l as [|[k x] l IH]; intros c Hnd Hl; simpl.
  { by rewrite fmap_empty, (left_id_L ∅ (∪)). }
  apply NoDup_cons in Hnd as [Hk Hnd].
  destruct (Hl k x) as [Hkx Hck]; [set_solver|].
  unfold getNoLock. rewrite Hkx, Hck. simpl.
  assert (Ea : alter (set_cert (se_Cert x)) k (<[k := newCertEntry (se_Domains x) 0%nat]> c)
    = <[k := loadedEntry x]> c).
  { apply map_eq. intros k0. destruct (decide (k0 = k)) as [->|Hne].
    - by rewrite lookup_alter_eq, !lookup_insert_eq.
    - by rewrite lookup_alter_ne, !lookup_insert_ne by done. }
  rewrite Ea, IH; [|done|].
  - rewrite fmap_insert, <- insert_union_l, insert_union_r; [done|].
    rewrite lookup_fmap, not_elem_of_list_to_map_1; [done|]. by intros Hin.
  - intros k0 x0 Hin. destruct (Hl k0 x0) as [? ?]; [set_solver|]. split; [done|].
    rewrite lookup_insert_ne; [done|]. intros <-. apply Hk. by apply list_elem_of_fmap_2' with (k, x0).
Qed.

Section LoadTheorems.
Context {F : Type} `{FileSystem F} `{CacheCodec}.
Variable range : gmap Key (option certStoreEntry) → list (Key * option certStoreEntry).
Variable rangeEntries : gmap Key certStoreEntry → list (Key * certStoreEntry).
Hypothesis rangeEntries_all : ∀ m, rangeEntries m ≡ₚ map_to_list m.

(** A restarted server serves exactly the loaded store: whatever the
    iteration order, each stored certificate becomes the entry of its bundle,
    with no subscriber and version 0, and there are no other entries. *)
Theorem loadCertStore_cache nows s f st :
  sCache s = ∅ → Load range nows (sStore s) f = Ret (st, None) → well_keyed (cs_entries st) →
  loadCertStore range rangeEntries nows s f =
    Ret (mkServer (sConfig s) (loadedEntry <$> cs_entries st) st, None).
Proof.
  intros Hc HL Hk. unfold loadCertStore. rewrite HL, Hc, cacheLoop_spec.
  - rewrite (right_id_L ∅ (∪)).
    replace (list_to_map (rangeEntries (cs_entries st))) with (cs_entries st); [done|].
    rewrite <- (list_to_map_to_list (cs_entries st)) at 1. symmetry.
    apply list_to_map_proper; [|apply rangeEntries_all].
    rewrite rangeEntries_all. apply NoDup_fst_map_to_list.
  - rewrite rangeEntries_all. apply NoDup_fst_map_to_list.
  - intros k x Hin. rewrite rangeEntries_all, elem_of_map_to_list in Hin.
    split; [by apply Hk | done].
Qed.
End LoadTheorems.

Lemma newValidBefore_after lifetime t : Hour ≤ lifetime → t < newValidBefore lifetime t.
Proof.
  intros Hl. unfold newValidBefore, Add.
  pose proof (Truncate_bounds t (1 * Hour) ltac:(done)). lia.
Qed.

Lemma newValidBefore_late lifetime t : t < newValidBefore lifetime t + Z.max 0 (Hour - lifetime).
Proof.
  unfold newValidBefore, Add. pose proof (Truncate_bounds t (1 * Hour) ltac:(done)). lia.
Qed.

(** A renewal without error leaves a certificate that was valid when it
    started, or had expired by no more than its lifetime is short of an hour. *)
Lemma renew_late {W} `{RT : Runtime W} `{OB : Obtainer W} `{UQ : UpdateQueue W}
    acme retry c (w : W) b c' w' :
  renew acme retry c w = ((b, None), (c', w')) →
  timeNow w < ValidBefore (Cert c') + Z.max 0 (Hour - CertLifeTimeDuration acme).
Proof.
  unfold renew. destruct (ctxErr w); [done|]. unfold Snapshot.
  destruct (IsValid (timeNow w) (cert c)) eqn:Ev.
  { intros [= _ <- _]. apply Z.ltb_lt in Ev. unfold Cert, Snapshot. simpl. lia. }
  destruct (renewObtain _ _ _ w) as [[[fc key]|er] w2]; [|done].
  destruct (sendUpdate _ w2) as [? w3]. intros [= _ <- _]. apply newValidBefore_late.
Qed.

Lemma renew_fresh {W} `{RT : Runtime W} `{OB : Obtainer W} `{UQ : UpdateQueue W}
    acme retry c (w : W) b c' w' :
  Hour ≤ CertLifeTimeDuration acme →
  renew acme retry c w = ((b, None), (c', w')) → IsValid (timeNow w) (Cert c') = true.
Proof. intros Hl H. apply renew_late in H. rewrite Z.max_l in H by lia. unfold IsValid, Before. apply Z.ltb_lt. lia. Qed.

(** Below an hour the new certificate may have expired before it is issued:
    half an hour's lifetime, asked for at ten to. *)
Example short_lifetime_expired : newValidBefore (30 * Minute) (50 * Minute) < 50 * Minute.
Proof. vm_compute. reflexivity. Qed.

(** ** Sequential renewal refines the interleaved one *)

(** Time does not run backwards during the ACME calls. *)
Class MonotoneClock (W : Type) `{Runtime W} `{Obtainer W} := {
  obtain_time ds d (w : W) r w' : obtain ds d w = (r, w') → timeNow w ≤ timeNow w';
  retryObtain_time ds d (w : W) r w' : retryObtain ds d w = (r, w') → timeNow w ≤ timeNow w';
}.

Section Refinement.
Context {W : Type} `{RT : Runtime W} `{OB : Obtainer W} `{UQ : UpdateQueue W} `{!MonotoneClock W}.
Variable acme : ACMEConfig.
Notation lifetime := (CertLifeTimeDuration acme).

Lemma renewObtain_time retry ds d (w : W) r w' :
  renewObtain retry ds d w = (r, w') → timeNow w ≤ timeNow w'.
Proof. unfold renewObtain. destruct retry; [apply retryObtain_time | apply obtain_time]. Qed.

Lemma rtc_drain wd : ∃ q, rtc (step lifetime) wd (set_queue q wd) ∧ q = [].
Proof.
  exists []. split; [|done].
  assert (Hd : ∀ q wd, queue wd = q → rtc (step lifetime) wd (set_queue [] wd)).
  { induction q as [|x q IH]; intros wd0 Hq.
    - destruct wd0. simpl in Hq. subst. apply rtc_refl.
    - eapply rtc_l; [by eapply st_store|]. exact (IH (set_queue q wd0) eq_refl). }
  by eapply Hd.
Qed.

(** The request's goroutine at its validity check, at time [tn]. *)
Definition checking (t : tid) (n : nat) (tn : Time) (wd : world) : world :=
  set_thread t (Consumer (CFree n)) RnCheck
    (set_entry (set_renewMu (entry wd) (Some t))
       (set_thread t (Consumer (CFree n)) RnLock (set_now tn wd))).

Lemma run_to_check wd t n tn :
  threads wd !! t = Some (Consumer (CFree n), Idle) → ctx_done wd (CFree n) = false →
  renewMu (entry wd) = None → now wd ≤ tn → rtc (step lifetime) wd (checking t n tn wd).
Proof.
  intros Ht Hctx Hmu Hnow.
  eapply rtc_l; [by apply (st_tick lifetime wd tn)|].
  eapply rtc_l; [eapply (st_renew_enter lifetime _ t _ Idle); [exact Ht|left; eauto|exact Hctx]|].
  eapply rtc_l; [|apply rtc_refl].
  apply (st_renew_lock lifetime (set_thread t _ RnLock (set_now tn wd))); [apply lookup_insert_eq | exact Hmu].
Qed.

(** The request's goroutine at its obtain, after an expired check. *)
Definition obtaining (t : tid) (n : nat) (tn : Time) (wd : world) : world :=
  set_thread t (Consumer (CFree n)) (RnObtain (newValidBefore lifetime tn))
    (set_thread t (Consumer (CFree n)) RnExpired (checking t n tn wd)).

Lemma run_to_obtain wd t n tn :
  threads wd !! t = Some (Consumer (CFree n), Idle) → ctx_done wd (CFree n) = false →
  renewMu (entry wd) = None → now wd ≤ tn → IsValid tn (cert (entry wd)) = false →
  rtc (step lifetime) wd (obtaining t n tn wd).
Proof.
  intros Ht Hctx Hmu Hnow Ev. set (wd1 := checking t n tn wd).
  assert (T1 : threads wd1 !! t = Some (Consumer (CFree n), RnCheck)) by apply lookup_insert_eq.
  eapply rtc_r; [eapply rtc_r; [by apply (run_to_check wd t n tn)|]|].
  - by apply (st_renew_expired lifetime wd1 t _ T1).
  - apply (st_renew_compute lifetime (set_thread t (Consumer (CFree n)) RnExpired wd1) t (Consumer (CFree n))),
      lookup_insert_eq.
Qed.

(** The rest of a successful renewal, at time [tn]. *)
Lemma run_to_send wd t n vb fc key tn :
  threads wd !! t = Some (Consumer (CFree n), RnObtain vb) → now wd ≤ tn →
  ∃ wd', rtc (step lifetime) wd wd' ∧ threads wd' !! t = Some (Consumer (CFree n), Idle) ∧
    entry wd' = set_renewMu (renew_commit (entry wd) (mkCertT fc key vb tn) (nextChan wd)) None.
Proof.
  intros Ht Hnow. set (c := mkCertT fc key vb tn).
  set (wd3 := set_thread t (Consumer (CFree n)) (RnObtained c) (set_now tn wd)).
  set (wd4 := set_thread t (Consumer (CFree n)) (RnSend c) (broadcast c wd3)).
  destruct (rtc_drain wd4) as (q&Rd&->). eexists. split.
  { eapply rtc_l; [by apply (st_tick lifetime wd tn)|].
    eapply rtc_l; [by apply (st_obtain_ok lifetime (set_now tn wd) t (Consumer (CFree n)) vb fc key)|].
    eapply rtc_l; [apply (st_broadcast lifetime wd3 t (Consumer (CFree n))), lookup_insert_eq|].
    eapply rtc_r; [exact Rd|].
    apply (st_send lifetime (set_queue [] wd4) t (Consumer (CFree n)) c); [apply lookup_insert_eq|simpl; unfold updateCap; lia]. }
  split; [apply lookup_insert_eq|done].
Qed.

(** C11: one run of [renew] by an HTTP request is a run of the concurrent
    system: from any reachable state where the request's goroutine is idle
    and nobody holds [renewMu], the system can take steps that leave the
    entry exactly as the sequential function computes it, with the goroutine
    idle again. *)
Theorem renew_refines wd t n retry (w w' : W) b err e' :
  reachable init (step lifetime) wd →
  threads wd !! t = Some (Consumer (CFree n), Idle) → ctx_done wd (CFree n) = false →
  renewMu (entry wd) = None → now wd ≤ timeNow w → ctxErr w = None →
  renew acme retry (entry wd) w = ((b, err), (e', w')) →
  ∃ wd', rtc (step lifetime) wd wd' ∧ entry wd' = e' ∧
    threads wd' !! t = Some (Consumer (CFree n), Idle).
Proof.
  intros Hr Ht Hctx Hmu Hnow Hlive.
  destruct (chan_inv_reachable lifetime wd Hr) as [Hu Hn _ _ _ _].
  unfold renew. rewrite Hlive. simpl.
  set (wd1 := checking t n (timeNow w) wd).
  pose proof (run_to_check wd t n (timeNow w) Ht Hctx Hmu Hnow) as R1. fold wd1 in R1.
  assert (T1 : threads wd1 !! t = Some (Consumer (CFree n), RnCheck)) by apply lookup_insert_eq.
  assert (Hrel : ∀ e, renewMu e = None → set_renewMu (set_renewMu e (Some t)) None = e)
    by (intros [] ?; simpl in *; by subst).
  destruct (IsValid (timeNow w) (cert (entry wd))) eqn:Ev.
  { intros [= <- <- <- <-]. eexists. split_all.
    - eapply rtc_r; [exact R1|]. by apply (st_renew_valid lifetime wd1 t _ T1).
    - apply Hrel, Hmu.
    - apply lookup_insert_eq. }
  set (vb := newValidBefore lifetime (timeNow w)). set (wd2 := obtaining t n (timeNow w) wd).
  pose proof (run_to_obtain wd t n (timeNow w) Ht Hctx Hmu Hnow Ev) as R2. fold wd2 in R2.
  assert (T2 : threads wd2 !! t = Some (Consumer (CFree n), RnObtain vb)) by apply lookup_insert_eq.
  destruct (renewObtain retry (domains (entry wd)) (Add vb (RenewTimeLeftDuration acme)) w)
    as [[[fc key]|e] w1] eqn:Eo; pose proof (renewObtain_time _ _ _ _ _ _ Eo) as Htime.
  - destruct (sendUpdate _ w1) as [b' w2] eqn:Es. intros [= <- <- <- <-].
    destruct (run_to_send wd2 t n vb fc key (timeNow w1) T2 Htime) as (wd'&R3&T3&E3).
    exists wd'. split_all; [by etrans| |done]. rewrite E3. simpl. unfold renew_commit, set_renewMu. simpl.
    by rewrite Hn, Hu, Hmu.
  - intros [= <- <- <- <-]. eexists. split_all.
    + eapply rtc_r; [exact R2|]. by apply (st_obtain_err lifetime wd2 t (Consumer (CFree n)) vb).
    + apply Hrel, Hmu.
    + simpl. rewrite andb_false_r. apply lookup_insert_eq.
Qed.
End Refinement.

(** ** A concrete world *)

Module Demo.
(** A clock; obtaining takes a second and always succeeds. *)
Definition answer (ds : list string) (w : Sim) : result CertKey * Sim :=
  (Ok (Join ds ",", "key"), {| sim_now := sim_now w + Second; sim_cancel := sim_cancel w |}).

#[export] Instance sim_obtainer : Obtainer Sim := {
  obtain ds _ := answer ds;
  retryObtain ds _ := answer ds;
}.

#[export] Instance sim_clock : MonotoneClock Sim.
Proof. split; intros ds d w r w' [= <- <-]; simpl; unfold Second, Millisecond, Microsecond, Nanosecond; lia. Qed.

#[export] Instance sim_queue : UpdateQueue Sim := { sendUpdate _ w := (true, w) }.

Definition acme : ACMEConfig :=
  mkACMEConfig "dns" "" "mock" 5 "168h" "24h" ["example.com"] (168 * Hour) (24 * Hour).

Definition sim0 : Sim := {| sim_now := 10 * Hour + 5; sim_cancel := None |}.
Definition entry0 : certEntry := newCertEntry ["example.com"] 0%nat.
Definition world0 : world := mkWorld entry0 ∅ 1%nat ∅ 0%nat 0 ∅ [] [] [].
Definition world1 : world := set_thread 7%nat (Consumer (CFree 0)) Idle world0.

Lemma world1_reachable lifetime : reachable init (step lifetime) world1.
Proof.
  apply reach_step with world0; [|by apply st_spawn].
  apply reach_init. exists ["example.com"], zeroCert, 0. reflexivity.
Qed.

Definition disk : Disk :=
  mkDisk (<[ "/var/lib/certdx/cache.json" := CertStore.Demo.file ]> ∅) [].
Definition server : CertDXServer :=
  mkServer zeroServerConfig ∅ CertStore.Demo.empty_store.
Definition rangeEntries (m : gmap Key certStoreEntry) := map_to_list m.
End Demo.

Import (hints) CertStore.Demo.
Import (hints) Demo.

Example renew_example :
  renew Demo.acme false Demo.entry0 Demo.sim0
    = ((true, None),
       (mkEntry ["example.com"] None
          (mkCertT "example.com" "key" (178 * Hour) (10 * Hour + 5 + Second)) 1 1%nat None 0,
        {| sim_now := 10 * Hour + 5 + Second; sim_cancel := None |})).
Proof. vm_compute. reflexivity. Qed.

Lemma renew_refines_witness :
  ∃ wd', rtc (step (168 * Hour)) Demo.world1 wd' ∧ version (entry wd') = 1 ∧
    threads wd' !! 7%nat = Some (Consumer (CFree 0), Idle).
Proof.
  assert (Hle : now Demo.world1 ≤ timeNow Demo.sim0) by (vm_compute; discriminate).
  destruct (renew_refines Demo.acme Demo.world1 7%nat 0%nat false Demo.sim0
    {| sim_now := 10 * Hour + 5 + Second; sim_cancel := None |} true None _
    (Demo.world1_reachable _) eq_refl eq_refl eq_refl
    Hle eq_refl renew_example) as (wd'&R&E&T).
  exists wd'. split; [exact R|]. split; [rewrite E; reflexivity | exact T].
Defined.

Lemma loadCertStore_cache_witness :
  ∃ s', loadCertStore CertStore.Demo.range Demo.rangeEntries CertStore.Demo.clock Demo.server Demo.disk
      = Ret (s', None) ∧
    sCache s' !! AsKey ["example.com"] = Some (loadedEntry CertStore.Demo.new_cert).
Proof.
  assert (Hk : well_keyed (<[ AsKey ["example.com"] := CertStore.Demo.new_cert ]> ∅)).
  { apply (well_keyed_insert _ CertStore.Demo.new_cert). by intros ? ? ?%lookup_empty_Some. }
  eexists. split.
  - exact (loadCertStore_cache CertStore.Demo.range Demo.rangeEntries (λ m, reflexivity _)
      CertStore.Demo.clock Demo.server Demo.disk _ eq_refl Load_example Hk).
  - vm_compute. reflexivity.
Defined.
