(* ===== verification/Http.v ===== *)
(** pkg/server/http.go and pkg/api/http.go: the HTTP API.  A request runs
    through the token check, the path and method dispatch, the decoding of
    the body, the allow-list and the entry cache; [HttpSrv] chooses the
    listener.  encoding/json's codec of the two wire types and the listeners
    of net/http are interfaces. *)

From Stdlib Require Import ZArith Lia.
From stdpp Require Import base option list gmap sets strings.
From S2P Require Import Prelude.
From S2P Require Import GoStd.
From S2P Require Import Sys.
From S2P Require Import Domain.
From S2P Require Import Config.
From S2P Require Import Retry.
From S2P Require Import Acme.
From S2P Require Import CertEntry.
From S2P Require Import CertStore.
From S2P Require Import Server.

Open Scope Z_scope.

(** ** pkg/api *)

Record HttpCertReq := mkHttpCertReq { req_Domains : list string }.

Record HttpCertResp := mkHttpCertResp {
  RenewTimeLeft : Duration;
  resp_FullChain : string;
  resp_Key : string;
  resp_Err : string;
}.

(** [json.NewDecoder(body).Decode] into a request ([EOF] for an empty body)
    and [json.Marshal] of a response. *)
Class ApiCodec := {
  decodeReq : string → result HttpCertReq;
  encodeResp : HttpCertResp → result string;
}.

(** ** Requests and responses *)

Record Request := mkRequest {
  r_Method : string;
  r_Path : string;
  r_Header : string → string;       (* Header.Get *)
  r_Body : string;
}.

Record Response := mkResponse {
  status : Z;
  contentType : string;
  body : string;
}.

(** [http.Error(w, "", code)] *)
Definition httpError (code : Z) : Response :=
  mkResponse code "text/plain; charset=utf-8" (String (Ascii.ascii_of_nat 10) EmptyString).

Definition StatusOK : Z := 200.
Definition StatusNotFound : Z := 404.
Definition StatusInternalServerError : Z := 500.

Definition notAllowedBody : string :=
  "{ " +:+ String (Ascii.ascii_of_nat 34) ("err" +:+ String (Ascii.ascii_of_nat 34) (": " +:+
  String (Ascii.ascii_of_nat 34) ("Domains not allowed" +:+ String (Ascii.ascii_of_nat 34) " }"))).

(** ** Handlers *)

Definition checkAuthorizationToken (c : HttpServerConfig) (r : Request) : bool :=
  if String.eqb (HttpToken c) "" then true
  else
    let auth := r_Header r "Authorization" in
    if negb (String.eqb auth "") && HasPrefix auth "Token " then
      let token := TrimPrefix auth "Token " in
      if String.eqb token (HttpToken c) then true else false
    else false.

Section Handlers.
Context {W : Type} `{RT : Runtime W} `{OB : Obtainer W} `{UQ : UpdateQueue W} `{AC : ApiCodec}.

(** The [ERR] label of [handleCertReq]. *)
Definition certReqError (err : error) : Response :=
  if errIs err ErrNotAllowed then mkResponse StatusOK "application/json" notAllowedBody
  else httpError StatusInternalServerError.

(** The world's context is the request's.  The renewal works on the entry the
    cache returned. *)
Definition handleCertReq (s : CertDXServer) (r : Request) (w : W) : Response * (CertDXServer * W) :=
  match decodeReq (r_Body r) with
  | Err err =>
      let err := match err with ESentinel EOF => EText "no body" | _ => err end in
      (certReqError err, (s, w))
  | Ok req =>
      if negb (AllAllowed (AllowedDomains (sc_ACME (sConfig s))) (req_Domains req)) then
        (certReqError (EWrap "domains %v: %w" (ESentinel ErrNotAllowed)), (s, w))
      else
        let '(k, cache) := get (req_Domains req) (sCache s) in
        let cachedCert := default (newCertEntry (req_Domains req) 0%nat) (cache !! k) in
        let '(err, (cachedCert, w)) :=
          if negb (isSubscribing cachedCert) then
            let '((_, err), x) := renew (sc_ACME (sConfig s)) false cachedCert w in (err, x)
          else (None, (cachedCert, w)) in
        let s := set_cache (<[ k := cachedCert ]> cache) s in
        match err with
        | Some err => (certReqError err, (s, w))
        | None =>
            let cert := Cert cachedCert in
            match encodeResp (mkHttpCertResp (RenewTimeLeftDuration (sc_ACME (sConfig s)))
                                (FullChain cert) (PrivKey cert) "") with
            | Err err => (certReqError err, (s, w))
            | Ok resp => (mkResponse StatusOK "application/json" resp, (s, w))
            end
        end
  end.

Definition apiHandler (s : CertDXServer) (r : Request) (w : W) : Response * (CertDXServer * W) :=
  if String.eqb (r_Path r) (APIPath (sc_HttpServer (sConfig s))) then
    if String.eqb (r_Method r) "POST" then handleCertReq s r w
    else (httpError StatusNotFound, (s, w))
  else (httpError StatusNotFound, (s, w)).

Definition apiWithTokenHandler (s : CertDXServer) (r : Request) (w : W) : Response * (CertDXServer * W) :=
  if checkAuthorizationToken (sc_HttpServer (sConfig s)) r then apiHandler s r w
  else (httpError StatusNotFound, (s, w)).
End Handlers.

(** ** Listeners *)

(** Which handler a mux serves at "/". *)
Inductive handler := HApi | HApiWithToken.

(** net/http listeners and the pieces of the certificate entry the HTTPS
    listener uses.  [serveTLS h c k seen] is one iteration with the TLS
    key pair of [c]: it listens until the listener fails, the server stops or
    the entry moves past [seen], and returns the listener's error with the
    version the watcher goroutine saw. *)
Class HttpListener (W : Type) := {
  rootErr : W → option error;
  loadMtls : string → W → option error;                       (* mtls.LoadServer *)
  x509KeyPair : string → string → option error;
  listenPlain : handler → W → option error * W;
  listenMtls : handler → W → option error * W;
  serveTLS : handler → CertT → Key → Z → W → option error * (Z * W);
  entrySubscribe : Key → W → W;
  entryRelease : Key → W → W;
  entrySnapshot : Key → W → CertT * Z;
  entryWait : Key → Z → W → Z * W;                             (* WaitForUpdate on rootCtx *)
}.

(** The result of [runHTTPServer] given what [listen] returned. *)
Definition runHTTPServer (err : option error) : option error :=
  match err with
  | Some e => if negb (errIs e ErrServerClosed) then Some e else None
  | None => None
  end.

Section Listeners.
Context {W : Type} `{RT : Runtime W} `{HL : HttpListener W}.

(** The wait for a first valid certificate; [None] when out of fuel. *)
Fixpoint awaitValid (fuel : nat) (k : Key) (cert : CertT) (seen : Z) (w : W)
    : option (option (CertT * Z) * W) :=
  if IsValid (timeNow w) cert then Some (Some (cert, seen), w)
  else match fuel with
  | O => None
  | S fuel' =>
      let '(seen, w) := entryWait k seen w in
      match rootErr w with
      | Some _ => Some (None, w)
      | None => let '(cert, _) := entrySnapshot k w in awaitValid fuel' k cert seen w
      end
  end.

(** The serving loop. *)
Fixpoint serveLoop (fuel : nat) (h : handler) (k : Key) (cert : CertT) (seen : Z) (w : W)
    : option (option error * W) :=
  match rootErr w with
  | Some _ => Some (None, w)
  | None =>
      match fuel with
      | O => None
      | S fuel' =>
          match x509KeyPair (FullChain cert) (PrivKey cert) with
          | Some err => Some (Some (EWrap "load HTTPS certificate: %w" err), w)
          | None =>
              let '(err, (seen, w)) := serveTLS h cert k seen w in
              match runHTTPServer err with
              | Some err => Some (Some err, w)
              | None => let '(cert, _) := entrySnapshot k w in serveLoop fuel' h k cert seen w
              end
          end
      end
  end.

Definition serveHttps (fuel : nat) (names : list string) (h : handler) (w : W)
    : option (option error * W) :=
  let k := AsKey names in
  let w := entrySubscribe k w in
  let '(cert, seen) := entrySnapshot k w in
  match awaitValid fuel k cert seen w with
  | None => None
  | Some (None, w) => Some (None, entryRelease k w)
  | Some (Some (cert, seen), w) =>
      match serveLoop fuel h k cert seen w with
      | None => None
      | Some (err, w) => Some (err, entryRelease k w)
      end
  end.

Definition serveHttp (h : handler) (w : W) : option error * W :=
  let '(err, w) := listenPlain h w in (runHTTPServer err, w).

Definition serveHttpMtls (pem : string) (h : handler) (w : W) : option error * W :=
  match loadMtls pem w with
  | Some err => (Some err, w)
  | None => let '(err, w) := listenMtls h w in (runHTTPServer err, w)
  end.

Definition HttpSrv (fuel : nat) (c : ServerConfig) (w : W) : option (option error * W) :=
  let m := AuthMethod (sc_HttpServer c) in
  if String.eqb m HTTP_AUTH_TOKEN then
    if Secure (sc_HttpServer c) then serveHttps fuel (HttpNames (sc_HttpServer c)) HApiWithToken w
    else Some (serveHttp HApiWithToken w)
  else if String.eqb m HTTP_AUTH_MTLS then Some (serveHttpMtls (sc_MTLS_PEM c) HApi w)
  else Some (Some (EText ("unsupported HTTP auth method: " +:+ m)), w).
End Listeners.

(** ** Who gets a certificate *)

Section HttpTheorems.
Context {W : Type} `{RT : Runtime W} `{OB : Obtainer W} `{UQ : UpdateQueue W} `{AC : ApiCodec}.

(** The conditions under which a request for [ds] is to be served. *)
Record granted (s : CertDXServer) (r : Request) (ds : list string) : Prop := {
  g_token : checkAuthorizationToken (sc_HttpServer (sConfig s)) r = true;
  g_path : r_Path r = APIPath (sc_HttpServer (sConfig s));
  g_method : r_Method r = "POST";
  g_body : decodeReq (r_Body r) = Ok (mkHttpCertReq ds);
  g_allowed : AllAllowed (AllowedDomains (sc_ACME (sConfig s))) ds = true;
}.

Definition respOf (s : CertDXServer) (e : certEntry) : HttpCertResp :=
  mkHttpCertResp (RenewTimeLeftDuration (sc_ACME (sConfig s)))
    (FullChain (Cert e)) (PrivKey (Cert e)) "".

(** The answers that carry nothing. *)
Definition refusal (resp : Response) : Prop :=
  resp = httpError StatusNotFound ∨ resp = httpError StatusInternalServerError ∨
  resp = mkResponse StatusOK "application/json" notAllowedBody.

Lemma certReqError_refusal err : refusal (certReqError err).
Proof. unfold certReqError, refusal. case_match; auto. Qed.

(** The entry a granted request works on, renewed unless somebody is
    subscribed to it. *)
Definition servedEntry (s : CertDXServer) (ds : list string) (w : W) : option error * (certEntry * W) :=
  let e := default (newCertEntry ds 0%nat) (sCache s !! AsKey ds) in
  if negb (isSubscribing e) then
    let '((_, err), x) := renew (sc_ACME (sConfig s)) false e w in (err, x)
  else (None, (e, w)).

Lemma get_default ds c :
  default (newCertEntry ds 0%nat) (snd (get ds c) !! AsKey ds) = default (newCertEntry ds 0%nat) (c !! AsKey ds).
Proof.
  unfold get. destruct (getNoLock_lookup ds c) as (e&->&[->|[-> ->]]); done.
Qed.

(** Past the authentication. *)
Lemma apiHandler_serves s r ds w : r_Path r = APIPath (sc_HttpServer (sConfig s)) → r_Method r = "POST" →
  decodeReq (r_Body r) = Ok (mkHttpCertReq ds) → AllAllowed (AllowedDomains (sc_ACME (sConfig s))) ds = true →
  apiHandler s r w =
  let '(err, (e, w1)) := servedEntry s ds w in
  let s1 := set_cache (<[ AsKey ds := e ]> (snd (get ds (sCache s)))) s in
  match err with
  | Some err => (certReqError err, (s1, w1))
  | None =>
      match encodeResp (respOf s e) with
      | Err err => (certReqError err, (s1, w1))
      | Ok b => (mkResponse StatusOK "application/json" b, (s1, w1))
      end
  end.
Proof.
  intros Hp Hm Hb Ha. unfold apiHandler, handleCertReq.
  rewrite Hp, String.eqb_refl, Hm, Hb. simpl. rewrite Ha. simpl.
  pose proof (getNoLock_fst ds (sCache s)) as Hk. pose proof (get_default ds (sCache s)) as Hd.
  unfold servedEntry. unfold get in *. destruct (getNoLock ds (sCache s)) as [k cache].
  simpl in *. subst k. rewrite Hd.
  destruct (negb (isSubscribing _)); [|done].
  by destruct (renew _ _ _ _) as [[? []] [? ?]].
Qed.

Lemma handleCertReq_granted s r ds w : granted s r ds →
  apiWithTokenHandler s r w =
  let '(err, (e, w1)) := servedEntry s ds w in
  let s1 := set_cache (<[ AsKey ds := e ]> (snd (get ds (sCache s)))) s in
  match err with
  | Some err => (certReqError err, (s1, w1))
  | None =>
      match encodeResp (respOf s e) with
      | Err err => (certReqError err, (s1, w1))
      | Ok b => (mkResponse StatusOK "application/json" b, (s1, w1))
      end
  end.
Proof. intros [Ht Hp Hm Hb Ha]. unfold apiWithTokenHandler. rewrite Ht. by apply apiHandler_serves. Qed.

(** C21: certificates leave the API only for granted requests: a request with
    a missing or wrong token, another path or method, an unreadable body or a
    disallowed domain gets a fixed answer without content and changes
    nothing; a granted one gets the certificate of the entry of its own
    domains, or a refusal when the renewal fails. *)
Theorem api_spec s r w :
  let '(resp, (s', w')) := apiWithTokenHandler s r w in
  (¬ (∃ ds, granted s r ds) ∧ refusal resp ∧ s' = s ∧ w' = w) ∨
  ∃ ds e, granted s r ds ∧ sCache s' !! AsKey ds = Some e ∧ sConfig s' = sConfig s ∧
    (∀ k, k ≠ AsKey ds → sCache s' !! k = sCache s !! k) ∧
    (refusal resp ∨
     ∃ b, encodeResp (respOf s e) = Ok b ∧ resp = mkResponse StatusOK "application/json" b).
Proof.
  destruct (checkAuthorizationToken (sc_HttpServer (sConfig s)) r) eqn:Ht.
  2:{ unfold apiWithTokenHandler. rewrite Ht. left. split_all; [|by left|done|done].
      intros [ds [Hg]]. congruence. }
  destruct (String.eqb_spec (r_Path r) (APIPath (sc_HttpServer (sConfig s)))) as [Hp|Hp].
  2:{ unfold apiWithTokenHandler, apiHandler. rewrite Ht, (proj2 (String.eqb_neq _ _) Hp).
      left. split_all; [|by left|done|done]. intros [ds [_ Hg]]. congruence. }
  destruct (String.eqb_spec (r_Method r) "POST") as [Hm|Hm].
  2:{ unfold apiWithTokenHandler, apiHandler. rewrite Ht, Hp, String.eqb_refl, (proj2 (String.eqb_neq _ _) Hm).
      left. split_all; [|by left|done|done]. intros [ds [_ _ Hg]]. congruence. }
  destruct (decodeReq (r_Body r)) as [[ds]|err] eqn:Hb.
  2:{ unfold apiWithTokenHandler, apiHandler, handleCertReq.
      rewrite Ht, Hp, String.eqb_refl, Hm, Hb. simpl.
      left. split_all; [|apply certReqError_refusal|done|done]. intros [ds [_ _ _ Hg]]. congruence. }
  destruct (AllAllowed (AllowedDomains (sc_ACME (sConfig s))) ds) eqn:Ha.
  2:{ unfold apiWithTokenHandler, apiHandler, handleCertReq.
      rewrite Ht, Hp, String.eqb_refl, Hm, Hb. simpl. rewrite Ha. simpl.
      left. split_all; [|apply certReqError_refusal|done|done]. intros [ds' [_ _ _ Hg Hg']]. congruence. }
  assert (Hg : granted s r ds) by done. rewrite (handleCertReq_granted s r ds w Hg).
  destruct (servedEntry s ds w) as [err [e w1]].
  assert (Ho : ∀ k, k ≠ AsKey ds →
    (<[AsKey ds:=e]> (snd (get ds (sCache s)))) !! k = sCache s !! k)
    by (intros k Hk; rewrite lookup_insert_ne by done; by apply getNoLock_other).
  destruct err as [err|]; [|destruct (encodeResp (respOf s e)) as [b|err] eqn:Ee];
    right; exists ds, e; simpl; rewrite lookup_insert_eq; split_all; eauto using certReqError_refusal.
Qed.

(** A polling client never gets an expired certificate: when nobody is
    subscribed to the entry and the configured lifetime is at least an hour
    (expiry is computed from the hour's start), the certificate in a
    successful answer was valid when the request arrived. *)
Theorem served_cert_fresh s r ds w b s' w' e :
  granted s r ds → Hour ≤ CertLifeTimeDuration (sc_ACME (sConfig s)) →
  (∀ e0, sCache s !! AsKey ds = Some e0 → isSubscribing e0 = false) →
  apiWithTokenHandler s r w = (mkResponse StatusOK "application/json" b, (s', w')) →
  b ≠ notAllowedBody → sCache s' !! AsKey ds = Some e →
  encodeResp (respOf s e) = Ok b ∧ IsValid (timeNow w) (Cert e) = true.
Proof.
  intros Hg Hl Hs H Hb He. rewrite (handleCertReq_granted s r ds w Hg) in H.
  destruct (servedEntry s ds w) as [err [e1 w1]] eqn:Ee.
  assert (Hbad : ∀ err w0 s0, (certReqError err, (s0, w0)) =
    (mkResponse StatusOK "application/json" b, (s', w')) → False).
  { intros er w0 s0 H0. unfold certReqError in H0.
    destruct (errIs er ErrNotAllowed); [|discriminate]. injection H0 as E _ _. by apply Hb. }
  destruct err as [err|]; [by apply Hbad in H|].
  destruct (encodeResp (respOf s e1)) as [b1|] eqn:Er; [|by apply Hbad in H].
  injection H as <- <- <-. simpl in He. rewrite lookup_insert_eq in He. injection He as <-.
  split; [done|]. unfold servedEntry in Ee.
  assert (Hsub : isSubscribing (default (newCertEntry ds 0%nat) (sCache s !! AsKey ds)) = false)
    by (destruct (sCache s !! AsKey ds) eqn:E0; [by apply Hs | done]).
  rewrite Hsub in Ee. simpl in Ee.
  destruct (renew _ _ _ w) as [[b0 err] [e2 w2]] eqn:En. injection Ee as -> -> ->.
  by eapply renew_fresh.
Qed.
End HttpTheorems.

(** An enabled HTTP server with the default authentication method does
    not start: validation does not look at the method, [SetDefault] leaves it
    empty and [HttpSrv] reports it as unsupported. *)
Theorem default_auth_method_fails {W} `{RT : Runtime W} `{HL : HttpListener W} fe c fuel (w : W) :
  AuthMethod (sc_HttpServer c) = AuthMethod (sc_HttpServer (ServerConfig_SetDefault zeroServerConfig)) →
  HttpSrv fuel (fst (ServerConfig_Validate fe c)) w =
    Some (Some (EText "unsupported HTTP auth method: "), w).
Proof.
  intros Hm. simpl in Hm. unfold HttpSrv.
  assert (Hk : AuthMethod (sc_HttpServer (fst (ServerConfig_Validate fe c))) = "").
  { rewrite <- Hm. unfold ServerConfig_Validate. destruct (parseDuration c) as [c1 e1] eqn:E1.
    assert (Hh : sc_HttpServer c1 = sc_HttpServer c) by (unfold parseDuration in E1; by simp_match).
    destruct (HttpServer_Validate_keeps (sc_HttpServer c1)) as (_&K&_).
    destruct (HttpServerConfig_Validate (sc_HttpServer c1)) as [h e2]. simpl in *. by rewrite K, Hh. }
  by rewrite Hk.
Qed.

(** ** A concrete server *)

Import (hints) Server.Demo.

Module Demo.
(** A line-oriented stand-in for the JSON codec. *)
#[export] Instance text_codec : ApiCodec := {
  decodeReq b := if String.eqb b "" then Err (ESentinel EOF)
                 else Ok (mkHttpCertReq (Split1 b (Ascii.ascii_of_nat 44)));
  encodeResp r := Ok (resp_FullChain r +:+ "|" +:+ resp_Key r);
}.

#[export] Instance sim_listener : HttpListener Sim := {
  rootErr := ctxErr;
  loadMtls _ _ := None;
  x509KeyPair _ _ := None;
  listenPlain _ w := (Some (ESentinel ErrServerClosed), w);
  listenMtls _ w := (Some (ESentinel ErrServerClosed), w);
  serveTLS _ _ _ seen w := (None, (seen, w));
  entrySubscribe _ w := w;
  entryRelease _ w := w;
  entrySnapshot _ w := (zeroCert, 0);
  entryWait _ seen w := (seen, w);
}.

Definition config : ServerConfig :=
  mkServerConfig Server.Demo.acme ∅ None None ""
    (mkHttpServerConfig true ":10001" "/" "token" false [] "secret") (mkGRPCServerConfig false "").
Definition server : CertDXServer := mkServer config ∅ CertStore.Demo.empty_store.

Definition request : Request :=
  mkRequest "POST" "/" (λ h, if String.eqb h "Authorization" then "Token secret" else "")
    "api.example.com,example.com".
Definition ds : list string := ["api.example.com"; "example.com"].

Definition answer := apiWithTokenHandler server request Server.Demo.sim0.

(** The default configuration with the provider set and HTTP enabled. *)
Definition defaultConfig : ServerConfig :=
  mkServerConfig (mkACMEConfig "dns" "" "mock" 5 "168h" "24h" ["example.com"] 0 0) ∅ None None ""
    (mkHttpServerConfig true ":10001" "/" "" false [] "") (mkGRPCServerConfig false "").
End Demo.

Import (hints) Demo.

Example unauthorised_example :
  fst (apiWithTokenHandler Demo.server (mkRequest "POST" "/" (λ _, "") "example.com") Server.Demo.sim0)
    = httpError StatusNotFound.
Proof. vm_compute. reflexivity. Qed.

Lemma demo_granted : granted Demo.server Demo.request Demo.ds.
Proof. split; vm_compute; reflexivity. Qed.

Lemma served_cert_fresh_witness :
  ∃ s' w' e, Demo.answer = (mkResponse StatusOK "application/json" "api.example.com,example.com|key", (s', w')) ∧
    sCache s' !! AsKey Demo.ds = Some e ∧ IsValid (timeNow Server.Demo.sim0) (Cert e) = true.
Proof.
  destruct Demo.answer as [resp [s' w']] eqn:E.
  assert (Hr : resp = mkResponse StatusOK "application/json" "api.example.com,example.com|key").
  { replace resp with (fst Demo.answer) by (by rewrite E). vm_compute. reflexivity. }
  subst resp.
  assert (He : ∃ e, sCache s' !! AsKey Demo.ds = Some e).
  { replace s' with (fst (snd Demo.answer)) by (by rewrite E). eexists. vm_compute. reflexivity. }
  destruct He as [e He]. exists s', w', e. split; [reflexivity|]. split; [exact He|].
  assert (Hl : Hour ≤ CertLifeTimeDuration (sc_ACME (sConfig Demo.server))) by (vm_compute; discriminate).
  assert (Hs : ∀ e0, sCache Demo.server !! AsKey Demo.ds = Some e0 → isSubscribing e0 = false)
    by (intros e0 H0; vm_compute in H0; discriminate).
  assert (Hb : "api.example.com,example.com|key" ≠ notAllowedBody) by (vm_compute; discriminate).
  unfold Demo.answer in E.
  pose proof (served_cert_fresh Demo.server Demo.request Demo.ds Server.Demo.sim0
    "api.example.com,example.com|key" s' w' e demo_granted Hl Hs E Hb He) as [_ Hv].
  exact Hv.
Defined.

Lemma default_auth_method_fails_witness :
  snd (ServerConfig_Validate (λ _, false) Demo.defaultConfig) = None ∧
  HttpSrv 5 (fst (ServerConfig_Validate (λ _, false) Demo.defaultConfig)) Server.Demo.sim0
    = Some (Some (EText "unsupported HTTP auth method: "), Server.Demo.sim0).
Proof.
  split; [vm_compute; reflexivity|].
  exact (default_auth_method_fails (λ _, false) Demo.defaultConfig 5 Server.Demo.sim0 eq_refl).
Defined.
