(* ===== verification/Sds.v ===== *)
(** pkg/server/sds.go: the gRPC secret discovery service.

    [onRequest] is the body of the stream's receive loop: it checks the type
    URL, reads the domain sets from the metadata of the first request, forwards
    acknowledgements to the running pack handlers and starts handlers for new
    packs.  [hstep] is the life of one pack handler ([handleCert]) beside the
    renewals of its entry. *)

From Stdlib Require Import ZArith Lia.
From stdpp Require Import base option list gmap sets strings relations.
From S2P Require Import Prelude.
From S2P Require Import GoStd.
From S2P Require Import Domain.
From S2P Require Import CertEntry.

Open Scope Z_scope.

Definition typeUrl : string := "type.googleapis.com/envoy.extensions.transport_sockets.tls.v3.Secret".
Definition domainKey : string := "domains".

(** ** Messages *)

(** A float64; a finite one is [m * 2^e]. *)
Inductive float64 := FNaN | FInf (negative : bool) | FFinite (m e : Z).

(** A [structpb.Value]. *)
Inductive Value :=
  | VNull
  | VNumber (x : float64)
  | VBool (b : bool)
  | VString (s : string)
  | VList (l : list Value)
  | VStruct (fields : list (string * Value)).

(** The field of a struct, as in the map it is decoded to. *)
Fixpoint field (name : string) (fields : list (string * Value)) : option Value :=
  match fields with
  | [] => None
  | (n, v) :: fields' => if String.eqb n name then Some v else field name fields'
  end.

Record DiscoveryRequest := mkDiscoveryRequest {
  dr_TypeUrl : string;
  dr_VersionInfo : string;
  dr_ResourceNames : list string;
  dr_Metadata : option (list (string * Value));    (* Node.Metadata, nil without a node *)
  dr_ErrorDetail : option (Z * string);            (* code, message *)
}.

(** ** The receive loop *)

(** [domainSets] and the names with a handler. *)
Record recvState := mkRecv {
  rv_domainSets : option (list (string * Value));
  rv_dispatch : gmap string (list string);          (* with the domains of its entry *)
}.

Definition recv_init : recvState := mkRecv None ∅.

Inductive action :=
  | Forward (name : string)                         (* send the request to the handler *)
  | Start (name : string) (domains : list string).  (* start handleCert *)

(** [v.AsInterface()] asserted to be a string: its documentation has the
    numbers without a JSON form converted to strings as well. *)
Definition asString (v : Value) : option string :=
  match v with
  | VString vs => Some vs
  | VNumber FNaN => Some "NaN"
  | VNumber (FInf negative) => Some (if negative then "-Infinity" else "Infinity")
  | _ => None
  end.

(** The conversion of an array of strings. *)
Fixpoint packDomains (items : list Value) : result (list string) :=
  match items with
  | [] => Ok []
  | v :: items' =>
      match asString v with
      | Some vs => match packDomains items' with Ok ds => Ok (vs :: ds) | Err e => Err e end
      | None => Err (EText "bad metadata: domain should be string")
      end
  end.

Section Recv.
(** [Config.ACME.AllowedDomains] *)
Variable allowed : list string.

Definition readDomainSets (st : recvState) (req : DiscoveryRequest) : result (list (string * Value)) :=
  match rv_domainSets st with
  | Some m => Ok m
  | None =>
      match dr_Metadata req with
      | None => Err (EText "bad metadata: missing node metadata")
      | Some fields =>
          match field domainKey fields with
          | None => Err (EText "bad metadata: no domains key")
          | Some (VStruct m) => Ok m
          | Some _ => Err (EText "bad metadata: domains should be a map")
          end
      end
  end.

(** A pack that has no handler yet. *)
Definition readPack (domainSets : list (string * Value)) (name : string) : result (list string) :=
  match field name domainSets with
  | None => Err (EText ("bad metadata: missing domain names for pack " +:+ name))
  | Some (VList items) =>
      match packDomains items with
      | Err e => Err e
      | Ok domains =>
          if negb (AllAllowed allowed domains) then Err (EWrap "domains %v: %w" (ESentinel ErrNotAllowed))
          else Ok domains
      end
  | Some _ => Err (EText "bad metadata: domain pack should be an array")
  end.

(** The loop over [req.ResourceNames]: the acknowledgements forwarded, and the
    new packs or the error that ends the stream. *)
Fixpoint nameLoop (dispatch : gmap string (list string)) (domainSets : list (string * Value))
    (names : list string) (packs : gmap string (list string))
    : list action * result (gmap string (list string)) :=
  match names with
  | [] => ([], Ok packs)
  | name :: names' =>
      match dispatch !! name with
      | Some _ =>
          let '(acts, r) := nameLoop dispatch domainSets names' packs in (Forward name :: acts, r)
      | None =>
          match readPack domainSets name with
          | Err e => ([], Err e)
          | Ok domains => nameLoop dispatch domainSets names' (<[ name := domains ]> packs)
          end
      end
  end.

(** The order in which the new packs are started. *)
Variable range : gmap string (list string) → list (string * list string).

Definition startAll (packs : list (string * list string)) (dispatch : gmap string (list string)) :=
  foldl (λ d '(name, domains), <[ name := domains ]> d) dispatch packs.

(** One request: the actions taken, then the next state or the error that is
    reported on [errChan]. *)
Definition onRequest (st : recvState) (req : DiscoveryRequest) : list action * result recvState :=
  if negb (String.eqb (dr_TypeUrl req) typeUrl)
  then ([], Err (EText "unexpected resource type"))
  else match readDomainSets st req with
  | Err e => ([], Err e)
  | Ok domainSets =>
      let '(acts, r) := nameLoop (rv_dispatch st) domainSets (dr_ResourceNames req) ∅ in
      match r with
      | Err e => (acts, Err e)
      | Ok packs =>
          let l := range packs in
          (acts ++ ((λ '(n, d), Start n d) <$> l),
           Ok (mkRecv (Some domainSets) (startAll l (rv_dispatch st))))
      end
  end.

(** A whole stream of requests, up to the first error. *)
Fixpoint onRequests (st : recvState) (reqs : list DiscoveryRequest)
    : list action * (recvState * option error) :=
  match reqs with
  | [] => ([], (st, None))
  | req :: reqs' =>
      let '(acts, r) := onRequest st req in
      match r with
      | Err e => (acts, (st, Some e))
      | Ok st' => let '(acts', x) := onRequests st' reqs' in (acts ++ acts', x)
      end
  end.

(** ** Facts about the receive loop *)

Hypothesis range_all : ∀ m, range m ≡ₚ map_to_list m.

(** The domains of a pack as the metadata of the stream gives them. *)
Definition pack_ok (domainSets : list (string * Value)) (name : string) (ds : list string) : Prop :=
  AllAllowed allowed ds = true ∧
  ∃ items, field name domainSets = Some (VList items) ∧ packDomains items = Ok ds.

Lemma readPack_ok domainSets name ds :
  readPack domainSets name = Ok ds ↔ pack_ok domainSets name ds.
Proof.
  unfold readPack, pack_ok. destruct (field name domainSets) as [v|];
    [|split; [done | by intros (_&?&?&_)]].
  destruct v; try (split; [done | by intros (_&?&?&_)]).
  destruct (packDomains l) as [ds'|] eqn:E;
    [|split; [done | intros (_&?&[= <-]&?); congruence]].
  destruct (AllAllowed allowed ds') eqn:Ea; simpl; split.
  - intros [= <-]. eauto.
  - intros (_&?&[= <-]&?). congruence.
  - done.
  - intros (?&?&[= <-]&?). congruence.
Qed.

Lemma nameLoop_ok dispatch domainSets names : ∀ packs acts packs',
  (∀ n d, packs !! n = Some d → dispatch !! n = None ∧ pack_ok domainSets n d) →
  nameLoop dispatch domainSets names packs = (acts, Ok packs') →
  (∀ n d, packs' !! n = Some d → dispatch !! n = None ∧ pack_ok domainSets n d) ∧
  (∀ n, n ∈ names → is_Some (dispatch !! n) ∨ is_Some (packs' !! n)) ∧
  (∀ n, is_Some (packs !! n) → is_Some (packs' !! n)).
Proof.
  induction names as [|name names IH]; intros packs acts packs' Hp; simpl.
  { intros [= <- <-]. split_all; [done | set_solver | done]. }
  destruct (dispatch !! name) eqn:Ed.
  - destruct (nameLoop dispatch domainSets names packs) as [acts1 r] eqn:E. intros [= <- ->].
    destruct (IH packs acts1 packs' Hp E) as (H1&H2&H3). split_all; [done| |done].
    intros n [->|?]%elem_of_cons; [left; eauto | by apply H2].
  - destruct (readPack domainSets name) as [domains|] eqn:Er; [|done]. intros E.
    apply readPack_ok in Er.
    destruct (IH (<[name := domains]> packs) acts packs') as (H1&H2&H3); [|done|].
    { intros n d [[<- <-]|[_ ?]]%lookup_insert_Some; [done | by apply Hp]. }
    split_all; [done| |].
    + intros n [->|?]%elem_of_cons; [right; apply H3; rewrite lookup_insert_eq; eauto | by apply H2].
    + intros n Hn. apply H3. destruct (decide (name = n)) as [->|?];
        [rewrite lookup_insert_eq; eauto | by rewrite lookup_insert_ne].
Qed.

Lemma startAll_lookup l dispatch n :
  NoDup l.*1 → startAll l dispatch !! n =
  match list_to_map (M := gmap string (list string)) l !! n with Some d => Some d | None => dispatch !! n end.
Proof. apply foldl_insert_NoDup. Qed.

Lemma startAll_range packs dispatch n :
  startAll (range packs) dispatch !! n =
  match packs !! n with Some d => Some d | None => dispatch !! n end.
Proof.
  assert (Hnd : NoDup (range packs).*1) by (rewrite range_all; apply NoDup_fst_map_to_list).
  rewrite startAll_lookup by done.
  replace (list_to_map (range packs)) with packs; [done|].
  rewrite <- (list_to_map_to_list packs) at 1. symmetry. by apply list_to_map_proper.
Qed.

(** What the receive loop keeps true of its state. *)
Definition recv_inv (st : recvState) : Prop :=
  ∀ n d, rv_dispatch st !! n = Some d →
    ∃ m, rv_domainSets st = Some m ∧ pack_ok m n d.

Lemma readDomainSets_keep st req m m' :
  readDomainSets st req = Ok m' → rv_domainSets st = Some m → m' = m.
Proof. unfold readDomainSets. intros H E. rewrite E in H. congruence. Qed.

Lemma onRequest_inv st req acts st' :
  recv_inv st → onRequest st req = (acts, Ok st') → recv_inv st'.
Proof.
  intros Hi. unfold onRequest. destruct (negb _); [done|].
  destruct (readDomainSets st req) as [m|] eqn:Em; [|done].
  destruct (nameLoop (rv_dispatch st) m (dr_ResourceNames req) ∅) as [acts1 [packs|]] eqn:En; [|done].
  intros [= <- <-] n d Hd. simpl in *. exists m. split; [done|].
  rewrite startAll_range in Hd.
  destruct (nameLoop_ok _ _ _ ∅ _ _ ltac:(by intros ?? ?%lookup_empty_Some) En) as (H1&_).
  destruct (packs !! n) as [d'|] eqn:Ep; [simplify_eq; by apply H1|].
  destruct (Hi n d Hd) as (m0&Hm0&Hok). by rewrite (readDomainSets_keep _ _ _ _ Em Hm0).
Qed.

(** A sequence of actions is in order from the known names on: requests are
    forwarded to running handlers only, and each pack is started once, for
    allowed domains. *)
Fixpoint in_order (known : gset string) (acts : list action) : Prop :=
  match acts with
  | [] => True
  | Forward n :: acts' => n ∈ known ∧ in_order known acts'
  | Start n ds :: acts' =>
      n ∉ known ∧ AllAllowed allowed ds = true ∧ in_order ({[ n ]} ∪ known) acts'
  end.

Fixpoint started (acts : list action) : gset string :=
  match acts with
  | [] => ∅
  | Forward _ :: acts' => started acts'
  | Start n _ :: acts' => {[ n ]} ∪ started acts'
  end.

Lemma in_order_app acts : ∀ known acts',
  in_order known acts → in_order (started acts ∪ known) acts' → in_order known (acts ++ acts').
Proof.
  induction acts as [|[n|n ds] acts IH]; intros known acts'; simpl.
  - by rewrite (left_id_L ∅ (∪)).
  - intros [? ?] ?. auto.
  - intros (?&?&?) Ho. split_all; auto. apply IH; [done|].
    by rewrite (assoc_L (∪)), (comm_L (∪) _ {[n]}).
Qed.

Lemma in_order_starts l : ∀ known,
  NoDup l.*1 → (∀ n d, (n, d) ∈ l → n ∉ known ∧ AllAllowed allowed d = true) →
  in_order known ((λ '(n, d), Start n d) <$> l).
Proof.
  induction l as [|[n d] l IH]; intros known Hnd Hl; simpl; [done|].
  apply NoDup_cons in Hnd as [Hn Hnd].
  destruct (Hl n d) as [? ?]; [set_solver|]. split_all; [done..|]. apply IH; [done|].
  intros n' d' Hin. destruct (Hl n' d') as [? ?]; [set_solver|]. split; [|done].
  assert (n' ≠ n) by (intros ->; apply Hn; by apply list_elem_of_fmap_2' with (n, d')).
  set_solver.
Qed.

Lemma started_starts l : started ((λ '(n, d), Start n d) <$> l) = list_to_set l.*1.
Proof. induction l as [|[n d] l IH]; simpl; [done|]. by f_equal. Qed.

Lemma started_app acts acts' : started (acts ++ acts') = started acts ∪ started acts'.
Proof.
  induction acts as [|[]]; simpl; [by rewrite (left_id_L ∅ (∪))|done|]. set_solver.
Qed.

Lemma nameLoop_forwards m dispatch names : ∀ packs acts r,
  nameLoop dispatch m names packs = (acts, r) → in_order (dom dispatch) acts ∧ started acts = ∅.
Proof.
  induction names as [|name names IH]; intros packs acts r; simpl; [by intros [= <- <-]|].
  destruct (dispatch !! name) eqn:Ed.
  - destruct (nameLoop dispatch m names packs) as [a1 r1] eqn:E. intros [= <- <-].
    apply IH in E as [? ?]. simpl. split_all; [|done..]. by apply elem_of_dom_2 in Ed.
  - destruct (readPack m name); [eauto | by intros [= <- <-]].
Qed.

Lemma onRequest_in_order st req acts r :
  onRequest st req = (acts, r) → in_order (dom (rv_dispatch st)) acts ∧
  ∀ st', r = Ok st' → dom (rv_dispatch st') = started acts ∪ dom (rv_dispatch st).
Proof.
  unfold onRequest. destruct (negb _); [by intros [= <- <-]|].
  destruct (readDomainSets st req) as [m|]; [|by intros [= <- <-]].
  destruct (nameLoop (rv_dispatch st) m (dr_ResourceNames req) ∅) as [acts1 [packs|]] eqn:En;
    apply nameLoop_forwards in En as Hf; destruct Hf as [Hf Hs]; intros [= <- <-]; [|done].
  destruct (nameLoop_ok _ _ _ ∅ _ _ ltac:(by intros ?? ?%lookup_empty_Some) En) as (H1&_).
  split.
  - apply in_order_app; [done|]. rewrite Hs, (left_id_L ∅ (∪)). apply in_order_starts.
    + rewrite range_all. apply NoDup_fst_map_to_list.
    + intros n d Hin. rewrite range_all, elem_of_map_to_list in Hin.
      destruct (H1 n d Hin) as [Hn [Ha _]]. split; [by apply not_elem_of_dom | done].
  - intros st' [= <-]. simpl. rewrite started_app, Hs, started_starts, (left_id_L ∅ (∪)).
    apply set_eq. intros n. rewrite elem_of_union, !elem_of_dom, startAll_range.
    rewrite elem_of_list_to_set, range_all, list_elem_of_fmap.
    destruct (packs !! n) as [d|] eqn:Ep.
    + split; [|eauto]. intros _. left. exists (n, d). by rewrite elem_of_map_to_list.
    + split; [by right|]. intros [([n' d]&->&Hin)|?]; [|done].
      rewrite elem_of_map_to_list in Hin. simpl in Ep. congruence.
Qed.

Lemma onRequests_in_order reqs : ∀ st acts st' e,
  onRequests st reqs = (acts, (st', e)) → in_order (dom (rv_dispatch st)) acts.
Proof.
  induction reqs as [|req reqs IH]; intros st acts st' e; simpl; [by intros [= <- _ _]|].
  destruct (onRequest st req) as [acts1 r] eqn:E1.
  destruct (onRequest_in_order _ _ _ _ E1) as [Ho Hd].
  destruct r as [st1|err]; [|by intros [= <- _ _]].
  destruct (onRequests st1 reqs) as [acts2 [st2 e2]] eqn:E2. intros [= <- -> ->].
  apply in_order_app; [done|]. rewrite <- (Hd st1 eq_refl). by eapply IH.
Qed.

(** C22: on a stream, whatever the client sends, a pack handler is started at
    most once per pack name and only for domains the allow-list accepts, and
    acknowledgements are only ever forwarded to a handler started before; the
    packs being served are exactly as the first request's metadata gives
    them. *)
Theorem stream_safe reqs acts st e :
  onRequests recv_init reqs = (acts, (st, e)) → in_order ∅ acts ∧ recv_inv st.
Proof.
  intros H. split.
  - replace (∅ : gset string) with (dom (rv_dispatch recv_init)) by apply dom_empty_L.
    by eapply onRequests_in_order.
  - assert (Hinit : recv_inv recv_init)
      by (intros n d Hd; simpl in Hd; by apply lookup_empty_Some in Hd).
    revert Hinit H. generalize recv_init. revert acts.
    induction reqs as [|req reqs IH]; intros acts st0 Hi; simpl; [by intros [= _ <- _]|].
    destruct (onRequest st0 req) as [acts1 [st1|err]] eqn:E1; [|by intros [= _ <- _]].
    destruct (onRequests st1 reqs) as [acts2 [st2 e2]] eqn:E2. intros [= _ <- <-].
    eapply IH; [|exact E2]. by eapply onRequest_inv.
Qed.
End Recv.

(** ** A pack handler *)

(** The program counter of [handleCert].  [n] is the number of renewals its
    entry had when the snapshot was taken (ghost). *)
Inductive hstate :=
  | HSnapshot                               (* subscribed, before the first Snapshot *)
  | HWaiting (seen : Z) (n : nat)           (* entering WaitForUpdate *)
  | HSleep (ch : nat) (n : nat)             (* in its select *)
  | HWoken                                  (* returned from it *)
  | HOffer (c : CertT) (seen : Z) (n : nat) (* sending the response *)
  | HAck (c : CertT) (seen : Z) (n : nat)   (* waiting for the acknowledgement *)
  | HReturned
  | HPanicked.

Record hworld := mkH {
  h_state : hstate;
  h_entry : certEntry;
  h_done : bool;                       (* the stream's context *)
  h_now : Time;
  h_minted : list CertT;               (* ghost: the initial certificate, then each renewal *)
  h_offered : list (CertT * nat);      (* ghost: responses sent, newest first *)
}.

Section Handler.
(** [RenewAt.Format(time.RFC3339)], in the host's time zone. *)
Variable versionOf : Time → string.

Definition set_h (s : hstate) (w : hworld) : hworld :=
  mkH s (h_entry w) (h_done w) (h_now w) (h_minted w) (h_offered w).

(** What an acknowledgement does: a matching version is logged as deployed,
    another one as rejected with [err.Code] and [err.Message], where [err] is
    the request's error detail. *)
Definition on_ack (c : CertT) (seen : Z) (n : nat) (ack : DiscoveryRequest) : hstate :=
  if String.eqb (dr_VersionInfo ack) (versionOf (RenewAt c)) then HWaiting seen n
  else match dr_ErrorDetail ack with
  | Some _ => HWaiting seen n
  | None => HPanicked
  end.

Inductive hstep : hworld → hworld → Prop :=
(* the environment: a renewal of the entry, the end of the stream, time *)
| hs_renew w c :
    hstep w (mkH (h_state w) (renew_commit (h_entry w) c (S (updated (h_entry w)))) (h_done w)
               (h_now w) (h_minted w ++ [c]) (h_offered w))
| hs_cancel w : hstep w (mkH (h_state w) (h_entry w) true (h_now w) (h_minted w) (h_offered w))
| hs_tick w t : h_now w ≤ t →
    hstep w (mkH (h_state w) (h_entry w) (h_done w) t (h_minted w) (h_offered w))
(* cert, seen := entry.Snapshot() *)
| hs_snapshot w c v :
    h_state w = HSnapshot → Snapshot (h_entry w) = (c, v) →
    hstep w (set_h (if IsValid (h_now w) c then HOffer c v (updated (h_entry w))
                    else HWaiting v (updated (h_entry w))) w)
(* seen = entry.WaitForUpdate(ctx, seen) *)
| hs_wait_pass w seen n v :
    h_state w = HWaiting seen n → wait_enter (h_entry w) seen = inl v → hstep w (set_h HWoken w)
| hs_wait_sleep w seen n ch :
    h_state w = HWaiting seen n → wait_enter (h_entry w) seen = inr ch →
    hstep w (set_h (HSleep ch n) w)
| hs_wake w ch n :
    h_state w = HSleep ch n → (ch < updated (h_entry w))%nat → hstep w (set_h HWoken w)
| hs_wake_ctx w ch n :
    h_state w = HSleep ch n → h_done w = true → hstep w (set_h HWoken w)
(* if ctx.Err() != nil { return }; cert, seen = entry.Snapshot() *)
| hs_woken w c v :
    h_state w = HWoken → Snapshot (h_entry w) = (c, v) →
    hstep w (set_h (if h_done w then HReturned else HOffer c v (updated (h_entry w))) w)
(* resp <- response *)
| hs_offer w c seen n :
    h_state w = HOffer c seen n →
    hstep w (mkH (HAck c seen n) (h_entry w) (h_done w) (h_now w) (h_minted w) ((c, n) :: h_offered w))
| hs_offer_done w c seen n :
    h_state w = HOffer c seen n → h_done w = true → hstep w (set_h HReturned w)
(* ack := <-req *)
| hs_ack w c seen n ack :
    h_state w = HAck c seen n → hstep w (set_h (on_ack c seen n ack) w)
| hs_ack_done w c seen n :
    h_state w = HAck c seen n → h_done w = true → hstep w (set_h HReturned w).

(** A handler on an entry with any history; the fields it never reads are as
    the first subscription leaves them ([Fanout] has them as they are). *)
Definition hinit (w : hworld) : Prop :=
  ∃ ds c now minted, w = mkH HSnapshot
    (mkEntry ds None c (to_u64 (Z.of_nat (length minted))) (length minted) None 1)
    false now (minted ++ [c]) [].

(** The renewal counts of what was offered are decreasing in the list. *)
Fixpoint decreasing (bound : nat) (l : list (CertT * nat)) : Prop :=
  match l with
  | [] => True
  | (_, n) :: l' => (n ≤ bound)%nat ∧ (match l' with (_, n') :: _ => (n' < n)%nat | [] => True end) ∧
                    decreasing n l'
  end.

(** The last offered count is below [n]. *)
Definition offered_below (n : nat) (l : list (CertT * nat)) : Prop :=
  match l with [] => True | (_, n') :: _ => (n' < n)%nat end.

Definition offered_upto (n : nat) (l : list (CertT * nat)) : Prop :=
  match l with [] => True | (_, n') :: _ => (n' ≤ n)%nat end.

(** What each program counter knows. *)
Definition hi_state_of (s : hstate) (w : hworld) : Prop :=
  match s with
  | HSnapshot => h_offered w = []
  | HWaiting seen n => seen = to_u64 (Z.of_nat n) ∧ (n ≤ updated (h_entry w))%nat ∧
        offered_upto n (h_offered w)
  | HSleep ch n => (n ≤ ch ≤ updated (h_entry w))%nat ∧ offered_upto n (h_offered w) ∧
        to_u64 (Z.of_nat ch) = to_u64 (Z.of_nat n)
  | HWoken => h_done w = false → offered_below (updated (h_entry w)) (h_offered w)
  | HOffer c seen n => seen = to_u64 (Z.of_nat n) ∧ (n ≤ updated (h_entry w))%nat ∧
        h_minted w !! n = Some c ∧ offered_below n (h_offered w)
  | HAck c seen n => seen = to_u64 (Z.of_nat n) ∧ (n ≤ updated (h_entry w))%nat ∧
        offered_upto n (h_offered w)
  | _ => True
  end.

Record hinv (w : hworld) : Prop := {
  hi_version : version (h_entry w) = to_u64 (Z.of_nat (updated (h_entry w)));
  hi_minted : length (h_minted w) = S (updated (h_entry w));
  hi_cert : h_minted w !! updated (h_entry w) = Some (cert (h_entry w));
  hi_offered c n : (c, n) ∈ h_offered w → h_minted w !! n = Some c;
  hi_sorted : decreasing (updated (h_entry w)) (h_offered w);
  hi_state : hi_state_of (h_state w) w;
}.

Lemma decreasing_mono b b' l : (b ≤ b')%nat → decreasing b l → decreasing b' l.
Proof. destruct l as [|[c n] l]; simpl; [done|]. intros ? (?&?&?). split_all; auto; lia. Qed.

Lemma offered_below_mono n n' l : (n ≤ n')%nat → offered_below n l → offered_below n' l.
Proof. destruct l as [|[? m] l]; simpl; [done|lia]. Qed.

Lemma upto_below n n' l : (n < n')%nat → offered_upto n l → offered_below n' l.
Proof. destruct l as [|[? m] l]; simpl; [done|lia]. Qed.
Lemma decreasing_below b n l : decreasing b l → offered_below n l → decreasing n l.
Proof. destruct l as [|[c m] l]; simpl; [done|]. intros (?&?&?) ?. split_all; auto; lia. Qed.

Lemma hinv_renew w c : hinv w →
  hinv (mkH (h_state w) (renew_commit (h_entry w) c (S (updated (h_entry w)))) (h_done w)
          (h_now w) (h_minted w ++ [c]) (h_offered w)).
Proof.
  intros [Hv Hm Hc Ho Hs Ht].
  assert (Hkeep : ∀ n x, h_minted w !! n = Some x → (h_minted w ++ [c]) !! n = Some x)
    by (intros; by apply lookup_app_l_Some).
  split; simpl.
  - rewrite Hv. unfold to_u64. rewrite Zplus_mod_idemp_l. f_equal. lia.
  - rewrite length_app, Hm. simpl. lia.
  - rewrite lookup_app_r by lia. by rewrite Hm, Nat.sub_diag.
  - eauto.
  - eapply decreasing_mono; [|done]. lia.
  - unfold hi_state_of in *. simpl. destruct (h_state w); try done.
    + destruct Ht as (?&?&?). split_all; auto.
    + destruct Ht as (?&?&?). split_all; auto; lia.
    + intros Hd. eapply offered_below_mono; [|by apply Ht]. lia.
    + destruct Ht as (?&?&?&?). split_all; auto.
    + destruct Ht as (?&?&?). split_all; auto.
Qed.

Lemma hinv_state w s : hinv w →
  hi_state_of s w →
  hinv (set_h s w).
Proof. intros [Hv Hm Hc Ho Hs _] Ht. by split. Qed.

Lemma hinv_step w w' : hinv w → hstep w w' → hinv w'.
Proof.
  intros Hi Hstep. pose proof Hi as [Hv Hm Hc Ho Hs Ht]. destruct Hstep as
    [w c|w|w t Hle|w c v E Es|w seen n v E Ew|w seen n ch E Ew|w ch n E Hlt|w ch n E Hd|w c v E Es
    |w c seen n E|w c seen n E Hd|w c seen n ack E|w c seen n E Hd].
  - by apply hinv_renew.
  - split; simpl; auto. unfold hi_state_of in *. destruct (h_state w); try done.
  - split; simpl; auto.
  - apply hinv_state; [done|]. injection Es as <- <-. unfold hi_state_of in *. rewrite E in Ht.
    destruct (IsValid _ _); rewrite Ht; simpl; split_all; auto.
  - apply hinv_state; [done|]. unfold hi_state_of in *. rewrite E in Ht. destruct Ht as (->&Hle&Hu).
    intros _. unfold wait_enter in Ew. rewrite Hv in Ew.
    destruct (to_u64 (Z.of_nat (updated (h_entry w))) =? to_u64 (Z.of_nat n)) eqn:Eq; [done|].
    apply Z.eqb_neq in Eq. eapply upto_below; [|done].
    assert (n ≠ updated (h_entry w)) by congruence. lia.
  - apply hinv_state; [done|]. unfold hi_state_of in *. rewrite E in Ht. destruct Ht as (->&Hle&Hu).
    unfold wait_enter in Ew. rewrite Hv in Ew.
    destruct (to_u64 (Z.of_nat (updated (h_entry w))) =? to_u64 (Z.of_nat n)) eqn:Eq; [|done].
    injection Ew as <-. apply Z.eqb_eq in Eq. split_all; auto.
  - apply hinv_state; [done|]. unfold hi_state_of in *. rewrite E in Ht. destruct Ht as (?&Hu&_).
    intros _. eapply upto_below; [|done]. lia.
  - apply hinv_state; [done|]. simpl. congruence.
  - apply hinv_state; [done|]. injection Es as <- <-. unfold hi_state_of in *. rewrite E in Ht.
    destruct (h_done w); [done|]. split_all; auto.
  - unfold hi_state_of in Ht. rewrite E in Ht. destruct Ht as (->&Hle&Hx&Hb). split; simpl; auto.
    + intros c' n' [[= -> ->]|?]%elem_of_cons; auto.
    + split_all; [done| |by eapply decreasing_below]. by destruct (h_offered w) as [|[]].
  - apply hinv_state; done.
  - apply hinv_state; [done|]. unfold hi_state_of in *. rewrite E in Ht. unfold on_ack.
    destruct (String.eqb _ _); [done|]. by destruct (dr_ErrorDetail ack).
  - apply hinv_state; done.
Qed.

Lemma hinv_reachable w : reachable hinit hstep w → hinv w.
Proof.
  apply reachable_invariant.
  - intros w0 (ds&c&now&minted&->). split; simpl; try done.
    + rewrite length_app. simpl. lia.
    + by rewrite lookup_app_r, Nat.sub_diag by lia.
    + set_solver.
  - intros w0 w' _. apply hinv_step.
Qed.

(** C2: what a pack handler offers: each response carries a certificate that
    some renewal minted (or the one the entry had), never the same renewal
    twice and never an older one; and an idle handler on a live stream has
    nothing to miss: it can leave its wait as soon as the entry has a renewal
    newer than its last response. *)
Theorem handleCert_offers w :
  reachable hinit hstep w →
  (∀ c n, (c, n) ∈ h_offered w → h_minted w !! n = Some c) ∧
  decreasing (updated (h_entry w)) (h_offered w) ∧
  (∀ ch n, h_state w = HSleep ch n → (n < updated (h_entry w))%nat →
     to_u64 (Z.of_nat n) ≠ to_u64 (Z.of_nat (updated (h_entry w))) →
     hstep w (set_h HWoken w)) ∧
  (∀ c seen n, h_state w = HOffer c seen n → offered_below n (h_offered w)).
Proof.
  intros Hr. destruct (hinv_reachable w Hr) as [Hv Hm Hc Ho Hs Ht]. unfold hi_state_of in Ht.
  split_all; [done|done| |].
  - intros ch n E Hlt Hne. rewrite E in Ht. destruct Ht as ([? Hle]&_&Heq).
    eapply hs_wake; [exact E|].
    assert (ch ≠ updated (h_entry w)) by congruence. lia.
  - intros c seen n E. rewrite E in Ht. by destruct Ht as (_&_&_&?).
Qed.

(** An acknowledgement that names another version without error details
    is a nil dereference: any request for the pack that arrives while its
    response is unacknowledged, carries another version and no [ErrorDetail]
    (a plain repeated subscription, for instance) panics the handler and with
    it the server; with details, or with the offered version, it goes on
    waiting for the next renewal. *)
Theorem bare_nack_panics w c seen n ack :
  h_state w = HAck c seen n →
  (dr_VersionInfo ack ≠ versionOf (RenewAt c) → dr_ErrorDetail ack = None →
     hstep w (set_h HPanicked w)) ∧
  (dr_VersionInfo ack = versionOf (RenewAt c) ∨ is_Some (dr_ErrorDetail ack) →
     hstep w (set_h (HWaiting seen n) w)).
Proof.
  intros E. pose proof (hs_ack w c seen n ack E) as Hs. unfold on_ack in Hs. split.
  - intros Hne Hd. by rewrite (proj2 (String.eqb_neq _ _) Hne), Hd in Hs.
  - intros [Hv|[d Hd]]; [by rewrite Hv, String.eqb_refl in Hs|]. rewrite Hd in Hs. by case_match.
Qed.
End Handler.

(** ** A stream *)

Module Demo.
Definition metadata : list (string * Value) :=
  [("domains", VStruct [("web", VList [VString "example.com"; VString "api.example.com"])])].

(** The first request subscribes, the second one acknowledges. *)
Definition subscribe : DiscoveryRequest :=
  mkDiscoveryRequest typeUrl "" ["web"] (Some metadata) None.
Definition ack : DiscoveryRequest := mkDiscoveryRequest typeUrl "v1" ["web"] None None.
Definition range (m : gmap string (list string)) := map_to_list m.

(** A handler that serves a valid certificate. *)
Definition c0 : CertT := mkCertT "chain" "key" 100 5.
Definition entry : certEntry := mkEntry ["example.com"] None c0 0 0%nat None 1.
Definition h0 : hworld := mkH HSnapshot entry false 10 [c0] [].
Definition h1 : hworld := mkH (HOffer c0 0 0%nat) entry false 10 [c0] [].
Definition h2 : hworld := mkH (HAck c0 0 0%nat) entry false 10 [c0] [(c0, 0%nat)].
Definition versionOf (t : Time) : string := "v1".
End Demo.

Example stream_example :
  fst (onRequests ["example.com"] Demo.range recv_init [Demo.subscribe; Demo.ack])
    = [Start "web" ["example.com"; "api.example.com"]; Forward "web"].
Proof. vm_compute. reflexivity. Qed.

(** A pack may name its domain by a number that is none. *)
Example number_name : packDomains [VString "example.com"; VNumber FNaN] = Ok ["example.com"; "NaN"].
Proof. vm_compute. reflexivity. Qed.

Lemma stream_safe_witness :
  in_order ["example.com"] ∅ [Start "web" ["example.com"; "api.example.com"]; Forward "web"].
Proof.
  destruct (onRequests ["example.com"] Demo.range recv_init [Demo.subscribe; Demo.ack]) as [acts [st e]] eqn:E.
  assert (Ha : acts = [Start "web" ["example.com"; "api.example.com"]; Forward "web"]).
  { replace acts with (fst (onRequests ["example.com"] Demo.range recv_init [Demo.subscribe; Demo.ack]))
      by (by rewrite E). exact stream_example. }
  rewrite <- Ha.
  exact (proj1 (stream_safe ["example.com"] Demo.range (λ m, reflexivity _) _ acts st e E)).
Defined.

Lemma h2_reachable : reachable hinit (hstep Demo.versionOf) Demo.h2.
Proof.
  apply reach_step with Demo.h1; [|by apply (hs_offer _ Demo.h1 Demo.c0 0 0)].
  apply reach_step with Demo.h0; [|by apply (hs_snapshot _ Demo.h0 Demo.c0 0)].
  apply reach_init. by exists ["example.com"], Demo.c0, 10, [].
Qed.

Lemma handleCert_offers_witness : h_minted Demo.h2 !! 0%nat = Some Demo.c0.
Proof.
  apply (proj1 (handleCert_offers Demo.versionOf Demo.h2 h2_reachable)). vm_compute. left.
Defined.

Lemma bare_nack_panics_witness :
  hstep Demo.versionOf Demo.h2 (set_h HPanicked Demo.h2) ∧
  dr_VersionInfo Demo.subscribe ≠ Demo.versionOf (RenewAt Demo.c0).
Proof.
  assert (Hv : dr_VersionInfo Demo.subscribe ≠ Demo.versionOf (RenewAt Demo.c0)) by discriminate.
  split; [|exact Hv].
  exact (proj1 (bare_nack_panics Demo.versionOf Demo.h2 Demo.c0 0 0 Demo.subscribe eq_refl) Hv eq_refl).
Defined.
