(* ===== verification/Fanout.v ===== *)
(** One cache entry and all the SDS streams on it: any number of pack handlers
    ([handleCert], of Sds) come, subscribe, and leave, while the entry is
    renewed for them all.  Every handler is a run of [hstep] on the entry as it
    sees it, so what Sds shows of a handler holds for each of them, and one
    renewal reaches them all. *)

From Stdlib Require Import ZArith Lia.
From stdpp Require Import base option list gmap sets strings relations.
From S2P Require Import Prelude.
From S2P Require Import GoStd.
From S2P Require Import CertEntry.
From S2P Require Import Sds.

Open Scope Z_scope.

Section Fanout.
(** [RenewAt.Format(time.RFC3339)]. *)
Variable versionOf : Time → string.

(** A goroutine of [handleCert], from its [subscribe] on; [sb_left] after its
    deferred [release]. *)
Record subscriber := mkSub {
  sb_state : hstate;
  sb_done : bool;                      (* its stream's context *)
  sb_offered : list (CertT * nat);     (* ghost: responses sent, newest first *)
  sb_left : bool;
}.

Record fan := mkFan {
  fn_entry : certEntry;
  fn_now : Time;
  fn_minted : list CertT;              (* ghost: the initial certificate, then each renewal *)
  fn_subs : list subscriber;
}.

(** The fields of the entry that a handler reads. *)
Definition normal (e : certEntry) : certEntry :=
  mkEntry (domains e) None (cert e) (version e) (updated e) None 1.

(** What subscriber [s] sees of the world. *)
Definition view (s : subscriber) (w : fan) : hworld :=
  mkH (sb_state s) (normal (fn_entry w)) (sb_done s) (fn_now w) (fn_minted w) (sb_offered s).

Definition set_subs (l : list subscriber) (w : fan) : fan := mkFan (fn_entry w) (fn_now w) (fn_minted w) l.

Definition renewed (c : CertT) (w : fan) : fan :=
  mkFan (renew_commit (fn_entry w) c (S (updated (fn_entry w)))) (fn_now w) (fn_minted w ++ [c]) (fn_subs w).

(** At most [holders_bound] goroutines hold a registration. *)
Fixpoint live (l : list subscriber) : nat :=
  match l with [] => O | s :: l => ((if sb_left s then 0 else 1) + live l)%nat end.

Inductive fstep : fan → fan → Prop :=
(* a renewal of the entry, by whichever goroutine; time *)
| f_renew w c : fstep w (renewed c w)
| f_tick w t : fn_now w ≤ t → fstep w (mkFan (fn_entry w) t (fn_minted w) (fn_subs w))
(* sds.cdxsrv.subscribe(entry) *)
| f_join w fresh : (live (fn_subs w) < holders_bound)%nat →
    fstep w (mkFan (fst (subscribe_section (fn_entry w) fresh)) (fn_now w) (fn_minted w)
               (fn_subs w ++ [mkSub HSnapshot false [] false]))
(* a handler's own step, or the end of its stream *)
| f_handler w i s v :
    fn_subs w !! i = Some s → sb_left s = false → hstep versionOf (view s w) v →
    h_entry v = normal (fn_entry w) → h_now v = fn_now w → h_minted v = fn_minted w →
    fstep w (set_subs (<[ i := mkSub (h_state v) (h_done v) (h_offered v) false ]> (fn_subs w)) w)
(* defer sds.cdxsrv.release(entry) *)
| f_leave w i s :
    fn_subs w !! i = Some s → sb_left s = false → sb_state s = HReturned →
    fstep w (mkFan (fst (release_section (fn_entry w))) (fn_now w) (fn_minted w)
               (<[ i := mkSub HReturned (sb_done s) (sb_offered s) true ]> (fn_subs w))).

(** An entry nobody is subscribed to, with any history. *)
Definition finit (w : fan) : Prop :=
  ∃ ds c now minted, w = mkFan (mkEntry ds None c (to_u64 (Z.of_nat (length minted))) (length minted) None 0)
    now (minted ++ [c]) [].

(** ** Every handler is a handler of Sds *)

Record finv (w : fan) : Prop := {
  fi_version : version (fn_entry w) = to_u64 (Z.of_nat (updated (fn_entry w)));
  fi_minted : ∃ old, fn_minted w = old ++ [cert (fn_entry w)] ∧ length old = updated (fn_entry w);
  fi_count : subscribing (fn_entry w) = Z.of_nat (live (fn_subs w));
  fi_bound : (live (fn_subs w) ≤ holders_bound)%nat;
  fi_view s : s ∈ fn_subs w → reachable hinit (hstep versionOf) (view s w);
  fi_left s : s ∈ fn_subs w → sb_left s = true → sb_state s = HReturned;
}.

Lemma live_app l s : live (l ++ [s]) = (live l + if sb_left s then 0 else 1)%nat.
Proof. induction l as [|s' l IH]; simpl; [lia|]. rewrite IH. lia. Qed.

Lemma live_insert l i s s' : l !! i = Some s →
  (live (<[ i := s' ]> l) + (if sb_left s then 0 else 1) = live l + if sb_left s' then 0 else 1)%nat.
Proof.
  revert i. induction l as [|s0 l IH]; intros [|i]; simpl; try done; [intros [= ->]; lia|]. intros H%IH. lia.
Qed.

Lemma elem_of_insert (i : nat) (s s' : subscriber) (l : list subscriber) : s ∈ <[ i := s' ]> l → s = s' ∨ s ∈ l.
Proof.
  intros [j Hj]%list_elem_of_lookup. apply list_lookup_insert_Some in Hj as [(_&->&_)|[_ Hj]]; [by left|].
  right. by eapply list_elem_of_lookup_2.
Qed.

Lemma finv_init w : finit w → finv w.
Proof.
  intros (ds&c&now&minted&->). split; simpl; [done|by exists minted|done|unfold holders_bound; lia|by intros s ?%not_elem_of_nil..].
Qed.

(** A renewal and the time are steps of every handler's environment. *)
Lemma finv_renew w c : finv w → finv (renewed c w).
Proof.
  intros [Hv (old&Hm&Hl) Hc Hb Hr Hq]. split; simpl; [| |done..| |done].
  - rewrite Hv. unfold to_u64. rewrite Zplus_mod_idemp_l. f_equal. lia.
  - exists (fn_minted w). split; [done|]. rewrite Hm, length_app, Hl. simpl. lia.
  - intros s Hs. eapply reach_step; [by apply Hr|]. apply (hs_renew versionOf (view s w) c).
Qed.

Lemma finv_tick w t : fn_now w ≤ t → finv w → finv (mkFan (fn_entry w) t (fn_minted w) (fn_subs w)).
Proof.
  intros Ht [Hv Hm Hc Hb Hr Hq]. split; simpl; [done..| |done].
  intros s Hs. eapply reach_step; [by apply Hr|]. by apply (hs_tick versionOf (view s w) t).
Qed.

Lemma finv_join w fresh : (live (fn_subs w) < holders_bound)%nat → finv w →
  finv (mkFan (fst (subscribe_section (fn_entry w) fresh)) (fn_now w) (fn_minted w)
          (fn_subs w ++ [mkSub HSnapshot false [] false])).
Proof.
  intros Hlt [Hv Hm Hc Hb Hr Hq]. split; simpl; [done|done| | | |].
  - rewrite Hc, live_app. simpl. unfold holders_bound in Hlt. rewrite to_i64_id; lia.
  - rewrite live_app. simpl. lia.
  - intros s [Hs| ->%list_elem_of_singleton]%elem_of_app; [by apply Hr|]. apply reach_init.
    destruct Hm as (old&Hm&Hl). exists (domains (fn_entry w)), (cert (fn_entry w)), (fn_now w), old.
    unfold view, normal. simpl. by rewrite Hm, Hl, Hv.
  - intros s [Hs| ->%list_elem_of_singleton]%elem_of_app; [by apply Hq|done].
Qed.

Lemma finv_handler w i s v :
  fn_subs w !! i = Some s → sb_left s = false → hstep versionOf (view s w) v →
  h_entry v = normal (fn_entry w) → h_now v = fn_now w → h_minted v = fn_minted w → finv w →
  finv (set_subs (<[ i := mkSub (h_state v) (h_done v) (h_offered v) false ]> (fn_subs w)) w).
Proof.
  intros Hi Hl Hs He Hn Hmt [Hv Hm Hc Hb Hr Hq].
  pose proof (live_insert (fn_subs w) i s (mkSub (h_state v) (h_done v) (h_offered v) false) Hi) as Hlive.
  rewrite Hl in Hlive. simpl in Hlive. split; simpl; [done|done|lia|lia| |].
  - intros s' [->|Hin]%elem_of_insert; [|by apply Hr].
    assert (E : view (mkSub (h_state v) (h_done v) (h_offered v) false) (set_subs [] w) = v)
      by (destruct v; simpl in *; unfold view; simpl; congruence).
    change (reachable hinit (hstep versionOf) (view (mkSub (h_state v) (h_done v) (h_offered v) false) (set_subs [] w))).
    rewrite E. eapply reach_step; [|exact Hs]. apply Hr. by eapply list_elem_of_lookup_2.
  - intros s' [->|Hin]%elem_of_insert; [done|by apply Hq].
Qed.

Lemma finv_leave w i s :
  fn_subs w !! i = Some s → sb_left s = false → sb_state s = HReturned → finv w →
  finv (mkFan (fst (release_section (fn_entry w))) (fn_now w) (fn_minted w)
          (<[ i := mkSub HReturned (sb_done s) (sb_offered s) true ]> (fn_subs w))).
Proof.
  intros Hi Hl Hret [Hv Hm Hc Hb Hr Hq].
  pose proof (live_insert (fn_subs w) i s (mkSub HReturned (sb_done s) (sb_offered s) true) Hi) as Hlive.
  rewrite Hl in Hlive. simpl in Hlive.
  assert (Hsub : subscribing (fst (release_section (fn_entry w))) = subscribing (fn_entry w) - 1).
  { unfold release_section. rewrite (proj2 (Z.ltb_lt 0 (subscribing (fn_entry w)))) by lia.
    by destruct (subscribing (fn_entry w) - 1 =? 0). }
  assert (Hf : version (fst (release_section (fn_entry w))) = version (fn_entry w) ∧
    updated (fst (release_section (fn_entry w))) = updated (fn_entry w) ∧
    cert (fst (release_section (fn_entry w))) = cert (fn_entry w) ∧
    normal (fst (release_section (fn_entry w))) = normal (fn_entry w)).
  { unfold release_section. by destruct (_ =? 0). }
  destruct Hf as (Ev&Eu&Ec&En). split; simpl; [by rewrite Ev, Eu|by rewrite Ec, Eu|rewrite Hsub; lia|lia| |].
  - unfold view. simpl. rewrite En. intros s' [->|Hin]%elem_of_insert; [|by apply Hr].
    simpl. rewrite <- Hret. apply (Hr s). by eapply list_elem_of_lookup_2.
  - intros s' [->|Hin]%elem_of_insert; [done|by apply Hq].
Qed.

Lemma finv_reachable w : reachable finit fstep w → finv w.
Proof.
  apply reachable_invariant; [apply finv_init|]. intros w0 w' _ Hi Hs.
  destruct Hs; [by apply finv_renew|by apply finv_tick|by apply finv_join|by eapply finv_handler|by apply finv_leave].
Qed.

(** ** One renewal for everybody *)

(** A handler asleep in [WaitForUpdate] on a live stream has offered the
    entry's certificate; any other one is where it was. *)
Definition answered (e : certEntry) (s : subscriber) : subscriber :=
  match sb_state s, sb_done s with
  | HSleep _ _, false =>
      mkSub (HAck (cert e) (version e) (updated e)) false ((cert e, updated e) :: sb_offered s) false
  | _, _ => s
  end.

Lemma step_at w i s v : (i < length (fn_subs w))%nat → sb_left s = false → hstep versionOf (view s w) v →
  h_entry v = normal (fn_entry w) → h_now v = fn_now w → h_minted v = fn_minted w →
  fstep (set_subs (<[ i := s ]> (fn_subs w)) w)
    (set_subs (<[ i := mkSub (h_state v) (h_done v) (h_offered v) false ]> (fn_subs w)) w).
Proof.
  intros Hb Hl Hs He Hn Hm.
  pose proof (f_handler (set_subs (<[ i := s ]> (fn_subs w)) w) i s v (list_lookup_insert_eq _ _ _ Hb) Hl Hs He Hn Hm) as H.
  simpl in H. by rewrite list_insert_insert_eq in H.
Qed.

(** A sleeper whose channel has been closed wakes, looks, and offers. *)
Lemma answer_one w i s ch n :
  fn_subs w !! i = Some s → sb_left s = false → sb_state s = HSleep ch n → sb_done s = false →
  (ch < updated (fn_entry w))%nat →
  rtc fstep w (set_subs (<[ i := answered (fn_entry w) s ]> (fn_subs w)) w).
Proof.
  intros Hi Hl Hst Hd Hlt. pose proof (lookup_lt_Some _ _ _ Hi) as Hb.
  set (e := fn_entry w) in *. unfold answered. rewrite Hst, Hd.
  set (s1 := mkSub HWoken false (sb_offered s) false).
  set (s2 := mkSub (HOffer (cert e) (version e) (updated e)) false (sb_offered s) false).
  assert (H1 : fstep w (set_subs (<[ i := s1 ]> (fn_subs w)) w)).
  { replace s1 with (let v := set_h HWoken (view s w) in mkSub (h_state v) (h_done v) (h_offered v) false)
      by (simpl; by rewrite Hd). apply (f_handler w i s); [done|done| |done..]. by eapply hs_wake. }
  pose proof (step_at w i s1 (set_h (HOffer (cert e) (version e) (updated e)) (view s1 w)) Hb eq_refl
    (hs_woken versionOf (view s1 w) _ _ eq_refl eq_refl) eq_refl eq_refl eq_refl) as H2.
  pose proof (step_at w i s2 (mkH (HAck (cert e) (version e) (updated e)) (normal e) false (fn_now w) (fn_minted w)
    ((cert e, updated e) :: sb_offered s)) Hb eq_refl (hs_offer versionOf (view s2 w) _ _ _ eq_refl) eq_refl eq_refl eq_refl) as H3.
  eapply rtc_l; [exact H1|]. eapply rtc_l; [exact H2|]. by eapply rtc_once.
Qed.

Definition asleep_before (n : nat) (s : subscriber) : Prop :=
  (∀ ch m, sb_state s = HSleep ch m → (ch < n)%nat) ∧ (sb_left s = true → sb_state s = HReturned).

Lemma answer_all w pre l : fn_subs w = pre ++ l → Forall (asleep_before (updated (fn_entry w))) l →
  rtc fstep w (set_subs (pre ++ (answered (fn_entry w) <$> l)) w).
Proof.
  revert w pre. induction l as [|s l IH]; intros w pre Hw Hf; simpl.
  { rewrite <- Hw. destruct w. apply rtc_refl. }
  apply Forall_cons in Hf as [[Hs Hl] Hf].
  assert (Hi : fn_subs w !! length pre = Some s) by (rewrite Hw, lookup_app_r, Nat.sub_diag by lia; done).
  assert (H1 : rtc fstep w (set_subs (pre ++ answered (fn_entry w) s :: l) w)).
  { replace (pre ++ answered (fn_entry w) s :: l) with (<[ length pre := answered (fn_entry w) s ]> (fn_subs w))
      by (rewrite Hw, insert_app_r_alt, Nat.sub_diag by lia; done).
    destruct (sb_state s) as [| |ch n| | | | |] eqn:Est; cycle 2.
    { destruct (sb_done s) eqn:Ed.
      - unfold answered. rewrite Est, Ed. rewrite list_insert_id by done. destruct w. apply rtc_refl.
      - eapply answer_one; [done| |done|done|by eapply Hs]. destruct (sb_left s); [by specialize (Hl eq_refl)|done]. }
    all: unfold answered; rewrite Est; rewrite list_insert_id by done; destruct w; apply rtc_refl. }
  transitivity (set_subs (pre ++ answered (fn_entry w) s :: l) w); [exact H1|].
  pose proof (IH (set_subs (pre ++ answered (fn_entry w) s :: l) w) (pre ++ [answered (fn_entry w) s])) as H2.
  rewrite <- !app_assoc in H2. by apply H2.
Qed.

(** C17: one entry serves any number of streams: the reference count is the number
    of handlers that have not left; each handler offers as if it were alone
    with the entry, and two handlers that offer the same renewal offer the
    same certificate; and after one renewal, with no further call to ACME,
    every handler asleep on a live stream can come to offer it, whatever the
    others do. *)
Theorem one_renewal_for_all w :
  reachable finit fstep w →
  subscribing (fn_entry w) = Z.of_nat (live (fn_subs w)) ∧
  (∀ s, s ∈ fn_subs w → reachable hinit (hstep versionOf) (view s w)) ∧
  (∀ s s' c c' n, s ∈ fn_subs w → s' ∈ fn_subs w →
     (c, n) ∈ sb_offered s → (c', n) ∈ sb_offered s' → c = c') ∧
  (∀ c, rtc fstep (renewed c w)
          (set_subs (answered (fn_entry (renewed c w)) <$> fn_subs w) (renewed c w))).
Proof.
  intros Hr. pose proof (finv_reachable w Hr) as [_ _ Hc _ Hv Hl]. split_all; [done|done| |].
  - intros s s' c c' n Hs Hs' H1 H2.
    pose proof (hi_offered _ (hinv_reachable _ _ (Hv s Hs)) c n H1) as E1.
    pose proof (hi_offered _ (hinv_reachable _ _ (Hv s' Hs')) c' n H2) as E2.
    simpl in E1, E2. rewrite E1 in E2. by injection E2.
  - intros c. apply (answer_all (renewed c w) [] (fn_subs w)); [done|].
    apply Forall_forall. intros s Hs. split; [|by apply Hl]. intros ch m Est.
    pose proof (hi_state _ (hinv_reachable _ _ (Hv s Hs))) as Hi. simpl in Hi. rewrite Est in Hi.
    destruct Hi as ([_ Hle]&_). simpl in *. lia.
Qed.
End Fanout.

(** ** Two streams *)

Module Demo.
Definition e0 : certEntry := mkEntry ["example.com"] None zeroCert 0 0 None 0.
Definition asleep : subscriber := mkSub (HSleep 0 0) false [] false.
Definition fresh : CertT := mkCertT "chain" "key" 100 50.

(** Two handlers wait for the first certificate. *)
Definition w : fan := mkFan (mkEntry ["example.com"] None zeroCert 0 0 (Some 7%nat) 2) 1 [zeroCert] [asleep; asleep].
End Demo.

Lemma demo_reachable versionOf : reachable finit (fstep versionOf) Demo.w.
Proof.
  set (wn l := mkFan (mkEntry ["example.com"] None zeroCert 0 0 (Some 7%nat) (Z.of_nat (length l))) 1 [zeroCert] l).
  set (s0 := mkSub HSnapshot false [] false). set (s1 := mkSub (HWaiting 0 0) false [] false).
  assert (Hsleep : ∀ pre, reachable finit (fstep versionOf) (wn (pre ++ [s0])) → reachable finit (fstep versionOf) (wn (pre ++ [Demo.asleep]))).
  { intros pre H0. assert (Hat : ∀ s : subscriber, (pre ++ [s]) !! length pre = Some s) by (intros s; by rewrite lookup_app_r, Nat.sub_diag by lia).
    assert (Hput : ∀ s s' : subscriber, <[ length pre := s' ]> (pre ++ [s]) = pre ++ [s'])
      by (intros s s'; by rewrite insert_app_r_alt, Nat.sub_diag by lia).
    assert (Hlen : ∀ s s' : subscriber, Z.of_nat (length (pre ++ [s])) = Z.of_nat (length (pre ++ [s']))) by (intros; by rewrite !length_app).
    pose proof (f_handler versionOf (wn (pre ++ [s0])) (length pre) s0 _ (Hat s0) eq_refl
      (hs_snapshot versionOf (view s0 (wn (pre ++ [s0]))) zeroCert 0 eq_refl eq_refl) eq_refl eq_refl eq_refl) as H1.
    unfold set_subs in H1. cbn [fn_subs wn] in H1. rewrite Hput in H1.
    pose proof (f_handler versionOf (wn (pre ++ [s1])) (length pre) s1 _ (Hat s1) eq_refl
      (hs_wait_sleep versionOf (view s1 (wn (pre ++ [s1]))) 0 0 0%nat eq_refl eq_refl) eq_refl eq_refl eq_refl) as H2.
    unfold set_subs in H2. cbn [fn_subs wn] in H2. rewrite Hput in H2.
    unfold wn in *. rewrite (Hlen Demo.asleep s0). rewrite (Hlen s1 s0) in H2.
    eapply reach_step; [eapply reach_step; [exact H0|exact H1]|exact H2]. }
  assert (Hi : reachable finit (fstep versionOf) (mkFan Demo.e0 1 [zeroCert] [])).
  { apply reach_init. exists ["example.com"], zeroCert, 1, []. reflexivity. }
  assert (H1 : reachable finit (fstep versionOf) (wn ([] ++ [s0]))).
  { eapply reach_step; [exact Hi|]. apply (f_join versionOf (mkFan Demo.e0 1 [zeroCert] []) 7). unfold holders_bound. simpl. lia. }
  apply Hsleep in H1. apply (Hsleep [Demo.asleep]).
  eapply reach_step; [exact H1|]. apply (f_join versionOf (wn [Demo.asleep]) 8). unfold holders_bound. simpl. lia.
Qed.

Lemma one_renewal_for_all_witness :
  ∃ w', rtc (fstep (λ _, "v")) (renewed Demo.fresh Demo.w) w' ∧
    fn_subs w' = [mkSub (HAck Demo.fresh 1 1) false [(Demo.fresh, 1%nat)] false;
                  mkSub (HAck Demo.fresh 1 1) false [(Demo.fresh, 1%nat)] false].
Proof.
  destruct (one_renewal_for_all (λ _, "v") Demo.w (demo_reachable _)) as (_&_&_&H).
  eexists. split; [exact (H Demo.fresh)|]. vm_compute. reflexivity.
Defined.
