(* ===== verification/Failover.v ===== *)
(** pkg/client/grpc_streamer.go: the failover state machine of the gRPC
    client.  A dispatcher reads states off a channel of capacity one and starts
    a goroutine per state; the goroutines run the main stream, the standby
    stream, the fallback watcher and the delayed restart, and send the next
    state.  [step] is one atomic step of any of them, of the streams' ends, of
    incoming messages and of the daemon's shutdown, in any interleaving. *)

From Stdlib Require Import ZArith Lia.
From stdpp Require Import base option list gmap sets strings relations.
From S2P Require Import Prelude.
From S2P Require Import GoStd.

Open Scope Z_scope.

Inductive GRPC_CLIENT_STATE :=
  | GRPC_STATE_STOP
  | GRPC_STATE_MAIN
  | GRPC_STATE_FAILOVER
  | GRPC_STATE_TRY_FALLBACK
  | GRPC_STATE_RESTART_MAIN.

Definition grpcRetryWindow : Duration := 5 * Minute.
Definition grpcRetryBackoff : Duration := 15 * Second.

(** Whether a stream that started at [t0] and ended at [t1] was short-lived. *)
Definition flapped (t0 t1 : Time) : bool := Before t1 (Add t0 grpcRetryWindow).

(** Goroutines.  A number is the session context that was captured. *)
Inductive go :=
  | GGrpcMain                          (* GRPCMain, waiting for the root context *)
  | GSend (s : GRPC_CLIENT_STATE)      (* in sendState, then done *)
  | GMainStart                         (* handleMain, before its clock reading *)
  | GMain (t0 : Time)                  (* handleMain, in Stream since t0 *)
  | GMainBackoff                       (* handleMain, before the retry *)
  | GStandbyTop (count : Z)            (* handleFailover, loop top *)
  | GStandby (n : nat) (t0 : Time) (count : Z)     (* in Stream *)
  | GStandbySleep (n : nat) (count : Z)            (* backoff or reconnect sleep *)
  | GFallback (n : nat)                (* handleFallback, before Received.Load *)
  | GFallbackWait (n : nat) (r : nat)  (* in its select, on message channel r *)
  | GRestart (n : nat).                (* handleRestart, sleeping *)

Inductive dispatcher := DWait | DSend (s : GRPC_CLIENT_STATE) | DStopped.

Record grpcStreamer := mkStreamer {
  stateChan : option GRPC_CLIENT_STATE;
  disp : dispatcher;
  gos : list go;
  rootDone : bool;
  session : nat;                 (* s.sessionCtx *)
  cancelled : gset nat;          (* cancelled sessions *)
  standbyActive : bool;
  mainRetryCount : Z;
  received : nat;                (* messages received on main *)
  now : Time;
}.

Definition sessionDone (w : grpcStreamer) (n : nat) : bool :=
  rootDone w || bool_decide (n ∈ cancelled w).

Definition set_chan (c : option GRPC_CLIENT_STATE) (w : grpcStreamer) : grpcStreamer :=
  mkStreamer c (disp w) (gos w) (rootDone w) (session w) (cancelled w) (standbyActive w)
    (mainRetryCount w) (received w) (now w).
Definition set_disp (d : dispatcher) (w : grpcStreamer) : grpcStreamer :=
  mkStreamer (stateChan w) d (gos w) (rootDone w) (session w) (cancelled w) (standbyActive w)
    (mainRetryCount w) (received w) (now w).
Definition set_gos (g : list go) (w : grpcStreamer) : grpcStreamer :=
  mkStreamer (stateChan w) (disp w) g (rootDone w) (session w) (cancelled w) (standbyActive w)
    (mainRetryCount w) (received w) (now w).
Definition set_root (w : grpcStreamer) : grpcStreamer :=
  mkStreamer (stateChan w) (disp w) (gos w) true (session w) (cancelled w) (standbyActive w)
    (mainRetryCount w) (received w) (now w).
Definition cancel_session (n : nat) (w : grpcStreamer) : grpcStreamer :=
  mkStreamer (stateChan w) (disp w) (gos w) (rootDone w) (session w) ({[ n ]} ∪ cancelled w)
    (standbyActive w) (mainRetryCount w) (received w) (now w).
Definition new_session (w : grpcStreamer) : grpcStreamer :=
  mkStreamer (stateChan w) (disp w) (gos w) (rootDone w) (S (session w)) (cancelled w)
    (standbyActive w) (mainRetryCount w) (received w) (now w).
Definition set_standby (b : bool) (w : grpcStreamer) : grpcStreamer :=
  mkStreamer (stateChan w) (disp w) (gos w) (rootDone w) (session w) (cancelled w) b
    (mainRetryCount w) (received w) (now w).
Definition set_retry (z : Z) (w : grpcStreamer) : grpcStreamer :=
  mkStreamer (stateChan w) (disp w) (gos w) (rootDone w) (session w) (cancelled w)
    (standbyActive w) z (received w) (now w).
Definition set_received (r : nat) (w : grpcStreamer) : grpcStreamer :=
  mkStreamer (stateChan w) (disp w) (gos w) (rootDone w) (session w) (cancelled w)
    (standbyActive w) (mainRetryCount w) r (now w).
Definition set_now (t : Time) (w : grpcStreamer) : grpcStreamer :=
  mkStreamer (stateChan w) (disp w) (gos w) (rootDone w) (session w) (cancelled w)
    (standbyActive w) (mainRetryCount w) (received w) t.

Definition spawn (g : go) (w : grpcStreamer) : grpcStreamer := set_gos (g :: gos w) w.

(** The body of the dispatcher's [switch]. *)
Definition dispatch (s : GRPC_CLIENT_STATE) (w : grpcStreamer) : grpcStreamer :=
  match s with
  | GRPC_STATE_STOP => set_disp DStopped (cancel_session (session w) w)
  | GRPC_STATE_MAIN => spawn GMainStart w
  | GRPC_STATE_FAILOVER =>
      set_disp (DSend GRPC_STATE_TRY_FALLBACK)
        (spawn (GStandbyTop 0) (set_standby true (new_session (cancel_session (session w) w))))
  | GRPC_STATE_TRY_FALLBACK =>
      set_disp (DSend GRPC_STATE_RESTART_MAIN) (spawn (GFallback (session w)) w)
  | GRPC_STATE_RESTART_MAIN => spawn (GRestart (session w)) w
  end.

Section Machine.
Variable RetryCount : Z.          (* Config.Common.RetryCount *)
Variable standbyExists : bool.

(** [handleMain] after its stream ended at [t1], with the root context live:
    the retry count and the goroutine's continuation. *)
Definition afterMain (t0 t1 : Time) (w : grpcStreamer) : Z * go :=
  if flapped t0 t1 then
    let count := mainRetryCount w + 1 in
    if count <? RetryCount then (count, GMainBackoff)
    else if standbyExists && negb (standbyActive w) then (0, GSend GRPC_STATE_FAILOVER)
    else (0, GSend GRPC_STATE_RESTART_MAIN)
  else (0, GSend GRPC_STATE_MAIN).

(** [handleFailover] after its stream ended with the session live. *)
Definition afterStandby (n : nat) (t0 t1 : Time) (count : Z) : go :=
  if flapped t0 t1 then
    if count + 1 <? RetryCount then GStandbySleep n (count + 1) else GStandbySleep n 0
  else GStandbyTop 0.

(** [gstep g w g' w']: goroutine [g] takes a step and continues as [g'] ([None]
    when it returns). *)
Inductive gstep : go → grpcStreamer → option go → grpcStreamer → Prop :=
(* GRPCMain *)
| g_stop w : rootDone w = true → gstep GGrpcMain w (Some (GSend GRPC_STATE_STOP)) w
(* sendState *)
| g_send s w : stateChan w = None → gstep (GSend s) w None (set_chan (Some s) w)
| g_send_root s w : rootDone w = true → gstep (GSend s) w None w
(* handleMain *)
| g_main_start w : gstep GMainStart w (Some (GMain (now w))) w
| g_main_recv t0 w : gstep (GMain t0) w (Some (GMain t0)) (set_received (S (received w)) w)
| g_main_end t0 w : rootDone w = false →
    gstep (GMain t0) w (Some (snd (afterMain t0 (now w) w)))
      (set_retry (fst (afterMain t0 (now w) w)) w)
| g_main_root t0 w : rootDone w = true → gstep (GMain t0) w (Some (GSend GRPC_STATE_STOP)) w
| g_backoff w : gstep GMainBackoff w (Some (GSend GRPC_STATE_MAIN)) w
| g_backoff_root w : rootDone w = true → gstep GMainBackoff w None w
(* handleFailover *)
| g_standby_exit count w : sessionDone w (session w) = true →
    gstep (GStandbyTop count) w None (set_standby false w)
| g_standby_start count w : sessionDone w (session w) = false →
    gstep (GStandbyTop count) w (Some (GStandby (session w) (now w) count)) w
| g_standby_end n t0 count w : sessionDone w (session w) = false →
    gstep (GStandby n t0 count) w (Some (afterStandby (session w) t0 (now w) count)) w
| g_standby_done n t0 count w : sessionDone w (session w) = true →
    gstep (GStandby n t0 count) w None (set_standby false w)
| g_standby_wake n count w : gstep (GStandbySleep n count) w (Some (GStandbyTop count)) w
| g_standby_reset n count w : sessionDone w n = true →
    gstep (GStandbySleep n count) w None (set_standby false w)
(* handleFallback *)
| g_fallback n w : gstep (GFallback n) w (Some (GFallbackWait n (received w))) w
| g_fallback_recv n r w : (r < received w)%nat →
    gstep (GFallbackWait n r) w None (cancel_session n w)
| g_fallback_done n r w : sessionDone w n = true → gstep (GFallbackWait n r) w None w
(* handleRestart *)
| g_restart n w : gstep (GRestart n) w (Some (GSend GRPC_STATE_MAIN)) w
| g_restart_reset n w : sessionDone w n = true → gstep (GRestart n) w None w.

Inductive step : grpcStreamer → grpcStreamer → Prop :=
| s_stop w : step w (set_root w)                                  (* daemon.Stop *)
| s_tick w t : now w ≤ t → step w (set_now t w)
| s_dispatch w s : disp w = DWait → stateChan w = Some s →
    step w (dispatch s (set_chan None w))
| s_dispatch_root w : disp w = DWait → rootDone w = true →
    step w (set_disp DStopped (cancel_session (session w) w))
| s_send w s : disp w = DSend s → stateChan w = None →
    step w (set_disp DWait (set_chan (Some s) w))
| s_send_root w s : disp w = DSend s → rootDone w = true → step w (set_disp DWait w)
| s_go w l g l' g' w' : gos w = l ++ g :: l' → gstep g w g' w' →
    step w (set_gos (l ++ option_list g' ++ l') w').

(** [newGRPCStreamer], [run] started, [GRPCMain] sending the first state. *)
Definition init (w : grpcStreamer) : Prop :=
  ∃ t, w = mkStreamer None DWait [GSend GRPC_STATE_MAIN; GGrpcMain] false 0%nat ∅ false 0 0%nat t.

(** ** Counting *)

(** A weight of states extended to the channel, the dispatcher and, with a
    weight of goroutines, to the whole machine. *)
Definition on_opt (f : GRPC_CLIENT_STATE → nat) (o : option GRPC_CLIENT_STATE) : nat :=
  match o with Some s => f s | None => 0 end.

Definition on_disp (f : GRPC_CLIENT_STATE → nat) (d : dispatcher) : nat :=
  match d with DSend s => f s | _ => 0 end.

Definition total (f : GRPC_CLIENT_STATE → nat) (h : go → nat) (w : grpcStreamer) : nat :=
  (on_opt f (stateChan w) + on_disp f (disp w) + sum_list_with h (gos w))%nat.

(** What will lead to the next attempt at the main server: one of the states
    other than STOP on its way, or a goroutine that will send one. *)
Definition token_st (s : GRPC_CLIENT_STATE) : nat :=
  match s with GRPC_STATE_STOP => 0 | _ => 1 end.
Definition token_go (g : go) : nat :=
  match g with
  | GSend s => token_st s
  | GMainStart | GMain _ | GMainBackoff | GRestart _ => 1
  | _ => 0
  end.
Definition tokens : grpcStreamer → nat := total token_st token_go.

Definition stop_st (s : GRPC_CLIENT_STATE) : nat :=
  match s with GRPC_STATE_STOP => 1 | _ => 0 end.
Definition stop_go (g : go) : nat := match g with GSend s => stop_st s | _ => 0 end.
Definition stops : grpcStreamer → nat := total stop_st stop_go.

Definition failover_st (s : GRPC_CLIENT_STATE) : nat :=
  match s with GRPC_STATE_FAILOVER => 1 | _ => 0 end.
Definition failover_go (g : go) : nat := match g with GSend s => failover_st s | _ => 0 end.
Definition failovers : grpcStreamer → nat := total failover_st failover_go.

Definition standby_go (g : go) : nat :=
  match g with GStandbyTop _ | GStandby _ _ _ | GStandbySleep _ _ => 1 | _ => 0 end.
Definition standbys (w : grpcStreamer) : nat := sum_list_with standby_go (gos w).

(** The goroutines of [handleMain]. *)
Definition main_go (g : go) : nat := match g with GMainStart | GMain _ | GMainBackoff => 1 | _ => 0 end.
Definition mains (w : grpcStreamer) : nat := sum_list_with main_go (gos w).

(** Those inside [Stream]. *)
Definition stream_go (g : go) : nat := match g with GMain _ | GStandby _ _ _ => 1 | _ => 0 end.
Definition streams (w : grpcStreamer) : nat := sum_list_with stream_go (gos w).

(** The invariant of a daemon that has not been stopped. *)
Record live_inv (w : grpcStreamer) : Prop := {
  li_tokens : (tokens w ≤ 1)%nat;
  li_stops : stops w = 0%nat;
  li_disp : disp w ≠ DStopped;
  li_standbys : standbys w = if standbyActive w then 1%nat else 0%nat;
  li_failovers : standbyActive w = true → failovers w = 0%nat;
  li_exists : standbyExists = false → standbyActive w = false ∧ failovers w = 0%nat;
  li_retry : 0 ≤ mainRetryCount w ∧ (mainRetryCount w = 0 ∨ mainRetryCount w < RetryCount);
}.

Ltac counts :=
  unfold tokens, stops, failovers, standbys, total in *; simpl in *;
  rewrite ?sum_list_with_app in *; simpl in *.

Lemma failover_le_token l : (sum_list_with failover_go l ≤ sum_list_with token_go l)%nat.
Proof. induction l as [|[| [] | | | | | | | | |] l IH]; simpl; lia. Qed.

(** Splits the invariant of a state into arithmetic facts. *)
Ltac split_inv w H :=
  destruct H as [Ht Hs Hdi Hsb Hf He Hr]; destruct w as [ch di gs rd se ca sa mr rc nw];
  simpl in *; pose proof (failover_le_token gs) as Hle; (destruct sa; [specialize (Hf eq_refl)|clear Hf]);
  (destruct (bool_dec standbyExists false) as [Hex|Hex];
    [destruct (He Hex)|apply not_false_is_true in Hex]); clear He; simpl in *.

Lemma live_inv_dispatch w s : disp w = DWait → stateChan w = Some s → live_inv w →
  live_inv (dispatch s (set_chan None w)).
Proof.
  intros Hd Hc H. split_inv w H; subst ch di; try done;
    destruct s; split; counts; try done; try lia; intros; try (split; [done|]); try congruence; lia.
Qed.

Lemma live_inv_go w l g l' g' w' : gos w = l ++ g :: l' → gstep g w g' w' → rootDone w = false →
  live_inv w → live_inv (set_gos (l ++ option_list g' ++ l') w').
Proof.
  intros Hg Hstep Hroot H. destruct Hstep; split_inv w H; subst; try congruence;
    unfold afterMain, afterStandby in *; simpl in *; rewrite ?Hex in *; simpl in *;
    repeat case_match; bool_simp; subst; split; counts; rewrite ?Nat.add_0_r in *;
    try done; try lia; intros; try (split; [done|]); try congruence; try lia.
Qed.
Lemma gstep_root g w g' w' : gstep g w g' w' → rootDone w' = rootDone w.
Proof. by destruct 1. Qed.

Lemma live_inv_reachable w : reachable init step w → rootDone w = false → live_inv w.
Proof.
  revert w. apply (reachable_invariant init step (λ w, rootDone w = false → live_inv w)).
  - intros w [t ->] _. split; counts; try done; lia.
  - intros w w' _ IH Hstep Hroot. destruct Hstep as [w|w t Hle|w s Hd Hc|w Hd Hr|w s Hd Hc|w s Hd Hr
      |w l g l' g' w' Hg Hgo]; simpl in *; try congruence.
    + specialize (IH Hroot). destruct IH. by split.
    + destruct (rootDone w) eqn:E; [by destruct s; simpl in *; congruence|].
      apply live_inv_dispatch; auto.
    + specialize (IH Hroot). split_inv w IH; subst; split; counts; rewrite ?Nat.add_0_r in *;
        try done; try lia; intros; try (split; [done|]); try congruence; lia.
    + rewrite (gstep_root _ _ _ _ Hgo) in Hroot. eapply live_inv_go; eauto.
Qed.

(** Without a standby server no session is ever cancelled and the token is
    never dropped. *)
Record solo_inv (w : grpcStreamer) : Prop := {
  so_tokens : tokens w = 1%nat;
  so_cancelled : cancelled w = ∅;
  so_fallback : Forall (λ g, match g with GFallback _ | GFallbackWait _ _ => False | _ => True end) (gos w);
  so_states : stateChan w ≠ Some GRPC_STATE_TRY_FALLBACK ∧ disp w = DWait ∧
    GSend GRPC_STATE_TRY_FALLBACK ∉ gos w;
}.

Lemma failovers_none w : live_inv w → standbyExists = false →
  stateChan w ≠ Some GRPC_STATE_FAILOVER ∧ standbyActive w = false.
Proof.
  intros [] Hx. destruct (li_exists0 Hx) as [Ha Hf]. split; [|done].
  intros E. unfold failovers, total in Hf. rewrite E in Hf. simpl in Hf. lia.
Qed.

Lemma solo_inv_reachable w : standbyExists = false →
  reachable init step w → rootDone w = false → solo_inv w.
Proof.
  intros Hx. revert w. apply (reachable_invariant init step (λ w, rootDone w = false → solo_inv w)).
  - intros w [t ->] _. split; counts; try done; [by repeat constructor|]. split_all; set_solver.
  - intros w w' Hreach IH Hstep Hroot.
    assert (Hw : rootDone w = false).
    { destruct (rootDone w) eqn:E; [|done]. destruct Hstep as [| | | | | |w l g l' g' w' Hg Hgo];
        simpl in *; try congruence; [by destruct s; simpl in *; congruence|].
      apply gstep_root in Hgo. congruence. }
    specialize (IH Hw). pose proof (live_inv_reachable w Hreach Hw) as Hl.
    destruct (failovers_none w Hl Hx) as [Hnf Hna]. destruct IH as [Ht Hc Hf (Hs1&Hs2&Hs3)].
    destruct Hstep as [w|w t Hle|w s Hd Hch|w Hd Hr|w s Hd Hch|w s Hd Hr|w l g l' g' w' Hg Hgo];
      simpl in *; try congruence.
    + by split.
    + destruct s; try congruence.
      * destruct Hl as [_ Hst _ _ _ _ _]. exfalso. unfold stops, total in Hst. rewrite Hch in Hst.
        simpl in Hst. lia.
      * split; counts; rewrite ?Hch in Ht; simpl in *;
          [lia | done | by constructor | split_all; [done..|]; set_solver].
      * split; counts; rewrite ?Hch in Ht; simpl in *;
          [lia | done | by constructor | split_all; [done..|]; set_solver].
    + rewrite Hg in *. apply Forall_app in Hf as [Hf1 [Hf2 Hf3]%Forall_cons].
      rewrite elem_of_app, elem_of_cons in Hs3.
      assert (Hn : ∀ n, sessionDone w n = false) by (intros n; unfold sessionDone; by rewrite Hw, Hc).
      destruct Hgo; simpl in *; try congruence; try done; try (rewrite Hn in *; done);
        unfold afterMain, afterStandby in *; rewrite ?Hx, ?Hna in *; simpl in *;
        repeat case_match; split; counts; rewrite ?Hg, ?sum_list_with_app in *; simpl in *;
        rewrite ?Nat.add_0_r in *; try done; try (destruct (stateChan w)); simpl in *; try lia; try congruence;
        try (apply Forall_app; split; [done|]; rewrite ?Forall_cons; done);
        try (rewrite elem_of_app, ?elem_of_cons; split_all; try done; naive_solver).
Qed.
(** The token is never created: only dropped. *)
Lemma gstep_tokens g w g' w' : gstep g w g' w' →
  (sum_list_with token_go (option_list g') + on_opt token_st (stateChan w') ≤
   token_go g + on_opt token_st (stateChan w))%nat ∧ disp w' = disp w ∧ gos w' = gos w.
Proof.
  destruct 1; simpl; unfold afterMain, afterStandby; repeat case_match; simpl;
    try (destruct (stateChan w)); simpl; split_all; try done; try lia; congruence.
Qed.

Lemma tokens_mono w w' : step w w' → (tokens w' ≤ tokens w)%nat.
Proof.
  destruct 1 as [w|w t Hle|w s Hd Hc|w Hd Hr|w s Hd Hc|w s Hd Hr|w l g l' g' w' Hg Hgo]; counts; try done.
  - rewrite Hc, Hd. destruct s; simpl; rewrite ?Hd; simpl; lia.
  - rewrite Hd. simpl. lia.
  - rewrite Hc, Hd. simpl. lia.
  - rewrite Hd. simpl. lia.
  - destruct (gstep_tokens _ _ _ _ Hgo) as (Ht&->&_). rewrite Hg, !sum_list_with_app. simpl. lia.
Qed.

Lemma token_of_main w t0 : GMain t0 ∈ gos w → (1 ≤ tokens w)%nat.
Proof.
  unfold tokens, total. generalize (gos w). induction l as [|g l IH]; [set_solver|].
  intros [<-|H]%elem_of_cons; simpl; [lia|]. specialize (IH H). lia.
Qed.

Lemma token_of_send w s : GSend s ∈ gos w → (token_st s ≤ sum_list_with token_go (gos w))%nat ∧
  (stop_st s ≤ sum_list_with stop_go (gos w))%nat.
Proof.
  generalize (gos w). induction l as [|g l IH]; [set_solver|].
  intros [<-|H]%elem_of_cons; simpl; [lia|]. specialize (IH H). lia.
Qed.

(** C12: the dispatcher never deadlocks on its own channel: while the daemon
    runs there is at most one state or goroutine on the way to the next main
    attempt, so the channel is empty whenever somebody sends, the dispatcher
    included; after shutdown every send is released. *)
Theorem dispatcher_never_blocks w :
  reachable init step w →
  (∀ s, disp w = DSend s → ∃ w', step w w' ∧ disp w' = DWait) ∧
  (rootDone w = false → (tokens w ≤ 1)%nat ∧ disp w ≠ DStopped ∧
     ∀ s, GSend s ∈ gos w → stateChan w = None).
Proof.
  intros Hr.
  assert (Hone : rootDone w = false → ∀ s, disp w = DSend s ∨ GSend s ∈ gos w → stateChan w = None).
  { intros Hroot s Hs. destruct (live_inv_reachable w Hr Hroot) as [Ht Hst _ _ _ _ _].
    unfold tokens, stops, total in *. destruct (stateChan w) as [c|]; [exfalso|done].
    destruct Hs as [Hs|Hs]; [rewrite Hs in *|apply token_of_send in Hs as [H1 H2]];
      destruct s, c; simpl in *; lia. }
  split.
  - intros s Hs. destruct (rootDone w) eqn:Hroot.
    + eexists. split; [by eapply s_send_root|done].
    + eexists. split; [eapply s_send; [done|]; eauto|done].
  - intros Hroot. destruct (live_inv_reachable w Hr Hroot) as [Ht _ Hd _ _ _ _].
    split_all; [done..|]. eauto.
Qed.

Lemma mains_token w : (mains w ≤ tokens w)%nat.
Proof. unfold mains, tokens, total. induction (gos w) as [|[| [] | | | | | | | | |] l IH]; simpl; lia. Qed.

Lemma streams_bound w : (streams w ≤ mains w + standbys w)%nat.
Proof. unfold streams, mains, standbys. induction (gos w) as [|[] l IH]; simpl; lia. Qed.

(** C26: the retry budget and the streams: while the daemon runs, at most one
    goroutine of [handleMain] exists that has not handed on its next state, and
    none beside a state or a restart that is to lead to the next one; at most one standby goroutine exists,
    exactly while [standbyActive] is set and only with a configured standby
    server; so at most two streams are open, and one without a standby server;
    and the main retry counter stays below the configured budget. *)
Theorem standby_bounded w :
  reachable init step w → rootDone w = false →
  (mains w ≤ tokens w ≤ 1)%nat ∧
  standbys w = (if standbyActive w then 1%nat else 0%nat) ∧
  (standbyExists = false → standbyActive w = false) ∧
  (streams w ≤ if standbyExists then 2 else 1)%nat ∧
  0 ≤ mainRetryCount w ∧ (mainRetryCount w = 0 ∨ mainRetryCount w < RetryCount).
Proof.
  intros Hr Hroot. destruct (live_inv_reachable w Hr Hroot) as [Ht _ _ Hs _ He Hm].
  destruct Hm. pose proof (mains_token w). pose proof (streams_bound w).
  split_all; try done; [by intros Hx; apply He|].
  destruct standbyExists; [destruct (standbyActive w); lia|]. destruct (He eq_refl) as [Ha _]. rewrite Ha in Hs. lia.
Qed.

(** C27: without a standby server the client never gives up: until the daemon
    is stopped, exactly one next attempt at the main server is running,
    scheduled or on its way. *)
Theorem main_never_lost w :
  standbyExists = false → reachable init step w → rootDone w = false → tokens w = 1%nat.
Proof. intros Hx Hr Hroot. by destruct (solo_inv_reachable w Hx Hr Hroot). Qed.
End Machine.

(** ** The lost token *)

Section Lost.
Variable RetryCount : Z.
Hypothesis small : RetryCount ≤ 1.

Lemma flap w : afterMain RetryCount true 0 0 w =
  (0, GSend (if standbyActive w then GRPC_STATE_RESTART_MAIN else GRPC_STATE_FAILOVER)) ∨
  0 < mainRetryCount w ∨ mainRetryCount w < 0.
Proof.
  unfold afterMain, flapped, Before, Add. simpl.
  destruct (Z.ltb_spec (mainRetryCount w + 1) RetryCount); [lia|].
  destruct (standbyActive w); auto.
Qed.

Definition at0 (ch : option GRPC_CLIENT_STATE) (d : dispatcher) (g : list go) (se : nat)
    (ca : gset nat) (sa : bool) (rc : nat) : grpcStreamer :=
  mkStreamer ch d g false se ca sa 0 rc 0.

Lemma flap_step ch d l l' se ca sa rc :
  step RetryCount true (at0 ch d (l ++ GMain 0 :: l') se ca sa rc)
    (at0 ch d (l ++ GSend (if sa then GRPC_STATE_RESTART_MAIN else GRPC_STATE_FAILOVER) :: l') se ca sa rc).
Proof.
  pose proof (g_main_end RetryCount true 0 (at0 ch d (l ++ GMain 0 :: l') se ca sa rc) eq_refl) as Hg.
  destruct (flap (at0 ch d (l ++ GMain 0 :: l') se ca sa rc)) as [E|[E|E]]; [|simpl in E; lia..].
  simpl in Hg, E. rewrite E in Hg. simpl in Hg.
  exact (s_go RetryCount true (at0 ch d (l ++ GMain 0 :: l') se ca sa rc) l (GMain 0) l' _ _ eq_refl Hg).
Qed.

Lemma go_step ch d l l' g g' w' se ca sa rc :
  gstep RetryCount true g (at0 ch d (l ++ g :: l') se ca sa rc) g' w' →
  step RetryCount true (at0 ch d (l ++ g :: l') se ca sa rc) (set_gos (l ++ option_list g' ++ l') w').
Proof. intros H. by eapply s_go. Qed.

Lemma start_step ch d l l' se ca sa rc :
  step RetryCount true (at0 ch d (l ++ GMainStart :: l') se ca sa rc) (at0 ch d (l ++ GMain 0 :: l') se ca sa rc).
Proof. exact (go_step _ _ _ _ _ _ _ _ _ _ _ (g_main_start _ _ _)). Qed.

Lemma put_step s d l l' se ca sa rc :
  step RetryCount true (at0 None d (l ++ GSend s :: l') se ca sa rc) (at0 (Some s) d (l ++ l') se ca sa rc).
Proof.
  exact (go_step None d l l' (GSend s) None _ se ca sa rc
    (g_send RetryCount true s (at0 None d (l ++ GSend s :: l') se ca sa rc) eq_refl)).
Qed.

Lemma dispatch_step s g se ca sa rc :
  step RetryCount true (at0 (Some s) DWait g se ca sa rc) (dispatch s (at0 None DWait g se ca sa rc)).
Proof. by apply (s_dispatch _ _ (at0 (Some s) DWait g se ca sa rc)). Qed.

Lemma send_step s g se ca sa rc :
  step RetryCount true (at0 None (DSend s) g se ca sa rc) (at0 (Some s) DWait g se ca sa rc).
Proof. by apply (s_send _ _ (at0 None (DSend s) g se ca sa rc)). Qed.

Definition ca1 : gset nat := {[ 0%nat ]} ∪ ∅.

(** The standby stream runs, and the delayed restart has just sent main. *)
Definition recovering : grpcStreamer :=
  at0 None DWait [GMain 0; GFallbackWait 1 0; GStandby 1 0 0; GGrpcMain] 1 ca1 true 0.

Lemma failover_reachable : reachable init (step RetryCount true)
  (at0 None DWait [GRestart 1; GFallback 1; GStandbyTop 0; GGrpcMain] 1 ca1 true 0).
Proof.
  assert (R0 : reachable init (step RetryCount true)
    (at0 None DWait [GSend GRPC_STATE_MAIN; GGrpcMain] 0 ∅ false 0)) by (apply reach_init; by exists 0).
  pose proof (reach_step _ _ _ _ R0 (put_step GRPC_STATE_MAIN DWait [] [GGrpcMain] _ _ _ _)) as R1.
  pose proof (reach_step _ _ _ _ R1 (dispatch_step GRPC_STATE_MAIN [GGrpcMain] 0 ∅ false 0)) as R2s.
  pose proof (reach_step _ _ _ _ R2s (start_step None DWait [] [GGrpcMain] 0 ∅ false 0)) as R2.
  pose proof (reach_step _ _ _ _ R2 (flap_step None DWait [] [GGrpcMain] 0 ∅ false 0)) as R3.
  pose proof (reach_step _ _ _ _ R3 (put_step GRPC_STATE_FAILOVER DWait [] [GGrpcMain] _ _ _ _)) as R4.
  pose proof (reach_step _ _ _ _ R4 (dispatch_step GRPC_STATE_FAILOVER [GGrpcMain] 0 ∅ false 0)) as R5.
  pose proof (reach_step _ _ _ _ R5 (send_step GRPC_STATE_TRY_FALLBACK [GStandbyTop 0; GGrpcMain]
    1 ca1 true 0)) as R6.
  pose proof (reach_step _ _ _ _ R6 (dispatch_step GRPC_STATE_TRY_FALLBACK
    [GStandbyTop 0; GGrpcMain] 1 ca1 true 0)) as R7.
  pose proof (reach_step _ _ _ _ R7 (send_step GRPC_STATE_RESTART_MAIN
    [GFallback 1; GStandbyTop 0; GGrpcMain] 1 ca1 true 0)) as R8.
  exact (reach_step _ _ _ _ R8 (dispatch_step GRPC_STATE_RESTART_MAIN
    [GFallback 1; GStandbyTop 0; GGrpcMain] 1 ca1 true 0)).
Qed.

Lemma recovering_reachable : reachable init (step RetryCount true) recovering.
Proof.
  pose proof failover_reachable as R0.
  assert (Hlive : sessionDone (at0 None DWait [GRestart 1; GFallback 1; GStandbyTop 0; GGrpcMain]
    1 ca1 true 0) 1 = false) by (vm_compute; reflexivity).
  pose proof (reach_step _ _ _ _ R0 (go_step _ _ [GRestart 1; GFallback 1] [GGrpcMain] _ _ _ _ _ _ _
    (g_standby_start _ _ 0 _ Hlive))) as R1.
  pose proof (reach_step _ _ _ _ R1 (go_step _ _ [GRestart 1] [GStandby 1 0 0; GGrpcMain] _ _ _ _ _ _ _
    (g_fallback _ _ 1 _))) as R2.
  pose proof (reach_step _ _ _ _ R2 (go_step _ _ [] [GFallbackWait 1 0; GStandby 1 0 0; GGrpcMain]
    _ _ _ _ _ _ _ (g_restart _ _ 1 _))) as R3.
  pose proof (reach_step _ _ _ _ R3 (put_step GRPC_STATE_MAIN DWait [] [GFallbackWait 1 0; GStandby 1 0 0; GGrpcMain] _ _ _ _)) as R4.
  pose proof (reach_step _ _ _ _ R4 (dispatch_step GRPC_STATE_MAIN
    [GFallbackWait 1 0; GStandby 1 0 0; GGrpcMain] 1 ca1 true 0)) as R5.
  exact (reach_step _ _ _ _ R5 (start_step None DWait [] [GFallbackWait 1 0; GStandby 1 0 0; GGrpcMain] 1 ca1 true 0)).
Qed.

(** C20: with a standby server and a retry count of at most one the client can
    lose the main server for good.  Main recovers (one message cancels the
    session) and breaks again before the standby goroutine has noticed: main
    is then to be restarted in the cancelled session, where [handleRestart]
    may return at once, and no later state starts the main stream again. *)
Theorem main_can_be_lost :
  ∃ w, reachable init (step RetryCount true) w ∧ rootDone w = false ∧
    ∀ w' t0, rtc (step RetryCount true) w w' → GMain t0 ∉ gos w'.
Proof.
  pose proof recovering_reachable as R0.
  pose proof (reach_step _ _ _ _ R0 (go_step _ _ [] [GFallbackWait 1 0; GStandby 1 0 0; GGrpcMain]
    _ _ _ _ _ _ _ (g_main_recv _ _ 0 _))) as R1.
  assert (Hrecv : Nat.lt 0 (received (at0 None DWait [GMain 0; GFallbackWait 1 0; GStandby 1 0 0; GGrpcMain]
    1 ca1 true 1))) by (simpl; lia).
  pose proof (reach_step _ _ _ _ R1 (go_step _ _ [GMain 0] [GStandby 1 0 0; GGrpcMain]
    _ _ _ _ _ _ _ (g_fallback_recv _ _ 1 0 _ Hrecv))) as R2.
  pose proof (reach_step _ _ _ _ R2 (flap_step None DWait [] [GStandby 1 0 0; GGrpcMain]
    1 ({[ 1%nat ]} ∪ ca1) true 1)) as R3.
  pose proof (reach_step _ _ _ _ R3 (put_step GRPC_STATE_RESTART_MAIN DWait [] [GStandby 1 0 0; GGrpcMain] _ _ _ _)) as R4.
  pose proof (reach_step _ _ _ _ R4 (dispatch_step GRPC_STATE_RESTART_MAIN
    [GStandby 1 0 0; GGrpcMain] 1 ({[ 1%nat ]} ∪ ca1) true 1)) as R5.
  assert (Hdone : sessionDone (at0 None DWait [GRestart 1; GStandby 1 0 0; GGrpcMain]
    1 ({[ 1%nat ]} ∪ ca1) true 1) 1 = true) by (vm_compute; reflexivity).
  pose proof (reach_step _ _ _ _ R5 (go_step _ _ [] [GStandby 1 0 0; GGrpcMain]
    _ _ _ _ _ _ _ (g_restart_reset _ _ 1 _ Hdone))) as R6.
  eexists. split; [exact R6|]. split; [reflexivity|].
  intros w' t0 Hrtc Hin. apply token_of_main in Hin.
  assert (Hmono : ∀ w w', rtc (step RetryCount true) w w' → (tokens w' ≤ tokens w)%nat).
  { intros w1 w2 H. induction H as [|x y z Hs _ IH]; [done|].
    apply tokens_mono in Hs. lia. }
  apply Hmono in Hrtc. change (tokens w' ≤ 0)%nat in Hrtc. lia.
Qed.
End Lost.

(** ** Witnesses *)

Lemma dispatcher_never_blocks_witness :
  reachable init (step 1 true) recovering ∧ (tokens recovering ≤ 1)%nat.
Proof.
  assert (Hr : reachable init (step 1 true) recovering)
    by (apply recovering_reachable; reflexivity || discriminate).
  split; [exact Hr|].
  exact (proj1 (proj2 (dispatcher_never_blocks 1 true recovering Hr) eq_refl)).
Defined.

Lemma standby_bounded_witness : standbys recovering = 1%nat ∧ (mains recovering ≤ 1)%nat ∧ (streams recovering ≤ 2)%nat.
Proof.
  assert (Hr : reachable init (step 1 true) recovering)
    by (apply recovering_reachable; reflexivity || discriminate).
  destruct (standby_bounded 1 true recovering Hr eq_refl) as ([Hm Ht]&Hs&_&Hst&_).
  split; [exact Hs|]. split; [exact (Nat.le_trans _ _ _ Hm Ht)|exact Hst].
Defined.

Definition solo : grpcStreamer := at0 None DWait [GSend GRPC_STATE_MAIN; GGrpcMain] 0 ∅ false 0.

Lemma main_never_lost_witness : tokens solo = 1%nat.
Proof.
  assert (Hr : reachable init (step 5 false) solo) by (apply reach_init; by exists 0).
  exact (main_never_lost 5 false solo eq_refl Hr eq_refl).
Defined.

Lemma main_can_be_lost_witness :
  ∃ w, rootDone w = false ∧ ∀ w' t0, rtc (step 1 true) w w' → GMain t0 ∉ gos w'.
Proof.
  assert (H1 : 1 ≤ 1) by lia.
  destruct (main_can_be_lost 1 H1) as (w&_&Hroot&Hw). exists w. split; [exact Hroot|exact Hw].
Defined.
