(* ===== verification/Handler.v ===== *)
(** pkg/client/handler.go: writing a delivered certificate to disk and running
    the reload command.  [writeCertKeyPairAtomic] is examined at every moment:
    the file system is traced and the theorem speaks about all its states. *)

From Stdlib Require Import ZArith Lia Ascii.
From stdpp Require Import base option list gmap strings.
From S2P Require Import Prelude.
From S2P Require Import GoStd.
From S2P Require Import Sys.
From S2P Require Import Config.
From S2P Require Import Paths.

Open Scope Z_scope.

#[local] Arguments Ascii.eqb : simpl never.

Definition permCertDir : Z := 493.   (* 0o755 *)
Definition permCertFile : Z := 420.  (* 0o644 *)
Definition permKeyFile : Z := 384.   (* 0o600 *)

(** [exec.Command(args[0], args[1:]...).Run()] *)
Class CommandRunner (F : Type) := {
  runCommand : list string → F → option error * F;
}.

Section Handler.
Context {F : Type} `{FileSystem F}.

Definition ensureParentDir (file : string) (f : F) : (bool * option error) * F :=
  match Stat file f with
  | None => ((true, None), f)
  | Some err =>
      if negb (errIs err ErrNotExist) then ((false, Some err), f)
      else
        let dir := Dir file in
        match Stat dir f with
        | None => ((false, None), f)
        | Some err =>
            if errIs err ErrNotExist then
              let '(err, f) := MkdirAll dir f in
              match err with
              | Some err => ((false, Some (EWrap "create %s: %w" err)), f)
              | None => ((false, None), f)
              end
            else ((false, Some err), f)
        end
  end.

(** [os.Remove] with its error ignored. *)
Definition discard (p : string) (f : F) : F := snd (Remove p f).

Definition prepareTempFile (dir base data : string) (mode : Z) (f : F) : result string * F :=
  let '(r, f) := CreateTemp dir (".certdx-" +:+ base +:+ "-") f in
  match r with
  | Err err => (Err (EWrap "create temp file: %w" err), f)
  | Ok name =>
      let '(err, f) := TmpWrite name data f in
      match err with
      | Some err => let '(_, f) := TmpClose name f in
                    (Err (EWrap "write temp file: %w" err), discard name f)
      | None =>
          let '(err, f) := TmpChmod name mode f in
          match err with
          | Some err => let '(_, f) := TmpClose name f in
                        (Err (EWrap "chmod temp file: %w" err), discard name f)
          | None =>
              let '(err, f) := TmpClose name f in
              match err with
              | Some err => (Err (EWrap "close temp file: %w" err), discard name f)
              | None => (Ok name, f)
              end
          end
      end
  end.

(** The two renames. *)
Definition renamePair (certTmp certPath keyTmp keyPath : string) (f : F) : option error * F :=
  let '(err, f) := Rename certTmp certPath f in
  match err with
  | Some err => (Some (EWrap "rename cert: %w" err), f)
  | None =>
      let '(err, f) := Rename keyTmp keyPath f in
      match err with
      | Some err => (Some (EWrap "rename key: %w" err), f)
      | None => (None, f)
      end
  end.

(** The deferred removals run last in, first out. *)
Definition writeCertKeyPairAtomic (certPath fullchain keyPath key : string) (f : F) : option error * F :=
  let '(r, f) := prepareTempFile (Dir certPath) (Base certPath) fullchain permCertFile f in
  match r with
  | Err err => (Some (EWrap "prepare cert: %w" err), f)
  | Ok certTmp =>
      let '(r, f) := prepareTempFile (Dir keyPath) (Base keyPath) key permKeyFile f in
      match r with
      | Err err => (Some (EWrap "prepare key: %w" err), discard certTmp f)
      | Ok keyTmp =>
          let '(err, f) := renamePair certTmp certPath keyTmp keyPath f in
          (err, discard certTmp (discard keyTmp f))
      end
  end.

Context `{CommandRunner F}.

(** The result is the reload command that was run, if one was. *)
Definition writeCertAndDoCommand (fullchain key : string) (c : ClientCertification) (f : F)
    : option (list string) * F :=
  match GetFullChainAndKeyPath c with
  | Err _ => (None, f)
  | Ok (certPath, keyPath) =>
      let '((certExists, err), f) := ensureParentDir certPath f in
      match err with
      | Some _ => (None, f)
      | None =>
          let '((keyExists, err), f) := ensureParentDir keyPath f in
          match err with
          | Some _ => (None, f)
          | None =>
              let '(err, f) := writeCertKeyPairAtomic certPath fullchain keyPath key f in
              match err with
              | Some _ => (None, f)
              | None =>
                  if certExists && keyExists then
                    match Fields (cc_ReloadCommand c) with
                    | [] => (None, f)
                    | args => let '(_, f) := runCommand args f in (Some args, f)
                    end
                  else (None, f)
              end
          end
      end
  end.
End Handler.

(** ** Temporary names *)

Lemma last_slash_spec s :
  match last_slash s with
  | Some (d, b) => s = d +:+ b ∧ has_byte slash b = false ∧ ∃ d', d = d' +:+ "/"
  | None => has_byte slash s = false
  end.
Proof.
  induction s as [|a s IH]; [done|]. simpl. destruct (last_slash s) as [[d b]|].
  - destruct IH as (->&?&d'&->). rewrite app_String. split_all; [done..|].
    exists (String a d'). by rewrite app_String.
  - destruct (Ascii.eqb_spec a slash) as [->|Hne]; simpl.
    + rewrite app_String, app_nil_string. split_all; [done..|]. by exists "".
    + rewrite IH, orb_false_r. apply Ascii.eqb_neq. congruence.
Qed.

Lemma last_slash_file d b : has_byte slash b = false → last_slash (d +:+ "/" +:+ b) = Some (d +:+ "/", b).
Proof.
  intros Hb. induction d as [|a d IH].
  - rewrite !app_nil_string, app_String, app_nil_string. simpl.
    pose proof (last_slash_spec b) as Hs. destruct (last_slash b) as [[x y]|]; [|done].
    destruct Hs as (->&_&x'&->). rewrite !has_byte_app in Hb. simpl in Hb.
    by rewrite orb_true_r in Hb.
  - rewrite !(app_String a d). simpl. by rewrite IH.
Qed.

Lemma trim_slashes_file d b : has_byte slash b = false → b ≠ "" →
  trim_slashes (d +:+ b) = d +:+ b.
Proof.
  intros Hb Hne.
  assert (Hself : trim_slashes b = b).
  { clear d. induction b as [|a b IH]; [done|]. simpl in *. apply orb_false_iff in Hb as [Ha Hb].
    destruct b as [|a' b']; [simpl|rewrite (IH Hb) by done; done].
    destruct (Ascii.eqb_spec a slash) as [->|]; [|done].
    by rewrite Ascii.eqb_refl in Ha. }
  induction d as [|a d IH]; [by rewrite !app_nil_string|].
  rewrite app_String. simpl. rewrite IH. destruct (d +:+ b) eqn:E; [|done].
  by apply app_nonempty in E.
Qed.

(** The base name of a file in a directory. *)
Lemma Base_file d b : has_byte slash b = false → b ≠ "" → Base (d +:+ "/" +:+ b) = b.
Proof.
  intros Hb Hne. unfold Base.
  rewrite (proj2 (String.eqb_neq _ _)) by (by do 2 apply app_nonempty).
  rewrite app_string_assoc, trim_slashes_file, <- app_string_assoc, last_slash_file by done.
  by rewrite (proj2 (String.eqb_neq _ _)).
Qed.

(** A temporary file never has the name of its target. *)
Lemma temp_ne_target {F} `{FileSystemLaws F} p (f : F) n f' :
  CreateTemp (Dir p) (".certdx-" +:+ Base p +:+ "-") f = (Ok n, f') → n ≠ p.
Proof.
  intros (r&->&Hs)%temp_name E. apply (f_equal Base) in E. rewrite Base_file in E; [|done|].
  - apply (f_equal slen) in E. rewrite !slen_app in E. simpl in E. lia.
  - by rewrite !app_String.
Qed.

(** ** What an observer of the disk sees *)

Section Atomic.
Context {F : Type} `{FileSystemLaws F}.

(** Both files are, each on its own, as they were or complete. *)
Definition no_partial (certPath fullchain keyPath key : string) (f0 f : F) : Prop :=
  (ReadFile certPath f = ReadFile certPath f0 ∨ ReadFile certPath f = Ok fullchain) ∧
  (ReadFile keyPath f = ReadFile keyPath f0 ∨ ReadFile keyPath f = Ok key).

(** A run from [x] to [y] that went only through states satisfying [P]. *)
Definition through (P : F → Prop) (x y : Traced F) : Prop :=
  ∃ l, history y = l ++ history x ∧ Forall P l ∧ current y = default (current x) (head l).

Lemma through_refl P x : through P x x.
Proof. by exists []. Qed.

Lemma through_trans P x y z : through P x y → through P y z → through P x z.
Proof.
  intros (l1&E1&F1&C1) (l2&E2&F2&C2). exists (l2 ++ l1).
  rewrite E2, E1, (assoc_L (++)), Forall_app. split_all; [done..|]. rewrite C2, C1. by destruct l2.
Qed.

Lemma through_op {R} (P : F → Prop) (op : F → R * F) x r y :
  traced op x = (r, y) → P (current y) → through P x y.
Proof.
  intros [_ Eh]%traced_spec Hp. exists [current y]. split_all; [done|by repeat constructor|done].
Qed.

Variables ps : list string.

(** The states that agree with [g] outside the temporary files. *)
Definition keeps (g f : F) : Prop := ∀ q, q ∈ ps → ReadFile q f = ReadFile q g.

Lemma keeps_refl g : keeps g g.
Proof. by intros q _. Qed.

Lemma keeps_trans f g h : keeps f g → keeps g h → keeps f h.
Proof. intros H1 H2 q Hq. by rewrite (H2 q Hq), (H1 q Hq). Qed.

Lemma keeps_step {R} (op : F → R * F) qs x r y g :
  traced op x = (r, y) → same_except qs (current x) (current y) →
  (∀ q, q ∈ qs → q ∉ ps) → keeps g (current x) →
  through (keeps g) x y ∧ keeps g (current y).
Proof.
  intros Ht Hs Hq Hg.
  assert (Hk : keeps g (current y)).
  { eapply keeps_trans; [exact Hg|]. intros q Hin. apply Hs. intros Hin'. by apply (Hq q). }
  split; [|done]. by eapply through_op.
Qed.

(** Preparing a temporary file disturbs none of the watched paths and leaves
    the data in it. *)
Lemma prepareTempFile_spec dir base data mode (x : Traced F) r y g :
  (∀ n z, CreateTemp dir (".certdx-" +:+ base +:+ "-") (current x) = (Ok n, z) → n ∉ ps) →
  keeps g (current x) →
  prepareTempFile dir base data mode x = (r, y) →
  through (keeps g) x y ∧ keeps g (current y) ∧
  (∀ n, r = Ok n → n ∉ ps ∧ ReadFile n y = Ok data).
Proof.
  intros Hfresh Hg. unfold prepareTempFile.
  assert (Hnil : ∀ q : string, q ∈ [] → q ∉ ps) by (by intros q ?%elem_of_nil).
  destruct (CreateTemp dir _ x) as [[n|e] x1] eqn:E1.
  2:{ intros [= <- <-]. pose proof (temp_err _ _ _ _ _ E1) as Hs.
      destruct (keeps_step _ [] _ _ _ g E1 Hs Hnil Hg) as [? ?]. by split_all. }
  pose proof (traced_spec _ _ _ _ E1) as [E1' _]. apply Hfresh in E1' as Hn.
  destruct (temp_fresh _ _ _ _ _ E1) as (_&Hempty&Hs1).
  assert (Hout : ∀ q, q ∈ [n] → q ∉ ps) by (by intros q ->%list_elem_of_singleton).
  destruct (keeps_step _ [n] _ _ _ g E1 Hs1 Hout Hg) as [T1 K1].
  destruct (TmpWrite n data x1) as [[e|] x2] eqn:E2;
    destruct (keeps_step _ [n] _ _ _ g E2 (tmpwrite_frame _ _ _ _ _ E2) Hout K1) as [T2 K2].
  { destruct (TmpClose n x2) as [o x3] eqn:E3.
    destruct (keeps_step _ [] _ _ _ g E3 (tmpclose_frame _ _ _ _ E3) Hnil K2) as [T3 K3].
    unfold discard. destruct (Remove n x3) as [o4 x4] eqn:E4. simpl. intros [= <- <-].
    destruct (keeps_step _ [n] _ _ _ g E4 (remove_frame _ _ _ _ E4) Hout K3) as [T4 K4].
    split_all; [|done|done]. eauto using through_trans. }
  assert (Hdata : ReadFile n x2 = Ok data) by exact (tmpwrite_ok _ _ _ _ _ Hempty E2).
  destruct (TmpChmod n mode x2) as [[e|] x3] eqn:E3;
    destruct (keeps_step _ [] _ _ _ g E3 (tmpchmod_frame _ _ _ _ _ E3) Hnil K2) as [T3 K3].
  { destruct (TmpClose n x3) as [o x4] eqn:E4.
    destruct (keeps_step _ [] _ _ _ g E4 (tmpclose_frame _ _ _ _ E4) Hnil K3) as [T4 K4].
    unfold discard. destruct (Remove n x4) as [o5 x5] eqn:E5. simpl. intros [= <- <-].
    destruct (keeps_step _ [n] _ _ _ g E5 (remove_frame _ _ _ _ E5) Hout K4) as [T5 K5].
    split_all; [|done|done]. eauto 6 using through_trans. }
  destruct (TmpClose n x3) as [[e|] x4] eqn:E4;
    destruct (keeps_step _ [] _ _ _ g E4 (tmpclose_frame _ _ _ _ E4) Hnil K3) as [T4 K4].
  { unfold discard. destruct (Remove n x4) as [o5 x5] eqn:E5. simpl. intros [= <- <-].
    destruct (keeps_step _ [n] _ _ _ g E5 (remove_frame _ _ _ _ E5) Hout K4) as [T5 K5].
    split_all; [|done|done]. eauto 6 using through_trans. }
  intros [= <- <-]. split_all; [eauto 6 using through_trans|done|].
  intros n' [= <-]. split; [done|].
  rewrite (tmpclose_frame _ _ _ _ E4) by apply not_elem_of_nil.
  by rewrite (tmpchmod_frame _ _ _ _ _ E3) by apply not_elem_of_nil.
Qed.
End Atomic.

Lemma Base_plain b : has_byte slash b = false → b ≠ "" → Base b = b.
Proof.
  intros Hb Hne. unfold Base. rewrite (proj2 (String.eqb_neq b "") Hne).
  pose proof (trim_slashes_file "" b Hb Hne) as Ht. rewrite !app_nil_string in Ht. rewrite Ht.
  pose proof (last_slash_spec b) as Hs. destruct (last_slash b) as [[x y]|].
  - destruct Hs as (->&_&x'&->). rewrite !has_byte_app in Hb. simpl in Hb.
    by rewrite orb_true_r in Hb.
  - by rewrite (proj2 (String.eqb_neq b "") Hne).
Qed.

Lemma Base_dir_part d b : dir_part d → has_byte slash b = false → b ≠ "" → Base (d +:+ b) = b.
Proof.
  intros [->|[d' ->]] Hb Hne; [rewrite app_nil_string; by apply Base_plain|].
  rewrite <- app_string_assoc. by apply Base_file.
Qed.

(** The two save paths have base names of the same length. *)
Lemma save_paths_base c certPath keyPath : GetFullChainAndKeyPath c = Ok (certPath, keyPath) →
  certPath ≠ keyPath ∧ slen (Base certPath) = slen (Base keyPath).
Proof.
  unfold GetFullChainAndKeyPath. case_match eqn:Ec; [done|]. intros [= <- <-].
  apply orb_false_iff in Ec as [Es _].
  assert (Hs : cc_SavePath c ≠ "") by (intros E; rewrite E in Es; done).
  destruct (PathJoin_file (cc_SavePath c) (cc_Name c) Hs) as (x&Hx&Hj).
  destruct (Hj ".pem") as (d&Hd&->); [simpl; lia|done|].
  destruct (Hj ".key") as (d'&Hd'&->); [simpl; lia|done|].
  assert (Hb : ∀ suf, has_byte slash suf = false → suf ≠ "" → has_byte slash (x +:+ suf) = false ∧ x +:+ suf ≠ "")
    by (intros suf Hf Hne; split; [by rewrite has_byte_app, Hx | by apply app_nonempty]).
  destruct (Hb ".pem"), (Hb ".key"); try done.
  split; [|by rewrite !Base_dir_part, !slen_app].
  rewrite !app_string_assoc. intros E. by apply suffix_inj in E.
Qed.

Lemma temp_long {F} `{FileSystemLaws F} p q (f : F) n f' :
  slen (Base p) = slen (Base q) →
  CreateTemp (Dir p) (".certdx-" +:+ Base p +:+ "-") f = (Ok n, f') → n ≠ q.
Proof.
  intros Hl (r&->&Hs)%temp_name E. apply (f_equal Base) in E. rewrite Base_file in E; [|done|].
  - apply (f_equal slen) in E. rewrite !slen_app in E. simpl in E. lia.
  - by rewrite !app_String.
Qed.

Section AtomicTheorem.
Context {F : Type} `{FileSystemLaws F}.

Lemma no_partial_keeps certPath fullchain keyPath key (f0 f : F) :
  keeps [certPath; keyPath] f0 f → no_partial certPath fullchain keyPath key f0 f.
Proof. intros Hk. split; left; apply Hk; set_solver. Qed.

Lemma through_mono (P Q : F → Prop) x y : (∀ f, P f → Q f) → through P x y → through Q x y.
Proof. intros Hpq (l&?&Hl&?). exists l. split_all; [done|by eapply Forall_impl|done]. Qed.

Lemma keeps_sub ps qs (f g : F) : keeps ps f g → qs ⊆ ps → keeps qs f g.
Proof. intros Hk Hs q Hq. apply Hk. by apply Hs. Qed.

(** Removing a temporary file changes neither target. *)
Lemma discard_ok ps n (x : Traced F) P :
  n ∉ ps → (∀ f, keeps ps (current x) f → P f) → let y := discard n x in
  through P x y ∧ keeps ps (current x) (current y).
Proof.
  intros Hn HP. unfold discard. destruct (Remove n x) as [o y] eqn:E. simpl.
  destruct (keeps_step ps _ [n] _ _ _ (current x) E (remove_frame _ _ _ _ E)) as [Ht Hk];
    [by intros q ->%list_elem_of_singleton | apply keeps_refl |].
  split; [|done]. by eapply through_mono.
Qed.

(** The renames: each replaces one target as a whole. *)
Lemma renamePair_ok certTmp certPath fullchain keyTmp keyPath key (x : Traced F) r y f0 :
  NoDup [certTmp; keyTmp; certPath; keyPath] →
  keeps [certPath; keyPath] f0 (current x) →
  ReadFile certTmp x = Ok fullchain → ReadFile keyTmp x = Ok key →
  renamePair certTmp certPath keyTmp keyPath x = (r, y) →
  through (no_partial certPath fullchain keyPath key f0) x y ∧
  no_partial certPath fullchain keyPath key f0 (current y) ∧
  match r with
  | None => ReadFile certPath y = Ok fullchain ∧ ReadFile keyPath y = Ok key
  | Some _ => ReadFile keyPath y = ReadFile keyPath (current x)
  end.
Proof.
  intros Hnd Hk0 Hc Hk. rewrite !NoDup_cons, !not_elem_of_cons in Hnd.
  destruct Hnd as ((?&?&?&_)&(?&?&_)&(?&_)&_).
  pose proof (Hk0 certPath ltac:(set_solver)) as Kc. pose proof (Hk0 keyPath ltac:(set_solver)) as Kk.
  unfold renamePair. destruct (Rename certTmp certPath x) as [[e|] x1] eqn:E1.
  { intros [= <- <-]. pose proof (rename_err _ _ _ _ _ E1) as Hs.
    assert (Hnp : no_partial certPath fullchain keyPath key f0 (current x1)).
    { split; left; [rewrite <- Kc|rewrite <- Kk]; apply Hs, not_elem_of_nil. }
    split_all; [exact (through_op _ _ _ _ _ E1 Hnp)|done..|]. apply Hs, not_elem_of_nil. }
  assert (Ec1 : ReadFile certPath x1 = Ok fullchain)
    by (rewrite <- Hc; by apply (rename_ok certTmp certPath x x1)).
  pose proof (rename_frame _ _ _ _ _ E1) as Hf1.
  assert (Ek1 : ReadFile keyPath x1 = ReadFile keyPath x) by (apply Hf1; set_solver).
  assert (Et1 : ReadFile keyTmp x1 = Ok key) by (rewrite <- Hk; apply Hf1; set_solver).
  assert (N1 : no_partial certPath fullchain keyPath key f0 (current x1)).
  { split; [by right|left]. rewrite <- Kk. exact Ek1. }
  pose proof (through_op _ _ _ _ _ E1 N1) as T1.
  destruct (Rename keyTmp keyPath x1) as [[e|] x2] eqn:E2; intros [= <- <-].
  { pose proof (rename_err _ _ _ _ _ E2) as Hs.
    assert (Hs' : ∀ q, ReadFile q (current x2) = ReadFile q (current x1))
      by (intros q; apply Hs, not_elem_of_nil).
    assert (N2 : no_partial certPath fullchain keyPath key f0 (current x2))
      by (unfold no_partial; rewrite !Hs'; exact N1).
    split_all; [exact (through_trans _ _ _ _ T1 (through_op _ _ _ _ _ E2 N2))|done|].
    etrans; [apply Hs'|exact Ek1]. }
  assert (Ek2 : ReadFile keyPath x2 = Ok key)
    by (rewrite <- Et1; by apply (rename_ok keyTmp keyPath x1 x2)).
  assert (Ec2 : ReadFile certPath x2 = Ok fullchain).
  { rewrite <- Ec1. apply (rename_frame _ _ _ _ _ E2). set_solver. }
  assert (N2 : no_partial certPath fullchain keyPath key f0 (current x2)) by (split; by right).
  split_all; [exact (through_trans _ _ _ _ T1 (through_op _ _ _ _ _ E2 N2))|done..].
Qed.

(** The second preparation: the first temporary file stays as it is. *)
Lemma prepare_key_ok certPath keyPath fullchain key certTmp (x1 : Traced F) r2 x2 f0 :
  slen (Base certPath) = slen (Base keyPath) →
  keeps [certPath; keyPath] f0 (current x1) → ReadFile certTmp x1 = Ok fullchain →
  prepareTempFile (Dir keyPath) (Base keyPath) key permKeyFile x1 = (r2, x2) →
  through (keeps [certPath; keyPath] f0) x1 x2 ∧ keeps [certPath; keyPath] f0 (current x2) ∧
  ReadFile certTmp x2 = Ok fullchain ∧
  ∀ keyTmp, r2 = Ok keyTmp → keyTmp ∉ [certTmp; certPath; keyPath] ∧ ReadFile keyTmp x2 = Ok key.
Proof.
  intros Hlen K1 C1 E2.
  destruct (prepareTempFile_spec [certTmp; certPath; keyPath] _ _ _ _ _ _ _ (current x1) ltac:(
    intros n z Hz; apply not_elem_of_cons; split;
    [ intros ->; destruct (temp_fresh _ _ _ _ _ Hz) as ([e He]&_);
      pose proof (eq_trans (eq_sym He) C1); discriminate |];
    apply not_elem_of_cons; split; [by eapply temp_long|];
    apply not_elem_of_cons; split; [by eapply temp_ne_target|apply not_elem_of_nil])
    (keeps_refl _ _) E2) as (T2&K2&D2).
  assert (Hup : ∀ f, keeps [certTmp; certPath; keyPath] (current x1) f → keeps [certPath; keyPath] f0 f).
  { intros f Hf. eapply keeps_trans; [exact K1|]. eapply keeps_sub; [exact Hf|set_solver]. }
  split_all; [by eapply through_mono|by apply Hup| |done]. rewrite <- C1. apply K2. by left.
Qed.

Lemma discard_both ps a b (x : Traced F) P :
  a ∉ ps → b ∉ ps → (∀ f, keeps ps (current x) f → P f) → let y := discard a (discard b x) in
  through P x y ∧ keeps ps (current x) (current y).
Proof.
  intros Ha Hb HP. destruct (discard_ok ps b x P Hb HP) as [T1 K1].
  destruct (discard_ok ps a (discard b x) P Ha) as [T2 K2].
  { intros f Hf. apply HP. by eapply keeps_trans. }
  split; [by eapply through_trans|by eapply keeps_trans].
Qed.

(** From the two temporary files on. *)
Lemma replace_ok certTmp certPath fullchain keyTmp keyPath key (x : Traced F) r y f0 :
  certTmp ∉ [certPath; keyPath] → keyTmp ∉ [certTmp; certPath; keyPath] → certPath ≠ keyPath →
  keeps [certPath; keyPath] f0 (current x) → ReadFile certTmp x = Ok fullchain → ReadFile keyTmp x = Ok key →
  renamePair certTmp certPath keyTmp keyPath x = (r, y) → let z := discard certTmp (discard keyTmp y) in
  through (no_partial certPath fullchain keyPath key f0) x z ∧
  match r with
  | None => ReadFile certPath z = Ok fullchain ∧ ReadFile keyPath z = Ok key
  | Some _ => ReadFile keyPath z = ReadFile keyPath f0
  end.
Proof.
  intros N1 N2 Hne Hk Hc1 Hc2 E. destruct (renamePair_ok certTmp certPath fullchain keyTmp keyPath key x r y f0) as (T&N&R);
    [|done..|].
  { apply not_elem_of_cons in N1 as [? [? _]%not_elem_of_cons].
    apply not_elem_of_cons in N2 as [? [? [? _]%not_elem_of_cons]%not_elem_of_cons].
    rewrite !NoDup_cons, !not_elem_of_cons. split_all; auto using not_elem_of_nil, NoDup_nil_2. }
  assert (N2' : keyTmp ∉ [certPath; keyPath]) by (intros Hin; apply N2; by right).
  destruct (discard_both [certPath; keyPath] certTmp keyTmp y (no_partial certPath fullchain keyPath key f0) N1 N2')
    as [T4 K].
  { intros f Hf. unfold no_partial. rewrite !Hf by set_solver. exact N. }
  split; [by eapply through_trans|]. destruct r as [e|].
  - etrans; [apply K; set_solver|]. etrans; [exact R|]. apply Hk. set_solver.
  - destruct R as [Rc Rk]. split; (etrans; [apply K; set_solver|done]).
Qed.

Lemma write_atomic c certPath keyPath fullchain key (x : Traced F) r y :
  GetFullChainAndKeyPath c = Ok (certPath, keyPath) →
  writeCertKeyPairAtomic certPath fullchain keyPath key x = (r, y) →
  through (no_partial certPath fullchain keyPath key (current x)) x y ∧
  match r with
  | None => ReadFile certPath y = Ok fullchain ∧ ReadFile keyPath y = Ok key
  | Some _ => ReadFile keyPath y = ReadFile keyPath x
  end.
Proof.
  assert (Inc : certPath ∈ [certPath; keyPath]) by set_solver.
  assert (Ink : keyPath ∈ [certPath; keyPath]) by set_solver.
  intros [Hne Hlen]%save_paths_base. set (f0 := current x).
  set (P := no_partial certPath fullchain keyPath key f0).
  assert (HP : ∀ f, keeps [certPath; keyPath] f0 f → P f) by apply no_partial_keeps.
  unfold writeCertKeyPairAtomic.
  destruct (prepareTempFile (Dir certPath) (Base certPath) fullchain permCertFile x)
    as [r1 x1] eqn:E1.
  destruct (prepareTempFile_spec [certPath; keyPath] _ _ _ _ _ _ _ f0 ltac:(
    intros n z Hz; apply not_elem_of_cons; split; [by eapply temp_ne_target|];
    apply not_elem_of_cons; split; [by eapply temp_long|apply not_elem_of_nil])
    (keeps_refl _ _) E1) as (T1&K1&D1).
  apply (through_mono _ P _ _ HP) in T1.
  destruct r1 as [certTmp|e].
  2:{ intros [= <- <-]. split; [done|]. by apply K1. }
  destruct (D1 certTmp eq_refl) as [N1 C1].
  destruct (prepareTempFile (Dir keyPath) (Base keyPath) key permKeyFile x1) as [r2 x2] eqn:E2.
  destruct (prepare_key_ok certPath keyPath fullchain key certTmp x1 r2 x2 f0 Hlen K1 C1 E2) as (T2&K2'&C1'&D2).
  apply (through_mono _ P _ _ HP) in T2.
  pose proof (through_trans _ _ _ _ T1 T2) as T12.
  destruct r2 as [keyTmp|e].
  2:{ intros [= <- <-].
      destruct (discard_ok [certPath; keyPath] certTmp x2 P N1) as [T3 K3].
      { intros f Hf. apply HP. by eapply keeps_trans. }
      split; [by eapply through_trans|].
      eapply (keeps_trans _ f0 (current x2)); [exact K2'|exact K3|done]. }
  destruct (D2 keyTmp eq_refl) as [N2 C2].
  destruct (renamePair certTmp certPath keyTmp keyPath x2) as [r3 x3] eqn:E3. intros [= <- <-].
  destruct (replace_ok certTmp certPath fullchain keyTmp keyPath key x2 r3 x3 f0 N1 N2 Hne K2' C1' C2 E3) as [T3 R3].
  split; [by eapply through_trans|exact R3].
Qed.

(** C9: an observer never sees a partial file: at every moment while a
    certificate is written, the certificate file and the key file each hold
    either what they held before or the whole new content; when the write
    succeeds both are new, and when it fails the key file is as it was. *)
Theorem cert_write_atomic c certPath keyPath fullchain key (x : Traced F) r y :
  GetFullChainAndKeyPath c = Ok (certPath, keyPath) →
  writeCertKeyPairAtomic certPath fullchain keyPath key x = (r, y) →
  through (no_partial certPath fullchain keyPath key (current x)) x y ∧
  match r with
  | None => ReadFile certPath y = Ok fullchain ∧ ReadFile keyPath y = Ok key
  | Some _ => ReadFile keyPath y = ReadFile keyPath x
  end.
Proof. apply write_atomic. Qed.
End AtomicTheorem.

(** A reload command is one observed step of the disk. *)
#[export] Instance traced_runner {F} `{CommandRunner F} : CommandRunner (Traced F) := {
  runCommand args := traced (runCommand args);
}.

(** Reload commands leave the certificates alone. *)
Class CommandKeeps (F : Type) `{FileSystem F} `{CommandRunner F} (ps : list string) := {
  command_keeps args (f : F) r f' : runCommand args f = (r, f') → keeps ps f f';
}.

Section Install.
Context {F : Type} `{FileSystemLaws F} `{CR : CommandRunner F}.

Lemma ensureParentDir_keeps p ps (x : Traced F) r y :
  ensureParentDir p x = (r, y) → through (keeps ps (current x)) x y ∧ keeps ps (current x) (current y).
Proof.
  unfold ensureParentDir. assert (Hr : through (keeps ps (current x)) x x ∧ keeps ps (current x) (current x))
    by (split; [apply through_refl|apply keeps_refl]).
  destruct (Stat p x) as [err|]; [|by intros [= _ <-]]. destruct (negb _); [by intros [= _ <-]|].
  destruct (Stat (Dir p) x) as [err'|]; [|by intros [= _ <-]]. destruct (errIs err' ErrNotExist); [|by intros [= _ <-]].
  destruct (MkdirAll (Dir p) x) as [o z] eqn:E.
  destruct (keeps_step ps _ [] _ _ _ (current x) E (mkdir_frame _ _ _ _ E)) as [? ?];
    [(by intros q Hq%elem_of_nil)|apply keeps_refl|]. by destruct o; intros [= _ <-].
Qed.

(** A whole installation, directories and command included, is as atomic as
    the write it makes. *)
Lemma install_atomic c certPath keyPath fullchain key (x : Traced F) r y
    (HK : CommandKeeps F [certPath; keyPath]) :
  GetFullChainAndKeyPath c = Ok (certPath, keyPath) →
  writeCertAndDoCommand fullchain key c x = (r, y) →
  through (no_partial certPath fullchain keyPath key (current x)) x y.
Proof.
  intros Hp. unfold writeCertAndDoCommand. rewrite Hp. set (P := no_partial _ _ _ _ (current x)).
  assert (HP : ∀ f g, P f → keeps [certPath; keyPath] f g → P g)
    by (intros f g Hf Hk; unfold P, no_partial; rewrite !Hk by set_solver; exact Hf).
  assert (Hs0 : P (current x)) by (split; by left).
  assert (Hthru : ∀ u v, P (current u) → through (keeps [certPath; keyPath] (current u)) u v → through P u v)
    by (intros u v Hu Ht; eapply through_mono; [|exact Ht]; eauto).
  destruct (ensureParentDir certPath x) as [[ce o1] x1] eqn:E1.
  apply (ensureParentDir_keeps _ [certPath; keyPath]) in E1 as [T1 K1].
  assert (Hs1 : P (current x1)) by eauto. apply Hthru in T1; [|done].
  destruct o1; [by intros [= _ <-]|].
  destruct (ensureParentDir keyPath x1) as [[ke o2] x2] eqn:E2.
  apply (ensureParentDir_keeps _ [certPath; keyPath]) in E2 as [T2 K2].
  assert (Hs2 : P (current x2)) by eauto. apply Hthru in T2; [|done].
  pose proof (through_trans _ _ _ _ T1 T2) as T12. destruct o2; [by intros [= _ <-]|].
  destruct (writeCertKeyPairAtomic certPath fullchain keyPath key x2) as [o3 x3] eqn:E3.
  destruct (write_atomic c _ _ _ _ _ _ _ Hp E3) as [T3 R3].
  assert (T3' : through P x2 x3).
  { eapply through_mono; [|exact T3]. intros f [Hc Hk]. destruct Hs2 as [Hc2 Hk2].
    split; [destruct Hc as [->|]|destruct Hk as [->|]]; auto. }
  pose proof (through_trans _ _ _ _ T12 T3') as T123. destruct o3 as [e|]; [by intros [= _ <-]|].
  destruct (ce && ke); [|by intros [= _ <-]].
  destruct (Fields (cc_ReloadCommand c)) as [|a l]; [by intros [= _ <-]|].
  destruct (runCommand (a :: l) x3) as [o4 x4] eqn:E4. intros [= _ <-].
  eapply through_trans; [exact T123|]. eapply through_op; [exact E4|].
  apply traced_spec in E4 as [E4 _]. apply command_keeps in E4. destruct R3 as [Rc Rk].
  split; right; (etrans; [by apply E4; set_solver|done]).
Qed.
End Install.

Section Command.
Context {F : Type} `{FileSystem F} `{CommandRunner F}.

(** The reload command runs only for a replacement that succeeded: both
    files existed before, both were written, and the command is the configured
    one, split at white space; a blank command never runs. *)
Theorem reload_only_after_write fullchain key c (f : F) args f' :
  writeCertAndDoCommand fullchain key c f = (Some args, f') →
  ∃ certPath keyPath f1 f2, GetFullChainAndKeyPath c = Ok (certPath, keyPath) ∧
    Stat certPath f = None ∧ Stat keyPath f = None ∧ f1 = f ∧
    writeCertKeyPairAtomic certPath fullchain keyPath key f1 = (None, f2) ∧
    args = Fields (cc_ReloadCommand c) ∧ args ≠ [] ∧ f' = snd (runCommand args f2).
Proof.
  assert (Hex : ∀ p g e g', ensureParentDir p g = ((true, e), g') → Stat p g = None ∧ g' = g).
  { intros p g e g'. unfold ensureParentDir. destruct (Stat p g) as [err|]; [|by intros [= _ <-]].
    destruct (negb _); [done|]. destruct (Stat (Dir p) g); [|done].
    destruct (errIs _ _); [|done]. by destruct (MkdirAll _ _) as [[]]. }
  unfold writeCertAndDoCommand.
  destruct (GetFullChainAndKeyPath c) as [[certPath keyPath]|]; [|done].
  destruct (ensureParentDir certPath f) as [[ce [err|]] f1] eqn:E1; [done|].
  destruct (ensureParentDir keyPath f1) as [[ke [err|]] f2] eqn:E2; [done|].
  destruct (writeCertKeyPairAtomic certPath fullchain keyPath key f2) as [[err|] f3] eqn:E3; [done|].
  destruct ce; [|done]. destruct ke; [|done]. simpl.
  destruct (Hex _ _ _ _ E1) as [S1 ->]. destruct (Hex _ _ _ _ E2) as [S2 ->].
  destruct (Fields (cc_ReloadCommand c)) as [|a l] eqn:Ef; [done|].
  destruct (runCommand (a :: l) f3) as [o f4] eqn:Er. intros [= <- <-].
  exists certPath, keyPath, f, f3. rewrite Er. by split_all.
Qed.
End Command.

(** ** A concrete disk *)

Module Demo.
#[export] Instance run_disk : CommandRunner Disk := { runCommand _ d := (None, d) }.

Definition cert : ClientCertification :=
  mkClientCertification "web" "/etc/ssl" ["example.com"] "systemctl  reload nginx".

Definition disk : Disk :=
  mkDisk (<[ "/etc/ssl/web.pem" := "old chain" ]> (<[ "/etc/ssl/web.key" := "old key" ]> ∅)) [].

Definition start : Traced Disk := mkTraced disk [].
End Demo.

Import (hints) Demo.

Example reload_example :
  fst (writeCertAndDoCommand "new chain" "new key" Demo.cert Demo.disk)
    = Some ["systemctl"; "reload"; "nginx"].
Proof. vm_compute. reflexivity. Qed.

Lemma cert_write_atomic_witness :
  ∃ y, writeCertKeyPairAtomic "/etc/ssl/web.pem" "new chain" "/etc/ssl/web.key" "new key" Demo.start = (None, y) ∧
    ReadFile "/etc/ssl/web.key" y = Ok "new key" ∧
    through (no_partial "/etc/ssl/web.pem" "new chain" "/etc/ssl/web.key" "new key" Demo.disk) Demo.start y.
Proof.
  assert (Hp : GetFullChainAndKeyPath Demo.cert = Ok ("/etc/ssl/web.pem", "/etc/ssl/web.key"))
    by (vm_compute; reflexivity).
  destruct (writeCertKeyPairAtomic "/etc/ssl/web.pem" "new chain" "/etc/ssl/web.key" "new key" Demo.start)
    as [r y] eqn:E.
  assert (Hr : r = None).
  { replace r with (fst (writeCertKeyPairAtomic "/etc/ssl/web.pem" "new chain" "/etc/ssl/web.key"
      "new key" Demo.start)) by (by rewrite E). vm_compute. reflexivity. }
  subst r. destruct (cert_write_atomic Demo.cert _ _ "new chain" "new key" Demo.start None y Hp E) as [Ht [_ Hk]].
  exists y. split; [reflexivity|]. split; [exact Hk|exact Ht].
Defined.

Lemma reload_only_after_write_witness :
  ∃ f', writeCertAndDoCommand "new chain" "new key" Demo.cert Demo.disk
      = (Some ["systemctl"; "reload"; "nginx"], f') ∧ Stat "/etc/ssl/web.key" Demo.disk = None.
Proof.
  destruct (writeCertAndDoCommand "new chain" "new key" Demo.cert Demo.disk) as [r f'] eqn:E.
  assert (Hr : r = Some ["systemctl"; "reload"; "nginx"]).
  { replace r with (fst (writeCertAndDoCommand "new chain" "new key" Demo.cert Demo.disk))
      by (by rewrite E). exact reload_example. }
  subst r. exists f'. split; [reflexivity|].
  destruct (reload_only_after_write _ _ _ _ _ _ E) as (cp&kp&f1&f2&Hp&_&Hs&_).
  vm_compute in Hp. injection Hp as <- <-. exact Hs.
Defined.
