(* ===== verification/Mtls.v ===== *)
(** pkg/mtls and pkg/tools/cert.go: the private certificate authority behind
    the mutual-TLS endpoints.  The tools write PEM bundles and a serial
    counter, [LoadServer] and [LoadClient] read the bundles back.  The
    encoding of PEM documents and the X.509 primitives are interfaces; the
    walk over the blocks of a bundle, the files and the counter are modelled. *)

From Stdlib Require Import ZArith Lia Ascii.
From stdpp Require Import base option list gmap strings.
From S2P Require Import Prelude.
From S2P Require Import GoStd.
From S2P Require Import Duration.
From S2P Require Import Sys.
From S2P Require Import Net.
From S2P Require Import Paths.
From S2P Require Import Retry.

Open Scope Z_scope.

(** ** math/big: decimal numerals *)

Definition digit_ascii (d : Z) : ascii := ascii_of_N (Z.to_N (48 + d)).

(** The decimal digits of [n] in front of [acc]. *)
Fixpoint decDigits (fuel : nat) (n : Z) (acc : string) : string :=
  match fuel with
  | O => acc
  | S fuel' =>
      if n <? 10 then String (digit_ascii n) acc
      else decDigits fuel' (n / 10) (String (digit_ascii (n mod 10)) acc)
  end.

(** [big.Int.String]. *)
Definition bigString (n : Z) : string :=
  let ds := decDigits (S (Z.to_nat (Z.log2 (Z.abs n)))) (Z.abs n) "" in
  if n <? 0 then "-" +:+ ds else ds.

Fixpoint readDigits (v : Z) (s : string) : option Z :=
  match s with
  | EmptyString => Some v
  | String a s' => if is_digit a then readDigits (10 * v + digit a) s' else None
  end.

(** [big.Int.SetString(s, 10)]: an optional sign, then one or more digits. *)
Definition bigSetString (s : string) : option Z :=
  let '(neg, ds) :=
    match s with
    | String a s' =>
        if Ascii.eqb a "-" then (true, s') else if Ascii.eqb a "+" then (false, s') else (false, s)
    | EmptyString => (false, s)
    end in
  if String.eqb ds "" then None
  else (λ v, if (neg : bool) then - v else v) <$> readDigits 0 ds.

(** ** encoding/pem *)

Record pemBlock := mkPem {
  pb_Type : string;
  pb_Headers : list (string * string);
  pb_Bytes : string;
}.

Class Pem := {
  pemEncode : pemBlock → string;                         (* EncodeToMemory *)
  pemDecode : string → option (pemBlock * string);       (* the first block and the rest *)
}.

(** Decoding consumes input, and what the tools write is read back. *)
Class PemLaws `{Pem} := {
  pem_roundtrip b rest : pb_Headers b = [] → pb_Type b ∈ ["CERTIFICATE"; "PRIVATE KEY"] →
    pemDecode (pemEncode b +:+ rest) = Some (b, rest);
  pem_shrinks s b rest : pemDecode s = Some (b, rest) → (slen rest < slen s)%nat;
}.

Section Blocks.
Context `{Pem}.

Fixpoint pemLoop (fuel : nat) (rest : string) : list pemBlock :=
  match fuel with
  | O => []
  | S fuel' =>
      match pemDecode rest with
      | None => []
      | Some (block, rest) => block :: pemLoop fuel' rest
      end
  end.

(** Every block of a document: the sequence a [pem.Decode] loop visits. *)
Definition pemBlocks (data : string) : list pemBlock := pemLoop (S (slen data)) data.

(** [x509.CertPool.addCert] and [AppendCertsFromPEM] on the DER certificates
    of a pool; [parse] tells whether a certificate parses. *)
Definition addCert (der : string) (pool : list string) : list string :=
  if bool_decide (der ∈ pool) then pool else pool ++ [der].

Definition appendCertsFromPEM (parse : string → bool) (data : string) (pool : list string) : list string :=
  foldl (λ pool b,
           if String.eqb (pb_Type b) "CERTIFICATE" && (length (pb_Headers b) =? 0)%nat && parse (pb_Bytes b)
           then addCert (pb_Bytes b) pool else pool)
    pool (pemBlocks data).
End Blocks.

(** ** pkg/mtls *)

Record tlsCertificate := mkTlsCertificate { Certificate : list string; PrivateKey : string }.

Inductive clientAuth := NoClientCert | RequireAndVerifyClientCert.

Record tlsConfig := mkTlsConfig {
  ClientAuth : clientAuth;
  Certificates : list tlsCertificate;
  ClientCAs : option (list string);
  RootCAs : option (list string);
  MinVersion : Z;
  MaxVersion : Z;
}.

Definition VersionTLS13 : Z := 772.

(** crypto/x509 and crypto/tls on DER data: whether a certificate parses,
    and whether a private key parses and belongs to a certificate. *)
Class TlsCrypto := {
  parseCertificate : string → option error;
  keyMatches : string → string → option error;
}.

Section Mtls.
Context `{PM : Pem} `{TC : TlsCrypto}.

Definition isKeyType (ty : string) : bool := String.eqb ty "PRIVATE KEY" || HasSuffix ty " PRIVATE KEY".

(** [tls.X509KeyPair] *)
Definition X509KeyPair (certPEM keyPEM : string) : result tlsCertificate :=
  match pb_Bytes <$> List.filter (λ b, String.eqb (pb_Type b) "CERTIFICATE") (pemBlocks certPEM) with
  | [] => Err (EText "tls: failed to find any PEM data in certificate input")
  | leaf :: chain =>
      match List.filter (λ b, isKeyType (pb_Type b)) (pemBlocks keyPEM) with
      | [] => Err (EText "tls: failed to find any PEM data in key input")
      | key :: _ =>
          match parseCertificate leaf with
          | Some err => Err err
          | None =>
              match keyMatches leaf (pb_Bytes key) with
              | Some err => Err err
              | None => Ok (mkTlsCertificate (leaf :: chain) (pb_Bytes key))
              end
          end
      end
  end.

(** The loop of [parseBundle] over the blocks. *)
Fixpoint poolLoop (first : bool) (blocks : list pemBlock) (pool : list string) : list string :=
  match blocks with
  | [] => pool
  | block :: blocks' =>
      if negb (String.eqb (pb_Type block) "CERTIFICATE") then poolLoop first blocks' pool
      else if first then poolLoop false blocks' pool
      else poolLoop first blocks'
             (appendCertsFromPEM (λ der, bool_decide (parseCertificate der = None)) (pemEncode block) pool)
  end.

Context {W : Type} `{FS : FileSystem W}.

Definition parseBundle (path : string) (w : W) : result (tlsCertificate * list string) :=
  match ReadFile path w with
  | Err err => Err (EWrap ("read mtls bundle " +:+ path +:+ ": %w") err)
  | Ok data =>
      match X509KeyPair data data with
      | Err err => Err (EWrap "parse cert+key from mtls bundle: %w" err)
      | Ok cert => Ok (cert, poolLoop true (pemBlocks data) [])
      end
  end.

Definition LoadServer (bundlePath : string) (w : W) : result tlsConfig :=
  match parseBundle bundlePath w with
  | Err err => Err err
  | Ok (cert, pool) =>
      Ok (mkTlsConfig RequireAndVerifyClientCert [cert] (Some pool) None VersionTLS13 VersionTLS13)
  end.

Definition LoadClient (bundlePath : string) (w : W) : result tlsConfig :=
  match parseBundle bundlePath w with
  | Err err => Err err
  | Ok (cert, pool) =>
      Ok (mkTlsConfig NoClientCert [cert] None (Some pool) VersionTLS13 VersionTLS13)
  end.
End Mtls.

(** ** pkg/tools/cert.go *)

Inductive keyUsage := KeyUsageDigitalSignature | KeyUsageCertSign.
Inductive extKeyUsage := ExtKeyUsageServerAuth | ExtKeyUsageClientAuth.

(** The fields of the [x509.Certificate] templates. *)
Record certTemplate := mkCertTemplate {
  SerialNumber : Z;
  Organization : list string;
  CommonName : string;
  DNSNames : list string;
  IPAddresses : list IP;
  NotBefore : Time;
  NotAfter : Time;
  IsCA : bool;
  KeyUsage : list keyUsage;
  ExtKeyUsage : list extKeyUsage;
  SubjectKeyId : string;
}.

(** Key generation and signing.  A certificate is known by its DER bytes
    ([Raw]); a [None] parent is the template itself. *)
Class ToolCrypto (W : Type) := {
  ecdsaGenerate : W → result string * W;
  createCertificate : certTemplate → option string → string → string → W → result string * W;
                                       (* template, parent, subject's key, signer's key *)
  marshalPKCS8 : string → result string;
  marshalPKIXPublic : string → result string;
  asn1SubjectKey : string → result string;
  sha1 : string → string;
  ParsePEMCertificate : string → result string;
  ParsePEMPrivate : string → result string;
}.

(** 2100-01-01 00:00 UTC: 766644 days after the zero time. *)
Definition year2100 : Time := 766644 * 24 * Hour.

Definition permBundle : Z := 384.   (* 0o600 *)
Definition permCounter : Z := 420.  (* 0o644 *)

Section Tools.
Context `{PM : Pem} {W : Type} `{RT : Runtime W} `{PE : ProcessEnv W} `{FS : FileSystem W} `{TK : ToolCrypto W}.
Variable dataDir : string.

(** The first CERTIFICATE and the first private key of a bundle, each as a
    document of its own; the scan stops once both are found. *)
Fixpoint splitLoop (blocks : list pemBlock) (certPEM keyPEM : option string) : option string * option string :=
  match blocks with
  | [] => (certPEM, keyPEM)
  | block :: blocks' =>
      let ty := pb_Type block in
      let '(certPEM, keyPEM) :=
        if String.eqb ty "CERTIFICATE" then
          (match certPEM with None => Some (pemEncode block) | _ => certPEM end, keyPEM)
        else if String.eqb ty "PRIVATE KEY" || String.eqb ty "EC PRIVATE KEY"
                || String.eqb ty "RSA PRIVATE KEY" then
          (certPEM, match keyPEM with None => Some (pemEncode block) | _ => keyPEM end)
        else (certPEM, keyPEM) in
      match certPEM, keyPEM with
      | Some _, Some _ => (certPEM, keyPEM)
      | _, _ => splitLoop blocks' certPEM keyPEM
      end
  end.

Definition splitCertAndKeyPEM (data : string) : option string * option string :=
  splitLoop (pemBlocks data) None None.

Definition bundleBytes (blocks : list (string * string)) : string :=
  foldl (λ buf '(typ, bytes), buf +:+ pemEncode (mkPem typ [] bytes)) "" blocks.

Definition writeBundle (path : string) (blocks : list (string * string)) (w : W) : option error * W :=
  let '(err, w) := WriteFile path (bundleBytes blocks) w in
  (EWrap ("writing " +:+ path +:+ ": %w") <$> err, w).

Definition caTemplate (organization commonName : string) (now : Time) : certTemplate :=
  mkCertTemplate 0 [organization] commonName [] [] (Truncate now Hour) year2100 true
    [KeyUsageDigitalSignature; KeyUsageCertSign] [] "".

(** [counter] is the package variable. *)
Definition MakeCA (organization commonName : string) (counter : Z) (w : W) : option error * W :=
  let '(r, w) := MtlsCAPath dataDir w in
  match r with Err err => (Some err, w) | Ok caPath =>
  let '(r, w) := CACounterPath dataDir w in
  match r with Err err => (Some err, w) | Ok caCounterPath =>
  if FileExists caPath w then (Some (EText ("CA file already exists: " +:+ caPath)), w) else
  let '(r, w) := ecdsaGenerate w in
  match r with Err err => (Some (EWrap "generating CA key: %w" err), w) | Ok priv =>
  let ca := caTemplate organization commonName (timeNow w) in
  let '(r, w) := createCertificate ca None priv priv w in
  match r with Err err => (Some (EWrap "self-signing CA: %w" err), w) | Ok caBytes =>
  match marshalPKCS8 priv with Err err => (Some (EWrap "marshaling CA key: %w" err), w) | Ok keyDER =>
  let '(err, w) := writeBundle caPath [("CERTIFICATE", caBytes); ("PRIVATE KEY", keyDER)] w in
  match err with Some err => (Some err, w) | None =>
  let '(err, w) := WriteFile caCounterPath (bigString counter) w in
  (EWrap "writing serial counter: %w" <$> err, w)
  end end end end end end.

(** The CA certificate, its key and the counter read from disk. *)
Definition loadCA (w : W) : result (string * string * Z) * W :=
  let '(r, w) := MtlsCAPath dataDir w in
  match r with Err err => (Err err, w) | Ok caPath =>
  let '(r, w) := CACounterPath dataDir w in
  match r with Err err => (Err err, w) | Ok caCounterPath =>
  match ReadFile caPath w with Err err => (Err (EWrap "reading CA bundle: %w" err), w) | Ok bundleData =>
  match ReadFile caCounterPath w with
  | Err err => (Err (EWrap "reading serial counter: %w" err), w)
  | Ok caCounterData =>
  match splitCertAndKeyPEM bundleData with
  | (None, _) => (Err (EText ("no CERTIFICATE block in CA bundle: " +:+ caPath)), w)
  | (_, None) => (Err (EText ("no PRIVATE KEY block in CA bundle: " +:+ caPath)), w)
  | (Some certPEM, Some keyPEM) =>
  match ParsePEMCertificate certPEM with
  | Err err => (Err (EWrap "parsing CA cert from bundle: %w" err), w)
  | Ok caCert =>
  match ParsePEMPrivate keyPEM with
  | Err err => (Err (EWrap "parsing CA key from bundle: %w" err), w)
  | Ok caKey =>
  match bigSetString caCounterData with
  | None => (Err (EText ("invalid serial number counter in " +:+ caCounterPath)), w)
  | Some counter => (Ok (caCert, caKey, counter), w)
  end end end end end end end end.

Definition generateSubjectKeyID (priv : string) : result string :=
  match marshalPKIXPublic priv with
  | Err err => Err err
  | Ok b => match asn1SubjectKey b with Err err => Err err | Ok bytes => Ok (sha1 bytes) end
  end.

Definition entityTemplate (counter : Z) (organization commonName : string) (domains : list string)
    (eku : list extKeyUsage) (skid : string) (now : Time) : certTemplate :=
  let '(dnsNames, ipAddresses) := splitIPsAndDNS domains in
  mkCertTemplate counter [organization] commonName dnsNames ipAddresses (Truncate now Hour) year2100 false
    [KeyUsageDigitalSignature] eku skid.

Definition makeCert (bundlePath organization commonName : string) (domains : list string)
    (eku : list extKeyUsage) (w : W) : option error * W :=
  let '(r, w) := CACounterPath dataDir w in
  match r with Err err => (Some err, w) | Ok counterPath =>
  if FileExists bundlePath w then (Some (EText ("bundle file already exists: " +:+ bundlePath)), w) else
  let '(r, w) := loadCA w in
  match r with Err err => (Some (EWrap "loading CA: %w" err), w) | Ok (caCert, caKey, counter) =>
  let '(r, w) := ecdsaGenerate w in
  match r with Err err => (Some (EWrap "generating key: %w" err), w) | Ok priv =>
  match generateSubjectKeyID priv with Err err => (Some (EWrap "computing SKI: %w" err), w) | Ok skid =>
  let cert := entityTemplate counter organization commonName domains eku skid (timeNow w) in
  let '(r, w) := createCertificate cert (Some caCert) priv caKey w in
  match r with Err err => (Some (EWrap "signing certificate: %w" err), w) | Ok certBytes =>
  match marshalPKCS8 priv with Err err => (Some (EWrap "marshaling private key: %w" err), w) | Ok keyDER =>
  let '(err, w) := writeBundle bundlePath
    [("CERTIFICATE", certBytes); ("PRIVATE KEY", keyDER); ("CERTIFICATE", caCert)] w in
  match err with Some err => (Some err, w) | None =>
  let counter := counter + 1 in
  let '(err, w) := WriteFile counterPath (bigString counter) w in
  (EWrap "writing serial counter: %w" <$> err, w)
  end end end end end end end.

Definition makeNamed (eku : extKeyUsage) (name organization commonName : string) (domains : list string)
    (w : W) : option error * W :=
  if EqualFold (TrimSpace name) "ca" then (Some (EText ("name " +:+ name +:+ " is reserved for CA material")), w)
  else
    let '(r, w) := MtlsBundlePath dataDir name w in
    match r with
    | Err err => (Some err, w)
    | Ok bundlePath => makeCert bundlePath organization commonName domains [eku] w
    end.

Definition MakeServerCert := makeNamed ExtKeyUsageServerAuth.
Definition MakeClientCert := makeNamed ExtKeyUsageClientAuth.
End Tools.

(** ** Numerals *)

Lemma digit_ascii_spec d : 0 ≤ d < 10 → is_digit (digit_ascii d) = true ∧ digit (digit_ascii d) = d.
Proof.
  intros Hd. unfold is_digit, digit, digit_ascii.
  rewrite N_ascii_embedding by lia. rewrite Z2N.id by lia. split; [|lia].
  apply andb_true_iff. split; apply N.leb_le; lia.
Qed.

Lemma decDigits_read fuel : ∀ n acc, 0 ≤ n < 2 ^ Z.of_nat fuel →
  readDigits 0 (decDigits fuel n acc) = readDigits n acc.
Proof.
  induction fuel as [|fuel IH]; intros n acc Hn; [simpl in *; by replace n with 0 by lia|].
  cbn [decDigits]. destruct (n <? 10) eqn:E; bool_simp.
  - destruct (digit_ascii_spec n ltac:(lia)) as [Hi Hd]. cbn [readDigits]. rewrite Hi, Hd. f_equal.
  - rewrite Nat2Z.inj_succ, Z.pow_succ_r in Hn by lia.
    pose proof (Z.div_mod n 10 ltac:(lia)). pose proof (Z.mod_pos_bound n 10 ltac:(lia)).
    rewrite IH by lia. destruct (digit_ascii_spec (n mod 10) ltac:(lia)) as [Hi Hd].
    cbn [readDigits]. rewrite Hi, Hd. f_equal. lia.
Qed.

Lemma decDigits_head fuel : ∀ n acc, 0 ≤ n →
  (∃ a s, decDigits (S fuel) n acc = String a s ∧ is_digit a = true).
Proof.
  induction fuel as [|fuel IH]; intros n acc Hn; cbn [decDigits].
  - destruct (n <? 10) eqn:E; bool_simp; eexists _, _; (split; [done|]); apply digit_ascii_spec; [lia|].
    apply Z.mod_pos_bound. lia.
  - destruct (n <? 10) eqn:E; bool_simp; [eexists _, _; split; [done|]; apply digit_ascii_spec; lia|].
    apply IH. apply Z.div_pos; lia.
Qed.

(** A counter is read back as it was written. *)
Lemma bigString_roundtrip n : bigSetString (bigString n) = Some n.
Proof.
  unfold bigString. set (ds := decDigits _ _ _).
  assert (Hr : readDigits 0 ds = Some (Z.abs n)).
  { unfold ds. rewrite decDigits_read; [done|]. split; [lia|].
    rewrite Nat2Z.inj_succ, Z2Nat.id by apply Z.log2_nonneg.
    destruct (Z.eq_dec n 0) as [->|]; [done|]. apply Z.log2_spec. lia. }
  destruct (decDigits_head (Z.to_nat (Z.log2 (Z.abs n))) (Z.abs n) "") as (a&s&E&Hd); [lia|].
  fold ds in E. rewrite E in *. clearbody ds. destruct (n <? 0) eqn:Hn; bool_simp.
  - assert (Em : bigSetString ("-" +:+ String a s) = (λ v, - v) <$> readDigits 0 (String a s)).
    { rewrite app_String, app_nil_string. done. }
    rewrite Em, Hr. simpl. f_equal. lia.
  - unfold bigSetString.
    destruct (Ascii.eqb_spec a "-") as [->|_]; [done|].
    destruct (Ascii.eqb_spec a "+") as [->|_]; [done|].
    cbn [String.eqb]. rewrite Hr. simpl. f_equal. lia.
Qed.

(** ** Blocks of a bundle *)

Section BlockFacts.
Context `{PM : Pem} `{PL : !PemLaws}.

Lemma pemDecode_empty : pemDecode "" = None.
Proof.
  destruct (pemDecode "") as [[b r]|] eqn:E; [|done]. apply pem_shrinks in E. simpl in E. lia.
Qed.

Lemma pemLoop_enough m n s : (slen s < m)%nat → (slen s < n)%nat → pemLoop m s = pemLoop n s.
Proof.
  revert n s. induction m as [|m IH]; intros [|n] s Hm Hn; try lia. simpl.
  destruct (pemDecode s) as [[b r]|] eqn:E; [|done]. f_equal.
  apply pem_shrinks in E. apply IH; lia.
Qed.

(** The loop visits one block after the other to the end of the document. *)
Lemma pemBlocks_cons s b r : pemDecode s = Some (b, r) → pemBlocks s = b :: pemBlocks r.
Proof.
  intros E. unfold pemBlocks at 1. cbn [pemLoop]. rewrite E. f_equal.
  apply pem_shrinks in E. apply pemLoop_enough; lia.
Qed.

Lemma pemBlocks_nil : pemBlocks "" = [].
Proof. unfold pemBlocks. cbn [pemLoop]. by rewrite pemDecode_empty. Qed.

Definition plain (b : string * string) : pemBlock := mkPem (fst b) [] (snd b).

Lemma bundleBytes_app blocks : ∀ buf,
  foldl (λ buf '(typ, bytes), buf +:+ pemEncode (mkPem typ [] bytes)) buf blocks = buf +:+ bundleBytes blocks.
Proof.
  unfold bundleBytes. induction blocks as [|[ty by_] l IH]; intros buf; simpl; [by rewrite app_nil_r_string|].
  rewrite IH, (IH ("" +:+ _)). by rewrite app_nil_string, app_string_assoc.
Qed.

(** A bundle the tools write has the blocks it was written from. *)
Lemma pemBlocks_bundle blocks :
  Forall (λ b, fst b ∈ ["CERTIFICATE"; "PRIVATE KEY"]) blocks → pemBlocks (bundleBytes blocks) = plain <$> blocks.
Proof.
  induction 1 as [|[ty by_] l Hb Hl IH]; [apply pemBlocks_nil|].
  replace (bundleBytes ((ty, by_) :: l)) with (pemEncode (mkPem ty [] by_) +:+ bundleBytes l).
  - rewrite (pemBlocks_cons _ (mkPem ty [] by_) (bundleBytes l)); [by rewrite IH|]. by apply pem_roundtrip.
  - unfold bundleBytes at 2. simpl. by rewrite bundleBytes_app, app_nil_string.
Qed.

Lemma pemBlocks_single ty by_ : ty ∈ ["CERTIFICATE"; "PRIVATE KEY"] →
  pemBlocks (pemEncode (mkPem ty [] by_)) = [mkPem ty [] by_].
Proof.
  intros Ht. rewrite <- (app_nil_r_string (pemEncode _)).
  by rewrite (pemBlocks_cons _ (mkPem ty [] by_) ""), pemBlocks_nil by (by apply pem_roundtrip).
Qed.
End BlockFacts.

(** ** Issuing certificates *)

(** Generating keys and signing leave files alone; a certificate written as
    PEM is parsed to its own bytes. *)
Class ToolLaws {W} `{PM : Pem} `{FS : FileSystem W} `{TK : !ToolCrypto W} := {
  generate_reads (w : W) r w' p : ecdsaGenerate w = (r, w') → ReadFile p w' = ReadFile p w;
  create_reads t parent k s (w : W) r w' p :
    createCertificate t parent k s w = (r, w') → ReadFile p w' = ReadFile p w;
  parse_cert_raw der raw :
    ParsePEMCertificate (pemEncode (mkPem "CERTIFICATE" [] der)) = Ok raw → raw = der;
}.

Section Issue.
Context `{PM : Pem} `{PL : !PemLaws} {W : Type} `{RT : Runtime W} `{PE : ProcessEnv W}.
Context `{FS : FileSystem W} `{FL : !FileSystemLaws W}.
Context `{TK : !ToolCrypto W} `{TL : !ToolLaws (W := W)}.
Variables dataDir root : string.

(** The configuration root stays the same while the tool runs: so it is with a
    data directory. *)
Hypothesis Hroot : ∀ w : W, configRoot dataDir w = Ok root.

Definition mtlsDir : string := PathJoin [root; MtlsCertificateDir].
Definition caPath : string := PathJoin [mtlsDir; "ca.pem"].
Definition counterPath : string := PathJoin [mtlsDir; "counter.txt"].
Definition bundlePath (name : string) : string := PathJoin [mtlsDir; name +:+ ".pem"].

Lemma mtlsDir_ne : mtlsDir ≠ "".
Proof. by apply PathJoin_ne. Qed.

(** The bundle of a name is never the counter. *)
Lemma bundle_ne_counter name : bundlePath name ≠ counterPath.
Proof.
  unfold bundlePath, counterPath. intros E.
  destruct (PathJoin_suffix mtlsDir name ".pem" mtlsDir_ne) as [q Eq]; [simpl; lia|done|].
  destruct (PathJoin_suffix mtlsDir "counter" ".txt" mtlsDir_ne) as [q' Eq']; [simpl; lia|done|].
  rewrite Eq in E. change "counter.txt" with ("counter" +:+ ".txt") in E. rewrite Eq' in E.
  by apply suffix_inj in E.
Qed.

Lemma MtlsDir_ok w r w' : MtlsDir dataDir w = (r, w') →
  same_except [] w w' ∧ ∀ d, r = Ok d → d = mtlsDir.
Proof.
  unfold MtlsDir. rewrite Hroot. fold mtlsDir.
  destruct (MkdirAll _ w) as [[e|] w1] eqn:E1.
  - intros [= <- <-]. split; [by eapply mkdir_frame | done].
  - destruct (Chmod _ _ w1) as [[e|] w2] eqn:E2; intros [= <- <-];
      (split; [eapply same_except_trans; [by eapply mkdir_frame | by eapply tmpchmod_frame] | intros d Hd; congruence]).
Qed.

(** The path helpers add one name to it and touch no file. *)
Lemma path_helper (f : W → result string * W) n w r w' :
  (∀ w, f w = let '(r, w) := MtlsDir dataDir w in
              match r with Err e => (Err e, w) | Ok dir => (Ok (PathJoin [dir; n]), w) end) →
  f w = (r, w') → same_except [] w w' ∧ ∀ p, r = Ok p → p = PathJoin [mtlsDir; n].
Proof.
  intros Hf. rewrite Hf. destruct (MtlsDir dataDir w) as [[d|e] w1] eqn:E;
    apply MtlsDir_ok in E as [Hs Hd]; intros [= <- <-]; (split; [done|]); intros p Hp; simplify_eq.
  by rewrite (Hd d eq_refl).
Qed.

Lemma loadCA_ok w ca k n w' : loadCA dataDir w = (Ok (ca, k, n), w') →
  same_except [] w w' ∧
  (∃ s, ReadFile counterPath w = Ok s ∧ bigSetString s = Some n) ∧
  (∃ data certPEM, ReadFile caPath w = Ok data ∧
     fst (splitCertAndKeyPEM data) = Some certPEM ∧ ParsePEMCertificate certPEM = Ok ca).
Proof.
  unfold loadCA.
  destruct (MtlsCAPath dataDir w) as [[p1|] w1] eqn:E1; [|done].
  apply (path_helper _ "ca.pem") in E1 as [S1 ->%(λ H, H p1 eq_refl)]; [|done].
  destruct (CACounterPath dataDir w1) as [[p2|] w2] eqn:E2; [|done].
  apply (path_helper _ "counter.txt") in E2 as [S2 ->%(λ H, H p2 eq_refl)]; [|done].
  fold caPath counterPath.
  assert (S : same_except [] w w2) by (by eapply same_except_trans).
  destruct (ReadFile caPath w2) as [data|] eqn:Ed; [|done].
  destruct (ReadFile counterPath w2) as [cnt|] eqn:Ec; [|done].
  destruct (splitCertAndKeyPEM data) as [[cp|] [kp|]] eqn:Es; try done.
  destruct (ParsePEMCertificate cp) as [ca'|] eqn:Ep; [|done].
  destruct (ParsePEMPrivate kp) as [k'|]; [|done].
  destruct (bigSetString cnt) as [n'|] eqn:En; [|done].
  intros [= <- <- <- <-]. rewrite (S caPath (not_elem_of_nil _)) in Ed. rewrite (S counterPath (not_elem_of_nil _)) in Ec.
  split_all; [done|by exists cnt|]. exists data, cp. by rewrite Es.
Qed.

(** A certificate issued with serial [n]: [ca], [cert] and [key] are the DER
    bytes of the authority's certificate, the new one and its private key. *)
Record issued (bundle organization commonName : string) (domains : list string) (eku : list extKeyUsage)
    (n : Z) (ca cert key : string) (w w' : W) : Prop := {
  iss_counter : ∃ s, ReadFile counterPath w = Ok s ∧ bigSetString s = Some n;
  iss_fresh : ∃ w1, same_except [] w w1 ∧ FileExists bundle w1 = false;
  iss_signed : ∃ skid now priv caKey w1 w2,
    createCertificate (entityTemplate n organization commonName domains eku skid now) (Some ca) priv caKey w1
      = (Ok cert, w2) ∧ marshalPKCS8 priv = Ok key;
  iss_ca : ∃ data certPEM, ReadFile caPath w = Ok data ∧
    fst (splitCertAndKeyPEM data) = Some certPEM ∧ ParsePEMCertificate certPEM = Ok ca;
  iss_bundle : ReadFile bundle w'
    = Ok (bundleBytes [("CERTIFICATE", cert); ("PRIVATE KEY", key); ("CERTIFICATE", ca)]);
  iss_next : ReadFile counterPath w' = Ok (bigString (n + 1));
  iss_frame : same_except [bundle; counterPath] w w';
}.

Lemma writeBundle_ok p blocks w w' : writeBundle p blocks w = (None, w') →
  ReadFile p w' = Ok (bundleBytes blocks) ∧ same_except [p] w w'.
Proof.
  unfold writeBundle. destruct (WriteFile p _ w) as [[e|] w1] eqn:E; intros [= <-].
  split; [by eapply write_read | by eapply write_frame].
Qed.

Lemma makeCert_ok bundle org cn domains eku w w' :
  bundle ≠ counterPath → makeCert dataDir bundle org cn domains eku w = (None, w') →
  ∃ n ca cert key, issued bundle org cn domains eku n ca cert key w w'.
Proof.
  intros Hne. unfold makeCert.
  destruct (CACounterPath dataDir w) as [[p1|] w1] eqn:E1; [|done].
  apply (path_helper _ "counter.txt") in E1 as [S1 ->%(λ H, H p1 eq_refl)]; [|done]. fold counterPath.
  destruct (FileExists bundle w1) eqn:Ef; [done|].
  destruct (loadCA dataDir w1) as [[[[ca k] n]|] w2] eqn:E2; [|done].
  apply loadCA_ok in E2 as (S2&(s&Hs&Hn)&(data&cp&Hd&Hcp&Hca)).
  rewrite (S1 counterPath (not_elem_of_nil _)) in Hs. rewrite (S1 caPath (not_elem_of_nil _)) in Hd.
  destruct (ecdsaGenerate w2) as [[priv|] w3] eqn:E3; [|done].
  destruct (generateSubjectKeyID priv) as [skid|]; [|done].
  destruct (createCertificate _ _ _ _ w3) as [[cert|] w4] eqn:E4; [|done].
  destruct (marshalPKCS8 priv) as [key|] eqn:Ek; [|done].
  destruct (writeBundle bundle _ w4) as [[e|] w5] eqn:E5; [done|].
  destruct (WriteFile counterPath _ w5) as [[e|] w6] eqn:E6; [done|]. intros [= ->].
  apply writeBundle_ok in E5 as [R5 S5].
  pose proof (write_read _ _ _ _ E6) as R6. pose proof (write_frame _ _ _ _ _ E6) as S6.
  assert (S34 : same_except [] w2 w4).
  { intros q _. by rewrite (create_reads _ _ _ _ _ _ _ q E4), (generate_reads _ _ _ q E3). }
  exists n, ca, cert, key. split; [by exists s|by exists w1|by eexists _, _, _, _, _, _|by exists data, cp|..].
  - rewrite <- R5. apply S6. set_solver.
  - done.
  - assert (S14 : same_except [] w w4) by (do 2 (eapply same_except_trans; [eassumption|]); done).
    apply (same_except_trans _ w w5 w'); [|apply (same_except_mono [counterPath]); [done|set_solver]].
    apply (same_except_trans _ w w4 w5); [apply (same_except_mono []); [done|set_solver]|].
    apply (same_except_mono [bundle]); [done|set_solver].
Qed.

Lemma makeNamed_ok eku name org cn domains w w' :
  makeNamed dataDir eku name org cn domains w = (None, w') →
  EqualFold (TrimSpace name) "ca" = false ∧
  ∃ n ca cert key, issued (bundlePath name) org cn domains [eku] n ca cert key w w'.
Proof.
  unfold makeNamed. destruct (EqualFold _ _); [done|]. intros H. split; [done|].
  destruct (MtlsBundlePath dataDir name w) as [[p|] w1] eqn:E1; [|done].
  apply (path_helper _ (name +:+ ".pem")) in E1 as [S1 ->%(λ H, H p eq_refl)]; [|done].
  apply makeCert_ok in H as (n&ca&cert&key&[I1 I2 I3 I4 I5 I6 I7]); [|apply bundle_ne_counter].
  exists n, ca, cert, key. split; try done.
  - by rewrite <- (S1 _ (not_elem_of_nil _)).
  - destruct I2 as (w2&S2&?). exists w2. split; [by eapply same_except_trans | done].
  - setoid_rewrite <- (S1 _ (not_elem_of_nil _)). done.
  - apply (same_except_trans _ w w1 w'); [|done]. apply (same_except_mono []); [done|set_solver].
Qed.

(** [MakeServerCert] and [MakeClientCert]: on success the name was not
    reserved and had no bundle yet, exactly the bundle and the counter files
    changed, the bundle holds the signed certificate, its key and the
    authority's certificate, and the certificate's serial is the number in the
    counter file, which now holds the next one; so the next certificate,
    whichever the name and role, gets the next serial. *)
Theorem issue_spec eku name org cn domains w w' :
  makeNamed dataDir eku name org cn domains w = (None, w') →
  EqualFold (TrimSpace name) "ca" = false ∧
  ∃ n ca cert key, issued (bundlePath name) org cn domains [eku] n ca cert key w w' ∧
    ∀ eku2 name2 org2 cn2 domains2 w2,
      makeNamed dataDir eku2 name2 org2 cn2 domains2 w' = (None, w2) →
      ∃ ca2 cert2 key2, issued (bundlePath name2) org2 cn2 domains2 [eku2] (n + 1) ca2 cert2 key2 w' w2.
Proof.
  intros [Hn (n&ca&cert&key&I)]%makeNamed_ok. split; [done|].
  exists n, ca, cert, key. split; [done|]. intros eku2 name2 org2 cn2 ds2 w2.
  intros [_ (n2&ca2&cert2&key2&I2)]%makeNamed_ok.
  destruct (iss_counter _ _ _ _ _ _ _ _ _ _ _ I2) as (s&Hs&Hs2).
  rewrite (iss_next _ _ _ _ _ _ _ _ _ _ _ I) in Hs. injection Hs as <-.
  rewrite bigString_roundtrip in Hs2. injection Hs2 as <-. by exists ca2, cert2, key2.
Qed.

Context `{TC : TlsCrypto}.

Lemma appendCerts_single ca : parseCertificate ca = None →
  appendCertsFromPEM (λ der, bool_decide (parseCertificate der = None)) (pemEncode (mkPem "CERTIFICATE" [] ca)) []
    = [ca].
Proof.
  intros Hp. unfold appendCertsFromPEM. rewrite pemBlocks_single by set_solver. simpl.
  rewrite bool_decide_eq_true_2 by done. unfold addCert. by rewrite bool_decide_eq_false_2 by set_solver.
Qed.

(** C40: the server and the client load every bundle the tools write: when the
    crypto library accepts the certificates and the key, they present the new
    certificate with its key and trust exactly the authority that signed it
    for their peer, over TLS 1.3 only, the server requiring a certificate. *)
Theorem bundle_loads eku name org cn domains w w' :
  makeNamed dataDir eku name org cn domains w = (None, w') →
  ∃ n ca cert key, issued (bundlePath name) org cn domains [eku] n ca cert key w w' ∧
    (parseCertificate cert = None → parseCertificate ca = None → keyMatches cert key = None →
     LoadServer (bundlePath name) w' =
       Ok (mkTlsConfig RequireAndVerifyClientCert [mkTlsCertificate [cert; ca] key] (Some [ca]) None 772 772) ∧
     LoadClient (bundlePath name) w' =
       Ok (mkTlsConfig NoClientCert [mkTlsCertificate [cert; ca] key] None (Some [ca]) 772 772)).
Proof.
  intros [_ (n&ca&cert&key&I)]%makeNamed_ok. exists n, ca, cert, key. split; [done|].
  intros Hc Hca Hk. unfold LoadServer, LoadClient, parseBundle.
  rewrite (iss_bundle _ _ _ _ _ _ _ _ _ _ _ I). unfold X509KeyPair.
  rewrite pemBlocks_bundle by (repeat constructor; set_solver). cbn -[pemEncode appendCertsFromPEM].
  rewrite Hc, Hk. unfold plain. cbn [fst snd]. rewrite (appendCerts_single ca Hca). done.
Qed.

(** The first certificate an authority issues carries the authority's own
    serial number: [MakeCA] signs itself with serial 0 and stores the counter
    without advancing it. *)
Theorem ca_serial_reused corg ccn eku name org cn domains w w1 w2 :
  MakeCA dataDir corg ccn 0 w = (None, w1) →
  makeNamed dataDir eku name org cn domains w1 = (None, w2) →
  ∃ ca cert key, issued (bundlePath name) org cn domains [eku] 0 ca cert key w1 w2 ∧
    ∃ t priv wa wb, createCertificate t None priv priv wa = (Ok ca, wb) ∧ SerialNumber t = 0 ∧ IsCA t = true.
Proof.
  unfold MakeCA. intros HM [_ (n&ca&cert&key&I)]%makeNamed_ok. revert HM.
  destruct (MtlsCAPath dataDir w) as [[p1|] wa] eqn:E1; [|done].
  apply (path_helper _ "ca.pem") in E1 as [_ ->%(λ H, H p1 eq_refl)]; [|done].
  destruct (CACounterPath dataDir wa) as [[p2|] wb] eqn:E2; [|done].
  apply (path_helper _ "counter.txt") in E2 as [_ ->%(λ H, H p2 eq_refl)]; [|done].
  fold caPath counterPath. destruct (FileExists caPath wb); [done|].
  destruct (ecdsaGenerate wb) as [[priv|] wc]; [|done].
  destruct (createCertificate _ None priv priv wc) as [[caBytes|] wd] eqn:Ec; [|done].
  destruct (marshalPKCS8 priv) as [keyDER|]; [|done].
  destruct (writeBundle caPath _ wd) as [[e|] we] eqn:Ew; [done|].
  apply writeBundle_ok in Ew as [Rb _].
  destruct (WriteFile counterPath _ we) as [[e|] wf] eqn:Ef; [done|]. intros [= ->].
  pose proof (write_read _ _ _ _ Ef) as Rc. pose proof (write_frame _ _ _ _ _ Ef) as Sf.
  assert (Hne : caPath ∉ [counterPath]).
  { pose proof (bundle_ne_counter "ca") as H. set_solver. }
  destruct (iss_counter _ _ _ _ _ _ _ _ _ _ _ I) as (s&Hs&Hn).
  rewrite Rc in Hs. injection Hs as <-. injection Hn as <-.
  destruct (iss_ca _ _ _ _ _ _ _ _ _ _ _ I) as (data&cp&Hd&Hcp&Hca).
  rewrite (Sf _ Hne), Rb in Hd. injection Hd as <-.
  unfold splitCertAndKeyPEM in Hcp. rewrite pemBlocks_bundle in Hcp by (repeat constructor; set_solver).
  simpl in Hcp. injection Hcp as <-. apply parse_cert_raw in Hca as ->.
  exists caBytes, cert, key. split; [done|]. by eexists _, _, _, _.
Qed.
End Issue.

(** ** A concrete tool chain *)

Module Demo.
Definition World : Type := Sim * Disk.

#[export] Instance demo_env : ProcessEnv World := {
  GOOS _ := "linux";
  Executable _ := Ok "/usr/bin/certdx_tools";
  EvalSymlinks p _ := Ok p;
}.

(** A framing of blocks: a tag for the type, then "1" before each byte and "0"
    at the end. *)
Definition tagOf (ty : string) : ascii :=
  if String.eqb ty "CERTIFICATE" then "C" else if String.eqb ty "PRIVATE KEY" then "K" else "X".
Definition typeOf (a : ascii) : string :=
  if Ascii.eqb a "C" then "CERTIFICATE" else if Ascii.eqb a "K" then "PRIVATE KEY" else "X".

Fixpoint frame (s : string) : string :=
  match s with EmptyString => "0" | String a s' => String "1" (String a (frame s')) end.

Fixpoint unframe (s : string) : option (string * string) :=
  match s with
  | EmptyString => None
  | String t r =>
      if Ascii.eqb t "0" then Some ("", r)
      else match r with
      | EmptyString => None
      | String a r' => match unframe r' with Some (b, rest) => Some (String a b, rest) | None => None end
      end
  end.

Lemma unframe_frame s rest : unframe (frame s +:+ rest) = Some (s, rest).
Proof. induction s as [|a s IH]; [done|]. simpl. by rewrite IH. Qed.

Lemma unframe_shrinks fuel : ∀ s b r, (slen s ≤ fuel)%nat → unframe s = Some (b, r) → (slen r < slen s)%nat.
Proof.
  induction fuel as [|fuel IH]; intros [|t s] b r Hl; simpl in *; try done; [lia|].
  destruct (Ascii.eqb t "0"); [intros [= _ <-]; lia|].
  destruct s as [|a s]; [done|]. destruct (unframe s) as [[b' r']|] eqn:E; [|done].
  intros [= _ <-]. simpl in *. pose proof (IH s b' r' ltac:(lia) E). lia.
Qed.

#[export] Instance frame_pem : Pem := {
  pemEncode b := String (tagOf (pb_Type b)) (frame (pb_Bytes b));
  pemDecode s := match s with
    | EmptyString => None
    | String t s' => (λ '(b, r), (mkPem (typeOf t) [] b, r)) <$> unframe s'
    end;
}.

#[export] Instance frame_laws : PemLaws.
Proof.
  split.
  - intros [ty hs b] rest; cbn [pemEncode pemDecode frame_pem pb_Headers pb_Type pb_Bytes]. intros -> Hty.
    change (String (tagOf ty) (frame b) +:+ rest) with (String (tagOf ty) (frame b +:+ rest)).
    cbv beta iota. rewrite unframe_frame. simpl.
    do 2 (apply elem_of_cons in Hty as [->|Hty]; [done|]). by apply not_elem_of_nil in Hty.
  - intros [|t s] b r; [done|]. simpl. destruct (unframe s) as [[b' r']|] eqn:E; [|done].
    intros [= _ <-]. apply (unframe_shrinks (slen s)) in E; simpl; lia.
Qed.

#[export] Instance demo_tls : TlsCrypto := { parseCertificate _ := None; keyMatches _ _ := None }.

#[export] Instance demo_tools : ToolCrypto World := {
  ecdsaGenerate w := (Ok "k", w);
  createCertificate t _ _ _ w := (Ok (CommonName t +:+ "#" +:+ bigString (SerialNumber t)), w);
  marshalPKCS8 k := Ok k;
  marshalPKIXPublic k := Ok k;
  asn1SubjectKey k := Ok k;
  sha1 k := k;
  ParsePEMCertificate s := match pemDecode s with Some (b, _) => Ok (pb_Bytes b) | None => Err (EText "pem") end;
  ParsePEMPrivate s := match pemDecode s with Some (b, _) => Ok (pb_Bytes b) | None => Err (EText "pem") end;
}.

#[export] Instance demo_laws : ToolLaws (W := World).
Proof.
  split.
  - intros w r w' p. simpl. by intros [= <- <-].
  - intros t pa k s w r w' p. simpl. by intros [= <- <-].
  - intros der raw. rewrite <- (app_nil_r_string (pemEncode _)). unfold ParsePEMCertificate. cbn [demo_tools].
    rewrite pem_roundtrip by (done || set_solver). by intros [= <-].
Qed.

Definition w0 : World := ({| sim_now := 90 * Minute; sim_cancel := None |}, mkDisk ∅ []).
Definition w1 : World := snd (MakeCA "/data" "Org" "CA" 0 w0).
Definition w2 : World := snd (MakeServerCert "/data" "srv" "Org" "server" ["example.com"; "10.0.0.1"] w1).
Definition w3 : World := snd (MakeClientCert "/data" "cli" "Org" "client" ["c.example.com"] w2).

Lemma root_data (w : World) : configRoot "/data" w = Ok "/data".
Proof. reflexivity. Qed.
End Demo.

Import (hints) Demo.

Example bigString_examples :
  bigString 0 = "0" ∧ bigString 1234567890 = "1234567890" ∧ bigString (-7) = "-7" ∧
  bigSetString "+12" = Some 12 ∧ bigSetString "" = None ∧ bigSetString "-" = None ∧ bigSetString "1 " = None.
Proof. vm_compute. done. Qed.

Lemma issue_spec_witness :
  fst (MakeServerCert "/data" "srv" "Org" "server" ["example.com"; "10.0.0.1"] Demo.w1) = None ∧
  ∃ ca cert key, issued "/data" (bundlePath "/data" "cli") "Org" "client" ["c.example.com"]
    [ExtKeyUsageClientAuth] 1 ca cert key Demo.w2 Demo.w3.
Proof.
  split; [vm_compute; reflexivity|].
  assert (H1 : makeNamed "/data" ExtKeyUsageServerAuth "srv" "Org" "server" ["example.com"; "10.0.0.1"] Demo.w1
    = (None, Demo.w2)) by (vm_compute; reflexivity).
  assert (H2 : makeNamed "/data" ExtKeyUsageClientAuth "cli" "Org" "client" ["c.example.com"] Demo.w2
    = (None, Demo.w3)) by (vm_compute; reflexivity).
  destruct (issue_spec "/data" "/data" Demo.root_data _ _ _ _ _ _ _ H1) as [_ (n&ca&cert&key&I&Hnext)].
  destruct (iss_counter _ _ _ _ _ _ _ _ _ _ _ _ I) as (s&Hs&Hn).
  vm_compute in Hs. injection Hs as <-. vm_compute in Hn. injection Hn as <-.
  exact (Hnext _ _ _ _ _ _ H2).
Defined.

Lemma bundle_loads_witness :
  fst (MakeServerCert "/data" "srv" "Org" "server" ["example.com"; "10.0.0.1"] Demo.w1) = None ∧
  ∃ cert key ca, LoadServer "/data/mtls/srv.pem" Demo.w2 =
    Ok (mkTlsConfig RequireAndVerifyClientCert [mkTlsCertificate [cert; ca] key] (Some [ca]) None 772 772).
Proof.
  split; [vm_compute; reflexivity|].
  assert (H1 : makeNamed "/data" ExtKeyUsageServerAuth "srv" "Org" "server" ["example.com"; "10.0.0.1"] Demo.w1
    = (None, Demo.w2)) by (vm_compute; reflexivity).
  destruct (bundle_loads "/data" "/data" Demo.root_data _ _ _ _ _ _ _ H1) as (n&ca&cert&key&_&Hl).
  exists cert, key, ca. exact (proj1 (Hl eq_refl eq_refl eq_refl)).
Defined.

Lemma ca_serial_reused_witness :
  fst (MakeCA "/data" "Org" "CA" 0 Demo.w0) = None ∧
  ∃ ca cert key, issued "/data" (bundlePath "/data" "srv") "Org" "server" ["example.com"; "10.0.0.1"]
    [ExtKeyUsageServerAuth] 0 ca cert key Demo.w1 Demo.w2.
Proof.
  assert (H0 : MakeCA "/data" "Org" "CA" 0 Demo.w0 = (None, Demo.w1)) by (vm_compute; reflexivity).
  assert (H1 : makeNamed "/data" ExtKeyUsageServerAuth "srv" "Org" "server" ["example.com"; "10.0.0.1"] Demo.w1
    = (None, Demo.w2)) by (vm_compute; reflexivity).
  split; [rewrite H0; reflexivity|].
  destruct (ca_serial_reused "/data" "/data" Demo.root_data _ _ _ _ _ _ _ _ _ _ H0 H1)
    as (ca&cert&key&I&_).
  exists ca, cert, key. exact I.
Defined.
