(* ===== verification/SdsServer.v ===== *)
(** pkg/server/sds.go: the SDS endpoint.  [SDSSrv] loads the bundle for mutual
    TLS, builds the gRPC server, listens and serves until the server stops;
    [clientTLSLog] is the interceptor it installs.  What a stream does is in
    Sds and Stream; the gRPC server is an interface. *)

From Stdlib Require Import ZArith Lia.
From stdpp Require Import base option list strings.
From S2P Require Import Prelude.
From S2P Require Import GoStd.
From S2P Require Import Sys.
From S2P Require Import Logging.
From S2P Require Import Config.
From S2P Require Import Mtls.

Open Scope Z_scope.

(** ** The interceptor *)

(** The peer of a call: its address, and the common names of the certificates
    it presented when the connection is TLS. *)
Record peerInfo := mkPeer { p_Addr : string; p_PeerCertificates : option (list string) }.

(** [peerAddr]; an address may be missing. *)
Definition peerAddr (p : option (option string)) : string :=
  match p with Some (Some addr) => addr | _ => "unknown" end.

Definition logClient (p : peerInfo) (certs : list string) (out : lines) : lines :=
  let out := if (1 <? length certs)%nat
             then Error ("Client " +:+ p_Addr p +:+ " providing multiple client certificate.") out else out in
  foldl (λ out name, Info ("Client `" +:+ name +:+ "` from " +:+ p_Addr p +:+ ".") out) out certs.

(** [grpc.UnaryHandler] *)
Definition clientTLSLog {Req Resp W} (p : option peerInfo) (handler : Req → W → result Resp * W) (req : Req) (out : lines)
    (w : W) : lines * (result Resp * W) :=
  let out := match p with
             | Some p => match p_PeerCertificates p with Some certs => logClient p certs out | None => out end
             | None => out
             end in
  (out, handler req w).

(** ** The endpoint *)

Record grpcServer := mkGrpcServer {
  gs_Creds : tlsConfig;
  gs_MinTime : Duration;                 (* KeepaliveEnforcementPolicy *)
  gs_PermitWithoutStream : bool;
  gs_Time : Duration;                    (* KeepaliveParams *)
  gs_Timeout : Duration;
}.

Definition sdsServer (cfg : tlsConfig) : grpcServer := mkGrpcServer cfg Second true (30 * Second) (25 * Second).

(** [Serve] returns when the listener fails, or with [ErrServerStopped] or
    nil once the goroutine that waits for the server's context has stopped it. *)
Class GrpcNet (W : Type) := {
  Listener : Type;
  Listen : string → W → result Listener * W;
  Serve : grpcServer → Listener → W → option error * W;
}.

Section Endpoint.
Context {W : Type} `{PM : Pem} `{TC : TlsCrypto} `{FS : FileSystem W} `{GN : GrpcNet W}.

Definition SDSSrv (c : ServerConfig) (w : W) : option error * W :=
  match LoadServer (sc_MTLS_PEM c) w with
  | Err err => (Some err, w)
  | Ok mtlsConfig =>
      let '(l, w) := Listen (GrpcListen (sc_GRPCSDSServer c)) w in
      match l with
      | Err err => (Some (EWrap ("listen at " +:+ GrpcListen (sc_GRPCSDSServer c) +:+ ": %w") err), w)
      | Ok listener =>
          let '(err, w) := Serve (sdsServer mtlsConfig) listener w in
          match err with
          | Some err => if errIs err ErrServerStopped then (None, w) else (Some (EWrap "serve SDS: %w" err), w)
          | None => (None, w)
          end
      end
  end.

(** The endpoint serves only over mutual TLS: it listens when the bundle
    loads, and then every connection has to present a certificate that verifies
    against the authorities of the bundle, over TLS 1.3; it returns without an
    error exactly when serving ended by a stop, and otherwise reports what went
    wrong. *)
Theorem SDSSrv_mutual c (w : W) :
  (∃ err, LoadServer (sc_MTLS_PEM c) w = Err err ∧ SDSSrv c w = (Some err, w)) ∨
  ∃ cfg pool, LoadServer (sc_MTLS_PEM c) w = Ok cfg ∧
    ClientAuth cfg = RequireAndVerifyClientCert ∧ ClientCAs cfg = Some pool ∧ MinVersion cfg = VersionTLS13 ∧
    ((∃ err w1, Listen (GrpcListen (sc_GRPCSDSServer c)) w = (Err err, w1) ∧
        SDSSrv c w = (Some (EWrap ("listen at " +:+ GrpcListen (sc_GRPCSDSServer c) +:+ ": %w") err), w1)) ∨
     ∃ l w1 o w2, Listen (GrpcListen (sc_GRPCSDSServer c)) w = (Ok l, w1) ∧
       Serve (sdsServer cfg) l w1 = (o, w2) ∧ (SDSSrv c w).2 = w2 ∧
       ((SDSSrv c w).1 = None ↔ ∀ err, o = Some err → errIs err ErrServerStopped = true)).
Proof.
  unfold SDSSrv. destruct (LoadServer (sc_MTLS_PEM c) w) as [cfg|err] eqn:El; [right|left; by exists err].
  unfold LoadServer in El. destruct (parseBundle _ w) as [[crt pool]|]; [|done]. injection El as El.
  exists cfg, pool. rewrite <- El. split_all; [done..|].
  destruct (Listen _ w) as [[l|err] w1] eqn:Ell; [right|left; by exists err, w1].
  destruct (Serve _ l w1) as [o w2] eqn:Es. exists l, w1, o, w2. split_all; [done..| |].
  - destruct o as [err|]; [|done]. by destruct (errIs err ErrServerStopped).
  - destruct o as [err|]; [|by split]. destruct (errIs err ErrServerStopped) eqn:E; simpl; split; try done.
    + by intros _ ? [= <-].
    + intros H. specialize (H err eq_refl). congruence.
Qed.
End Endpoint.

(** The interceptor never stands in the way of a call. *)
Lemma clientTLSLog_transparent {Req Resp W} p (handler : Req → W → result Resp * W) req out w :
  snd (clientTLSLog p handler req out w) = handler req w.
Proof. done. Qed.
