(* ===== verification/Base64.v ===== *)
(** encoding/base64, [StdEncoding]: how encoding/json writes and reads a
    [[]byte].  What is written is read back, for every byte sequence. *)

From Stdlib Require Import ZArith Lia Ascii.
From stdpp Require Import base option list strings.
From S2P Require Import Prelude.
From S2P Require Import GoStd.
From S2P Require Import Net.

Open Scope Z_scope.

(** ** Digits *)

Definition byteOf (z : Z) : ascii := ascii_of_N (Z.to_N z).

Definition b64digit (n : Z) : ascii :=
  if n <? 26 then byteOf (65 + n)
  else if n <? 52 then byteOf (71 + n)
  else if n <? 62 then byteOf (n - 4)
  else if n =? 62 then "+"%char else "/"%char.

Definition b64value (a : ascii) : option Z :=
  let c := code a in
  if (65 <=? c) && (c <=? 90) then Some (c - 65)
  else if (97 <=? c) && (c <=? 122) then Some (c - 71)
  else if (48 <=? c) && (c <=? 57) then Some (c + 4)
  else if c =? 43 then Some 62
  else if c =? 47 then Some 63
  else None.

(** ** [EncodeToString] *)

Fixpoint b64encode (s : string) : string :=
  match s with
  | EmptyString => ""
  | String a EmptyString =>
      String (b64digit (code a / 4)) (String (b64digit (code a mod 4 * 16)) "==")
  | String a (String b EmptyString) =>
      String (b64digit (code a / 4)) (String (b64digit (code a mod 4 * 16 + code b / 16))
        (String (b64digit (code b mod 16 * 4)) "="))
  | String a (String b (String c s')) =>
      String (b64digit (code a / 4)) (String (b64digit (code a mod 4 * 16 + code b / 16))
        (String (b64digit (code b mod 16 * 4 + code c / 64)) (String (b64digit (code c mod 64)) (b64encode s'))))
  end.

(** ** [Decode] *)

(** Line breaks count for nothing, wherever they are. *)
Definition is_newline (a : ascii) : bool := (code a =? 10) || (code a =? 13).

Fixpoint dropNewlines (s : string) : string :=
  match s with
  | EmptyString => ""
  | String a s' => if is_newline a then dropNewlines s' else String a (dropNewlines s')
  end.

(** Groups of four; the encoding is not strict, so the spare bits of a padded
    group are ignored. *)
Fixpoint b64groups (s : string) : option string :=
  match s with
  | EmptyString => Some ""
  | String a (String b (String c (String d s'))) =>
      match b64value a, b64value b with
      | Some va, Some vb =>
          let x := byteOf (va * 4 + vb / 16) in
          if Ascii.eqb c "=" then if Ascii.eqb d "=" && String.eqb s' "" then Some (String x "") else None
          else match b64value c with
          | None => None
          | Some vc =>
              let y := byteOf (vb mod 16 * 16 + vc / 4) in
              if Ascii.eqb d "=" then if String.eqb s' "" then Some (String x (String y "")) else None
              else match b64value d with
              | None => None
              | Some vd =>
                  (λ r, String x (String y (String (byteOf (vc mod 4 * 64 + vd)) r))) <$> b64groups s'
              end
          end
      | _, _ => None
      end
  | _ => None
  end.

Definition b64decode (s : string) : option string := b64groups (dropNewlines s).

Example b64_examples :
  b64encode "any carnal pleas" = "YW55IGNhcm5hbCBwbGVhcw==" ∧
  b64decode "YW55IGNhcm5hbCBwbGVhcw==" = Some "any carnal pleas" ∧
  b64decode "YR==" = Some "a" ∧ b64decode "YQ=" = None ∧ b64decode "YQ==YQ==" = None.
Proof. vm_compute. done. Qed.

(** ** Reading back *)

Lemma byteOf_code a : byteOf (code a) = a.
Proof. unfold byteOf, code. by rewrite N2Z.id, ascii_N_embedding. Qed.

Lemma code_bounds a : 0 ≤ code a < 256.
Proof. unfold code. pose proof (N_ascii_bounded a). lia. Qed.

Definition digit_ok (n : Z) : Prop :=
  b64value (b64digit n) = Some n ∧ is_newline (b64digit n) = false ∧ Ascii.eqb (b64digit n) "=" = false ∧
  code (b64digit n) < 128.

Lemma digit_check : Forall (λ n : nat, digit_ok (Z.of_nat n)) (seq 0 64).
Proof. unfold digit_ok. apply (bool_decide_unpack _). vm_compute. exact I. Qed.

Lemma digit_spec n : 0 ≤ n < 64 → digit_ok n.
Proof.
  intros Hn. pose proof digit_check as H. rewrite Forall_forall in H.
  specialize (H (Z.to_nat n)). rewrite Z2Nat.id in H by lia. apply H, elem_of_seq. lia.
Qed.

(** Three bytes at a time. *)
Lemma string_ind3 (P : string → Prop) :
  P "" → (∀ a, P (String a "")) → (∀ a b, P (String a (String b ""))) →
  (∀ a b c s, P s → P (String a (String b (String c s)))) → ∀ s, P s.
Proof.
  intros H0 H1 H2 H3 s. remember (slen s) as n eqn:En. revert s En.
  induction n as [n IH] using lt_wf_ind. intros s ->. destruct s as [|a [|b [|c s]]]; auto.
  apply H3. apply (IH (slen s)); [simpl; lia|done].
Qed.

Lemma b64_roundtrip s : b64decode (b64encode s) = Some s.
Proof.
  unfold b64decode. induction s as [|a|a b|a b c s IH] using string_ind3; [done|..];
    pose proof (code_bounds a); try pose proof (code_bounds b); try pose proof (code_bounds c); cbn [b64encode].
  - destruct (digit_spec (code a / 4)) as (V1&N1&_&_); [Z.div_mod_to_equations; lia|].
    destruct (digit_spec (code a mod 4 * 16)) as (V2&N2&_&_); [Z.div_mod_to_equations; lia|].
    cbn [dropNewlines]. rewrite N1, N2. change (is_newline "=") with false. cbn [b64groups].
    rewrite V1, V2. simpl. rewrite Z.div_mul, Z.mul_comm, <- Z.div_mod by lia. by rewrite byteOf_code.
  - destruct (digit_spec (code a / 4)) as (V1&N1&_&_); [Z.div_mod_to_equations; lia|].
    destruct (digit_spec (code a mod 4 * 16 + code b / 16)) as (V2&N2&_&_); [Z.div_mod_to_equations; lia|].
    destruct (digit_spec (code b mod 16 * 4)) as (V3&N3&E3&_); [Z.div_mod_to_equations; lia|].
    cbn [dropNewlines]. rewrite N1, N2, N3. change (is_newline "=") with false. cbn [b64groups].
    rewrite V1, V2, V3, E3. simpl. do 2 f_equal; [|f_equal]; rewrite <- byteOf_code; f_equal; Z.div_mod_to_equations; lia.
  - destruct (digit_spec (code a / 4)) as (V1&N1&_&_); [Z.div_mod_to_equations; lia|].
    destruct (digit_spec (code a mod 4 * 16 + code b / 16)) as (V2&N2&_&_); [Z.div_mod_to_equations; lia|].
    destruct (digit_spec (code b mod 16 * 4 + code c / 64)) as (V3&N3&E3&_); [Z.div_mod_to_equations; lia|].
    destruct (digit_spec (code c mod 64)) as (V4&N4&E4&_); [Z.div_mod_to_equations; lia|].
    cbn [dropNewlines]. rewrite N1, N2, N3, N4. cbn [b64groups].
    rewrite V1, V2, V3, E3, V4, E4, IH. simpl.
    do 2 f_equal; [|f_equal; [|f_equal]]; rewrite <- byteOf_code; f_equal; Z.div_mod_to_equations; lia.
Qed.

(** The text is ASCII. *)
Lemma b64encode_ascii s a : has_byte a (b64encode s) = true → code a < 128.
Proof.
  induction s as [|x|x y|x y z s IH] using string_ind3; [done|..]; pose proof (code_bounds x);
    try pose proof (code_bounds y); try pose proof (code_bounds z); cbn [b64encode has_byte];
    rewrite ?orb_true_iff, ?Ascii.eqb_eq; intros Hb;
    repeat match type of Hb with _ ∨ _ => destruct Hb as [Hb|Hb] end; subst; try done; try (by apply IH);
    apply digit_spec; Z.div_mod_to_equations; lia.
Qed.
