(* ===== verification/Json.v ===== *)
(** encoding/json: JSON texts as the package writes and reads them.  Values are
    printed compactly, with the HTML-safe escapes of [json.Marshal]; the parser
    takes every JSON text.  What is printed is parsed back. *)

From Stdlib Require Import ZArith Lia Ascii.
From stdpp Require Import base option list sets strings.
From S2P Require Import Prelude.
From S2P Require Import GoStd.
From S2P Require Import Duration.
From S2P Require Import Net.
From S2P Require Import Utf8.
From S2P Require Import Sys.
From S2P Require Import Paths.
From S2P Require Import Retry.
From S2P Require Import Mtls.

Open Scope Z_scope.

(** A number is kept as its literal. *)
Inductive json :=
  | JNull
  | JBool (b : bool)
  | JNumber (lit : string)
  | JString (s : string)
  | JArray (l : list json)
  | JObject (l : list (string * json)).

Definition chr (n : nat) : ascii := ascii_of_nat n.
Definition dquote : ascii := chr 34.
Definition backslash : ascii := chr 92.

(** ** Writing *)

Definition hexDigit (n : Z) : ascii := ascii_of_N (Z.to_N (if n <? 10 then 48 + n else 87 + n)).

(** The escapes below 128; '<', '>' and '&' are escaped too. *)
Definition escapeByte (a : ascii) : string :=
  let c := code a in
  let esc e := String backslash (String e "") in
  if (c =? 34) || (c =? 92) then esc a
  else if c =? 8 then esc "b"%char
  else if c =? 12 then esc "f"%char
  else if c =? 10 then esc "n"%char
  else if c =? 13 then esc "r"%char
  else if c =? 9 then esc "t"%char
  else if (c <? 32) || (c =? 60) || (c =? 62) || (c =? 38) then
    String backslash ("u00" +:+ String (hexDigit (c / 16)) (String (hexDigit (c mod 16)) ""))
  else String a "".

(** U+2028 and U+2029. *)
Definition separator (r : string) : option string :=
  if String.eqb r (String (chr 226) (String (chr 128) (String (chr 168) ""))) then Some (String backslash "u2028")
  else if String.eqb r (String (chr 226) (String (chr 128) (String (chr 169) ""))) then Some (String backslash "u2029")
  else None.

(** An invalid byte becomes the replacement character. *)
Fixpoint quoteLoop (fuel : nat) (s : string) : string :=
  match fuel, s with
  | O, _ | _, EmptyString => ""
  | S fuel', String a s' =>
      if code a <? 128 then escapeByte a +:+ quoteLoop fuel' s'
      else match runeLen s with
      | O => String backslash "ufffd" +:+ quoteLoop fuel' s'
      | n => default (str_take n s) (separator (str_take n s)) +:+ quoteLoop fuel' (str_drop n s)
      end
  end.

Definition quoteBody (s : string) : string := quoteLoop (slen s) s.
Definition quote (s : string) : string := String dquote (quoteBody s +:+ String dquote "").

Fixpoint print (j : json) : string :=
  match j with
  | JNull => "null"
  | JBool true => "true"
  | JBool false => "false"
  | JNumber lit => lit
  | JString s => quote s
  | JArray l => "[" +:+ (Join (List.map print l) "," +:+ "]")
  | JObject l => "{" +:+ (Join (List.map (λ kv, quote kv.1 +:+ (":" +:+ print kv.2)) l) "," +:+ "}")
  end.

(** ** Reading strings *)

(** The UTF-8 encoding of a code point. *)
Definition encodeRune (r : Z) : string :=
  let byte z := ascii_of_N (Z.to_N z) in
  if r <? 128 then String (byte r) ""
  else if r <? 2048 then String (byte (192 + r / 64)) (String (byte (128 + r mod 64)) "")
  else if r <? 65536 then
    String (byte (224 + r / 4096)) (String (byte (128 + r / 64 mod 64)) (String (byte (128 + r mod 64)) ""))
  else String (byte (240 + r / 262144)) (String (byte (128 + r / 4096 mod 64))
         (String (byte (128 + r / 64 mod 64)) (String (byte (128 + r mod 64)) ""))).

Definition replacement : string := encodeRune 65533.

(** Four hexadecimal digits. *)
Definition getu4 (s : string) : option (Z * string) :=
  match s with
  | String a (String b (String c (String d r))) =>
      match hex_val a, hex_val b, hex_val c, hex_val d with
      | Some a, Some b, Some c, Some d => Some (a * 4096 + b * 256 + c * 16 + d, r)
      | _, _, _, _ => None
      end
  | _ => None
  end.

Definition isSurrogate (r : Z) : bool := (55296 <=? r) && (r <=? 57343).

(** What follows [\u]: a pair of surrogates is one code point, a lone one is
    replaced. *)
Definition unquoteU (s : string) : option (string * string) :=
  match getu4 s with
  | None => None
  | Some (rr, r) =>
      if isSurrogate rr then
        match r with
        | String b (String u r1) =>
            if Ascii.eqb b backslash && Ascii.eqb u "u" then
              match getu4 r1 with
              | Some (rr1, r2) =>
                  if (rr <? 56320) && (56320 <=? rr1) && (rr1 <=? 57343)
                  then Some (encodeRune (65536 + (rr - 55296) * 1024 + (rr1 - 56320)), r2)
                  else Some (replacement, r)
              | None => Some (replacement, r)
              end
            else Some (replacement, r)
        | _ => Some (replacement, r)
        end
      else Some (encodeRune rr, r)
  end.

(** What follows a backslash. *)
Definition unescape (s : string) : option (string * string) :=
  match s with
  | EmptyString => None
  | String e r =>
      let one a := Some (String a "", r) in
      if Ascii.eqb e dquote || Ascii.eqb e backslash || Ascii.eqb e "/" then one e
      else if Ascii.eqb e "b" then one (chr 8)
      else if Ascii.eqb e "f" then one (chr 12)
      else if Ascii.eqb e "n" then one (chr 10)
      else if Ascii.eqb e "r" then one (chr 13)
      else if Ascii.eqb e "t" then one (chr 9)
      else if Ascii.eqb e "u" then unquoteU r
      else None
  end.

Definition prepend (p : string) (x : string * string) : string * string := (p +:+ x.1, x.2).

(** The rest of a string literal after its opening quote. *)
Fixpoint unquote (fuel : nat) (s : string) : option (string * string) :=
  match fuel, s with
  | O, _ | _, EmptyString => None
  | S fuel', String a s' =>
      if Ascii.eqb a dquote then Some ("", s')
      else if Ascii.eqb a backslash then
        match unescape s' with
        | Some (d, r) => prepend d <$> unquote fuel' r
        | None => None
        end
      else if code a <? 32 then None
      else if code a <? 128 then prepend (String a "") <$> unquote fuel' s'
      else match runeLen s with
      | O => prepend replacement <$> unquote fuel' s'
      | n => prepend (str_take n s) <$> unquote fuel' (str_drop n s)
      end
  end.

(** ** Reading values *)

Definition is_ws (a : ascii) : bool := (code a =? 32) || (code a =? 9) || (code a =? 10) || (code a =? 13).

Fixpoint skipWs (s : string) : string :=
  match s with String a s' => if is_ws a then skipWs s' else s | EmptyString => s end.

Fixpoint scanDigits (s : string) : string * string :=
  match s with
  | String a s' => if is_digit a then let '(d, r) := scanDigits s' in (String a d, r) else ("", s)
  | EmptyString => ("", "")
  end.

(** One or more digits. *)
Definition scanDigits1 (s : string) : option (string * string) :=
  let '(d, r) := scanDigits s in if String.eqb d "" then None else Some (d, r).

Definition scanInt (s : string) : option (string * string) :=
  match s with
  | String a s' => if Ascii.eqb a "0" then Some ("0", s') else scanDigits1 s
  | EmptyString => None
  end.

Definition scanFrac (s : string) : option (string * string) :=
  match s with
  | String a s' => if Ascii.eqb a "." then prepend "." <$> scanDigits1 s' else Some ("", s)
  | EmptyString => Some ("", "")
  end.

Definition scanExp (s : string) : option (string * string) :=
  match s with
  | String e s' =>
      if Ascii.eqb e "e" || Ascii.eqb e "E" then
        match s' with
        | String g s'' =>
            if Ascii.eqb g "+" || Ascii.eqb g "-" then prepend (String e (String g "")) <$> scanDigits1 s''
            else prepend (String e "") <$> scanDigits1 s'
        | EmptyString => None
        end
      else Some ("", s)
  | EmptyString => Some ("", "")
  end.

Definition scanUnsigned (s : string) : option (string * string) :=
  match scanInt s with
  | None => None
  | Some (i, s) =>
      match scanFrac s with
      | None => None
      | Some (f, s) => prepend (i +:+ f) <$> scanExp s
      end
  end.

Definition scanNumber (s : string) : option (string * string) :=
  match s with
  | String a s' => if Ascii.eqb a "-" then prepend "-" <$> scanUnsigned s' else scanUnsigned s
  | EmptyString => None
  end.

Definition literal (lit : string) (j : json) (s : string) : option (json * string) :=
  if HasPrefix s lit then Some (j, str_drop (slen lit) s) else None.

Fixpoint parseValue (fuel : nat) (s : string) {struct fuel} : option (json * string) :=
  match fuel with
  | O => None
  | S fuel' =>
      let s := skipWs s in
      match s with
      | EmptyString => None
      | String a s' =>
          if Ascii.eqb a dquote then (λ x, (JString x.1, x.2)) <$> unquote (slen s') s'
          else if Ascii.eqb a "[" then
            match skipWs s' with
            | String b r =>
                if Ascii.eqb b "]" then Some (JArray [], r)
                else (λ x, (JArray x.1, x.2)) <$> parseElems fuel' s'
            | EmptyString => None
            end
          else if Ascii.eqb a "{" then
            match skipWs s' with
            | String b r =>
                if Ascii.eqb b "}" then Some (JObject [], r)
                else (λ x, (JObject x.1, x.2)) <$> parseMembers fuel' s'
            | EmptyString => None
            end
          else if Ascii.eqb a "n" then literal "null" JNull s
          else if Ascii.eqb a "t" then literal "true" (JBool true) s
          else if Ascii.eqb a "f" then literal "false" (JBool false) s
          else (λ x, (JNumber x.1, x.2)) <$> scanNumber s
      end
  end
with parseElems (fuel : nat) (s : string) {struct fuel} : option (list json * string) :=
  match fuel with
  | O => None
  | S fuel' =>
      match parseValue fuel' s with
      | None => None
      | Some (x, r) =>
          match skipWs r with
          | String a r' =>
              if Ascii.eqb a "," then (λ y, (x :: y.1, y.2)) <$> parseElems fuel' r'
              else if Ascii.eqb a "]" then Some ([x], r') else None
          | EmptyString => None
          end
      end
  end
with parseMembers (fuel : nat) (s : string) {struct fuel} : option (list (string * json) * string) :=
  match fuel with
  | O => None
  | S fuel' =>
      match skipWs s with
      | EmptyString => None
      | String q s' =>
          if Ascii.eqb q dquote then
            match unquote (slen s') s' with
            | None => None
            | Some (k, r) =>
                match skipWs r with
                | EmptyString => None
                | String c r1 =>
                    if Ascii.eqb c ":" then
                      match parseValue fuel' r1 with
                      | None => None
                      | Some (x, r2) =>
                          match skipWs r2 with
                          | String a r3 =>
                              if Ascii.eqb a "," then (λ y, ((k, x) :: y.1, y.2)) <$> parseMembers fuel' r3
                              else if Ascii.eqb a "}" then Some ([(k, x)], r3) else None
                          | EmptyString => None
                          end
                      end
                    else None
                end
            end
          else None
      end
  end.

(** The first value of a text, and what follows it ([Decoder.Decode]); every
    value needs less fuel than it has bytes. *)
Definition parseFirst (s : string) : option (json * string) := parseValue (S (slen s)) s.

(** The value of a text that holds nothing else ([json.Unmarshal]). *)
Definition parseText (s : string) : option json :=
  match parseFirst s with
  | Some (j, r) => if String.eqb (skipWs r) "" then Some j else None
  | None => None
  end.

Example json_examples :
  parseText (print (JObject [("domains", JArray [JString "a.example.com"; JString "<&>"]); ("n", JNumber "-12")])) =
    Some (JObject [("domains", JArray [JString "a.example.com"; JString "<&>"]); ("n", JNumber "-12")]).
Proof. vm_compute. reflexivity. Qed.

Example parse_spaces :
  parseText " [ 1.5e3 , true,null , { } ] " = Some (JArray [JNumber "1.5e3"; JBool true; JNull; JObject []]) ∧
  parseText "[1,]" = None ∧ parseText "01" = None.
Proof. vm_compute. done. Qed.

(** ** Strings are read back *)

Lemma unquote_escape a fuel t : code a < 128 →
  unquote (S fuel) (escapeByte a +:+ t) = prepend (String a "") <$> unquote fuel t.
Proof.
  intros Ha. destruct a as [[] [] [] [] [] [] [] []]; try (exfalso; vm_compute in Ha; discriminate); reflexivity.
Qed.

Lemma unquote_separator r e fuel t : separator r = Some e →
  unquote (S fuel) (e +:+ t) = prepend r <$> unquote fuel t.
Proof.
  unfold separator. intros Hs. case_match eqn:E1; [apply String.eqb_eq in E1 as ->; by injection Hs as <-|].
  case_match eqn:E2; [|done]. apply String.eqb_eq in E2 as ->. by injection Hs as <-.
Qed.

Lemma prepend_prepend p q x : prepend p (prepend q x) = prepend (p +:+ q) x.
Proof. unfold prepend. simpl. by rewrite app_string_assoc. Qed.

Lemma quoteLoop_read s : ValidString s = true → ∀ fuel fuel' rest, (slen s ≤ fuel)%nat → (slen s < fuel')%nat →
  unquote fuel' (quoteLoop fuel s +:+ String dquote rest) = Some (s, rest).
Proof.
  revert s. apply (ValidString_ind (λ s, ∀ fuel fuel' rest, (slen s ≤ fuel)%nat → (slen s < fuel')%nat →
    unquote fuel' (quoteLoop fuel s +:+ String dquote rest) = Some (s, rest))).
  - intros fuel fuel' rest _ Hf. destruct fuel' as [|fuel']; [simpl in Hf; lia|]. by destruct fuel.
  - intros a t Ha _ IH fuel fuel' rest Hf Hf'. unfold slen in *. simpl in *.
    destruct fuel as [|fuel]; [lia|]. destruct fuel' as [|fuel']; [lia|].
    cbn [quoteLoop]. rewrite (proj2 (Z.ltb_lt _ _) Ha), <- app_string_assoc, unquote_escape, IH by (done || lia). done.
  - intros r t Hr _ IH fuel fuel' rest Hf Hf'. rewrite slen_app in *.
    destruct (multibyte_head r Hr) as (a&r'&Er&Ha&Hl). pose proof (multibyte_runeLen r t Hr) as Hn.
    assert (Hlen : slen r = S (slen r')) by (by subst r).
    destruct fuel as [|fuel]; [lia|]. destruct fuel' as [|fuel']; [lia|].
    assert (Eq : quoteLoop (S fuel) (r +:+ t) = default r (separator r) +:+ quoteLoop fuel t).
    { rewrite Er at 1. rewrite app_String. cbn [quoteLoop].
      rewrite (proj2 (Z.ltb_ge _ _) Ha), <- app_String, <- Er, Hn, Hlen. rewrite <- Hlen, str_take_app, str_drop_app. done. }
    rewrite Eq, <- app_string_assoc. destruct (separator r) as [e|] eqn:Es; simpl default.
    + rewrite (unquote_separator r e fuel' _ Es), IH by lia. done.
    + rewrite Er at 1. rewrite app_String. cbn [unquote].
      assert (Ascii.eqb a dquote = false ∧ Ascii.eqb a backslash = false) as [-> ->].
      { split; apply Ascii.eqb_neq; intros ->; vm_compute in Ha; by apply Ha. }
      rewrite (proj2 (Z.ltb_ge (code a) 32)), (proj2 (Z.ltb_ge (code a) 128)) by lia.
      rewrite <- app_String, <- Er, (multibyte_runeLen r _ Hr), Hlen, <- Hlen, str_take_app, str_drop_app, IH by lia. done.
Qed.

Lemma quoteBody_len s : ValidString s = true → (slen s ≤ slen (quoteBody s))%nat.
Proof.
  unfold quoteBody. intros Hv. assert (H : ∀ fuel, (slen s ≤ fuel)%nat → (slen s ≤ slen (quoteLoop fuel s))%nat);
    [|by apply H]. revert s Hv. apply (ValidString_ind (λ s, ∀ fuel, (slen s ≤ fuel)%nat → (slen s ≤ slen (quoteLoop fuel s))%nat)).
  - intros fuel _. simpl. lia.
  - intros a t Ha _ IH fuel Hf. unfold slen in *. simpl in *. destruct fuel as [|fuel]; [lia|]. simpl.
    rewrite (proj2 (Z.ltb_lt _ _) Ha). fold (slen (escapeByte a +:+ quoteLoop fuel t)). rewrite slen_app.
    specialize (IH fuel ltac:(lia)). unfold slen in *.
    assert (1 ≤ String.length (escapeByte a))%nat; [|lia]. unfold escapeByte. repeat case_match; simpl; lia.
  - intros r t Hr _ IH fuel Hf. rewrite slen_app in *. destruct (multibyte_head r Hr) as (a&r'&Er&Ha&Hl).
    assert (Hlen : slen r = S (slen r')) by (by subst r).
    destruct fuel as [|fuel]; [lia|]. rewrite Er at 2. rewrite app_String. cbn [quoteLoop].
    rewrite (proj2 (Z.ltb_ge _ _) Ha), <- app_String, <- Er, (multibyte_runeLen r t Hr), Hlen, <- Hlen, str_take_app, str_drop_app.
    rewrite slen_app. specialize (IH fuel ltac:(lia)).
    destruct (separator r) as [e|] eqn:Es; simpl default; [|lia].
    assert (slen e = 6%nat) by (unfold separator in Es; by repeat case_match; simplify_eq). lia.
Qed.

Lemma quote_read s rest : ValidString s = true →
  ∃ s', quote s +:+ rest = String dquote s' ∧ unquote (slen s') s' = Some (s, rest).
Proof.
  intros Hv. unfold quote. rewrite app_String, <- app_string_assoc, app_String, app_nil_string.
  eexists. split; [done|]. apply quoteLoop_read; [done|lia|].
  rewrite slen_app. pose proof (quoteBody_len s Hv). unfold quoteBody, slen in *. simpl. lia.
Qed.

(** ** Values are read back *)

(** A value is not continued by what follows it. *)
Definition stops (rest : string) : Prop :=
  match rest with
  | EmptyString => True
  | String a _ => is_digit a = false ∧ a ≠ "."%char ∧ a ≠ "e"%char ∧ a ≠ "E"%char
  end.

Definition number_ok (lit : string) : Prop :=
  (∃ a s, lit = String a s ∧ (is_digit a = true ∨ a = "-"%char)) ∧
  ∀ rest, stops rest → scanNumber (lit +:+ rest) = Some (lit, rest).

Fixpoint jwf (j : json) : Prop :=
  match j with
  | JNull | JBool _ => True
  | JNumber lit => number_ok lit
  | JString s => ValidString s = true
  | JArray l => foldr (λ x P, jwf x ∧ P) True l
  | JObject l => foldr (λ kv P, ValidString kv.1 = true ∧ jwf kv.2 ∧ P) True l
  end.

Fixpoint jsize (j : json) : nat :=
  match j with
  | JArray l => S (foldr (λ x n, S (jsize x + n)) 0%nat l)
  | JObject l => S (foldr (λ kv n, S (jsize kv.2 + n)) 0%nat l)
  | _ => 1%nat
  end.

Definition elems (l : list json) : string := Join (List.map print l) "," +:+ "]".
Definition members (l : list (string * json)) : string :=
  Join (List.map (λ kv, quote kv.1 +:+ (":" +:+ print kv.2)) l) "," +:+ "}".

Lemma elems_cons x l rest : elems (x :: l) +:+ rest =
  print x +:+ (match l with [] => "]" +:+ rest | _ => "," +:+ (elems l +:+ rest) end).
Proof. unfold elems, Join. destruct l; simpl; by rewrite <- !app_string_assoc. Qed.

Lemma members_cons k x l rest : members ((k, x) :: l) +:+ rest =
  quote k +:+ (":" +:+ (print x +:+ (match l with [] => "}" +:+ rest | _ => "," +:+ (members l +:+ rest) end))).
Proof. unfold members, Join. destruct l; simpl; by rewrite <- !app_string_assoc. Qed.

(** The first byte of a printed value is not a space, a comma or a bracket
    that closes. *)
Definition opens (s : string) : Prop :=
  ∃ a s', s = String a s' ∧ is_ws a = false ∧ a ≠ "]"%char ∧ a ≠ "}"%char.

Lemma print_opens j rest : jwf j → opens (print j +:+ rest).
Proof.
  unfold opens. destruct j as [|[]|lit|s|l|l]; intros Hj; simpl; rewrite ?app_String.
  - eexists _, _; by split_all.
  - eexists _, _; by split_all.
  - eexists _, _; by split_all.
  - destruct Hj as [(a&s&->&Ha) _]. rewrite app_String. eexists _, _. split; [done|].
    destruct Ha as [Ha| ->]; [|by split_all]. split_all; [|by intros ->|by intros ->].
    unfold is_digit in Ha. unfold is_ws, code. apply andb_true_iff in Ha as [Ha1 Ha2].
    apply N.leb_le in Ha1, Ha2. rewrite !orb_false_iff, !Z.eqb_neq. lia.
  - unfold quote. rewrite app_String. eexists _, _; by split_all.
  - eexists _, _; by split_all.
  - eexists _, _; by split_all.
Qed.

Lemma skipWs_opens s : opens s → skipWs s = s.
Proof. intros (a&s'&->&Hw&_). simpl. by rewrite Hw. Qed.

Lemma stops_close a rest : a ∈ [","; "]"; "}"]%char → stops (String a rest).
Proof. rewrite !elem_of_cons, elem_of_nil. intros [->|[->|[->|[]]]]; by split_all. Qed.

Lemma literal_read lit j rest : literal lit j (lit +:+ rest) = Some (j, rest).
Proof. unfold literal. rewrite (proj2 (HasPrefix_spec _ _)) by eauto. by rewrite str_drop_app. Qed.

Definition reads (j : json) (n : nat) : Prop :=
  ∀ fuel rest, (n ≤ fuel)%nat → stops rest → parseValue fuel (print j +:+ rest) = Some (j, rest).

Lemma parseElems_read l fuel rest : l ≠ [] → Forall (λ x, jwf x ∧ reads x (jsize x)) l →
  (foldr (λ x n, S (jsize x + n)) 0 l ≤ fuel)%nat →
  parseElems fuel (elems l +:+ rest) = Some (l, rest).
Proof.
  revert fuel. induction l as [|x l IH]; intros fuel Hne Hl Hf; [done|]. apply Forall_cons in Hl as [[Hwf Hx] Hl].
  simpl in Hf. destruct fuel as [|fuel]; [lia|]. cbn [parseElems]. rewrite elems_cons.
  destruct l as [|y l].
  - rewrite Hx; [|lia|by apply stops_close; set_solver]. reflexivity.
  - rewrite Hx; [|lia|by apply stops_close; set_solver]. simpl skipWs. cbn iota.
    change (skipWs ("," +:+ (elems (y :: l) +:+ rest))) with (String "," (elems (y :: l) +:+ rest)).
    cbn. rewrite IH by (done || lia). done.
Qed.

Lemma parseMembers_read l fuel rest : l ≠ [] →
  Forall (λ kv, ValidString kv.1 = true ∧ jwf kv.2 ∧ reads kv.2 (jsize kv.2)) l →
  (foldr (λ kv n, S (jsize kv.2 + n)) 0 l ≤ fuel)%nat →
  parseMembers fuel (members l +:+ rest) = Some (l, rest).
Proof.
  revert fuel. induction l as [|[k x] l IH]; intros fuel Hne Hl Hf; [done|].
  apply Forall_cons in Hl as [(Hk&Hwf&Hx) Hl]. simpl in Hk, Hwf, Hx, Hf. destruct fuel as [|fuel]; [lia|].
  rewrite members_cons. set (tail := match l with [] => _ | _ => _ end).
  destruct (quote_read k (":" +:+ (print x +:+ tail)) Hk) as (s'&E&Hu). rewrite E. cbn [parseMembers].
  change (skipWs (String dquote s')) with (String dquote s'). cbn [Ascii.eqb]. rewrite Ascii.eqb_refl, Hu.
  change (skipWs (":" +:+ (print x +:+ tail))) with (String ":" (print x +:+ tail)). cbv iota beta.
  rewrite Ascii.eqb_refl.
  assert (Ht : stops tail) by (unfold tail; destruct l; apply stops_close; set_solver).
  rewrite Hx by (lia || done). unfold tail. destruct l as [|y l]; [done|].
  change (skipWs ("," +:+ (members (y :: l) +:+ rest))) with (String "," (members (y :: l) +:+ rest)).
  cbv iota beta. rewrite Ascii.eqb_refl, IH by (done || lia). done.
Qed.

Lemma foldr_jwf l : foldr (λ x P, jwf x ∧ P) True l → Forall jwf l.
Proof. induction l; simpl; [done|]. intros [? ?]. constructor; auto. Qed.

Lemma foldr_jwf_members l : foldr (λ kv P, ValidString kv.1 = true ∧ jwf kv.2 ∧ P) True l →
  Forall (λ kv, ValidString kv.1 = true ∧ jwf kv.2) l.
Proof. induction l; simpl; [done|]. intros (?&?&?). constructor; auto. Qed.

Lemma size_elem x l : x ∈ l → (jsize x < foldr (λ x n, S (jsize x + n)) 0 l)%nat.
Proof. induction l as [|y l IH]; [by intros ?%elem_of_nil|]. simpl. intros [->|?%IH]%elem_of_cons; lia. Qed.

Lemma size_member kv (l : list (string * json)) : kv ∈ l → (jsize kv.2 < foldr (λ kv n, S (jsize kv.2 + n)) 0 l)%nat.
Proof. induction l as [|y l IH]; [by intros ?%elem_of_nil|]. simpl. intros [->|?%IH]%elem_of_cons; lia. Qed.

(** The head of an array or an object that is not empty is not its end. *)
Lemma elems_opens l rest : l ≠ [] → Forall jwf l → opens (elems l +:+ rest).
Proof.
  destruct l as [|x l]; [done|]. intros _ [Hx _]%Forall_cons. rewrite elems_cons. by apply print_opens.
Qed.

Lemma members_opens l rest : l ≠ [] → opens (members l +:+ rest).
Proof.
  destruct l as [|[k x] l]; [done|]. intros _. rewrite members_cons. unfold quote. rewrite app_String.
  eexists _, _. by split_all.
Qed.

Lemma print_reads j : jwf j → reads j (jsize j).
Proof.
  remember (jsize j) as n eqn:En. revert j En. induction n as [n IH] using lt_wf_ind. intros j -> Hj fuel rest Hf Hs.
  destruct fuel as [|fuel]; [destruct j; simpl in Hf; lia|].
  pose proof (print_opens j rest Hj) as Ho. cbn [parseValue]. rewrite (skipWs_opens _ Ho).
  destruct j as [|[]|lit|s|l|l].
  - apply (literal_read "null" JNull).
  - apply (literal_read "true" (JBool true)).
  - apply (literal_read "false" (JBool false)).
  - destruct Hj as [(a&s&->&Ha) Hscan]. specialize (Hscan rest Hs). cbn [print] in *. rewrite app_String in *.
    assert (Hne : ∀ b, is_digit b = false → b ≠ "-"%char → Ascii.eqb a b = false)
      by (intros b Hb Hb'; apply Ascii.eqb_neq; intros ->; destruct Ha; congruence).
    rewrite !Hne by (done || discriminate). by rewrite Hscan.
  - simpl print. destruct (quote_read s rest Hj) as (s'&->&Hu). by rewrite Ascii.eqb_refl, Hu.
  - change (print (JArray l)) with ("[" +:+ elems l). rewrite <- app_string_assoc.
    change ("[" +:+ (elems l +:+ rest)) with (String "[" (elems l +:+ rest)).
    destruct (decide (l = [])) as [->|Hne]; [done|]. simpl in Hj. apply foldr_jwf in Hj.
    pose proof (elems_opens l rest Hne Hj) as Hol. pose proof (skipWs_opens _ Hol) as Hw.
    assert (Hall : Forall (λ x, jwf x ∧ reads x (jsize x)) l).
    { rewrite Forall_forall in *. intros x Hx. split; [by apply Hj|]. eapply IH; [|done|by apply Hj].
      simpl. pose proof (size_elem x l Hx). lia. }
    simpl in Hf. pose proof (parseElems_read l fuel rest Hne Hall ltac:(lia)) as He.
    destruct Hol as (a&s'&E&_&Hb&_). cbn. rewrite Hw, E. rewrite (proj2 (Ascii.eqb_neq _ _) Hb), <- E, He. done.
  - change (print (JObject l)) with ("{" +:+ members l). rewrite <- app_string_assoc.
    change ("{" +:+ (members l +:+ rest)) with (String "{" (members l +:+ rest)).
    destruct (decide (l = [])) as [->|Hne]; [done|]. simpl in Hj. apply foldr_jwf_members in Hj.
    pose proof (members_opens l rest Hne) as Hol. pose proof (skipWs_opens _ Hol) as Hw.
    assert (Hall : Forall (λ kv, ValidString kv.1 = true ∧ jwf kv.2 ∧ reads kv.2 (jsize kv.2)) l).
    { rewrite Forall_forall in *. intros x Hx. destruct (Hj x Hx) as [Hk Hv]. split_all; [done..|]. eapply IH; [|done|done].
      simpl. pose proof (size_member x l Hx). lia. }
    simpl in Hf. pose proof (parseMembers_read l fuel rest Hne Hall ltac:(lia)) as He.
    destruct Hol as (a&s'&E&_&_&Hb). cbn. rewrite Hw, E. rewrite (proj2 (Ascii.eqb_neq _ _) Hb), <- E, He. done.
Qed.

(** ** Whole texts *)

Lemma size_elems l : (∀ x, x ∈ l → jsize x ≤ slen (print x))%nat →
  (foldr (λ x n, S (jsize x + n)) 0 l < slen (elems l) + 1)%nat.
Proof.
  induction l as [|x l IH]; intros Hl; [simpl; lia|].
  assert (E : slen (elems (x :: l)) = (slen (print x) + (if l is [] then 1 else S (slen (elems l))))%nat).
  { rewrite <- (app_nil_r_string (elems (x :: l))), elems_cons, slen_app. f_equal. destruct l; [done|].
    by rewrite app_nil_r_string. }
  rewrite E. simpl foldr. specialize (IH (λ y Hy, Hl y (list_elem_of_further _ _ _ Hy))).
  pose proof (Hl x (list_elem_of_here _ _)). destruct l; simpl in *; lia.
Qed.

Lemma size_members l : (∀ kv, kv ∈ l → jsize kv.2 ≤ slen (print kv.2))%nat →
  (foldr (λ kv n, S (jsize kv.2 + n)) 0 l < slen (members l) + 1)%nat.
Proof.
  induction l as [|[k x] l IH]; intros Hl; [simpl; lia|].
  assert (E : slen (members ((k, x) :: l)) =
    (slen (quote k) + S (slen (print x) + (if l is [] then 1 else S (slen (members l)))))%nat).
  { rewrite <- (app_nil_r_string (members ((k, x) :: l))), members_cons, !slen_app. f_equal.
    change (slen ":") with 1%nat. simpl. f_equal. f_equal. destruct l; [done|]. by rewrite app_nil_r_string. }
  rewrite E. simpl foldr. specialize (IH (λ y Hy, Hl y (list_elem_of_further _ _ _ Hy))).
  pose proof (Hl (k, x) (list_elem_of_here _ _)). destruct l; simpl in *; lia.
Qed.

Lemma size_print j : jwf j → (jsize j ≤ slen (print j))%nat.
Proof.
  remember (jsize j) as n eqn:En. revert j En. induction n as [n IH] using lt_wf_ind. intros j -> Hj.
  destruct j as [|[]|lit|s|l|l]; try (simpl; lia).
  - destruct Hj as [(a&s&->&_) _]. simpl. lia.
  - simpl in Hj. apply foldr_jwf in Hj. rewrite Forall_forall in Hj.
    change (print (JArray l)) with ("[" +:+ elems l). rewrite slen_app. change (slen "[") with 1%nat.
    assert (H : (foldr (λ x n, S (jsize x + n)) 0 l < slen (elems l) + 1)%nat).
    { apply size_elems. intros x Hx. eapply IH; [|done|by apply Hj]. simpl. pose proof (size_elem x l Hx). lia. }
    simpl. lia.
  - simpl in Hj. apply foldr_jwf_members in Hj. rewrite Forall_forall in Hj.
    change (print (JObject l)) with ("{" +:+ members l). rewrite slen_app. change (slen "{") with 1%nat.
    assert (H : (foldr (λ kv n, S (jsize kv.2 + n)) 0 l < slen (members l) + 1)%nat).
    { apply size_members. intros x Hx. eapply IH; [|done|by apply Hj]. simpl. pose proof (size_member x l Hx). lia. }
    simpl. lia.
Qed.

(** Printing and parsing are inverse, also when more text follows a value. *)
Lemma parseFirst_print j rest : jwf j → stops rest → parseFirst (print j +:+ rest) = Some (j, rest).
Proof.
  intros Hj Hs. unfold parseFirst. apply print_reads; [done| |done].
  rewrite slen_app. pose proof (size_print j Hj). lia.
Qed.

Theorem parseText_print j : jwf j → parseText (print j) = Some j.
Proof.
  intros Hj. unfold parseText. rewrite <- (app_nil_r_string (print j)), parseFirst_print by done. done.
Qed.

(** ** Integers *)

Lemma scanDigits_app d rest : (∀ a, has_byte a d = true → is_digit a = true) → stops rest →
  scanDigits (d +:+ rest) = (d, rest).
Proof.
  induction d as [|a d IH]; intros Hd Hs.
  - destruct rest as [|b rest]; [done|]. rewrite app_nil_string. simpl. destruct Hs as [-> _]. done.
  - rewrite app_String. simpl. rewrite Hd by (simpl; by rewrite Ascii.eqb_refl).
    rewrite IH; [done| |done]. intros b Hb. apply Hd. simpl. by rewrite Hb, orb_true_r.
Qed.

Lemma scanRest rest : stops rest → scanFrac rest = Some ("", rest) ∧ scanExp rest = Some ("", rest).
Proof.
  destruct rest as [|a rest]; [done|]. intros (_&H1&H2&H3). simpl.
  by rewrite (proj2 (Ascii.eqb_neq _ _) H1), (proj2 (Ascii.eqb_neq _ _) H2), (proj2 (Ascii.eqb_neq _ _) H3).
Qed.

(** Decimal digits without a leading zero. *)
Definition decimal (d : string) : Prop :=
  d = "0" ∨ ∃ a s, d = String a s ∧ a ≠ "0"%char ∧ ∀ b, has_byte b d = true → is_digit b = true.

Lemma scanUnsigned_read d rest : decimal d → stops rest → scanUnsigned (d +:+ rest) = Some (d, rest).
Proof.
  intros Hd Hs. destruct (scanRest rest Hs) as [Hf He]. unfold scanUnsigned.
  assert (Hi : scanInt (d +:+ rest) = Some (d, rest)).
  { destruct Hd as [->|(a&s&->&Ha&Hall)]; [done|]. unfold scanInt. rewrite app_String.
    rewrite (proj2 (Ascii.eqb_neq _ _) Ha). unfold scanDigits1. by rewrite <- app_String, scanDigits_app. }
  rewrite Hi, Hf, He. unfold prepend. simpl. by rewrite !app_nil_r_string.
Qed.

Lemma number_ok_decimal d : decimal d → number_ok d ∧ number_ok ("-" +:+ d).
Proof.
  intros Hd. assert (Hhead : ∃ a s, d = String a s ∧ is_digit a = true).
  { destruct Hd as [->|(a&s&->&_&Hall)]; [by exists "0"%char, ""|]. exists a, s. split; [done|].
    apply Hall. simpl. by rewrite Ascii.eqb_refl. }
  destruct Hhead as (a&s&E&Ha). split; split.
  - exists a, s. auto.
  - intros rest Hs. unfold scanNumber. rewrite E at 1. rewrite app_String. cbv iota beta.
    destruct (Ascii.eqb_spec a "-") as [->|_]; [done|]. by apply scanUnsigned_read.
  - exists "-"%char, d. split; [done|by right].
  - intros rest Hs. rewrite <- app_string_assoc. change ("-" +:+ (d +:+ rest)) with (String "-" (d +:+ rest)).
    unfold scanNumber. rewrite Ascii.eqb_refl, scanUnsigned_read by done. done.
Qed.

Lemma decDigits_decimal fuel : ∀ n acc, 0 < n < 2 ^ Z.of_nat fuel → (∀ b, has_byte b acc = true → is_digit b = true) →
  ∃ a s, decDigits fuel n acc = String a s ∧ a ≠ "0"%char ∧
    ∀ b, has_byte b (decDigits fuel n acc) = true → is_digit b = true.
Proof.
  induction fuel as [|fuel IH]; intros n acc Hn Hacc; [simpl in Hn; lia|]. cbn [decDigits].
  assert (Hcons : ∀ m b, 0 ≤ m < 10 → has_byte b (String (digit_ascii m) acc) = true → is_digit b = true).
  { intros m b Hm. simpl. intros [Hb%Ascii.eqb_eq|Hb]%orb_true_iff; [|by apply Hacc].
    subst b. by apply digit_ascii_spec. }
  destruct (n <? 10) eqn:E; bool_simp.
  - exists (digit_ascii n), acc. split_all; [done| |intros b; apply Hcons; lia].
    intros E0. destruct (digit_ascii_spec n ltac:(lia)) as [_ Hd]. rewrite E0 in Hd. vm_compute in Hd. lia.
  - rewrite Nat2Z.inj_succ, Z.pow_succ_r in Hn by lia.
    pose proof (Z.div_mod n 10 ltac:(lia)). pose proof (Z.mod_pos_bound n 10 ltac:(lia)).
    apply IH; [lia|]. intros b. by apply Hcons.
Qed.

Lemma number_ok_int n : number_ok (bigString n).
Proof.
  assert (Hd : decimal (decDigits (S (Z.to_nat (Z.log2 (Z.abs n)))) (Z.abs n) "")).
  { destruct (decide (n = 0)) as [->|Hn]; [by left|]. right.
    destruct (decDigits_decimal (S (Z.to_nat (Z.log2 (Z.abs n)))) (Z.abs n) "") as (a&s&E&Ha&Hall); [|done|by exists a, s].
    split; [lia|]. rewrite Nat2Z.inj_succ, Z2Nat.id by apply Z.log2_nonneg. apply Z.log2_spec. lia. }
  apply number_ok_decimal in Hd as [H1 H2]. unfold bigString. by case_match.
Qed.
