(* ===== verification/Rfc3339.v ===== *)
(** time: [Time.MarshalJSON] and [Time.UnmarshalJSON], that is RFC 3339 with
    nanoseconds, on the proleptic Gregorian calendar.  What is written is read
    back to the same instant. *)

From Stdlib Require Import ZArith Lia Ascii.
From stdpp Require Import base option list strings.
From S2P Require Import Prelude.
From S2P Require Import GoStd.
From S2P Require Import Duration.
From S2P Require Import Net.
From S2P Require Import Utf8.
From S2P Require Import Sys.
From S2P Require Import Paths.
From S2P Require Import Retry.
From S2P Require Import Mtls.
From S2P Require Import Json.

Open Scope Z_scope.

Definition Day : Duration := 24 * Hour.

(** ** The calendar *)

Definition isLeap (y : Z) : bool := (y mod 4 =? 0) && (negb (y mod 100 =? 0) || (y mod 400 =? 0)).

(** Year and day of the year of a day counted from January 1 of year 1: 400,
    100, 4 and single years are split off. *)
Definition yearDay (days : Z) : Z * Z :=
  let a := days / 146097 in
  let r := days mod 146097 in
  let b := r / 36524 in let b := b - b / 4 in
  let r := r - 36524 * b in
  let c := r / 1461 in
  let r := r - 1461 * c in
  let d := r / 365 in let d := d - d / 4 in
  (1 + 400 * a + 100 * b + 4 * c + d, r - 365 * d).

Definition monthDays (leap : bool) : list Z := [31; if leap then 29 else 28; 31; 30; 31; 30; 31; 31; 30; 31; 30; 31].

Fixpoint monthLoop (ms : list Z) (month day : Z) : Z * Z :=
  match ms with
  | [] => (month, day)
  | n :: ms' => if day <? n then (month, day + 1) else monthLoop ms' (month + 1) (day - n)
  end.

Definition monthDay (leap : bool) (yday : Z) : Z * Z := monthLoop (monthDays leap) 1 yday.

Definition daysIn (leap : bool) (month : Z) : Z := default 0 (monthDays leap !! Z.to_nat (month - 1)).

(** Days before a month. *)
Definition daysBefore (leap : bool) (month : Z) : Z := foldr Z.add 0 (take (Z.to_nat (month - 1)) (monthDays leap)).

Definition fromCivil (y m d : Z) : Z :=
  let p := y - 1 in 365 * p + p / 4 - p / 100 + p / 400 + daysBefore (isLeap y) m + d - 1.

Lemma yearDay_spec days : let '(y, yd) := yearDay days in
  365 * (y - 1) + (y - 1) / 4 - (y - 1) / 100 + (y - 1) / 400 + yd = days ∧
  0 ≤ yd < 365 + (if isLeap y then 1 else 0).
Proof.
  unfold yearDay. set (a := days / 146097). set (r := days mod 146097).
  assert (Hr : days = 146097 * a + r ∧ 0 ≤ r < 146097)
    by (split; [apply Z.div_mod; lia|apply Z.mod_pos_bound; lia]).
  clearbody a r. destruct Hr as [-> Hr].
  set (b := r / 36524 - r / 36524 / 4).
  assert (Hb : 0 ≤ b ≤ 3 ∧ 0 ≤ r - 36524 * b < 36525 ∧ (b < 3 → r - 36524 * b < 36524))
    by (unfold b; Z.div_mod_to_equations; lia).
  clearbody b. set (r1 := r - 36524 * b) in *. assert (Er : r = 36524 * b + r1) by (unfold r1; lia).
  clearbody r1. subst r.
  set (c := r1 / 1461). assert (Hc : 0 ≤ c ≤ 24 ∧ 0 ≤ r1 - 1461 * c < 1461) by (unfold c; Z.div_mod_to_equations; lia).
  clearbody c. set (r2 := r1 - 1461 * c) in *. assert (Er : r1 = 1461 * c + r2) by (unfold r2; lia).
  clearbody r2. subst r1.
  set (d := r2 / 365 - r2 / 365 / 4).
  assert (Hd : 0 ≤ d ≤ 3 ∧ 0 ≤ r2 - 365 * d < 366 ∧ (r2 - 365 * d = 365 → d = 3 ∧ r2 = 1460))
    by (unfold d; Z.div_mod_to_equations; lia).
  clearbody d. set (y := 1 + 400 * a + 100 * b + 4 * c + d).
  assert (E4 : (y - 1) / 4 = 100 * a + 25 * b + c) by (unfold y; Z.div_mod_to_equations; lia).
  assert (E100 : (y - 1) / 100 = 4 * a + b) by (unfold y; Z.div_mod_to_equations; lia).
  assert (E400 : (y - 1) / 400 = a) by (unfold y; Z.div_mod_to_equations; lia).
  rewrite E4, E100, E400. split; [unfold y; lia|]. split; [lia|].
  assert (Hleap : r2 - 365 * d = 365 → isLeap y = true); [|destruct (isLeap y); [lia|]; 
    destruct (decide (r2 - 365 * d = 365)) as [E|]; [by specialize (Hleap E)|lia]].
  intros E. assert (d = 3 ∧ r2 = 1460 ∧ (c < 24 ∨ b = 3)) as (->&->&Hcb) by lia.
  unfold isLeap, y. apply andb_true_iff. rewrite orb_true_iff, negb_true_iff, !Z.eqb_eq, Z.eqb_neq.
  split; [Z.div_mod_to_equations; lia|]. destruct Hcb as [Hcb| ->]; [left; Z.div_mod_to_equations; lia|].
  destruct (decide (c = 24)) as [->|]; [right; Z.div_mod_to_equations; lia|left; Z.div_mod_to_equations; lia].
Qed.

Definition monthDay_ok (leap : bool) (yd : Z) : Prop :=
  (1 ≤ (monthDay leap yd).1 ≤ 12) ∧
  (1 ≤ (monthDay leap yd).2 ≤ daysIn leap (monthDay leap yd).1) ∧
  daysBefore leap (monthDay leap yd).1 + (monthDay leap yd).2 - 1 = yd.

Lemma monthDay_check (leap : bool) : Forall (λ n : nat, monthDay_ok leap (Z.of_nat n)) (seq 0 (if leap then 366 else 365)).
Proof. unfold monthDay_ok. destruct leap; apply (bool_decide_unpack _); vm_compute; exact I. Qed.

Lemma monthDay_spec (leap : bool) yd : 0 ≤ yd < 365 + (if leap then 1 else 0) → monthDay_ok leap yd.
Proof.
  intros Hy. pose proof (monthDay_check leap) as H. rewrite Forall_forall in H.
  specialize (H (Z.to_nat yd)). rewrite Z2Nat.id in H by lia. apply H. apply elem_of_seq. destruct leap; lia.
Qed.

(** ** Numbers of a fixed width *)

Fixpoint fixedDigits (k : nat) (n : Z) (acc : string) : string :=
  match k with
  | O => acc
  | S k' => fixedDigits k' (n / 10) (String (digit_ascii (n mod 10)) acc)
  end.

Fixpoint readFixed (k : nat) (v : Z) (s : string) : option (Z * string) :=
  match k with
  | O => Some (v, s)
  | S k' =>
      match s with
      | String a s' => if is_digit a then readFixed k' (10 * v + digit a) s' else None
      | EmptyString => None
      end
  end.

Lemma readFixed_fixedDigits k : ∀ j v n t, 0 ≤ n < 10 ^ Z.of_nat k →
  readFixed (k + j) v (fixedDigits k n t) = readFixed j (v * 10 ^ Z.of_nat k + n) t.
Proof.
  induction k as [|k IH]; intros j v n t Hn; [simpl in *; f_equal; lia|].
  rewrite Nat2Z.inj_succ, Z.pow_succ_r in Hn by lia. cbn [fixedDigits].
  pose proof (Z.div_mod n 10 ltac:(lia)). pose proof (Z.mod_pos_bound n 10 ltac:(lia)).
  replace (S k + j)%nat with (k + S j)%nat by lia. rewrite IH by lia. cbn [readFixed].
  destruct (digit_ascii_spec (n mod 10) ltac:(lia)) as [-> ->]. f_equal.
  rewrite Nat2Z.inj_succ, Z.pow_succ_r by lia. lia.
Qed.

(** A byte that has to follow. *)
Definition expect {A} (a : ascii) (s : string) (k : string → option A) : option A :=
  match s with String b s' => if Ascii.eqb a b then k s' else None | EmptyString => None end.

Lemma expect_cons {A} a s (k : string → option A) : expect a (String a s) k = k s.
Proof. unfold expect. by rewrite Ascii.eqb_refl. Qed.

(** ** Writing *)

(** The nanoseconds without trailing zeros: how many digits, and their value. *)
Fixpoint trimFrac (k : nat) (n : Z) : nat * Z :=
  match k with
  | O => (O, n)
  | S k' => if n mod 10 =? 0 then trimFrac k' (n / 10) else (k, n)
  end.

Definition formatFrac (nanos : Z) (rest : string) : string :=
  let '(k, m) := trimFrac 9 nanos in
  match k with O => rest | _ => String "." (fixedDigits k m rest) end.

Definition formatZone (minutes : Z) : string :=
  if minutes =? 0 then "Z"
  else String (if minutes <? 0 then "-"%char else "+"%char)
         (fixedDigits 2 (Z.abs minutes / 60) (String ":" (fixedDigits 2 (Z.abs minutes mod 60) ""))).

(** The text between the quotes.  The zone is the offset, in minutes, of the
    location the time carries. *)
Definition formatTime (zone : Z) (t : Time) : result string :=
  let local := t + zone * Minute in
  let '(y, yd) := yearDay (local / Day) in
  let '(m, d) := monthDay (isLeap y) yd in
  let s := local mod Day / Second in
  if negb ((0 <=? y) && (y <? 10000)) then Err (EText "Time.MarshalJSON: year outside of range [0,9999]")
  else if negb (Z.abs zone <? 1440) then Err (EText "Time.MarshalJSON: timezone hour outside of range [0,23]")
  else Ok (fixedDigits 4 y (String "-" (fixedDigits 2 m (String "-" (fixedDigits 2 d (String "T"
         (fixedDigits 2 (s / 3600) (String ":" (fixedDigits 2 (s / 60 mod 60) (String ":" (fixedDigits 2 (s mod 60)
         (formatFrac (local mod Second) (formatZone zone))))))))))))).

(** ** Reading *)

(** At most nine digits of the fraction count. *)
Definition parseFrac (s : string) : option (Z * string) :=
  match s with
  | String a s' =>
      if Ascii.eqb a "." then
        match scanDigits1 s' with
        | None => None
        | Some (d, r) =>
            let d := str_take 9 d in
            (λ v, (v * 10 ^ (9 - Z.of_nat (slen d)), r)) <$> readDigits 0 d
        end
      else Some (0, s)
  | EmptyString => Some (0, "")
  end.

Definition parseZone (s : string) : option Z :=
  match s with
  | String a s' =>
      if Ascii.eqb a "Z" then if String.eqb s' "" then Some 0 else None
      else if Ascii.eqb a "+" || Ascii.eqb a "-" then
        match readFixed 2 0 s' with
        | None => None
        | Some (h, r) =>
            expect ":" r (λ r,
              match readFixed 2 0 r with
              | Some (m, "") =>
                  if (h <? 24) && (m <? 60) then Some ((if Ascii.eqb a "-" then -1 else 1) * (60 * h + m)) else None
              | _ => None
              end)
        end
      else None
  | EmptyString => None
  end.

Definition number {A} (k : nat) (s : string) (f : Z → string → option A) : option A :=
  match readFixed k 0 s with Some (v, r) => f v r | None => None end.

Definition parseTime (s : string) : option Time :=
  number 4 s (λ y s, expect "-" s (λ s, number 2 s (λ m s, expect "-" s (λ s, number 2 s (λ d s, expect "T" s (λ s,
  number 2 s (λ hh s, expect ":" s (λ s, number 2 s (λ mm s, expect ":" s (λ s, number 2 s (λ ss s,
    match parseFrac s with
    | None => None
    | Some (nanos, s) =>
        match parseZone s with
        | None => None
        | Some zone =>
            if (1 <=? m) && (m <=? 12) && (1 <=? d) && (d <=? daysIn (isLeap y) m)
               && (hh <? 24) && (mm <? 60) && (ss <? 60)
            then Some (fromCivil y m d * Day + (hh * 3600 + mm * 60 + ss) * Second + nanos - zone * Minute)
            else None
        end
    end))))))))))).

Example format_examples :
  formatTime 0 0 = Ok "0001-01-01T00:00:00Z" ∧
  formatTime 480 (fromCivil 2024 2 29 * Day + 16 * Hour + 500 * Millisecond) = Ok "2024-03-01T00:00:00.5+08:00" ∧
  parseTime "2024-02-30T00:00:00Z" = None.
Proof. vm_compute. done. Qed.

(** ** What is written is read back *)

Lemma Ok_inj {A} (x y : A) : Ok x = Ok y → x = y.
Proof. congruence. Qed.

Lemma readFixed_at k n t : 0 ≤ n < 10 ^ Z.of_nat k → readFixed k 0 (fixedDigits k n t) = Some (n, t).
Proof.
  intros Hn. rewrite <- (Nat.add_0_r k) at 1. by rewrite readFixed_fixedDigits.
Qed.

Lemma number_fixed {A} k n t (f : Z → string → option A) : 0 ≤ n < 10 ^ Z.of_nat k →
  number k (fixedDigits k n t) f = f n t.
Proof.
  intros Hn. unfold number. by rewrite readFixed_at.
Qed.

Lemma fixedDigits_app k : ∀ n t, fixedDigits k n t = fixedDigits k n "" +:+ t.
Proof.
  induction k as [|k IH]; intros n t; [done|]. cbn [fixedDigits].
  rewrite IH, (IH _ (String _ "")), <- app_string_assoc. done.
Qed.

Lemma fixedDigits_len k : ∀ n, slen (fixedDigits k n "") = k.
Proof.
  induction k as [|k IH]; intros n; [done|]. cbn [fixedDigits]. rewrite fixedDigits_app, slen_app, IH. simpl. lia.
Qed.

Lemma fixedDigits_digits k : ∀ n a, has_byte a (fixedDigits k n "") = true → is_digit a = true.
Proof.
  induction k as [|k IH]; intros n a; [done|]. cbn [fixedDigits]. rewrite fixedDigits_app, has_byte_app.
  intros [?|Hb]%orb_true_iff; [by eapply IH|]. simpl in Hb. rewrite orb_false_r in Hb. apply Ascii.eqb_eq in Hb as ->.
  apply digit_ascii_spec. apply Z.mod_pos_bound. lia.
Qed.

Lemma readDigits_fixed k : ∀ n v t, 0 ≤ n < 10 ^ Z.of_nat k →
  readDigits v (fixedDigits k n t) = readDigits (v * 10 ^ Z.of_nat k + n) t.
Proof.
  induction k as [|k IH]; intros n v t Hn; [simpl in *; f_equal; lia|].
  rewrite Nat2Z.inj_succ, Z.pow_succ_r in * by lia. cbn [fixedDigits].
  pose proof (Z.div_mod n 10 ltac:(lia)). pose proof (Z.mod_pos_bound n 10 ltac:(lia)).
  rewrite IH by lia. cbn [readDigits]. destruct (digit_ascii_spec (n mod 10) ltac:(lia)) as [-> ->]. f_equal. lia.
Qed.

Lemma trimFrac_spec k : ∀ n, 0 ≤ n < 10 ^ Z.of_nat k → let '(j, m) := trimFrac k n in
  (j ≤ k)%nat ∧ 0 ≤ m < 10 ^ Z.of_nat j ∧ n = m * 10 ^ (Z.of_nat k - Z.of_nat j).
Proof.
  induction k as [|k IH]; intros n Hn; [simpl in *; split_all; lia|].
  cbn [trimFrac]. destruct (Z.eqb_spec (n mod 10) 0) as [E|E].
  - rewrite Nat2Z.inj_succ, Z.pow_succ_r in Hn by lia.
    pose proof (Z.div_mod n 10 ltac:(lia)). specialize (IH (n / 10) ltac:(lia)).
    destruct (trimFrac k (n / 10)) as [j m]. destruct IH as (Hj&Hm&En). split_all; try lia.
    rewrite Nat2Z.inj_succ. replace (Z.succ (Z.of_nat k) - Z.of_nat j) with (Z.succ (Z.of_nat k - Z.of_nat j)) by lia.
    rewrite Z.pow_succ_r by lia. lia.
  - split_all; try lia. rewrite Z.sub_diag. lia.
Qed.

Lemma formatZone_head minutes : ∃ a s, formatZone minutes = String a s ∧ is_digit a = false ∧ a ≠ "."%char.
Proof.
  unfold formatZone. destruct (minutes =? 0); [by exists "Z"%char, ""|].
  destruct (minutes <? 0); eexists _, _; split_all; done.
Qed.

Lemma parseFrac_format n zone : 0 ≤ n < Second → parseFrac (formatFrac n (formatZone zone)) = Some (n, formatZone zone).
Proof.
  intros Hn. unfold formatFrac. pose proof (trimFrac_spec 9 n Hn) as H. destruct (trimFrac 9 n) as [j m].
  destruct H as (Hj&Hm&En). destruct (formatZone_head zone) as (a&s&Ez&Ha&Hdot).
  destruct j as [|j].
  - assert (m = 0) as -> by (simpl in Hm; lia). rewrite Z.mul_0_l in En. rewrite En, Ez. simpl.
    by rewrite (proj2 (Ascii.eqb_neq _ _) Hdot).
  - unfold parseFrac. rewrite Ascii.eqb_refl. rewrite fixedDigits_app. unfold scanDigits1.
    assert (Hscan : scanDigits (fixedDigits (S j) m "" +:+ formatZone zone) = (fixedDigits (S j) m "", formatZone zone)).
    { generalize (fixedDigits_digits (S j) m). generalize (fixedDigits (S j) m ""). intros d Hd.
      induction d as [|b d IH]; [rewrite app_nil_string, Ez; simpl; by rewrite Ha|]. rewrite app_String. simpl.
      rewrite Hd by (simpl; by rewrite Ascii.eqb_refl). rewrite IH; [done|].
      intros c Hc. apply Hd. simpl. by rewrite Hc, orb_true_r. }
    rewrite Hscan. assert (Hne : String.eqb (fixedDigits (S j) m "") "" = false).
    { apply String.eqb_neq. intros E. pose proof (fixedDigits_len (S j) m) as L. rewrite E in L. done. }
    rewrite Hne. assert (Htake : str_take 9 (fixedDigits (S j) m "") = fixedDigits (S j) m "").
    { pose proof (fixedDigits_len (S j) m) as L. revert L. generalize (fixedDigits (S j) m ""). intros d L.
      assert (Hd : ∀ i d, (slen d ≤ i)%nat → str_take i d = d).
      { induction i as [|i IHi]; intros [|b d'] Hl; simpl in *; [done|lia|done|]. f_equal. apply IHi. lia. }
      apply Hd. lia. }
    rewrite Htake, fixedDigits_len, readDigits_fixed by done. simpl fmap. rewrite En. repeat f_equal; lia.
Qed.

Lemma parseZone_format zone : Z.abs zone < 1440 → parseZone (formatZone zone) = Some zone.
Proof.
  intros Hz. unfold formatZone. destruct (Z.eqb_spec zone 0) as [->|Hne]; [done|].
  assert (Hh : 0 ≤ Z.abs zone / 60 < 24 ∧ 0 ≤ Z.abs zone mod 60 < 60 ∧ 60 * (Z.abs zone / 60) + Z.abs zone mod 60 = Z.abs zone)
    by (Z.div_mod_to_equations; lia).
  destruct Hh as (Hh&Hm&E). set (sign := if zone <? 0 then "-"%char else "+"%char).
  assert (Hsign : Ascii.eqb sign "Z" = false ∧ (Ascii.eqb sign "+" || Ascii.eqb sign "-") = true ∧
    (if Ascii.eqb sign "-" then -1 else 1) * Z.abs zone = zone)
    by (unfold sign; destruct (Z.ltb_spec zone 0); split_all; try done; simpl; lia).
  destruct Hsign as (H1&H2&H3). unfold parseZone. rewrite H1, H2.
  rewrite readFixed_at by (simpl; lia). rewrite expect_cons, readFixed_at by (simpl; lia).
  rewrite (proj2 (Z.ltb_lt _ _)), (proj2 (Z.ltb_lt _ _)) by lia. simpl. by rewrite E, H3.
Qed.

(** A time survives its text: to the nanosecond, in whatever zone it was
    written, for the years that can be written at all. *)
Theorem parseTime_formatTime zone t s : formatTime zone t = Ok s → parseTime s = Some t.
Proof.
  unfold formatTime. set (local := t + zone * Minute). pose proof (yearDay_spec (local / Day)) as Hy.
  destruct (yearDay (local / Day)) as [y yd]. destruct Hy as [Hdays Hyd].
  pose proof (monthDay_spec (isLeap y) yd Hyd) as Hm. unfold monthDay_ok in Hm.
  destruct (monthDay (isLeap y) yd) as [m d]. simpl in Hm. destruct Hm as (Hm&Hd&Hmd).
  destruct ((0 <=? y) && (y <? 10000)) eqn:Ey; [|done]. destruct (Z.abs zone <? 1440) eqn:Ez; [|done]. cbn [negb].
  bool_simp. intros <-%Ok_inj. set (sec := local mod Day / Second). set (nanos := local mod Second).
  assert (Hdd : daysIn (isLeap y) m ≤ 31).
  { unfold daysIn. assert (Hall : Forall (λ n, n ≤ 31) (monthDays (isLeap y))) by (destruct (isLeap y); repeat constructor; lia).
    destruct (monthDays (isLeap y) !! _) eqn:E; simpl; [|lia]. rewrite Forall_lookup in Hall. by eapply Hall. }
  assert (Hday : local = local / Day * Day + sec * Second + nanos ∧ 0 ≤ sec < 86400 ∧ 0 ≤ nanos < Second).
  { unfold sec, nanos, Day, Hour, Minute, Second, Millisecond, Microsecond, Nanosecond. Z.div_mod_to_equations. lia. }
  destruct Hday as (El&Hsec&Hn).
  assert (Hh : 0 ≤ sec / 3600 < 24 ∧ 0 ≤ sec / 60 mod 60 < 60 ∧ 0 ≤ sec mod 60 < 60 ∧
    sec / 3600 * 3600 + sec / 60 mod 60 * 60 + sec mod 60 = sec) by (Z.div_mod_to_equations; lia).
  destruct Hh as (Hh&Hmi&Hs&Esec). unfold parseTime.
  repeat first [rewrite number_fixed by (simpl; lia)|rewrite expect_cons].
  rewrite parseFrac_format, parseZone_format by done.
  assert (E : ((1 <=? m) && (m <=? 12) && (1 <=? d) && (d <=? daysIn (isLeap y) m)
    && (sec / 3600 <? 24) && (sec / 60 mod 60 <? 60) && (sec mod 60 <? 60)) = true)
    by (rewrite !andb_true_iff, !Z.leb_le, !Z.ltb_lt; lia).
  rewrite E, Esec. f_equal.
  assert (Ec : fromCivil y m d = local / Day) by (unfold fromCivil; lia).
  rewrite Ec. unfold local in *. lia.
Qed.

(** The times that have a text: those of the years 0 to 9999, in their zone. *)
Definition writable (zone t : Time) : Prop :=
  Z.abs zone < 1440 ∧ fromCivil 0 1 1 * Day ≤ t + zone * Minute < fromCivil 10000 1 1 * Day.

Definition yearStart (y : Z) : Z := 365 * (y - 1) + (y - 1) / 4 - (y - 1) / 100 + (y - 1) / 400.

Lemma yearStart_mono x y : x ≤ y → yearStart x ≤ yearStart y.
Proof.
  intros Hxy. unfold yearStart. pose proof (Z.div_le_mono (x - 1) (y - 1) 4 ltac:(lia) ltac:(lia)).
  pose proof (Z.div_le_mono (x - 1) (y - 1) 400 ltac:(lia) ltac:(lia)).
  assert ((y - 1) / 100 - (x - 1) / 100 ≤ 365 * (y - x)) by (Z.div_mod_to_equations; lia). lia.
Qed.

Lemma div_step k y : 0 < k → y / k = (y - 1) / k + if y mod k =? 0 then 1 else 0.
Proof.
  intros Hk. pose proof (Z.div_mod y k ltac:(lia)). pose proof (Z.mod_pos_bound y k Hk).
  destruct (y mod k =? 0) eqn:E; bool_simp.
  - rewrite <- (Z.div_unique_pos (y - 1) k (y / k - 1) (k - 1)) by lia. lia.
  - rewrite <- (Z.div_unique_pos (y - 1) k (y / k) (y mod k - 1)) by lia. lia.
Qed.

Lemma yearStart_next y : yearStart (y + 1) = yearStart y + 365 + if isLeap y then 1 else 0.
Proof.
  unfold yearStart, isLeap. replace (y + 1 - 1) with y by lia.
  rewrite (div_step 4 y), (div_step 100 y), (div_step 400 y) by lia.
  assert (H4 : y mod 100 = 0 → y mod 4 = 0) by (Z.div_mod_to_equations; lia).
  assert (H100 : y mod 400 = 0 → y mod 100 = 0) by (Z.div_mod_to_equations; lia).
  destruct (Z.eqb_spec (y mod 4) 0), (Z.eqb_spec (y mod 100) 0), (Z.eqb_spec (y mod 400) 0); simpl; lia.
Qed.

Lemma year_bounds days : 0 ≤ (yearDay days).1 < 10000 ↔ fromCivil 0 1 1 ≤ days < fromCivil 10000 1 1.
Proof.
  pose proof (yearDay_spec days) as H. destruct (yearDay days) as [y yd]. destruct H as [E Hyd]. cbn [fst].
  change (fromCivil 0 1 1) with (yearStart 0). change (fromCivil 10000 1 1) with (yearStart 10000).
  pose proof (yearStart_next y) as Hn. fold (yearStart y) in E.
  assert (Hb : yearStart y ≤ days < yearStart (y + 1)) by lia. clear Hyd E Hn. split; intros Hy.
  - pose proof (yearStart_mono 0 y). pose proof (yearStart_mono (y + 1) 10000). lia.
  - destruct (decide (0 ≤ y)); [|pose proof (yearStart_mono (y + 1) 0); lia].
    destruct (decide (y < 10000)); [done|]. pose proof (yearStart_mono 10000 y). lia.
Qed.

Lemma formatTime_total zone t : writable zone t ↔ ∃ s, formatTime zone t = Ok s.
Proof.
  unfold writable, formatTime. set (local := t + zone * Minute). pose proof (year_bounds (local / Day)) as Hy.
  assert (Hd : fromCivil 0 1 1 * Day ≤ local < fromCivil 10000 1 1 * Day ↔
    fromCivil 0 1 1 ≤ local / Day < fromCivil 10000 1 1).
  { pose proof (Z.div_mod local Day ltac:(done)). pose proof (Z.mod_pos_bound local Day ltac:(done)).
    generalize dependent (local / Day). intros. assert (0 < Day) by done. split; intros [? ?]; split; nia. }
  rewrite Hd, <- Hy. destruct (yearDay (local / Day)) as [y yd]. cbn [fst]. destruct (monthDay (isLeap y) yd) as [m d].
  destruct ((0 <=? y) && (y <? 10000)) eqn:Ey; cbn [negb].
  - destruct (Z.abs zone <? 1440) eqn:Ez; cbn [negb]; bool_simp; [|split; [lia|by intros [? ?]]].
    split; [by eexists|lia].
  - apply andb_false_iff in Ey. rewrite Z.leb_gt, Z.ltb_ge in Ey. split; [lia|by intros [? ?]].
Qed.
