(* ===== verification/Challenge.v ===== *)
(** The code behind ACME that calls a cloud: the HTTP-01 provider that puts
    its token into an S3 bucket (pkg/acme/challengeproviders/s3/s3.go), and the
    external account of Google's authority
    (pkg/acme/acmeproviders/google/google.go).  The two SDKs are interfaces. *)

From Stdlib Require Import ZArith Lia Ascii.
From stdpp Require Import base option list gmap sets strings sorting.
From S2P Require Import Prelude.
From S2P Require Import GoStd.
From S2P Require Import Sys.
From S2P Require Import Paths.
From S2P Require Import Config.
From S2P Require Import Json.

Open Scope Z_scope.
Open Scope go_scope.

(** ** [strings.Trim(s, "/")] *)

Fixpoint trimLeftSlash (s : string) : string :=
  match s with
  | String a s' => if Ascii.eqb a slash then trimLeftSlash s' else s
  | EmptyString => ""
  end.

Fixpoint trimRightSlash (s : string) : string :=
  match s with
  | EmptyString => ""
  | String a s' =>
      let r := trimRightSlash s' in
      if Ascii.eqb a slash && String.eqb r "" then "" else String a r
  end.

Definition trimSlash (s : string) : string := trimRightSlash (trimLeftSlash s).

(** ** The S3 provider *)

Record PutObjectInput := mkPutObject {
  po_ACL : string;
  po_Bucket : string;
  po_Key : string;
  po_Body : string;
}.

(** The client of the AWS SDK, and [http01.ChallengePath] of lego.  What the
    client was built with is its configuration: static credentials, the
    endpoint of the configuration and the region "auto". *)
Class S3Api (W : Type) := {
  ChallengePath : string → string;
  LoadDefaultConfig : S3Client → W → option error;
  PutObject : S3Client → PutObjectInput → W → option error * W;
  DeleteObject : S3Client → string → string → W → option error * W;
  objects : W → gmap (string * string) string;       (* by bucket and key *)
}.

(** An operation touches its own object only; one that succeeds has its
    effect; lego serves a token below the well-known path. *)
Class S3Laws (W : Type) `{S3Api W} := {
  challenge_path token : ChallengePath token = "/.well-known/acme-challenge/" +:+ token;
  put_ok c i w w' : PutObject c i w = (None, w') → objects w' !! (po_Bucket i, po_Key i) = Some (po_Body i);
  put_frame c i w o w' k : PutObject c i w = (o, w') → k ≠ (po_Bucket i, po_Key i) → objects w' !! k = objects w !! k;
  delete_ok c b key w w' : DeleteObject c b key w = (None, w') → objects w' !! (b, key) = None;
  delete_frame c b key w o w' k : DeleteObject c b key w = (o, w') → k ≠ (b, key) → objects w' !! k = objects w !! k;
}.

Record HTTPProvider := mkHTTPProvider { hp_bucket : string; hp_client : S3Client }.

Section S3.
Context {W : Type} `{S3A : S3Api W}.

Definition NewHTTPProvider (cfg : S3Client) (w : W) : result HTTPProvider :=
  if String.eqb (S3Bucket cfg) "" then Err (EText "s3 challenge provider: bucket is required")
  else match LoadDefaultConfig cfg w with
  | Some err => Err (EWrap "load AWS config: %w" err)
  | None => Ok (mkHTTPProvider (S3Bucket cfg) cfg)
  end.

Definition objectKey (token : string) : string := trimSlash (ChallengePath token).

Definition Present (s : HTTPProvider) (domain token keyAuth : string) (w : W) : option error * W :=
  let params := mkPutObject "public-read" (hp_bucket s) (objectKey token) keyAuth in
  let '(err, w) := PutObject (hp_client s) params w in
  (EWrap "s3: failed to upload token to s3: %w" <$> err, w).

Definition CleanUp (s : HTTPProvider) (domain token keyAuth : string) (w : W) : option error * W :=
  let '(err, w) := DeleteObject (hp_client s) (hp_bucket s) (objectKey token) w in
  (EWrap "s3: could not remove file in s3 bucket after HTTP challenge: %w" <$> err, w).
End S3.

(** ** Google's external account *)

Record AcmeExternalAccount := mkExternalAccount { HmacEncoded : string; KeyId : string }.

(** The client of the public CA service: it is made from a credential's JSON
    text, and answers with a key's id and its base64 MAC. *)
Class PublicCA (W : Type) := {
  CAClient : Type;
  NewPublicCertificateAuthorityClient : string → W → result CAClient * W;
  CreateExternalAccountKey : CAClient → string → W → result (string * string) * W;
  CloseClient : CAClient → W → W;
}.

(** [json.Marshal] of a [map[string]string], in the order of its keys. *)
Definition name_le (x y : string * string) : Prop := String.le x.1 y.1.
#[export] Instance name_le_dec : RelDecision name_le.
Proof. intros x y. unfold name_le. apply _. Defined.

Definition credentialJson (config : gmap string string) : string :=
  print (JObject ((λ kv, (kv.1, JString kv.2)) <$> merge_sort name_le (map_to_list config))).

Section Google.
Context {W : Type} `{PCA : PublicCA W}.

Definition CreateExternalAccountKeyRequest (config : gmap string string) (w : W) : result AcmeExternalAccount * W :=
  match config !! "project_id" with
  | None => (Err (EText "no project id present"), w)
  | Some project_id =>
      let '(c, w) := NewPublicCertificateAuthorityClient (credentialJson config) w in
      match c with
      | Err err => (Err err, w)
      | Ok c =>
          let '(r, w) := CreateExternalAccountKey c ("projects/" +:+ project_id +:+ "/locations/global") w in
          let w := CloseClient c w in
          match r with
          | Err err => (Err err, w)
          | Ok (keyId, b64MacKey) => (Ok (mkExternalAccount b64MacKey keyId), w)
          end
      end
  end.
End Google.

(** ** The token is where the authority looks for it *)

Lemma trimRightSlash_id s a : a ≠ slash → trimRightSlash (s +:+ String a "") = s +:+ String a "".
Proof.
  intros Ha. induction s as [|b s IH].
  - rewrite app_nil_string. simpl. by rewrite (proj2 (Ascii.eqb_neq _ _) Ha).
  - rewrite app_String. simpl. rewrite IH. destruct s; by rewrite andb_false_r.
Qed.

Section Tokens.
Context {W : Type} `{SL : S3Laws W}.

(** The request for a token's path, without its first slash. *)
Lemma objectKey_path token a : a ≠ slash → ChallengePath (W := W) (token +:+ String a "") =
  "/" +:+ objectKey (W := W) (token +:+ String a "").
Proof.
  intros Ha. unfold objectKey, trimSlash. rewrite challenge_path.
  change (trimLeftSlash ("/.well-known/acme-challenge/" +:+ (token +:+ String a "")))
    with (".well-known/acme-challenge/" +:+ (token +:+ String a "")).
  assert (E : ".well-known/acme-challenge/" +:+ (token +:+ String a "") =
    (".well-known/acme-challenge/" +:+ token) +:+ String a "") by apply app_string_assoc.
  rewrite E, trimRightSlash_id by done. rewrite <- E. done.
Qed.

(** A challenge that is presented can be answered: the object the authority
    asks for, by the path of the token, holds the key authorization; cleaning
    up removes it again; and neither touches any other object, in this bucket
    or another, not even when it fails. *)
Theorem present_cleanup s domain token a keyAuth (w : W) o w1 :
  a ≠ slash → let t := token +:+ String a "" in
  Present s domain t keyAuth w = (o, w1) →
  (o = None → ∃ key, ChallengePath t = "/" +:+ key ∧ objects w1 !! (hp_bucket s, key) = Some keyAuth) ∧
  ∀ o' w2, CleanUp s domain t keyAuth w1 = (o', w2) →
    (o' = None → objects w2 !! (hp_bucket s, objectKey t) = None) ∧
    ∀ k, k ≠ (hp_bucket s, objectKey t) → objects w1 !! k = objects w !! k ∧ objects w2 !! k = objects w !! k.
Proof.
  intros Ha t. unfold Present, CleanUp. set (i := mkPutObject _ _ _ _).
  destruct (PutObject (hp_client s) i w) as [err w1'] eqn:Ep. intros [= <- <-]. split.
  - intros He. exists (objectKey t). split; [by apply objectKey_path|].
    destruct err; [done|]. exact (put_ok _ i _ _ Ep).
  - intros o' w2. destruct (DeleteObject _ _ _ w1') as [err' w2'] eqn:Ed. intros [= <- <-]. split.
    + intros He. destruct err'; [done|]. by eapply delete_ok.
    + intros k Hk. assert (E1 : objects w1' !! k = objects w !! k) by by apply (put_frame _ i _ _ _ _ Ep).
      split; [done|]. rewrite <- E1. by eapply delete_frame.
Qed.
End Tokens.

(** ** An in-memory bucket *)

Module Demo.
Definition Store : Type := gmap (string * string) string.

#[export] Instance store_api : S3Api Store := {
  ChallengePath token := "/.well-known/acme-challenge/" +:+ token;
  LoadDefaultConfig _ _ := None;
  PutObject _ i w := (None, <[ (po_Bucket i, po_Key i) := po_Body i ]> w);
  DeleteObject _ b k w := (None, delete (b, k) w);
  objects w := w;
}.

#[export] Instance store_laws : S3Laws Store.
Proof.
  split; simpl.
  - done.
  - intros c i w w' [= <-]. apply lookup_insert_eq.
  - intros c i w o w' k [= _ <-] Hk. by apply lookup_insert_ne.
  - intros c b k w w' [= <-]. apply lookup_delete_eq.
  - intros c b k w o w' q [= _ <-] Hk. by apply lookup_delete_ne.
Qed.

Definition client : S3Client := mkS3Client "auto" "acme" "aws" "https://s3.example.com" "id" "secret" "".
Definition provider : HTTPProvider := mkHTTPProvider "acme" client.
End Demo.

Import (hints) Demo.

Lemma present_cleanup_witness :
  ∃ key, objects (snd (Present Demo.provider "example.com" "token" "token.thumb" ∅)) !! ("acme", key) = Some "token.thumb" ∧
    "/" +:+ key = "/.well-known/acme-challenge/token".
Proof.
  destruct (present_cleanup (W := Demo.Store) Demo.provider "example.com" "toke" "n"%char "token.thumb" ∅ None _
    ltac:(done) eq_refl) as [H _].
  destruct (H eq_refl) as (key&E&Hk). exists key. split; [exact Hk|]. symmetry. exact E.
Defined.
