(* ===== verification/Daemon.v ===== *)
(** pkg/client/daemon.go: the certificates a client watches.  [ClientInit]
    builds the watch list and loads what was saved before, producers (the
    HTTP poll loops and the SDS streams) feed a channel per certificate, and
    [watchUpdate] hands every change to the handlers. *)

From Stdlib Require Import ZArith Lia.
From stdpp Require Import base option list gmap strings relations.
From S2P Require Import Prelude.
From S2P Require Import GoStd.
From S2P Require Import Sys.
From S2P Require Import Domain.
From S2P Require Import Config.
From S2P Require Import Paths.
From S2P Require Import Handler.
From S2P Require Import CertStore.
From S2P Require Import Mtls.

Open Scope Z_scope.

Record certData := mkCertData { cd_Domains : list string; cd_Fullchain : string; cd_Key : string }.

#[export] Instance certData_eq_dec : EqDecision certData.
Proof. solve_decision. Defined.

Section Daemon.
Context {W : Type} `{FS : FileSystem W} `{CR : CommandRunner W}.

Definition CertificateUpdateHandler : Type := string → string → ClientCertification → W → W.

Record watchingCert := mkWatching {
  Data : certData;
  wc_Config : ClientCertification;
  UpdateHandlers : list CertificateUpdateHandler;
}.

Definition WatchingCertsOption : Type := watchingCert → watchingCert.

Definition WithCertificateHandlerOption (h : CertificateUpdateHandler) : WatchingCertsOption := λ wc,
  mkWatching (Data wc) (wc_Config wc) (UpdateHandlers wc ++ [h]).

(** [writeCertAndDoCommand] as a handler. *)
Definition writeHandler : CertificateUpdateHandler := λ fullchain key c w,
  snd (writeCertAndDoCommand fullchain key c w).

(** ** The watch list *)

Definition loadSavedCert (c : ClientCertification) (w : W) : result (string * string) :=
  match GetFullChainAndKeyPath c with
  | Err err => Err err
  | Ok (fullchanPath, keyPath) =>
      if FileExists fullchanPath w && FileExists keyPath w then
        match ReadFile fullchanPath w with
        | Err err => Err err
        | Ok fullchan =>
            match ReadFile keyPath w with Err err => Err err | Ok key => Ok (fullchan, key) end
        end
      else Err (ESentinel ErrNotExist)
  end.

(** One iteration of [ClientInit]. *)
Definition initCert (c : ClientCertification) (w : W) : watchingCert :=
  mkWatching
    (match loadSavedCert c w with
     | Ok (fullchan, key) => mkCertData (cc_Domains c) fullchan key
     | Err _ => mkCertData (cc_Domains c) "" ""
     end) c [writeHandler].

Definition ClientInit (cfg : ClientConfig) (w : W) (certs : gmap Key watchingCert) : gmap Key watchingCert :=
  foldl (λ certs c, <[ AsKey (cc_Domains c) := initCert c w ]> certs) certs (Certifications cfg).

Definition AddCertToWatchOpt (name : string) (domains : list string) (options : list WatchingCertsOption)
    (certs : gmap Key watchingCert) : gmap Key watchingCert :=
  let cert := mkWatching (mkCertData domains "" "") (mkClientCertification name "" domains "") [] in
  let cert := foldl (λ cert it, it cert) cert options in
  (* Data.Store comes after the options *)
  <[ AsKey domains := mkWatching (mkCertData domains "" "") (wc_Config cert) (UpdateHandlers cert) ]> certs.

Definition AddCertToWatch (name : string) (domains : list string) (certs : gmap Key watchingCert) : gmap Key watchingCert :=
  AddCertToWatchOpt name domains [] certs.

Context `{PM : Pem} `{TC : TlsCrypto}.

Definition GetCertificate (certHash : Key) (certs : gmap Key watchingCert) : result tlsCertificate :=
  match certs !! certHash with
  | Some cert =>
      let certData := Data cert in
      match X509KeyPair (cd_Fullchain certData) (cd_Key certData) with
      | Ok tlsCert => Ok tlsCert
      | Err _ => Err (EText "no certificate found")
      end
  | None => Err (EText "no certificate found")
  end.
End Daemon.
Arguments CertificateUpdateHandler : clear implicits.
Arguments watchingCert : clear implicits.
Arguments WatchingCertsOption : clear implicits.

(** ** The watcher and its producers *)

(** The material of an update, which alone decides whether it is a change. *)
Definition material (u : certData) : string * string := (cd_Fullchain u, cd_Key u).

(** The updates that differ from what was current when they were received. *)
Fixpoint changes (cur : string * string) (us : list certData) : list certData :=
  match us with
  | [] => []
  | u :: us' => if decide (material u = cur) then changes cur us' else u :: changes (material u) us'
  end.

Section Watch.
Context {W : Type}.

(** The watcher goroutine: in its select, calling the remaining handlers with
    an update, or returned. *)
Inductive wphase :=
  | WIdle
  | WNotify (u : certData) (handlers : list (CertificateUpdateHandler W))
  | WReturned.

Record watch := mkWatch {
  wt_cert : watchingCert W;
  wt_phase : wphase;
  wt_chan : option certData;             (* UpdateChan, capacity 1 *)
  wt_root : bool;                        (* rootCtx is done *)
  wt_world : W;
  wt_sent : list certData;               (* ghost: values sent, in order *)
  wt_received : list certData;           (* ghost: values received, in order *)
  wt_calls : list (certData * CertificateUpdateHandler W);   (* ghost: handler calls *)
}.

Inductive watchStep : watch → watch → Prop :=
(* a poll loop or an SDS stream sends *)
| w_send u c p r w s v k :
    watchStep (mkWatch c p None r w s v k) (mkWatch c p (Some u) r w (s ++ [u]) v k)
(* watchUpdate receives: a change is swapped in before the handlers run *)
| w_receive u c r w s v k : material (Data c) ≠ material u →
    watchStep (mkWatch c WIdle (Some u) r w s v k)
      (mkWatch (mkWatching u (wc_Config c) (UpdateHandlers c)) (WNotify u (UpdateHandlers c)) None r w s
         (v ++ [u]) k)
| w_same u c r w s v k : material (Data c) = material u →
    watchStep (mkWatch c WIdle (Some u) r w s v k) (mkWatch c WIdle None r w s (v ++ [u]) k)
| w_handler u h hs c ch r w s v k :
    watchStep (mkWatch c (WNotify u (h :: hs)) ch r w s v k)
      (mkWatch c (WNotify u hs) ch r (h (cd_Fullchain u) (cd_Key u) (wc_Config c) w) s v (k ++ [(u, h)]))
| w_handled u c ch r w s v k :
    watchStep (mkWatch c (WNotify u []) ch r w s v k) (mkWatch c WIdle ch r w s v k)
| w_exit c ch w s v k :
    watchStep (mkWatch c WIdle ch true w s v k) (mkWatch c WReturned ch true w s v k)
(* Stop, and everything else that happens in the world *)
| w_stop c p ch r w s v k : watchStep (mkWatch c p ch r w s v k) (mkWatch c p ch true w s v k)
| w_env c p ch r w w' s v k : watchStep (mkWatch c p ch r w s v k) (mkWatch c p ch r w' s v k).

Variable start : watchingCert W.

Definition watchInit (x : watch) : Prop :=
  ∃ w, x = mkWatch start WIdle None false w [] [] [].

Definition pending (p : wphase) : list (certData * CertificateUpdateHandler W) :=
  match p with WNotify u hs => (u,.) <$> hs | _ => [] end.

(** Every handler once, in order, for every change. *)
Definition fanout (us : list certData) : list (certData * CertificateUpdateHandler W) :=
  us ≫= λ u, (u,.) <$> UpdateHandlers start.

Record watchInv (x : watch) : Prop := {
  wi_fifo : wt_sent x = wt_received x ++ option_list (wt_chan x);
  wi_calls : wt_calls x ++ pending (wt_phase x) = fanout (changes (material (Data start)) (wt_received x));
  wi_data : material (Data (wt_cert x)) = material (default (Data start) (last (wt_received x)));
  wi_handlers : UpdateHandlers (wt_cert x) = UpdateHandlers start;
  wi_config : wc_Config (wt_cert x) = wc_Config start;
}.

Lemma changes_snoc cur us u :
  changes cur (us ++ [u]) = changes cur us ++
    (if decide (material u = default cur (material <$> last us)) then [] else [u]).
Proof.
  revert cur. induction us as [|v us IH]; intros cur; [simpl; by case_decide|].
  cbn [changes app]. rewrite !IH, last_cons.
  destruct (decide (material v = cur)) as [<-|]; by destruct (last us).
Qed.

Lemma fanout_app l l' : fanout (l ++ l') = fanout l ++ fanout l'.
Proof. apply bind_app. Qed.

Lemma watch_invariant x : reachable watchInit watchStep x → watchInv x.
Proof.
  apply reachable_invariant.
  - intros ? [w ->]. by split.
  - intros ? ? _ [If Ic Id Ih Ig] Hs. destruct Hs; simpl in *; (split; simpl; [|try done..]); try done.
    + by rewrite If, app_nil_r.
    + rewrite If. by rewrite app_nil_r.
    + rewrite changes_snoc, fanout_app, <- Ic, app_nil_r. f_equal. rewrite decide_False.
      * unfold fanout. simpl. by rewrite app_nil_r, Ih.
      * rewrite Id in H. intros E. apply H. rewrite E. by destruct (last v).
    + by rewrite last_snoc.
    + rewrite If. by rewrite app_nil_r.
    + rewrite changes_snoc, fanout_app, <- Ic, app_nil_r, decide_True; [simpl; by rewrite app_nil_r|].
      rewrite <- H, Id. by destruct (last v).
    + by rewrite last_snoc.
    + by rewrite <- Ic, <- (assoc_L (++)).
Qed.

(** C29: while any number of producers feed a watched certificate: nothing
    sent is lost or reordered, each change of the material makes every handler
    run exactly once, in registration order and after the handlers of earlier
    changes, repeated deliveries of the same material run none, and once
    the channel is drained and the watcher is idle, the certificate served is
    the last one sent and no handler call is outstanding. *)
Theorem watch_fanout x :
  reachable watchInit watchStep x →
  wt_sent x = wt_received x ++ option_list (wt_chan x) ∧
  wt_calls x `prefix_of` fanout (changes (material (Data start)) (wt_received x)) ∧
  (wt_chan x = None → wt_phase x = WIdle →
   material (Data (wt_cert x)) = material (default (Data start) (last (wt_sent x))) ∧
   wt_calls x = fanout (changes (material (Data start)) (wt_sent x))).
Proof.
  intros [If Ic Id Ih Ig]%watch_invariant. split_all; [done|by eexists|].
  intros Hc Hp. rewrite Hc in If. rewrite Hp in Ic. simpl in *. rewrite app_nil_r in *.
  by rewrite If.
Qed.
End Watch.

(** ** Start-up *)

Section Startup.
Context {W : Type} `{FS : FileSystem W} `{CR : CommandRunner W} `{PM : Pem} `{TC : TlsCrypto}.

(** The certification a key stands for: the last one with its domains. *)
Definition certificationOf (cfg : ClientConfig) (k : Key) : option ClientCertification :=
  last (filter (λ c, AsKey (cc_Domains c) = k) (Certifications cfg)).

Lemma clientInit_lookup cfg (w : W) k :
  ClientInit cfg w ∅ !! k = (λ c, initCert c w) <$> certificationOf cfg k.
Proof.
  unfold ClientInit, certificationOf. set (l := Certifications cfg). clearbody l.
  induction l as [|c l IH] using rev_ind; [done|].
  rewrite foldl_app, filter_app. simpl. rewrite filter_cons, filter_nil. case_decide as Hk.
  - subst k. by rewrite last_snoc, lookup_insert_eq.
  - by rewrite app_nil_r, lookup_insert_ne.
Qed.

Lemma changes_same cur us : (∀ u, u ∈ us → material u = cur) → changes cur us = [].
Proof.
  induction us as [|u us IH]; intros Hu; [done|]. simpl.
  rewrite decide_True by (apply Hu; left). apply IH. intros v Hv. apply Hu. by right.
Qed.

(** After a restart a client serves what it saved: for each set of
    domains, the last certification with these domains is watched, starting
    from the saved files when both can be read, and as long as the servers
    deliver the same pair, no file is rewritten and no reload command runs. *)
Theorem restart_quiet cfg (w : W) k c certPath keyPath fullchain key :
  certificationOf cfg k = Some c →
  GetFullChainAndKeyPath c = Ok (certPath, keyPath) →
  Stat certPath w = None → Stat keyPath w = None →
  ReadFile certPath w = Ok fullchain → ReadFile keyPath w = Ok key →
  ∃ wc, ClientInit cfg w ∅ !! k = Some wc ∧ wc_Config wc = c ∧ UpdateHandlers wc = [writeHandler] ∧
    (∀ pair, X509KeyPair fullchain key = Ok pair → GetCertificate k (ClientInit cfg w ∅) = Ok pair) ∧
    ∀ x, reachable (watchInit wc) watchStep x →
      (∀ u, u ∈ wt_sent x → material u = (fullchain, key)) → wt_calls x = [].
Proof.
  intros Hc Hp S1 S2 R1 R2. exists (initCert c w).
  assert (Hl : ClientInit cfg w ∅ !! k = Some (initCert c w)) by (by rewrite clientInit_lookup, Hc).
  assert (Hd : Data (initCert c w) = mkCertData (cc_Domains c) fullchain key).
  { unfold initCert, loadSavedCert, FileExists. by rewrite Hp, S1, S2, R1, R2. }
  split_all; [done..| |].
  - intros pair Hpair. unfold GetCertificate. rewrite Hl, Hd. cbn [cd_Fullchain cd_Key]. by rewrite Hpair.
  - intros x [If Ic _ _ _]%watch_invariant Hu. rewrite Hd, changes_same in Ic.
    + by apply app_nil in Ic as [? _].
    + intros u Hin. apply Hu. rewrite If. apply elem_of_app. by left.
Qed.

(** A registration replaces an earlier one for the same set of domains. *)
Lemma AddCertToWatch_lookup name ds (certs : gmap Key (watchingCert W)) k :
  AddCertToWatch name ds certs !! k =
    if decide (k = AsKey ds)
    then Some (mkWatching (mkCertData ds "" "") (mkClientCertification name "" ds "") []) else certs !! k.
Proof.
  unfold AddCertToWatch, AddCertToWatchOpt. case_decide as Hk;
    [by rewrite Hk, lookup_insert_eq | by rewrite lookup_insert_ne].
Qed.
End Startup.

(** ** A concrete client *)

Import (hints) Handler.Demo.
Import (hints) Mtls.Demo.

Module Demo.
Definition cfg : ClientConfig :=
  mkClientConfig (mkClientCommonConfig 3 "http" "10m" (10 * Minute))
    (mkClientHttpServer "https://certdx.example.com/" "token" "secret" "")
    (mkClientHttpServer "" "" "" "") (mkClientGRPCServer "" "") (mkClientGRPCServer "" "")
    [mkClientCertification "old" "/tmp" ["example.com"] ""; Handler.Demo.cert].

Definition k : Key := AsKey ["example.com"].
Definition wc : watchingCert Disk := initCert Handler.Demo.cert Handler.Demo.disk.

Definition u1 : certData := mkCertData ["example.com"] "old chain" "old key".
Definition u2 : certData := mkCertData ["example.com"] "new chain" "new key".

(** The saved pair is delivered again, then a new one. *)
Definition x0 : watch := mkWatch wc WIdle None false Handler.Demo.disk [] [] [].
Definition x1 : watch := mkWatch wc WIdle (Some u1) false Handler.Demo.disk [u1] [] [].
Definition x2 : watch := mkWatch wc WIdle None false Handler.Demo.disk [u1] [u1] [].
Definition x3 : watch := mkWatch wc WIdle (Some u2) false Handler.Demo.disk [u1; u2] [u1] [].
Definition x4 : watch :=
  mkWatch (mkWatching u2 (wc_Config wc) (UpdateHandlers wc)) (WNotify u2 (UpdateHandlers wc)) None false
    Handler.Demo.disk [u1; u2] [u1; u2] [].
Definition x5 : watch :=
  mkWatch (wt_cert x4) (WNotify u2 []) None false
    (writeHandler (cd_Fullchain u2) (cd_Key u2) (wc_Config wc) Handler.Demo.disk) [u1; u2] [u1; u2]
    [(u2, writeHandler)].
Definition x6 : watch :=
  mkWatch (wt_cert x4) WIdle None false (wt_world x5) [u1; u2] [u1; u2] [(u2, writeHandler)].

Lemma reach2 : reachable (watchInit wc) watchStep x2.
Proof.
  assert (Hm : material (Data wc) = material u1) by (vm_compute; reflexivity).
  apply (reach_step _ _ x1); [apply (reach_step _ _ x0)|].
  - apply reach_init. by exists Handler.Demo.disk.
  - exact (w_send u1 wc WIdle false Handler.Demo.disk [] [] []).
  - exact (w_same u1 wc false Handler.Demo.disk [u1] [] [] Hm).
Qed.

Lemma reach6 : reachable (watchInit wc) watchStep x6.
Proof.
  assert (Hm : material (Data wc) ≠ material u2) by (vm_compute; discriminate).
  apply (reach_step _ _ x5); [apply (reach_step _ _ x4); [apply (reach_step _ _ x3);
    [apply (reach_step _ _ x2); [exact reach2|]|]|]|].
  - exact (w_send u2 wc WIdle false Handler.Demo.disk [u1] [u1] []).
  - exact (w_receive u2 wc false Handler.Demo.disk [u1; u2] [u1] [] Hm).
  - exact (w_handler u2 writeHandler [] (wt_cert x4) None false Handler.Demo.disk [u1; u2] [u1; u2] []).
  - exact (w_handled u2 (wt_cert x4) None false (wt_world x5) [u1; u2] [u1; u2] [(u2, writeHandler)]).
Qed.
End Demo.

Lemma watch_fanout_witness :
  material (Data (wt_cert Demo.x6)) = ("new chain", "new key") ∧
  wt_calls Demo.x6 = fanout Demo.wc (changes (material (Data Demo.wc)) [Demo.u1; Demo.u2]) ∧
  ReadFile "/etc/ssl/web.key" (wt_world Demo.x6) = Ok "new key".
Proof.
  destruct (watch_fanout Demo.wc Demo.x6 Demo.reach6) as (_&_&H).
  destruct (H eq_refl eq_refl) as [Hd Hc].
  split; [exact Hd|]. split; [exact Hc|]. vm_compute. reflexivity.
Defined.

Lemma restart_quiet_witness :
  certificationOf Demo.cfg Demo.k = Some Handler.Demo.cert ∧ wt_calls Demo.x2 = [].
Proof.
  assert (Hc : certificationOf Demo.cfg Demo.k = Some Handler.Demo.cert) by (vm_compute; reflexivity).
  split; [exact Hc|].
  assert (Hp : GetFullChainAndKeyPath Handler.Demo.cert = Ok ("/etc/ssl/web.pem", "/etc/ssl/web.key"))
    by (vm_compute; reflexivity).
  assert (S1 : Stat "/etc/ssl/web.pem" Handler.Demo.disk = None) by (vm_compute; reflexivity).
  assert (S2 : Stat "/etc/ssl/web.key" Handler.Demo.disk = None) by (vm_compute; reflexivity).
  assert (R1 : ReadFile "/etc/ssl/web.pem" Handler.Demo.disk = Ok "old chain") by (vm_compute; reflexivity).
  assert (R2 : ReadFile "/etc/ssl/web.key" Handler.Demo.disk = Ok "old key") by (vm_compute; reflexivity).
  destruct (restart_quiet Demo.cfg Handler.Demo.disk Demo.k _ _ _ _ _ Hc Hp S1 S2 R1 R2)
    as (wc&Hw&_&_&_&Hq).
  rewrite clientInit_lookup, Hc in Hw. injection Hw as <-. apply (Hq Demo.x2 Demo.reach2).
  intros u Hu. simpl in Hu. apply list_elem_of_singleton in Hu as ->. reflexivity.
Defined.
