(* ===== verification/Install.v ===== *)
(** The watcher with the files: [watchUpdate] of pkg/client/daemon.go running
    [writeCertAndDoCommand] of pkg/client/handler.go on a traced disk, for any
    producer.  Whatever is sent, every file is at every moment as it was at the
    start, or holds the whole of its part of something that was sent. *)

From Stdlib Require Import ZArith Lia.
From stdpp Require Import base option list strings relations.
From S2P Require Import Prelude.
From S2P Require Import GoStd.
From S2P Require Import Sys.
From S2P Require Import Config.
From S2P Require Import Paths.
From S2P Require Import Handler.
From S2P Require Import Daemon.

Open Scope Z_scope.

Section Files.
Context {F : Type} `{FL : FileSystemLaws F} `{CR : CommandRunner F}.
Variable cert : ClientCertification.

Notation watch := (watch (W := Traced F)).

(** The watcher's own steps: it is not sent to, and the disk changes by
    its handlers only. *)
Definition ownStep (x x' : watch) : Prop :=
  watchStep x x' ∧ wt_sent x' = wt_sent x ∧ (wt_world x' = wt_world x ∨ wt_calls x' ≠ wt_calls x).

(** A producer's send, when there is room. *)
Definition push (u : certData) (x : watch) : watch :=
  mkWatch (wt_cert x) (wt_phase x) (Some u) (wt_root x) (wt_world x) (wt_sent x ++ [u]) (wt_received x) (wt_calls x).

Inductive fileStep : watch → watch → Prop :=
| fs_push x u : wt_chan x = None → fileStep x (push u x)
| fs_own x x' : ownStep x x' → fileStep x x'.

(** The client has started on its disk. *)
Definition fileStart (f0 : F) : watch :=
  mkWatch (initCert cert (mkTraced f0 [])) WIdle None false (mkTraced f0 []) [] [] [].

Variables certPath keyPath : string.
Hypothesis paths : GetFullChainAndKeyPath cert = Ok (certPath, keyPath).
Context (HK : CommandKeeps F [certPath; keyPath]).

Definition from_sent (f0 : F) (us : list certData) (f : F) : Prop :=
  (ReadFile certPath f = ReadFile certPath f0 ∨ ∃ u, u ∈ us ∧ ReadFile certPath f = Ok (cd_Fullchain u)) ∧
  (ReadFile keyPath f = ReadFile keyPath f0 ∨ ∃ u, u ∈ us ∧ ReadFile keyPath f = Ok (cd_Key u)).

Lemma from_sent_more f0 us us' f : us ⊆ us' → from_sent f0 us f → from_sent f0 us' f.
Proof using Type. intros Hsub [[?|(u&?&?)] [?|(v&?&?)]]; split; eauto. Qed.

(** The handlers still to run are the installation, for something sent. *)
Definition notifying (us : list certData) (p : wphase (W := Traced F)) : Prop :=
  match p with WNotify u hs => u ∈ us ∧ Forall (eq writeHandler) hs | _ => True end.

(** All the states of the disk, the present one first. *)
Definition moments (x : Traced F) : list F := current x :: history x.

Record filesInv (f0 : F) (x : watch) : Prop := {
  fi_watch : reachable (watchInit (initCert cert (mkTraced f0 []))) watchStep x;
  fi_notify : notifying (wt_sent x) (wt_phase x);
  fi_disk : Forall (from_sent f0 (wt_sent x)) (moments (wt_world x));
}.

Lemma writeHandler_from f0 us u (x : Traced F) :
  u ∈ us → Forall (from_sent f0 us) (moments x) →
  Forall (from_sent f0 us) (moments (writeHandler (cd_Fullchain u) (cd_Key u) cert x)).
Proof.
  intros Hu [Hc Hh]%Forall_cons. unfold writeHandler.
  destruct (writeCertAndDoCommand _ _ cert x) as [r y] eqn:E. simpl.
  destruct (install_atomic cert certPath keyPath _ _ x r y HK paths E) as (h&Eh&Fh&Ch).
  assert (Hall : Forall (from_sent f0 us) h).
  { eapply Forall_impl; [exact Fh|]. destruct Hc as [Hc Hk]. intros f [Hf1 Hf2]. split;
      [destruct Hf1 as [->|Hf1]|destruct Hf2 as [->|Hf2]]; eauto. }
  constructor; [|rewrite Eh; by apply Forall_app]. rewrite Ch. by destruct Hall.
Qed.

Lemma filesInv_start f0 : filesInv f0 (fileStart f0).
Proof.
  split; [by apply reach_init; eexists|done|]. constructor; [|constructor]. split; by left.
Qed.

Lemma filesInv_step f0 x x' : filesInv f0 x → fileStep x x' → filesInv f0 x'.
Proof.
  intros [Hw Hn Hd] Hstep. destruct Hstep as [x u Hch|x x' (Hs&Hsent&Hworld)].
  - split; simpl.
    + eapply reach_step; [exact Hw|]. destruct x as [wc p ch r w s v k]. simpl in *. subst ch. apply w_send.
    + destruct (wt_phase x); try done. destruct Hn. split; [set_solver|done].
    + eapply Forall_impl; [exact Hd|]. intros f. apply from_sent_more. set_solver.
  - pose proof (watch_invariant _ _ Hw) as [If _ _ Ih Ig]. split; [by eapply reach_step|..];
      destruct Hs as [|u c0 r w s v k Hne|?????? Hs|u h hs c0 ch r w s v k| | | |]; simpl in *; try done; try (by rewrite Hsent).
    + split; [rewrite If; set_solver|]. rewrite Ih. by repeat constructor.
    + by destruct Hn as [Hu [_ Hhs]%Forall_cons].
    + destruct Hn as [Hu [<- Hhs]%Forall_cons]. rewrite Ig. by apply writeHandler_from.
    + destruct Hworld as [->|]; done.
Qed.

(** Nothing under way: the client serves what was sent last. *)
Lemma filesInv_last f0 x us u : filesInv f0 x → wt_chan x = None → wt_sent x = us ++ [u] →
  material (Data (wt_cert x)) = material u.
Proof.
  intros [Hw _ _] Hc E. destruct (watch_invariant _ _ Hw) as [If _ Id _ _].
  rewrite Hc, app_nil_r, E in If. rewrite Id, <- If. by rewrite last_snoc.
Qed.
End Files.

(** Reload commands of the in-memory disk change nothing. *)
#[export] Instance disk_keeps ps : @CommandKeeps Disk _ Handler.Demo.run_disk ps.
Proof. split. intros args f r f' [= _ <-]. by intros q _. Qed.
