(* ===== verification/HttpClient.v ===== *)
(** pkg/client/http.go and http_poller.go: the HTTP client.  One request for a
    certificate, the fall-back from the main to the standby server, and the
    poll loop that feeds the watcher of a certificate.  The last part runs the
    client against the server of Http.v. *)

From Stdlib Require Import ZArith Lia Ascii.
From stdpp Require Import base option list gmap strings.
From S2P Require Import Prelude.
From S2P Require Import GoStd.
From S2P Require Import Sys.
From S2P Require Import Utf8.
From S2P Require Import Domain.
From S2P Require Import Config.
From S2P Require Import Retry.
From S2P Require Import Acme.
From S2P Require Import CertEntry.
From S2P Require Import CertStore.
From S2P Require Import Server.
From S2P Require Import Http.
From S2P Require Import Mtls.
From S2P Require Import Daemon.

Open Scope Z_scope.

(** ** One request *)

(** [http.Transport]: the default one, one with a TLS configuration, one that
    skips verification. *)
Inductive transport := TDefault | TMtls (cfg : tlsConfig) | TInsecure.

Record CertDXHttpClient := mkHttpClient {
  hc_Transport : transport;
  hc_Server : ClientHttpServer;      (* the nil pointer is not modelled: the options set it *)
}.

Record HttpRequest := mkHttpRequest {
  hr_Method : string;
  hr_URL : string;
  hr_Header : list (string * string);
  hr_Body : string;
}.

(** encoding/json on the client's side of the wire types. *)
Class ApiClientCodec := {
  encodeReq : HttpCertReq → result string;
  decodeResp : string → result HttpCertResp;
}.

(** net/http: whether [NewRequest] accepts an URL, and [Client.Do], which
    gives a status code and a body. *)
Class HttpNet (W : Type) := {
  checkURL : string → option error;
  httpDo : transport → HttpRequest → W → result (Z * string) * W;
}.

Definition zeroHttpServer : ClientHttpServer := mkClientHttpServer "" "" "" "".

Section Client.
Context {W : Type} `{PM : Pem} `{TC : TlsCrypto} `{FS : FileSystem W}.

Definition CertDXHttpClientOption : Type := W → CertDXHttpClient → outcome CertDXHttpClient.

Definition WithCertDXServerInfo (server : ClientHttpServer) : CertDXHttpClientOption := λ w client,
  let client := mkHttpClient (hc_Transport client) server in
  if String.eqb (ClientAuthMethod server) HTTP_AUTH_MTLS then
    match LoadClient (HttpPEM server) w with
    | Err err => Panic "load mtls bundle"
    | Ok cfg => Ret (mkHttpClient (TMtls cfg) server)
    end
  else Ret client.

Definition WithCertDXInsecure : CertDXHttpClientOption := λ w client,
  Ret (mkHttpClient TInsecure (hc_Server client)).

(** The options are applied in order. *)
Fixpoint applyClientOptions (s : list CertDXHttpClientOption) (w : W) (ret : CertDXHttpClient)
    : outcome CertDXHttpClient :=
  match s with
  | [] => Ret ret
  | item :: s' => match item w ret with Ret ret => applyClientOptions s' w ret | Panic m => Panic m end
  end.

Definition MakeCertDXHttpClient (s : list CertDXHttpClientOption) (w : W) : outcome CertDXHttpClient :=
  applyClientOptions s w (mkHttpClient TDefault zeroHttpServer).

Context `{CC : ApiClientCodec} `{HN : HttpNet W}.

Definition makeGetCertRequest (c : CertDXHttpClient) (domains : list string) : result HttpRequest :=
  match encodeReq (mkHttpCertReq domains) with
  | Err err => Err err
  | Ok body =>
      match checkURL (Url (hc_Server c)) with
      | Some err => Err err
      | None =>
          Ok (mkHttpRequest "POST" (Url (hc_Server c))
                (if String.eqb (ClientAuthMethod (hc_Server c)) HTTP_AUTH_TOKEN
                    && negb (String.eqb (Token (hc_Server c)) "")
                 then [("Authorization", "Token " +:+ Token (hc_Server c))] else [])
                body)
      end
  end.

Definition GetCertCtx (c : CertDXHttpClient) (domains : list string) (w : W) : result HttpCertResp * W :=
  match makeGetCertRequest c domains with
  | Err err => (Err err, w)
  | Ok req =>
      let '(r, w) := httpDo (hc_Transport c) req w in
      match r with
      | Err err => (Err err, w)
      | Ok (code, body) =>
          if negb (code =? StatusOK) then (Err (EText ("POST '" +:+ Url (hc_Server c) +:+ "' status")), w)
          else (decodeResp body, w)
      end
  end.

(** ** Main and standby *)

Context `{RT : Runtime W}.

(** The variable the closures of [httpRequestCert] assign, or the exit of the
    process inside a closure, after which nothing runs. *)
Inductive capture := NoResp | Resp (r : HttpCertResp) | Exits (msg : string).

Definition fetch (c : CertDXHttpClient) (domains : list string) (w : W) : option error * (W * capture) :=
  let '(r, w) := GetCertCtx c domains w in
  match r with Ok resp => (None, (w, Resp resp)) | Err err => (Some err, (w, NoResp)) end.

Variable cfg : ClientConfig.
Variable ClientOpt : list CertDXHttpClientOption.

(** The closure for the main server builds its client at each attempt. *)
Definition mainAttempt (domains : list string) (x : W * capture) : option error * (W * capture) :=
  let '(w, _) := x in
  match MakeCertDXHttpClient (ClientOpt ++ [WithCertDXServerInfo (HttpMain cfg)]) w with
  | Panic m => (None, (w, Exits m))
  | Ret c => fetch c domains w
  end.

Definition standbyAttempt (c : CertDXHttpClient) (domains : list string) (x : W * capture)
    : option error * (W * capture) :=
  fetch c domains (fst x).

Definition captured (x : W * capture) : outcome (option HttpCertResp) * W :=
  match snd x with
  | Resp r => (Ret (Some r), fst x)
  | NoResp => (Ret None, fst x)
  | Exits m => (Panic m, fst x)
  end.

(** The fuel of [Do] always suffices ([Do_total]). *)
Definition httpRequestCert (domains : list string) (w : W) : outcome (option HttpCertResp) * W :=
  match Do (RetryCount (Common cfg)) (mainAttempt domains) (w, NoResp) with
  | None => (Ret None, w)
  | Some (None, x) => captured x
  | Some (Some _, (w, _)) =>
      if negb (String.eqb (Url (HttpStandby cfg)) "") then
        match MakeCertDXHttpClient (ClientOpt ++ [WithCertDXServerInfo (HttpStandby cfg)]) w with
        | Panic m => (Panic m, w)
        | Ret c =>
            match Do (RetryCount (Common cfg)) (standbyAttempt c domains) (w, NoResp) with
            | None => (Ret None, w)
            | Some (None, x) => captured x
            | Some (Some _, (w, _)) => (Ret None, w)
            end
        end
      else (Ret None, w)
  end.
End Client.
Arguments CertDXHttpClientOption : clear implicits.

(** ** The poll loop *)

(** [cert.UpdateChan <- data], or the root context's Done. *)
Class CertSink (W : Type) := { sendCertData : certData → W → bool * W }.

Section Poll.
Context {W : Type} `{PM : Pem} `{TC : TlsCrypto} `{FS : FileSystem W} `{CC : ApiClientCodec} `{HN : HttpNet W}.
Context `{RT : Runtime W} `{CS : CertSink W}.
Variable cfg : ClientConfig.
Variable ClientOpt : list (CertDXHttpClientOption W).

Definition defaultSleep : Duration := 1 * Hour.

(** One round of [httpPollingCert]: the sleep time of the next one, or [None]
    when the loop returns. *)
Definition pollRound (domains : list string) (sleepTime : Duration) (w : W) : outcome (option Duration) * W :=
  let '(r, w) := httpRequestCert cfg ClientOpt domains w in
  match r with
  | Panic m => (Panic m, w)
  | Ret resp =>
      let '(alive, sleepTime, w) :=
        match resp with
        | Some resp =>
            if negb (String.eqb (resp_Err resp) "") then (true, sleepTime, w)
            else
              let sleepTime := Z.quot (RenewTimeLeft resp) 4 in
              let '(sent, w) := sendCertData (mkCertData domains (resp_FullChain resp) (resp_Key resp)) w in
              (sent, sleepTime, w)
        | None => (true, sleepTime, w)
        end in
      if (alive : bool) then
        let '(fired, w) := selectAfter sleepTime w in
        (Ret (if (fired : bool) then Some sleepTime else None), w)
      else (Ret None, w)
  end.

(** The first [n] rounds: the sleep time reached, or [None] once the loop has
    returned. *)
Fixpoint pollRounds (n : nat) (domains : list string) (sleepTime : Duration) (w : W)
    : outcome (option Duration) * W :=
  match n with
  | O => (Ret (Some sleepTime), w)
  | S n' =>
      let '(r, w) := pollRound domains sleepTime w in
      match r with
      | Ret (Some sleepTime) => pollRounds n' domains sleepTime w
      | _ => (r, w)
      end
  end.

Definition httpPollingCert (n : nat) (domains : list string) (w : W) := pollRounds n domains defaultSleep w.
End Poll.

(** ** Which server answers *)

Section Fetch.
Context {W : Type} `{PM : Pem} `{TC : TlsCrypto} `{FS : FileSystem W} `{CC : ApiClientCodec} `{HN : HttpNet W}.
Context `{RT : Runtime W} `{CS : CertSink W}.
Variable cfg : ClientConfig.
Variable ClientOpt : list (CertDXHttpClientOption W).

Notation budget := (RetryCount (Common cfg)).

(** A server answers with [r] within the retry budget. *)
Definition answers (attempt : W * capture → option error * (W * capture)) (w : W) (r : HttpCertResp) (w' : W) : Prop :=
  ∃ k x, (k ≤ Z.to_nat budget)%nat ∧ slow_fails attempt k (w, NoResp) x ∧ attempt x = (None, (w', Resp r)).

(** The budget is used up, an attempt failed too fast, or the client stops. *)
Definition gives_up (attempt : W * capture → option error * (W * capture)) (w w' : W) : Prop :=
  ∃ e s, Do budget attempt (w, NoResp) = Some (Some e, (w', s)).

(** Where the response of a round comes from. *)
Definition fetched (domains : list string) (w : W) (r : HttpCertResp) (w' : W) : Prop :=
  answers (mainAttempt cfg ClientOpt domains) w r w' ∨
  ∃ w1 c, gives_up (mainAttempt cfg ClientOpt domains) w w1 ∧ Url (HttpStandby cfg) ≠ "" ∧
    MakeCertDXHttpClient (ClientOpt ++ [WithCertDXServerInfo (HttpStandby cfg)]) w1 = Ret c ∧
    answers (standbyAttempt c domains) w1 r w'.

(** Neither server gives a response. *)
Definition unreachable (domains : list string) (w w' : W) : Prop :=
  ∃ w1, gives_up (mainAttempt cfg ClientOpt domains) w w1 ∧
    ((Url (HttpStandby cfg) = "" ∧ w' = w1) ∨
     ∃ c, MakeCertDXHttpClient (ClientOpt ++ [WithCertDXServerInfo (HttpStandby cfg)]) w1 = Ret c ∧
       gives_up (standbyAttempt c domains) w1 w').

Lemma fetch_captures c domains w w' s : fetch c domains w = (None, (w', s)) → ∃ r, s = Resp r.
Proof. unfold fetch. destruct (GetCertCtx c domains w) as [[r|e] w1]; intros [= _ <-]. eauto. Qed.

Lemma mainAttempt_captures domains x w' s :
  mainAttempt cfg ClientOpt domains x = (None, (w', s)) → (∃ r, s = Resp r) ∨ ∃ m, s = Exits m.
Proof.
  destruct x as [w s0]. unfold mainAttempt. destruct (MakeCertDXHttpClient _ w) as [c|m].
  - intros H. left. by eapply fetch_captures.
  - intros [= _ <-]. eauto.
Qed.

Lemma httpRequestCert_cases domains w o w' :
  httpRequestCert cfg ClientOpt domains w = (o, w') →
  match o with
  | Ret (Some r) => fetched domains w r w'
  | Ret None => unreachable domains w w'
  | Panic _ => True
  end.
Proof.
  unfold httpRequestCert.
  destruct (Do_total budget (mainAttempt cfg ClientOpt domains) (w, NoResp)) as [[[e|] [w1 s1]] E1]; rewrite E1.
  - assert (G : gives_up (mainAttempt cfg ClientOpt domains) w w1) by (by exists e, s1).
    destruct (String.eqb_spec (Url (HttpStandby cfg)) "") as [Hu|Hu]; simpl.
    { intros [= <- <-]. exists w1. eauto. }
    destruct (MakeCertDXHttpClient _ w1) as [c|m] eqn:Ec; [|by intros [= <- _]].
    destruct (Do_total budget (standbyAttempt c domains) (w1, NoResp)) as [[[e2|] [w2 s2]] E2]; rewrite E2.
    { intros [= <- <-]. exists w1. split; [done|]. right. exists c. split; [done|]. by exists e2, s2. }
    apply Do_success in E2 as (k&x&Hk&Hs&Hx). destruct (fetch_captures _ _ _ _ _ Hx) as [r ->].
    intros [= <- <-]. right. exists w1, c. split_all; [done..|]. by exists k, x.
  - apply Do_success in E1 as (k&x&Hk&Hs&Hx).
    destruct (mainAttempt_captures _ _ _ _ Hx) as [[r ->]|[m ->]]; intros [= <- <-]; [|done].
    left. by exists k, x.
Qed.

(** A bundle for mutual TLS is read at every attempt, and one that does not load
    ends the process, in whatever round: it is not an error of the attempt, so
    the standby server is not asked. *)
Theorem unloadable_bundle_exits domains w err : ctxErr w = None →
  (∀ o c, o ∈ ClientOpt → ∃ c', o w c = Ret c') →
  ClientAuthMethod (HttpMain cfg) = HTTP_AUTH_MTLS → LoadClient (HttpPEM (HttpMain cfg)) w = Err err →
  httpRequestCert cfg ClientOpt domains w = (Panic "load mtls bundle", w).
Proof.
  intros Hc Hopts Ha Hl. unfold httpRequestCert, Do, doFuel.
  change (ctxErr (w, NoResp)) with (ctxErr w). rewrite Hc.
  assert (Hm : MakeCertDXHttpClient (ClientOpt ++ [WithCertDXServerInfo (HttpMain cfg)]) w = Panic "load mtls bundle").
  { unfold MakeCertDXHttpClient. generalize (mkHttpClient TDefault zeroHttpServer). clear Hc.
    induction ClientOpt as [|o opts IH]; intros c; simpl.
    - unfold WithCertDXServerInfo. by rewrite Ha, String.eqb_refl, Hl.
    - destruct (Hopts o c ltac:(left)) as [c' ->]. apply IH. intros o' c1 Ho. apply Hopts. by right. }
  cbn [doLoop]. unfold mainAttempt at 1. rewrite Hm. done.
Qed.

(** C31: a round of the poll loop hands the watcher nothing but what a server
    answered for the configured domains, the standby server being asked only
    after the main one was given up; a refusal or two unreachable servers
    hand over nothing and keep the interval, a delivered certificate sets it to
    a quarter of its time left, and the loop ends only with the client. *)
Theorem poll_round domains sleepTime w next w' :
  pollRound cfg ClientOpt domains sleepTime w = (Ret next, w') →
  (∃ r w1, fetched domains w r w1 ∧ resp_Err r = "" ∧
     let '(sent, w2) := sendCertData (mkCertData domains (resp_FullChain r) (resp_Key r)) w1 in
     if (sent : bool) then
       let '(fired, w3) := selectAfter (Z.quot (RenewTimeLeft r) 4) w2 in
       w' = w3 ∧ next = if (fired : bool) then Some (Z.quot (RenewTimeLeft r) 4) else None
     else w' = w2 ∧ next = None) ∨
  (∃ w1, (unreachable domains w w1 ∨ ∃ r, fetched domains w r w1 ∧ resp_Err r ≠ "") ∧
     let '(fired, w2) := selectAfter sleepTime w1 in
     w' = w2 ∧ next = if (fired : bool) then Some sleepTime else None).
Proof.
  unfold pollRound. destruct (httpRequestCert cfg ClientOpt domains w) as [o w1] eqn:E.
  apply httpRequestCert_cases in E. destruct o as [[r|]|m]; [| |done].
  - destruct (String.eqb_spec (resp_Err r) "") as [He|He]; simpl.
    + destruct (sendCertData _ w1) as [[] w2] eqn:Es.
      * destruct (selectAfter _ w2) as [fired w3] eqn:Ef. intros [= <- <-].
        left. exists r, w1. by rewrite Es, Ef.
      * intros [= <- <-]. left. exists r, w1. by rewrite Es.
    + destruct (selectAfter sleepTime w1) as [fired w2] eqn:Ef. intros [= <- <-].
      right. exists w1. rewrite Ef. split; [right; by exists r | done].
  - destruct (selectAfter sleepTime w1) as [fired w2] eqn:Ef. intros [= <- <-].
    right. exists w1. rewrite Ef. split; [by left | done].
Qed.
End Fetch.

(** ** The client against the server *)

(** The two sides of encoding/json fit together on the wire types: names
    are valid UTF-8, and a duration is an int64. *)
Class CodecLaws `{ApiCodec} `{ApiClientCodec} := {
  req_total ds : ∃ b, encodeReq (mkHttpCertReq ds) = Ok b;
  req_roundtrip ds b : Forall (λ d, ValidString d = true) ds →
    encodeReq (mkHttpCertReq ds) = Ok b → decodeReq b = Ok (mkHttpCertReq ds);
  resp_roundtrip r b : resp_Err r = "" → - 2 ^ 63 ≤ RenewTimeLeft r < 2 ^ 63 →
    encodeResp r = Ok b → decodeResp b = Ok r;
  notallowed_read : decodeResp notAllowedBody = Ok (mkHttpCertResp 0 "" "" "Domains not allowed");
}.

Section Loopback.
Context {W : Type} `{RT : Runtime W} `{OB : Obtainer W} `{UQ : UpdateQueue W} `{AC : ApiCodec} `{CC : ApiClientCodec}.

(** The path of an URL, and whether it parses. *)
Variable urlPath : string → string.
Variable urlError : string → option error.

(** A request as the server sees it: surrounding blanks of a header value are
    not transmitted. *)
Definition arrives (req : HttpRequest) : Request :=
  mkRequest (hr_Method req) (urlPath (hr_URL req))
    (λ h, match List.find (λ '(n, _), String.eqb n h) (hr_Header req) with
          | Some (_, v) => TrimSpace v | None => "" end)
    (hr_Body req).

(** The network that connects every client to the server: with mutual TLS the
    handshake asks for the client's certificate, which is taken for good, and
    the handler for nothing more. *)
Definition loopback : HttpNet (CertDXServer * W) := {|
  checkURL := urlError;
  httpDo t req x :=
    if String.eqb (AuthMethod (sc_HttpServer (sConfig (fst x)))) HTTP_AUTH_MTLS then
      match t with
      | TMtls _ =>
          let '(resp, (s, w)) := apiHandler (fst x) (arrives req) (snd x) in (Ok (status resp, body resp), (s, w))
      | _ => (Err (EText "remote error: tls: certificate required"), x)
      end
    else
      let '(resp, (s, w)) := apiWithTokenHandler (fst x) (arrives req) (snd x) in
      (Ok (status resp, body resp), (s, w));
|}.
#[local] Existing Instance loopback.

Context `{CL : !CodecLaws}.

Lemma token_accepted (c : HttpServerConfig) (m b tok u : string) :
  tok = HttpToken c → TrimSpace ("Token " +:+ tok) = "Token " +:+ tok →
  checkAuthorizationToken c (arrives (mkHttpRequest m u
    (if negb (String.eqb tok "") then [("Authorization", "Token " +:+ tok)] else []) b)) = true.
Proof.
  intros -> Ht. unfold checkAuthorizationToken. destruct (String.eqb_spec (HttpToken c) "") as [E|E]; [done|].
  simpl. rewrite Ht.
  assert (Hp : HasPrefix ("Token " +:+ HttpToken c) "Token " = true) by (apply HasPrefix_spec; eauto).
  rewrite Hp, TrimPrefix_app, String.eqb_refl.
  rewrite (proj2 (String.eqb_neq _ _)); [done|]. intros E2. by rewrite app_String in E2.
Qed.

(** What [GetCertCtx] makes of an answer. *)
Definition readAnswer (url : string) (resp : Response) : result HttpCertResp :=
  if negb (status resp =? StatusOK) then Err (EText ("POST '" +:+ url +:+ "' status"))
  else decodeResp (body resp).

Lemma read_refusal url err :
  (∃ e, readAnswer url (certReqError err) = Err e) ∨
  readAnswer url (certReqError err) = Ok (mkHttpCertResp 0 "" "" "Domains not allowed").
Proof.
  unfold certReqError, readAnswer.
  destruct (errIs err ErrNotAllowed); simpl; [right; apply notallowed_read | left; eauto].
Qed.

(** Both sides are configured for the same authentication: a shared token,
    which is not changed on the way, or mutual TLS. *)
Definition authenticated (c : CertDXHttpClient) (h : HttpServerConfig) : Prop :=
  (AuthMethod h = HTTP_AUTH_TOKEN ∧ ClientAuthMethod (hc_Server c) = HTTP_AUTH_TOKEN ∧
   Token (hc_Server c) = HttpToken h ∧
   TrimSpace ("Token " +:+ Token (hc_Server c)) = "Token " +:+ Token (hc_Server c)) ∨
  (AuthMethod h = HTTP_AUTH_MTLS ∧ ClientAuthMethod (hc_Server c) = HTTP_AUTH_MTLS ∧
   ∃ tls, hc_Transport c = TMtls tls).

(** The whole exchange. *)
Lemma GetCertCtx_loopback c ds b (x : CertDXServer * W) :
  urlError (Url (hc_Server c)) = None → encodeReq (mkHttpCertReq ds) = Ok b →
  authenticated c (sc_HttpServer (sConfig (fst x))) →
  ∃ req, r_Method req = "POST" ∧ r_Path req = urlPath (Url (hc_Server c)) ∧ r_Body req = b ∧
  GetCertCtx c ds x =
    let '(resp, (s, w)) := apiHandler (fst x) req (snd x) in (readAnswer (Url (hc_Server c)) resp, (s, w)).
Proof.
  intros Hu Hb Hauth. unfold GetCertCtx, makeGetCertRequest. rewrite Hb. cbn [checkURL loopback]. rewrite Hu.
  destruct Hauth as [(Hs&Hm&Ht&Htrim)|(Hs&Hm&tls&Htr)]; rewrite Hm; cbn [httpDo loopback]; rewrite Hs.
  - change (String.eqb HTTP_AUTH_TOKEN HTTP_AUTH_TOKEN) with true.
    change (String.eqb HTTP_AUTH_TOKEN HTTP_AUTH_MTLS) with false. cbn [andb]. unfold apiWithTokenHandler.
    rewrite (token_accepted _ "POST" b _ (Url (hc_Server c)) Ht Htrim).
    set (req := arrives _). exists req. split; [done|]. split; [done|]. split; [done|].
    destruct (apiHandler (fst x) req (snd x)) as [resp [s w]]. unfold readAnswer. by destruct (negb (status resp =? StatusOK)).
  - rewrite Htr. change (String.eqb HTTP_AUTH_MTLS HTTP_AUTH_TOKEN) with false.
    change (String.eqb HTTP_AUTH_MTLS HTTP_AUTH_MTLS) with true. cbn [andb].
    set (req := arrives _). exists req. split; [done|]. split; [done|]. split; [done|].
    destruct (apiHandler (fst x) req (snd x)) as [resp [s w]]. unfold readAnswer. by destruct (negb (status resp =? StatusOK)).
Qed.

(** A request for other domains. *)
Lemma apiHandler_refuses (s : CertDXServer) req ds (w : W) :
  r_Path req = APIPath (sc_HttpServer (sConfig s)) → r_Method req = "POST" →
  decodeReq (r_Body req) = Ok (mkHttpCertReq ds) → AllAllowed (AllowedDomains (sc_ACME (sConfig s))) ds = false →
  apiHandler s req w = (mkResponse StatusOK "application/json" notAllowedBody, (s, w)).
Proof.
  intros Hp Hm Hb Ha. unfold apiHandler, handleCertReq. rewrite Hp, String.eqb_refl, Hm, Hb. simpl. by rewrite Ha.
Qed.

(** A client and a server with the same authentication understand each other: a
    request for allowed domains brings back exactly the certificate and the
    time left that the server's entry for these domains holds afterwards, or
    no material at all; a request for other domains brings back the refusal,
    and leaves the server as it was. *)
Theorem client_server c ds (s : CertDXServer) (w : W) r s' w' :
  urlError (Url (hc_Server c)) = None →
  urlPath (Url (hc_Server c)) = APIPath (sc_HttpServer (sConfig s)) →
  authenticated c (sc_HttpServer (sConfig s)) →
  Forall (λ d, ValidString d = true) ds →
  - 2 ^ 63 ≤ RenewTimeLeftDuration (sc_ACME (sConfig s)) < 2 ^ 63 →
  GetCertCtx c ds (s, w) = (r, (s', w')) →
  if AllAllowed (AllowedDomains (sc_ACME (sConfig s))) ds then
    (∃ e, sCache s' !! AsKey ds = Some e ∧ r = Ok (respOf s e)) ∨
    (∃ err, r = Err err) ∨ r = Ok (mkHttpCertResp 0 "" "" "Domains not allowed")
  else r = Ok (mkHttpCertResp 0 "" "" "Domains not allowed") ∧ s' = s ∧ w' = w.
Proof.
  intros Hu Hp Hauth Hds Hd H. destruct (req_total ds) as [b Hb]. pose proof (req_roundtrip ds b Hds Hb) as Hdec.
  destruct (GetCertCtx_loopback c ds b (s, w) Hu Hb Hauth) as (req&Hm&Hpath&Hbody&E). rewrite E in H. cbn [fst snd] in H.
  rewrite Hp in Hpath. rewrite <- Hbody in Hdec.
  destruct (AllAllowed (AllowedDomains (sc_ACME (sConfig s))) ds) eqn:Ha.
  - rewrite (apiHandler_serves s req ds w Hpath Hm Hdec Ha) in H.
    destruct (servedEntry s ds w) as [[err|] [e w1]].
    { right. injection H as <- _ _. apply read_refusal. }
    destruct (encodeResp (respOf s e)) as [rb|err] eqn:Er; 
      [|right; injection H as <- _ _; apply read_refusal].
    left. exists e. injection H as <- <- <-. simpl. rewrite lookup_insert_eq. split; [done|].
    by apply (resp_roundtrip (respOf s e)).
  - rewrite (apiHandler_refuses s req ds w Hpath Hm Hdec Ha) in H. injection H as <- <- <-.
    unfold readAnswer. simpl. by rewrite notallowed_read.
Qed.
End Loopback.

(** ** A concrete pair of codecs and networks *)

Import (hints) Mtls.Demo.
Import (hints) Server.Demo.

Module Demo.
Import Mtls.Demo.

(** Framed lists and records in place of JSON. *)
Fixpoint encList (ds : list string) : string :=
  match ds with [] => "0" | d :: ds' => String "1" (frame d +:+ encList ds') end.

Fixpoint decList (fuel : nat) (s : string) : option (list string) :=
  match fuel, s with
  | S fuel', String t s' =>
      if Ascii.eqb t "0" then Some []
      else match unframe s' with
      | Some (d, r) => (λ ds, d :: ds) <$> decList fuel' r
      | None => None
      end
  | _, _ => None
  end.

Lemma decList_encList ds : ∀ fuel, (length ds < fuel)%nat → decList fuel (encList ds) = Some ds.
Proof.
  induction ds as [|d ds IH]; intros [|fuel] Hf; simpl in *; try lia; [done|].
  rewrite unframe_frame. rewrite IH by lia. done.
Qed.

Lemma encList_length ds : (length ds < slen (encList ds))%nat.
Proof. induction ds as [|d ds IH]; simpl; [lia|]. rewrite slen_app. lia. Qed.

Definition encResp (r : HttpCertResp) : string :=
  String "R" (frame (bigString (RenewTimeLeft r)) +:+ (frame (resp_FullChain r) +:+
    (frame (resp_Key r) +:+ frame (resp_Err r)))).

Definition decResp (s : string) : option HttpCertResp :=
  match s with
  | String _ s =>
      '(n, s) ← unframe s; '(chain, s) ← unframe s; '(key, s) ← unframe s; '(err, _) ← unframe s;
      z ← bigSetString n; Some (mkHttpCertResp z chain key err)
  | EmptyString => None
  end.

#[export] Instance server_codec : ApiCodec := {
  decodeReq b := if String.eqb b "" then Err (ESentinel EOF)
    else match decList (slen b) b with Some ds => Ok (mkHttpCertReq ds) | None => Err (EText "json") end;
  encodeResp r := Ok (encResp r);
}.

#[export] Instance client_codec : ApiClientCodec := {
  encodeReq r := Ok (encList (req_Domains r));
  decodeResp b := if String.eqb b notAllowedBody then Ok (mkHttpCertResp 0 "" "" "Domains not allowed")
    else match decResp b with Some r => Ok r | None => Err (EText "json") end;
}.

#[export] Instance codec_laws : CodecLaws.
Proof.
  split; simpl.
  - eauto.
  - intros ds b _ [= <-]. rewrite (proj2 (String.eqb_neq _ _)) by (by destruct ds).
    by rewrite decList_encList by apply encList_length.
  - intros [z chain key err] b _ _ [= <-].
    rewrite (proj2 (String.eqb_neq _ _)) by (unfold encResp, notAllowedBody; by rewrite app_String).
    unfold decResp, encResp. cbn [RenewTimeLeft resp_FullChain resp_Key resp_Err].
    rewrite unframe_frame. simpl. rewrite unframe_frame. simpl. rewrite unframe_frame. simpl.
    rewrite <- (app_nil_r_string (frame err)), unframe_frame. simpl. by rewrite bigString_roundtrip.
  - done.
Qed.

Definition client : CertDXHttpClient :=
  mkHttpClient TDefault (mkClientHttpServer "https://certdx.example.com/" "token" "secret" "").
Definition path (url : string) : string := "/".
Definition noError (url : string) : option error := None.
Definition ds : list string := ["api.example.com"; "example.com"].

(** A main server that refuses connections and a standby that answers. *)
#[export] Instance two_servers : HttpNet (Sim * Disk) := {
  checkURL _ := None;
  httpDo _ req w :=
    if String.eqb (hr_URL req) "https://main/" then (Err (EText "connection refused"), w)
    else (Ok (200, encResp (mkHttpCertResp (24 * Hour) "chain" "key" "")), w);
}.
#[export] Instance sink : CertSink (Sim * Disk) := { sendCertData _ w := (true, w) }.

Definition cfg : ClientConfig :=
  mkClientConfig (mkClientCommonConfig 3 "http" "10m" (10 * Minute))
    (mkClientHttpServer "https://main/" "token" "secret" "")
    (mkClientHttpServer "https://standby/" "token" "secret" "")
    (mkClientGRPCServer "" "") (mkClientGRPCServer "" "") [].
Definition w0 : Sim * Disk := ({| sim_now := 0; sim_cancel := None |}, mkDisk ∅ []).
Definition w1 : Sim * Disk := ({| sim_now := 6 * Hour; sim_cancel := None |}, mkDisk ∅ []).
End Demo.

Import (hints) Demo.

Lemma poll_round_witness :
  pollRound Demo.cfg [] ["example.com"] Hour Demo.w0 = (Ret (Some (6 * Hour)), Demo.w1) ∧
  ∃ r w, fetched Demo.cfg [] ["example.com"] Demo.w0 r w ∧ resp_Err r = "".
Proof.
  assert (H : pollRound Demo.cfg [] ["example.com"] Hour Demo.w0 = (Ret (Some (6 * Hour)), Demo.w1))
    by (vm_compute; reflexivity).
  split; [exact H|].
  destruct (poll_round Demo.cfg [] ["example.com"] Hour Demo.w0 (Some (6 * Hour)) Demo.w1 H)
    as [(r&w&Hf&He&_)|(w&_&Hs)].
  - exists r, w. split; assumption.
  - destruct (selectAfter Hour w) as [[] w2]; destruct Hs as [_ Hs]; discriminate.
Defined.

Lemma client_server_witness :
  ∃ s' w' e, @GetCertCtx (CertDXServer * Sim) _ (loopback Demo.path Demo.noError) Demo.client Demo.ds
      (Http.Demo.server, Server.Demo.sim0) = (Ok (respOf Http.Demo.server e), (s', w')) ∧
    sCache s' !! AsKey Demo.ds = Some e.
Proof.
  destruct (@GetCertCtx (CertDXServer * Sim) _ (loopback Demo.path Demo.noError) Demo.client Demo.ds
      (Http.Demo.server, Server.Demo.sim0)) as [r [s' w']] eqn:E.
  assert (Hr : r = Ok (mkHttpCertResp (24 * Hour) "api.example.com,example.com" "key" "")).
  { replace r with (fst (@GetCertCtx (CertDXServer * Sim) _ (loopback Demo.path Demo.noError) Demo.client Demo.ds
      (Http.Demo.server, Server.Demo.sim0))) by (by rewrite E). vm_compute. reflexivity. }
  assert (Hd : - 2 ^ 63 ≤ RenewTimeLeftDuration (sc_ACME (sConfig Http.Demo.server)) < 2 ^ 63)
    by (vm_compute; split; [discriminate | reflexivity]).
  assert (Ha : AllAllowed (AllowedDomains (sc_ACME (sConfig Http.Demo.server))) Demo.ds = true)
    by (vm_compute; reflexivity).
  assert (Hds : Forall (λ d, ValidString d = true) Demo.ds) by (repeat constructor).
  assert (Ht : TrimSpace ("Token " +:+ Token (hc_Server Demo.client)) = "Token " +:+ Token (hc_Server Demo.client))
    by (vm_compute; reflexivity).
  pose proof (client_server Demo.path Demo.noError Demo.client Demo.ds Http.Demo.server Server.Demo.sim0 r s' w'
    eq_refl eq_refl (or_introl (conj eq_refl (conj eq_refl (conj eq_refl Ht)))) Hds Hd E) as H.
  rewrite Ha in H. destruct H as [(e&He&Hre)|[(err&H)|H]]; [|congruence|congruence].
  exists s', w', e. split; [congruence|exact He].
Defined.
