(* ===== verification/Codec.v ===== *)
(** The JSON texts of the repository: the wire types of pkg/api/http.go and the
    entries of cache.json (pkg/server/cert_store.go, [CertT]), as encoding/json
    writes and reads them by the tags of their structs.  These are the concrete
    codecs behind the interfaces [CacheCodec], [ApiCodec] and [ApiClientCodec].

    An empty slice is taken for the nil one.  Two things of the decoder are not
    kept: it refuses values nested more than 10000 deep, and a time whose text
    is written with escapes. *)

From Stdlib Require Import ZArith Lia Ascii.
From stdpp Require Import base option list gmap sets strings sorting.
From S2P Require Import Prelude.
From S2P Require Import GoStd.
From S2P Require Import Duration.
From S2P Require Import Net.
From S2P Require Import Utf8.
From S2P Require Import Domain.
From S2P Require Import Config.
From S2P Require Import CertEntry.
From S2P Require Import CertStore.
From S2P Require Import Http.
From S2P Require Import Mtls.
From S2P Require Import Base64.
From S2P Require Import Json.
From S2P Require Import Rfc3339.
From S2P Require Import HttpClient.

Open Scope Z_scope.
Open Scope go_scope.

(** ** Writing *)

Definition encodeBytes (s : string) : json := if String.eqb s "" then JNull else JString (b64encode s).

Definition encodeStrings (l : list string) : json :=
  match l with [] => JNull | _ => JArray (List.map JString l) end.

(** [json.Marshal(api.HttpCertReq)] *)
Definition jsonReq (r : HttpCertReq) : json := JObject [("domains", encodeStrings (req_Domains r))].

Definition jsonResp (r : HttpCertResp) : json :=
  JObject [("renewTimeLeft", JNumber (bigString (RenewTimeLeft r)));
           ("fullchain", encodeBytes (resp_FullChain r));
           ("key", encodeBytes (resp_Key r));
           ("err", JString (resp_Err r))].

(** A map is written in the order of its keys' texts, the elements with the
    first error it meets. *)
Fixpoint encodeMembers {A} (f : A → result json) (l : list (string * A)) : result (list (string * json)) :=
  match l with
  | [] => Ok []
  | (k, x) :: l' => let* j := f x in let* js := encodeMembers f l' in Ok ((k, j) :: js)
  end.

(** The order on members is that of their keys. *)
Definition key_le {A} (x y : string * A) : Prop := String.le x.1 y.1.
#[export] Instance key_le_dec {A} : RelDecision (@key_le A).
Proof. intros x y. unfold key_le. apply _. Defined.

Section Times.
(** The offset from UTC, in minutes, of the location that the server's times
    carry. *)
Variable zone : Time → Z.

Definition encodeTime (t : Time) : result json := let* s := formatTime (zone t) t in Ok (JString s).

Definition jsonCert (c : CertT) : result json :=
  let* vb := encodeTime (ValidBefore c) in
  let* ra := encodeTime (RenewAt c) in
  Ok (JObject [("fullChain", encodeBytes (FullChain c)); ("key", encodeBytes (PrivKey c));
               ("validBefore", vb); ("renewAt", ra)]).

(** A nil pointer is null. *)
Definition jsonEntry (e : option certStoreEntry) : result json :=
  match e with
  | None => Ok JNull
  | Some e =>
      let* c := jsonCert (se_Cert e) in
      Ok (JObject [("domains", encodeStrings (se_Domains e)); ("cert", c)])
  end.

Definition sortedMembers (m : gmap Key (option certStoreEntry)) : list (string * option certStoreEntry) :=
  merge_sort key_le (prod_map bigString id <$> map_to_list m).

Definition marshalCache (m : gmap Key (option certStoreEntry)) : result string :=
  let* l := encodeMembers jsonEntry (sortedMembers m) in Ok (print (JObject l)).
End Times.

(** ** Reading *)

Definition typeError {A} : result A := Err (EText "json: cannot unmarshal").

(** A slice as the decoder sees it: what is beyond the length may be decoded
    into again. *)
Record slice A := mkSlice { cells : list A; slice_len : nat }.
Arguments mkSlice {A}. Arguments cells {A}. Arguments slice_len {A}.

Definition nilSlice {A} : slice A := mkSlice [] 0.
Definition contents {A} (s : slice A) : list A := firstn (slice_len s) (cells s).

Section Slices.
Context {A : Type} (zero : A) (dec : json → A → result A).

Fixpoint decodeCells (l : list json) (old : list A) : result (list A) :=
  match l with
  | [] => Ok old
  | x :: l' =>
      let* c := dec x (default zero (head old)) in
      let* cs := decodeCells l' (tail old) in Ok (c :: cs)
  end.

Definition decodeSlice (j : json) (s : slice A) : result (slice A) :=
  match j with
  | JNull | JArray [] => Ok nilSlice
  | JArray l => let* cs := decodeCells l (cells s) in Ok (mkSlice cs (length l))
  | _ => typeError
  end.
End Slices.

Definition decodeString (j : json) (s : string) : result string :=
  match j with JNull => Ok s | JString s => Ok s | _ => typeError end.

Definition decodeInt64 (j : json) (n : Z) : result Z :=
  match j with
  | JNull => Ok n
  | JNumber lit =>
      match bigSetString lit with
      | Some v => if (- 2 ^ 63 <=? v) && (v <? 2 ^ 63) then Ok v else typeError
      | None => typeError
      end
  | _ => typeError
  end.

Definition decodeByte (j : json) (a : ascii) : result ascii :=
  match j with
  | JNull => Ok a
  | JNumber lit =>
      match readDigits 0 lit with
      | Some v => if v <? 256 then Ok (byteOf v) else typeError
      | None => typeError
      end
  | _ => typeError
  end.

(** Base64, or an array of numbers. *)
Definition decodeBytes (j : json) (s : slice ascii) : result (slice ascii) :=
  match j with
  | JString t =>
      match b64decode t with
      | Some b => Ok (mkSlice (String.list_ascii_of_string b) (slen b))
      | None => Err (EText "illegal base64 data")
      end
  | _ => decodeSlice (chr 0) decodeByte j s
  end.

Definition decodeTime (j : json) (t : Time) : result Time :=
  match j with
  | JNull => Ok t
  | JString s => match parseTime s with Some t => Ok t | None => Err (EText "parsing time") end
  | _ => Err (EText "Time.UnmarshalJSON: input is not a JSON string")
  end.

(** *** Structs *)

(** Member names match fields whatever their case; two letters outside ASCII
    are variants of 's' and 'k'. *)
Fixpoint foldName (s : string) : string :=
  match s with
  | EmptyString => ""
  | String a s1 =>
      match s1 with
      | String b s2 =>
          if (code a =? 197) && (code b =? 191) then String "s" (foldName s2)
          else match s2 with
          | String c s3 =>
              if (code a =? 226) && (code b =? 132) && (code c =? 170) then String "k" (foldName s3)
              else String (lower_ascii a) (foldName s1)
          | EmptyString => String (lower_ascii a) (foldName s1)
          end
      | EmptyString => String (lower_ascii a) (foldName s1)
      end
  end.

(** A struct is decoded member by member; unknown members are skipped. *)
Section Structs.
Context {A : Type} (fields : list (string * (json → A → result A))).

Definition decodeField (k : string) (j : json) (a : A) : result A :=
  match List.find (λ f, String.eqb (foldName f.1) (foldName k)) fields with
  | Some f => f.2 j a
  | None => Ok a
  end.

Fixpoint decodeMembers (l : list (string * json)) (a : A) : result A :=
  match l with
  | [] => Ok a
  | (k, j) :: l' => let* a := decodeField k j a in decodeMembers l' a
  end.

Definition decodeStruct (j : json) (a : A) : result A :=
  match j with JNull => Ok a | JObject l => decodeMembers l a | _ => typeError end.
End Structs.

(** Decoding one component of a pair. *)
Definition onFst {A B} (dec : json → A → result A) (j : json) (x : A * B) : result (A * B) :=
  let* a := dec j x.1 in Ok (a, x.2).
Definition onSnd {A B} (dec : json → B → result B) (j : json) (x : A * B) : result (A * B) :=
  let* b := dec j x.2 in Ok (x.1, b).

Definition decodeStrings := decodeSlice "" decodeString.

Definition bytesOf (s : slice ascii) : string := String.string_of_list_ascii (contents s).

Definition unjsonReq (j : json) : result HttpCertReq :=
  let* s := decodeStruct [("domains", decodeStrings)] j nilSlice in Ok (mkHttpCertReq (contents s)).

Definition unjsonResp (j : json) : result HttpCertResp :=
  let* x := decodeStruct
    [("renewTimeLeft", onFst decodeInt64); ("fullchain", onSnd (onFst decodeBytes));
     ("key", onSnd (onSnd (onFst decodeBytes))); ("err", onSnd (onSnd (onSnd decodeString)))]
    j (0, (nilSlice, (nilSlice, ""))) in
  let '(n, (chain, (key, err))) := x in Ok (mkHttpCertResp n (bytesOf chain) (bytesOf key) err).

(** The variable a certificate is decoded into. *)
Definition certVar : Type := slice ascii * (slice ascii * (Time * Time)).
Definition zeroCertVar : certVar := (nilSlice, (nilSlice, (zeroTime, zeroTime))).
Definition certOf (x : certVar) : CertT :=
  let '(chain, (key, (vb, ra))) := x in mkCertT (bytesOf chain) (bytesOf key) vb ra.

Definition decodeCert : json → certVar → result certVar :=
  decodeStruct [("fullChain", onFst decodeBytes); ("key", onSnd (onFst decodeBytes));
                ("validBefore", onSnd (onSnd (onFst decodeTime))); ("renewAt", onSnd (onSnd (onSnd decodeTime)))].

Definition unjsonEntry (j : json) : result (option certStoreEntry) :=
  match j with
  | JNull => Ok None
  | _ =>
      let* x := decodeStruct [("domains", onFst decodeStrings); ("cert", onSnd decodeCert)] j (nilSlice, zeroCertVar) in
      Ok (Some (mkStoreEntry (contents x.1) (certOf x.2)))
  end.

(** A key of [map[domain.Key]...]: [strconv.ParseUint(s, 10, 64)]. *)
Definition decodeKey (s : string) : result Key :=
  if String.eqb s "" then typeError
  else match readDigits 0 s with
  | Some v => if v <? u64_mod then Ok v else typeError
  | None => typeError
  end.

Fixpoint decodeEntries (l : list (string * json)) (m : gmap Key (option certStoreEntry))
    : result (gmap Key (option certStoreEntry)) :=
  match l with
  | [] => Ok m
  | (k, j) :: l' =>
      let* e := unjsonEntry j in
      let* k := decodeKey k in
      decodeEntries l' (<[ k := e ]> m)
  end.

Definition unjsonCache (j : json) : result (gmap Key (option certStoreEntry)) :=
  match j with JNull => Ok ∅ | JObject l => decodeEntries l ∅ | _ => typeError end.

(** *** Texts *)

Definition syntaxError {A} : result A := Err (EText "json: syntax error").

(** [Decoder.Decode]: the first value of the text. *)
Definition decodeText {A} (f : json → result A) (s : string) : result A :=
  if String.eqb (skipWs s) "" then Err (ESentinel EOF)
  else match parseFirst s with Some (j, _) => f j | None => syntaxError end.

(** [json.Unmarshal]: the only value of the text. *)
Definition unmarshalText {A} (f : json → result A) (s : string) : result A :=
  match parseText s with Some j => f j | None => syntaxError end.

#[export] Instance json_api : ApiCodec := {
  decodeReq := decodeText unjsonReq;
  encodeResp r := Ok (print (jsonResp r));
}.

#[export] Instance json_client : ApiClientCodec := {
  encodeReq r := Ok (print (jsonReq r));
  decodeResp := decodeText unjsonResp;
}.

Definition json_cache (zone : Time → Z) : CacheCodec := {|
  MarshalCache := marshalCache zone;
  UnmarshalCache := unmarshalText unjsonCache;
|}.

(** ** The texts are well formed *)

Lemma ascii_valid s : (∀ a, has_byte a s = true → code a < 128) → ValidString s = true.
Proof.
  induction s as [|a s IH]; intros Hs; [done|]. simpl.
  rewrite (proj2 (Z.ltb_lt _ _)) by (apply Hs; simpl; by rewrite Ascii.eqb_refl).
  apply IH. intros b Hb. apply Hs. simpl. by rewrite Hb, orb_true_r.
Qed.

Lemma digit_valid n s : 0 ≤ n < 10 → ValidString (String (digit_ascii n) s) = ValidString s.
Proof.
  intros Hn. destruct (digit_ascii_spec n Hn) as [Hd _]. cbn [ValidString].
  rewrite (proj2 (Z.ltb_lt _ _)); [done|]. unfold is_digit, code in *.
  apply andb_true_iff in Hd as [_ Hd]. apply N.leb_le in Hd. lia.
Qed.

Lemma fixedDigits_valid k : ∀ n s, ValidString (fixedDigits k n s) = ValidString s.
Proof.
  induction k as [|k IH]; intros n s; [done|]. cbn [fixedDigits].
  rewrite IH. apply digit_valid, Z.mod_pos_bound. lia.
Qed.

Lemma decDigits_valid fuel : ∀ n s, 0 ≤ n → ValidString (decDigits fuel n s) = ValidString s.
Proof.
  induction fuel as [|fuel IH]; intros n s Hn; [done|]. cbn [decDigits].
  destruct (n <? 10) eqn:E; bool_simp; [apply digit_valid; lia|].
  rewrite IH by (apply Z.div_pos; lia). apply digit_valid, Z.mod_pos_bound. lia.
Qed.

Lemma bigString_valid n : ValidString (bigString n) = true.
Proof.
  unfold bigString. case_match; [rewrite app_String, app_nil_string; cbn -[decDigits]|]; rewrite decDigits_valid by lia; done.
Qed.

Lemma formatTime_valid zone t s : formatTime zone t = Ok s → ValidString s = true.
Proof.
  unfold formatTime. destruct (yearDay _) as [y yd]. destruct (monthDay _ _) as [m d].
  case_match; [done|]. case_match; [done|]. intros <-%Ok_inj.
  assert (Hz : ValidString (formatZone zone) = true).
  { unfold formatZone. case_match; [done|]. case_match; cbn -[fixedDigits]; rewrite fixedDigits_valid; cbn -[fixedDigits];
      by rewrite fixedDigits_valid. }
  assert (Hf : ∀ n, ValidString (formatFrac n (formatZone zone)) = true).
  { intros n. unfold formatFrac. destruct (trimFrac 9 n) as [[|k] v]; [done|]. cbn -[fixedDigits]. by rewrite fixedDigits_valid. }
  repeat (rewrite fixedDigits_valid; cbn -[fixedDigits formatFrac formatZone]). apply Hf.
Qed.

Lemma encodeBytes_wf s : jwf (encodeBytes s).
Proof. unfold encodeBytes. case_match; [done|]. apply ascii_valid, b64encode_ascii. Qed.

Lemma encodeStrings_wf l : Forall (λ d, ValidString d = true) l → jwf (encodeStrings l).
Proof.
  destruct l as [|d l]; [done|]. unfold encodeStrings. intros H. change (foldr (λ x P, jwf x ∧ P) True (JString <$> d :: l)).
  by induction H.
Qed.

(** ** What is written is read back *)

Lemma contents_string b : bytesOf (mkSlice (String.list_ascii_of_string b) (slen b)) = b.
Proof.
  unfold bytesOf, contents. simpl. rewrite firstn_all2; [apply String.string_of_list_ascii_of_string|].
  induction b; simpl; lia.
Qed.

Lemma decodeBytes_read s x : ∃ v, decodeBytes (encodeBytes s) x = Ok v ∧ bytesOf v = s.
Proof.
  unfold encodeBytes. destruct (String.eqb_spec s "") as [->|_]; [by eexists|]. simpl.
  rewrite b64_roundtrip. eexists. split; [done|]. apply contents_string.
Qed.

Lemma decodeCells_strings l : decodeCells "" decodeString (List.map JString l) [] = Ok l.
Proof. induction l as [|d l IH]; [done|]. simpl. by rewrite IH. Qed.

Lemma decodeStrings_read l : ∃ v, decodeStrings (encodeStrings l) nilSlice = Ok v ∧ contents v = l.
Proof.
  destruct l as [|d l]; [by eexists|]. unfold decodeStrings, decodeSlice, encodeStrings. cbn [List.map cells nilSlice].
  change (JString d :: List.map JString l) with (List.map JString (d :: l)). rewrite decodeCells_strings.
  eexists. split; [done|]. unfold contents. cbn [cells slice_len]. rewrite List.length_map. apply firstn_all.
Qed.

Lemma decodeInt64_read n m : - 2 ^ 63 ≤ n < 2 ^ 63 → decodeInt64 (JNumber (bigString n)) m = Ok n.
Proof.
  intros Hn. simpl. rewrite bigString_roundtrip.
  by rewrite (proj2 (Z.leb_le _ _)), (proj2 (Z.ltb_lt _ _)) by lia.
Qed.

Lemma decodeKey_read k : 0 ≤ k < u64_mod → decodeKey (bigString k) = Ok k.
Proof.
  intros Hk. unfold decodeKey, bigString. rewrite (proj2 (Z.ltb_ge _ _)), Z.abs_eq by lia.
  destruct (decDigits_head (Z.to_nat (Z.log2 k)) k "") as (a&s&E&_); [lia|].
  rewrite decDigits_read.
  - rewrite E. simpl. by rewrite (proj2 (Z.ltb_lt _ _)) by lia.
  - rewrite Nat2Z.inj_succ, Z2Nat.id by apply Z.log2_nonneg.
    destruct (Z.eq_dec k 0) as [->|]; [done|]. split; [lia|]. apply Z.log2_spec. lia.
Qed.

Lemma decodeText_print {A} (f : json → result A) j : jwf j → decodeText f (print j) = f j.
Proof.
  intros Hj. unfold decodeText. pose proof (print_opens j "" Hj) as Ho. rewrite app_nil_r_string in Ho.
  rewrite skipWs_opens by done.
  rewrite (proj2 (String.eqb_neq _ _)) by (by destruct Ho as (?&?&->&_)).
  rewrite <- (app_nil_r_string (print j)), (parseFirst_print j "") by done. done.
Qed.

Lemma jsonReq_wf r : Forall (λ d, ValidString d = true) (req_Domains r) → jwf (jsonReq r).
Proof. intros H%encodeStrings_wf. cbn [jwf jsonReq foldr fst snd]. split_all; done. Qed.

Lemma jsonResp_wf r : ValidString (resp_Err r) = true → jwf (jsonResp r).
Proof.
  intros H. pose proof (encodeBytes_wf (resp_FullChain r)). pose proof (encodeBytes_wf (resp_Key r)).
  pose proof (number_ok_int (RenewTimeLeft r)). cbn [jwf jsonResp foldr fst snd]. split_all; done.
Qed.

Lemma decodeField_hit {A} (fields : list (string * (json → A → result A))) k j a f :
  List.find (λ f, String.eqb (foldName f.1) (foldName k)) fields = Some f → decodeField fields k j a = f.2 j a.
Proof. intros E. unfold decodeField. by rewrite E. Qed.

(** Decode the next member, by what its decoder is known to give. *)
Ltac member := cbn [decodeMembers bindR]; erewrite decodeField_hit by reflexivity; cbn [fst snd]; unfold onFst, onSnd; cbn [fst snd bindR].

Lemma unjsonReq_read r : unjsonReq (jsonReq r) = Ok r.
Proof.
  destruct (decodeStrings_read (req_Domains r)) as (v&E&Ev). unfold unjsonReq, jsonReq, decodeStruct.
  member. rewrite E. cbn. rewrite Ev. by destruct r.
Qed.

Lemma unjsonResp_read r : - 2 ^ 63 ≤ RenewTimeLeft r < 2 ^ 63 → unjsonResp (jsonResp r) = Ok r.
Proof.
  intros Hn. destruct r as [n chain key err]. cbn [RenewTimeLeft] in Hn.
  destruct (decodeBytes_read chain nilSlice) as (v1&E1&V1). destruct (decodeBytes_read key nilSlice) as (v2&E2&V2).
  unfold unjsonResp, jsonResp, decodeStruct. cbn [RenewTimeLeft resp_FullChain resp_Key resp_Err].
  member. rewrite decodeInt64_read by done. member. rewrite E1. member. rewrite E2. member. cbn. by rewrite V1, V2.
Qed.

Section CacheText.
Variable zone : Time → Z.

Lemma encodeTime_read t j x : encodeTime zone t = Ok j → jwf j ∧ decodeTime j x = Ok t.
Proof.
  unfold encodeTime. destruct (formatTime (zone t) t) as [s|] eqn:E; [|done]. intros <-%Ok_inj. simpl. split.
  - by eapply formatTime_valid.
  - by rewrite (parseTime_formatTime _ _ _ E).
Qed.

Lemma jsonCert_read c j : jsonCert zone c = Ok j → jwf j ∧ ∃ x, decodeCert j zeroCertVar = Ok x ∧ certOf x = c.
Proof.
  unfold jsonCert. destruct c as [chain key vb ra]. cbn [FullChain PrivKey ValidBefore RenewAt].
  destruct (encodeTime zone vb) as [jv|] eqn:Ev; [|done]. destruct (encodeTime zone ra) as [jr|] eqn:Er; [|done].
  apply (encodeTime_read _ _ zeroTime) in Ev as [Wv Ev]. apply (encodeTime_read _ _ zeroTime) in Er as [Wr Er].
  destruct (decodeBytes_read chain nilSlice) as (v1&E1&V1). destruct (decodeBytes_read key nilSlice) as (v2&E2&V2).
  cbn [bindR]. intros <-%Ok_inj. split.
  - pose proof (encodeBytes_wf chain). pose proof (encodeBytes_wf key). cbn [jwf foldr fst snd]. split_all; done.
  - unfold decodeCert, decodeStruct, zeroCertVar.
    member. rewrite E1. member. rewrite E2. member. rewrite Ev. member. rewrite Er. cbn [decodeMembers bindR].
    eexists. split; [done|]. simpl. by rewrite V1, V2.
Qed.

Lemma jsonEntry_read e j : from_option utf8_names True e → jsonEntry zone e = Ok j → jwf j ∧ unjsonEntry j = Ok e.
Proof.
  destruct e as [[ds c]|]; simpl; [|by intros _ <-%Ok_inj].
  intros Hds. destruct (jsonCert zone c) as [jc|] eqn:Ec; [|done]. cbn [bindR]. intros <-%Ok_inj.
  apply jsonCert_read in Ec as (Wc&x&Ex&Vx). destruct (decodeStrings_read ds) as (v&E&Ev). split.
  - pose proof (encodeStrings_wf ds Hds). cbn [jwf foldr fst snd]. split_all; done.
  - unfold unjsonEntry, decodeStruct. member. rewrite E. member. rewrite Ex. cbn [decodeMembers bindR fst snd].
    by rewrite Ev, Vx.
Qed.

Lemma encodeMembers_spec {A} (f : A → result json) l : ∀ js, encodeMembers f l = Ok js →
  Forall2 (λ x y, y.1 = x.1 ∧ f x.2 = Ok y.2) l js.
Proof.
  induction l as [|[k x] l IH]; intros js; simpl; [by intros <-%Ok_inj|].
  destruct (f x) as [j|] eqn:Ej; [|done]. simpl. destruct (encodeMembers f l) as [js'|]; [|done].
  intros <-%Ok_inj. constructor; [done|]. by apply IH.
Qed.

Lemma decodeEntries_read (l : list (Key * option certStoreEntry)) js : Forall2 (λ x y, y.1 = bigString x.1 ∧ jsonEntry zone x.2 = Ok y.2) l js →
  Forall (λ x, 0 ≤ x.1 < u64_mod ∧ from_option utf8_names True x.2) l → NoDup l.*1 → ∀ m, list_to_map l ##ₘ m →
  foldr (λ kv P, ValidString kv.1 = true ∧ jwf kv.2 ∧ P) True js ∧
  decodeEntries js m = Ok (list_to_map l ∪ m).
Proof.
  induction 1 as [|[k e] [k' j] l js Hkj _ IH]; intros Hl Hn m Hm; [split; [done|by rewrite list_to_map_nil, (left_id_L ∅ (∪))]|].
  cbn [fst snd] in Hkj. destruct Hkj as [-> Hj].
  inversion Hl as [|?? [Hk He] Hl']; subst. inversion Hn as [|?? Hk' Hn']; subst. simpl in *.
  rewrite map_disjoint_insert_l in Hm. destruct Hm as [Hkm Hm].
  destruct (jsonEntry_read e j He Hj) as [Wj ->]. cbn [bindR]. rewrite decodeKey_read by done. cbn [bindR].
  destruct (IH Hl' Hn' (insert (K:=Key) k e m)) as [Wl ->].
  - rewrite map_disjoint_insert_r. split; [by apply not_elem_of_list_to_map|done].
  - split; [split_all; [apply bigString_valid|done..]|]. f_equal.
    rewrite <- insert_union_r by by apply not_elem_of_list_to_map. by rewrite insert_union_l.
Qed.

Lemma marshalCache_read m b : storable m → marshalCache zone m = Ok b → unmarshalText unjsonCache b = Ok m.
Proof.
  intros Hm. unfold marshalCache. destruct (encodeMembers _ _) as [js|] eqn:E; [|done]. cbn [bindR]. intros <-%Ok_inj.
  assert (Hp : ∃ l, sortedMembers m = prod_map bigString id <$> l ∧ map_to_list m ≡ₚ l).
  { apply Permutation_map_inv. unfold sortedMembers. by rewrite merge_sort_Permutation. }
  destruct Hp as (l&El&Hl). rewrite El in E. apply encodeMembers_spec in E. rewrite Forall2_fmap_l in E.
  assert (Hn : NoDup l.*1) by (rewrite <- Hl; apply NoDup_fst_map_to_list).
  destruct (decodeEntries_read l js) with (m := (∅ : gmap Key (option certStoreEntry))) as [Wj Ed]; try done.
  - rewrite <- Hl. apply Forall_forall. intros [k e] Hke%elem_of_map_to_list. by apply Hm.
  - apply map_disjoint_empty_r.
  - unfold unmarshalText. rewrite parseText_print by done. simpl. rewrite Ed, (right_id_L ∅ (∪)).
    by rewrite <- (list_to_map_proper _ _ (NoDup_fst_map_to_list m) Hl), list_to_map_to_list.
Qed.
End CacheText.

#[export] Instance json_cache_laws zone : @CacheCodecLaws (json_cache zone).
Proof. split. apply marshalCache_read. Qed.

Lemma refusal_read : decodeResp notAllowedBody = Ok (mkHttpCertResp 0 "" "" "Domains not allowed").
Proof. vm_compute. reflexivity. Qed.

#[export] Instance json_laws : CodecLaws.
Proof.
  split.
  - by eexists.
  - intros ds b Hds <-%Ok_inj. cbn [decodeReq json_api]. rewrite decodeText_print by by apply jsonReq_wf.
    apply unjsonReq_read.
  - intros r b He Hr <-%Ok_inj. cbn [decodeResp json_client].
    rewrite decodeText_print by (apply jsonResp_wf; by rewrite He). by apply unjsonResp_read.
  - apply refusal_read.
Qed.

(** ** The contract of the texts *)

(** C15: the two ends agree on the wire types: a request and a response are
    read back as they were written, whatever bytes the certificate and the key
    hold and whatever int64 the time left is, when names and error texts are
    valid UTF-8, as texts decoded from JSON are; the hand-written refusal reads as
    a response with an error and no material; no text at all is [io.EOF]. *)
Theorem wire_json :
  (∀ ds, Forall (λ d, ValidString d = true) ds → let b := print (jsonReq (mkHttpCertReq ds)) in
     encodeReq (mkHttpCertReq ds) = Ok b ∧ decodeReq b = Ok (mkHttpCertReq ds)) ∧
  (∀ r, - 2 ^ 63 ≤ RenewTimeLeft r < 2 ^ 63 → ValidString (resp_Err r) = true → let b := print (jsonResp r) in
     encodeResp r = Ok b ∧ decodeResp b = Ok r) ∧
  decodeResp notAllowedBody = Ok (mkHttpCertResp 0 "" "" "Domains not allowed") ∧
  decodeReq "" = Err (ESentinel EOF).
Proof.
  split_all; [| |apply refusal_read|done].
  - intros ds Hds. split; [done|]. cbn [decodeReq json_api].
    rewrite decodeText_print by by apply jsonReq_wf. apply unjsonReq_read.
  - intros r Hr He. split; [done|]. cbn [decodeResp json_client].
    rewrite decodeText_print by by apply jsonResp_wf. by apply unjsonResp_read.
Qed.

(** The times of an entry are within the years that have a text. *)
Definition datable (zone : Time → Z) (e : option certStoreEntry) : Prop :=
  if e is Some e then
    writable (zone (ValidBefore (se_Cert e))) (ValidBefore (se_Cert e)) ∧
    writable (zone (RenewAt (se_Cert e))) (RenewAt (se_Cert e))
  else True.

Lemma encodeTime_total zone t : writable (zone t) t ↔ ∃ j, encodeTime zone t = Ok j.
Proof.
  rewrite formatTime_total. unfold encodeTime. destruct (formatTime (zone t) t); simpl; [|by split; intros [? ?]].
  split; intros _; by eexists.
Qed.

Lemma jsonEntry_total zone e : datable zone e ↔ ∃ j, jsonEntry zone e = Ok j.
Proof.
  destruct e as [[ds [chain key vb ra]]|]; simpl; [|split; [by eexists|done]].
  rewrite !encodeTime_total. unfold jsonCert. cbn [ValidBefore RenewAt].
  destruct (encodeTime zone vb) as [jv|], (encodeTime zone ra) as [jr|]; cbn [bindR]; split;
    try (by intros [? ?]); try (by intros [[? ?] [? ?]]); intros _; [eexists|split; eexists]; done.
Qed.

Lemma encodeMembers_total {A} (f : A → result json) l :
  (∃ js, encodeMembers f l = Ok js) ↔ Forall (λ x, ∃ j, f x.2 = Ok j) l.
Proof.
  induction l as [|[k x] l IH]; simpl; [split; [constructor|by eexists]|].
  rewrite Forall_cons, <- IH. simpl. destruct (f x) as [j|]; simpl.
  - destruct (encodeMembers f l) as [js|]; simpl; split; try (by intros [? ?]); try (by intros [? [? ?]]); intros _;
      [split|]; by eexists.
  - split; [by intros [? ?]|by intros [[? ?] _]].
Qed.

(** C14: cache.json holds the store: a map of 64-bit keys to entries with
    valid names is read back exactly as it was written, in whatever time zones
    and with null for nil; and it can be written just when every time in it
    lies within the years 0 to 9999, one entry outside keeping all from being
    saved. *)
Theorem cache_json zone m : storable m →
  (∀ b, marshalCache zone m = Ok b → unmarshalText unjsonCache b = Ok m) ∧
  ((∃ b, marshalCache zone m = Ok b) ↔ ∀ k e, m !! k = Some e → datable zone e).
Proof.
  intros Hm. split; [intros b; by apply marshalCache_read|]. unfold marshalCache.
  transitivity (∃ js, encodeMembers (jsonEntry zone) (sortedMembers m) = Ok js).
  { destruct (encodeMembers _ _); simpl; split; intros [? ?]; first [done|by eexists]. }
  rewrite encodeMembers_total. unfold sortedMembers. rewrite merge_sort_Permutation, Forall_fmap, Forall_forall. split.
  - intros H k e Hke%elem_of_map_to_list. apply jsonEntry_total. by apply (H (k, e)).
  - intros H [k e] Hke%elem_of_map_to_list. simpl. apply jsonEntry_total. by eapply H.
Qed.

(** ** A concrete store *)

Definition demo_zone (t : Time) : Z := if t =? 0 then 0 else 480.

Lemma cache_json_witness :
  (∃ b, marshalCache demo_zone CertStore.Demo.raw = Ok b) ∧
  ∀ b, marshalCache demo_zone CertStore.Demo.raw = Ok b → unmarshalText unjsonCache b = Ok CertStore.Demo.raw.
Proof.
  destruct (cache_json demo_zone CertStore.Demo.raw demo_raw_storable) as [Hr Ht]. split; [|exact Hr].
  apply Ht. intros k e. unfold CertStore.Demo.raw. rewrite !lookup_insert_Some, lookup_empty.
  intros [[_ <-]|[_ [[_ <-]|[_ ?]]]]; [..|done]; vm_compute; repeat split; discriminate.
Defined.

Example cache_text :
  marshalCache demo_zone (<[ 2 := Some (mkStoreEntry ["a"] (mkCertT "x" "" 1 0)) ]> (<[ 10 := None ]> ∅)) =
    Ok (print (JObject [("10", JNull); ("2", JObject [("domains", JArray [JString "a"]);
      ("cert", JObject [("fullChain", JString "eA=="); ("key", JNull);
        ("validBefore", JString "0001-01-01T08:00:00.000000001+08:00"); ("renewAt", JString "0001-01-01T00:00:00Z")])])])).
Proof. vm_compute. reflexivity. Qed.

Example field_names :
  decodeReq (print (JObject [("DOMAINS", JArray [JString "a"; JNull]); ("x", JNull)])) = Ok (mkHttpCertReq ["a"; ""]) ∧
  decodeReq (print (JObject [("domains", JArray [JString "a"]); ("domains", JArray [JNull; JNull])])) =
    Ok (mkHttpCertReq ["a"; ""]) ∧
  decodeReq "[]" = typeError.
Proof. vm_compute. done. Qed.
