(* ===== verification/HttpEndToEnd.v ===== *)
(** From the server's cache to the files of a polling client: one server, the
    poll loop of one certification (pkg/client/http_poller.go), its watcher
    (pkg/client/daemon.go) and the files it replaces (pkg/client/handler.go),
    joined over JSON.  The disk is traced, so the theorems speak of every
    moment.  What the server serves to a poll while a stream is subscribed to
    the same names is a flaw, and is followed down to the files. *)

From Stdlib Require Import ZArith Lia.
From stdpp Require Import base option list gmap strings relations.
From S2P Require Import Prelude.
From S2P Require Import GoStd.
From S2P Require Import Duration.
From S2P Require Import Sys.
From S2P Require Import Utf8.
From S2P Require Import Domain.
From S2P Require Import Config.
From S2P Require Import Paths.
From S2P Require Import Retry.
From S2P Require Import Acme.
From S2P Require Import CertEntry.
From S2P Require Import CertStore.
From S2P Require Import Server.
From S2P Require Import Http.
From S2P Require Import Handler.
From S2P Require Import Mtls.
From S2P Require Import Daemon.
From S2P Require Import Install.
From S2P Require Import HttpClient.
From S2P Require Import Json.
From S2P Require Import Codec.

Open Scope Z_scope.

(** ** One fetch over JSON *)

Section Fetch.
Context {W : Type} `{RT : Runtime W} `{OB : Obtainer W} `{UQ : UpdateQueue W}.
Variable urlPath : string → string.
Variable urlError : string → option error.
Variable c : CertDXHttpClient.
Variable ds : list string.

(** The client is configured for the server: its URL leads to the API, and both
    use the same token or mutual TLS. *)
Record linked (cfg : ServerConfig) : Prop := {
  ln_url : urlError (Url (hc_Server c)) = None;
  ln_path : urlPath (Url (hc_Server c)) = APIPath (sc_HttpServer cfg);
  ln_auth : authenticated c (sc_HttpServer cfg);
  ln_names : Forall (λ d, ValidString d = true) ds;
  ln_left : - 2 ^ 63 ≤ RenewTimeLeftDuration (sc_ACME cfg) < 2 ^ 63;
}.

Notation get_cert := (@GetCertCtx (CertDXServer * W) json_client (loopback urlPath urlError) c ds).

(** What a fetch does: the allow-list, the renewal, the answer. *)
Lemma fetch_spec (s : CertDXServer) (w : W) : linked (sConfig s) →
  get_cert (s, w) =
    if AllAllowed (AllowedDomains (sc_ACME (sConfig s))) ds then
      let '(err, (e, w1)) := servedEntry s ds w in
      let s1 := set_cache (<[ AsKey ds := e ]> (snd (get ds (sCache s)))) s in
      match err with
      | Some err => (readAnswer (Url (hc_Server c)) (certReqError err), (s1, w1))
      | None => (Ok (respOf s e), (s1, w1))
      end
    else (Ok (mkHttpCertResp 0 "" "" "Domains not allowed"), (s, w)).
Proof.
  intros [Hu Hp Hauth Hds Hd].
  assert (Hb : encodeReq (mkHttpCertReq ds) = Ok (print (jsonReq (mkHttpCertReq ds)))) by done.
  assert (Hdec : decodeReq (print (jsonReq (mkHttpCertReq ds))) = Ok (mkHttpCertReq ds)) by by apply req_roundtrip.
  destruct (GetCertCtx_loopback urlPath urlError c ds _ (s, w) Hu Hb Hauth) as (req&Hm&Hpath&Hbody&->). cbn [fst snd].
  rewrite Hp in Hpath. rewrite <- Hbody in Hdec.
  destruct (AllAllowed (AllowedDomains (sc_ACME (sConfig s))) ds) eqn:Ha.
  - rewrite (apiHandler_serves s req ds w Hpath Hm Hdec Ha). destruct (servedEntry s ds w) as [[err|] [e w1]]; [done|].
    assert (Er : encodeResp (respOf s e) = Ok (print (jsonResp (respOf s e)))) by done. rewrite Er.
    f_equal. change (decodeResp (print (jsonResp (respOf s e))) = Ok (respOf s e)).
    by apply (resp_roundtrip (respOf s e)).
  - rewrite (apiHandler_refuses s req ds w Hpath Hm Hdec Ha).
    change ((decodeResp notAllowedBody, (s, w)) = (Ok (mkHttpCertResp 0 "" "" "Domains not allowed"), (s, w))).
    by rewrite refusal_read.
Qed.

(** Somebody is subscribed to the names, so that a poll does not renew. *)
Definition shared (s : CertDXServer) : bool :=
  match sCache s !! AsKey ds with Some e => isSubscribing e | None => false end.

(** How long a certificate can have been expired when it is issued: what its
    lifetime is short of an hour. *)
Definition overdue (cfg : ServerConfig) : Duration := Z.max 0 (Hour - CertLifeTimeDuration (sc_ACME cfg)).

(** A response without an error is the entry's certificate; it is unexpired, up
    to that, unless the entry is shared. *)
Lemma fetch_fresh (s s' : CertDXServer) (w w' : W) r : linked (sConfig s) →
  get_cert (s, w) = (Ok r, (s', w')) → resp_Err r = "" →
  ∃ e, sCache s' !! AsKey ds = Some e ∧ r = respOf s e ∧ sConfig s' = sConfig s ∧
    (shared s = true ∨ timeNow w < ValidBefore (Cert e) + overdue (sConfig s)).
Proof.
  intros Hl H Herr. rewrite (fetch_spec s w Hl) in H.
  destruct (AllAllowed _ ds); [|by injection H as <- _ _].
  destruct (servedEntry s ds w) as [[err|] [e w1]] eqn:Es.
  { destruct (read_refusal (Url (hc_Server c)) err) as [[x E]|E]; rewrite E in H; [done|].
    by injection H as <- _ _. }
  injection H as <- <- <-. exists e. simpl. rewrite lookup_insert_eq. split_all; [done..|].
  destruct (shared s) eqn:Hsh; [by left|right]. unfold servedEntry in Es. unfold shared in Hsh.
  assert (Hsub : isSubscribing (default (newCertEntry ds 0%nat) (sCache s !! AsKey ds)) = false)
    by (by destruct (sCache s !! AsKey ds)).
  rewrite Hsub in Es. simpl in Es.
  destruct (renew _ _ _ w) as [[b0 err] [e2 w2]] eqn:En. injection Es as -> -> ->. by eapply renew_late.
Qed.
End Fetch.

(** ** The deployment *)

(** A certificate as it was fetched: when, and whether it was shared. *)
Record fetchedCert := mkFetched { ft_cert : CertT; ft_now : Time; ft_shared : bool }.

Section Deployment.
Context {W : Type} `{RT : Runtime W} `{OB : Obtainer W} `{UQ : UpdateQueue W}.
Context {F : Type} `{FL : FileSystemLaws F} `{CR : CommandRunner F}.
Variable urlPath : string → string.
Variable urlError : string → option error.
Variable c : CertDXHttpClient.
Variable cert : ClientCertification.

Notation ds := (cc_Domains cert).
Notation get_cert := (@GetCertCtx (CertDXServer * W) json_client (loopback urlPath urlError) c ds).

(** What a poll hands over. *)
Definition delivered (f : fetchedCert) : certData := mkCertData ds (FullChain (ft_cert f)) (PrivKey (ft_cert f)).

Record deployment := mkDeployment {
  d_server : CertDXServer;
  d_world : W;                            (* the server's *)
  d_inflight : option certData;           (* the poll loop, about to send *)
  d_watch : watch (W := Traced F);        (* the watcher, with the client's disk *)
  d_log : list fetchedCert;                   (* ghost: what was fetched, in order *)
}.

Inductive dstep : deployment → deployment → Prop :=
(* the server renews, serves others and grows older; failed polls end here *)
| ds_server s s' w w' i x l : sConfig s' = sConfig s →
    dstep (mkDeployment s w i x l) (mkDeployment s' w' i x l)
(* a poll brings back a certificate *)
| ds_fetch s s' w w' x l r :
    get_cert (s, w) = (Ok r, (s', w')) → resp_Err r = "" →
    dstep (mkDeployment s w None x l)
      (mkDeployment s' w' (Some (mkCertData ds (resp_FullChain r) (resp_Key r))) x
         (l ++ [mkFetched (default zeroCert (Cert <$> sCache s' !! AsKey ds)) (timeNow w) (shared ds s)]))
| ds_send s w u x l : wt_chan x = None →
    dstep (mkDeployment s w (Some u) x l) (mkDeployment s w None (push u x) l)
| ds_watch s w i x x' l : ownStep x x' →
    dstep (mkDeployment s w i x l) (mkDeployment s w i x' l).

(** The client has started on its disk. *)
Definition dinit (cfg : ServerConfig) (f0 : F) (d : deployment) : Prop :=
  sConfig (d_server d) = cfg ∧ d_inflight d = None ∧ d_log d = [] ∧
  d_watch d = fileStart cert f0.

(** ** What the files hold *)

Variables certPath keyPath : string.
Hypothesis paths : GetFullChainAndKeyPath cert = Ok (certPath, keyPath).
Context (HK : CommandKeeps F [certPath; keyPath]).

Record dpInv (cfg : ServerConfig) (f0 : F) (d : deployment) : Prop := {
  dv_config : sConfig (d_server d) = cfg;
  dv_files : filesInv cert certPath keyPath f0 (d_watch d);
  dv_sent : wt_sent (d_watch d) ++ option_list (d_inflight d) = delivered <$> d_log d;
  dv_fresh : ∀ f, f ∈ d_log d → ft_shared f = true ∨ ft_now f < ValidBefore (ft_cert f) + overdue cfg;
}.

Lemma dp_init cfg f0 d : dinit cfg f0 d → dpInv cfg f0 d.
Proof.
  destruct d as [s w i x l]. intros (Hc&Hi&Hl&Hx). simpl in *. subst. split; simpl; try done.
  - apply filesInv_start.
  - by intros f Hf%elem_of_nil.
Qed.

Lemma dp_step cfg f0 d d' : linked urlPath urlError c ds cfg →
  dpInv cfg f0 d → dstep d d' → dpInv cfg f0 d'.
Proof.
  intros Hl [Hc Hx Hs Hf] Hstep.
  destruct Hstep as [s s' w w' i x l Hcfg|s s' w w' x l r Hget Herr|s w u x l Hch|s w i x x' l Hown]; simpl in *.
  - split; simpl; try done. by rewrite Hcfg.
  - subst cfg. destruct (fetch_fresh _ _ _ _ s s' w w' r Hl Hget Herr) as (e&He&->&Hcfg&Hval).
    rewrite He. simpl. rewrite app_nil_r in Hs. split; simpl; try done.
    + by rewrite fmap_app, Hs.
    + intros f [Hin| ->%list_elem_of_singleton]%elem_of_app; [by apply Hf|]. done.
  - split; simpl; try done; [|by rewrite app_nil_r]. eapply (filesInv_step cert _ _ paths HK); [done|]. by apply fs_push.
  - assert (Hx' : filesInv cert certPath keyPath f0 x') by (eapply (filesInv_step cert _ _ paths HK); [done|]; by apply fs_own).
    destruct Hown as (_&Hsent&_). split; simpl; try done. by rewrite Hsent.
Qed.

Lemma dp_reachable cfg f0 d : linked urlPath urlError c ds cfg →
  reachable (dinit cfg f0) dstep d → dpInv cfg f0 d.
Proof.
  intros Hl. apply reachable_invariant; [apply dp_init|]. intros x x' _ Hx. by apply dp_step.
Qed.

(** C6: from the cache to the files: whatever the server, the poll loop, the
    watcher and time do in between, every value the watcher was sent is a
    certificate the server's entry for these names held when it was fetched,
    and was then unexpired unless a stream shared the entry (when certificates
    are configured to live for less than an hour, for which the rounding of
    their expiry does not provide, it can have expired by up to what is
    missing); at every moment
    the certificate file holds what it held at the start or the whole of one of
    these chains, and the key file likewise; and once nothing is under way,
    the client serves the last certificate fetched. *)
Theorem poll_end_to_end cfg f0 d : linked urlPath urlError c ds cfg →
  reachable (dinit cfg f0) dstep d →
  wt_sent (d_watch d) ++ option_list (d_inflight d) = delivered <$> d_log d ∧
  (∀ f, f ∈ d_log d → ft_shared f = true ∨
     ft_now f < ValidBefore (ft_cert f) + Z.max 0 (Hour - CertLifeTimeDuration (sc_ACME cfg))) ∧
  (Hour ≤ CertLifeTimeDuration (sc_ACME cfg) →
     ∀ f, f ∈ d_log d → ft_shared f = true ∨ ft_now f < ValidBefore (ft_cert f)) ∧
  Forall (from_sent certPath keyPath f0 (delivered <$> d_log d)) (moments (wt_world (d_watch d))) ∧
  (d_inflight d = None → wt_chan (d_watch d) = None → ∀ f l, d_log d = l ++ [f] →
     material (Data (wt_cert (d_watch d))) = (FullChain (ft_cert f), PrivKey (ft_cert f))).
Proof.
  intros Hl Hr. destruct (dp_reachable cfg f0 d Hl Hr) as [_ Hx Hs Hf]. split_all; [done|done|..].
  - intros Hlife f Hin. destruct (Hf f Hin) as [?|Hv]; [by left|right]. unfold overdue in Hv. lia.
  - eapply Forall_impl; [apply Hx|]. intros g. apply from_sent_more. rewrite <- Hs. set_solver.
  - intros Hi Hc f l El. rewrite Hi, app_nil_r, El, fmap_app in Hs.
    exact (filesInv_last cert _ _ f0 _ _ (delivered f) Hx Hc Hs).
Qed.

(** ** An empty certificate is installed *)

(** Installing over existing files, when the write succeeds. *)
Lemma install_replaces fullchain key (x y : Traced F) :
  Stat certPath x = None → Stat keyPath x = None →
  writeCertKeyPairAtomic certPath fullchain keyPath key x = (None, y) →
  let z := writeHandler fullchain key cert x in ReadFile certPath z = Ok fullchain ∧ ReadFile keyPath z = Ok key.
Proof.
  intros Sc Sk E. destruct (write_atomic cert _ _ _ _ _ _ _ paths E) as [_ [Rc Rk]].
  unfold writeHandler, writeCertAndDoCommand. rewrite paths. unfold ensureParentDir. rewrite Sc, Sk, E. simpl.
  destruct (Fields (cc_ReloadCommand cert)) as [|a args]; [done|].
  destruct (traced _ y) as [o z] eqn:Er. apply traced_spec in Er as [Er _]. apply command_keeps in Er.
  simpl. rewrite !Er by set_solver. done.
Qed.

(** C7: a poll of an entry that has no certificate yet and is subscribed by a
    stream, whose renewal is still running, is answered with an empty one and
    without an error; the client takes it for a change and replaces its good
    files by empty ones. *)
Theorem empty_overwrites s w x l e y :
  linked urlPath urlError c ds (sConfig s) →
  AllAllowed (AllowedDomains (sc_ACME (sConfig s))) ds = true →
  sCache s !! AsKey ds = Some e → isSubscribing e = true → Cert e = zeroCert →
  wt_phase x = WIdle → wt_chan x = None → UpdateHandlers (wt_cert x) = [writeHandler] → wc_Config (wt_cert x) = cert →
  material (Data (wt_cert x)) ≠ ("", "") →
  Stat certPath (wt_world x) = None → Stat keyPath (wt_world x) = None →
  writeCertKeyPairAtomic certPath "" keyPath "" (wt_world x) = (None, y) →
  ∃ d', rtc dstep (mkDeployment s w None x l) d' ∧ d_log d' = l ++ [mkFetched zeroCert (timeNow w) true] ∧
    wt_phase (d_watch d') = WIdle ∧
    ReadFile certPath (wt_world (d_watch d')) = Ok "" ∧ ReadFile keyPath (wt_world (d_watch d')) = Ok "".
Proof.
  intros Hl Ha He Hsub Hz Hp Hch Hh Hg Hne Sc Sk Ew.
  destruct x as [[dat conf hs] p ch r f sent v k]. simpl in *. subst p ch hs conf.
  assert (Hs : servedEntry s ds w = (None, (e, w))) by (unfold servedEntry; rewrite He; simpl; by rewrite Hsub).
  pose proof (fetch_spec urlPath urlError c ds s w Hl) as Hf. rewrite Ha, Hs in Hf. cbv beta iota zeta in Hf.
  set (s1 := set_cache _ s) in Hf.
  assert (He1 : default zeroCert (Cert <$> sCache s1 !! AsKey ds) = zeroCert)
    by (simpl; by rewrite lookup_insert_eq).
  assert (Hsh : shared ds s = true) by (unfold shared; by rewrite He).
  set (u := mkCertData ds "" ""). set (z := writeHandler "" "" cert f).
  set (wc := mkWatching (W := Traced F) u cert [writeHandler]).
  set (x2 := mkWatch wc (WNotify u [writeHandler]) None r f (sent ++ [u]) (v ++ [u]) k).
  set (x3 := mkWatch wc (WNotify u []) None r z (sent ++ [u]) (v ++ [u]) (k ++ [(u, writeHandler)])).
  set (x4 := mkWatch wc WIdle None r z (sent ++ [u]) (v ++ [u]) (k ++ [(u, writeHandler)])).
  set (l1 := l ++ [mkFetched zeroCert (timeNow w) true]).
  exists (mkDeployment s1 w None x4 l1). destruct (install_replaces "" "" f y Sc Sk Ew) as [Rc Rk].
  split; [|split_all; done].
  eapply rtc_l. { eapply (ds_fetch s s1 w w _ l _ Hf). done. }
  rewrite He1, Hsh. cbn [resp_FullChain resp_Key respOf]. rewrite Hz. cbn [FullChain PrivKey zeroCert].
  eapply rtc_l; [by apply ds_send|]. unfold push. cbn [wt_cert wt_phase wt_root wt_world wt_sent wt_received wt_calls].
  apply (rtc_l _ _ (mkDeployment s1 w None x2 l1)).
  { apply ds_watch. unfold ownStep. split_all; [|done|by left]. apply (w_receive u (mkWatching (W := Traced F) dat cert [writeHandler])). done. }
  apply (rtc_l _ _ (mkDeployment s1 w None x3 l1)).
  { apply ds_watch. unfold ownStep. split_all; [apply (w_handler u writeHandler [] wc)|done|right]. simpl.
    intros E. apply (f_equal length) in E. rewrite length_app in E. simpl in E. lia. }
  apply rtc_once, ds_watch. unfold ownStep. split_all; [apply (w_handled u wc)|done|by left].
Qed.
End Deployment.

(** ** A concrete deployment *)

Import (hints) Server.Demo.
Import (hints) Handler.Demo.

Module Demo.
Definition cert : ClientCertification := mkClientCertification "web" "/etc/ssl" ["example.com"] "systemctl reload nginx".
Notation deployment := (deployment (W := Sim) (F := Disk)).

Definition w0 : Sim := Server.Demo.sim0.
Definition d0 : deployment :=
  mkDeployment Http.Demo.server w0 None
    (fileStart cert Handler.Demo.disk) [].
Definition fetch0 := @GetCertCtx (CertDXServer * Sim) json_client
  (loopback HttpClient.Demo.path HttpClient.Demo.noError) HttpClient.Demo.client (cc_Domains cert) (Http.Demo.server, w0).

(** An entry with a subscriber whose first renewal is still running. *)
Definition entry : certEntry := mkEntry ["example.com"] (Some 1%nat) zeroCert 0 0%nat (Some 0%nat) 1.
Definition busy : CertDXServer := set_cache (<[ AsKey ["example.com"] := entry ]> ∅) Http.Demo.server.
End Demo.

Lemma demo_linked : linked HttpClient.Demo.path HttpClient.Demo.noError HttpClient.Demo.client ["example.com"]
  (sConfig Http.Demo.server).
Proof.
  split; [reflexivity..| |by repeat constructor|vm_compute; split; [discriminate|reflexivity]].
  left. split_all; vm_compute; reflexivity.
Qed.

Lemma poll_end_to_end_witness :
  ∃ d f, reachable (dinit Demo.cert (sConfig Http.Demo.server) Handler.Demo.disk)
      (dstep HttpClient.Demo.path HttpClient.Demo.noError HttpClient.Demo.client Demo.cert) d ∧
    d_log d = [f] ∧ ft_now f < ValidBefore (ft_cert f).
Proof.
  destruct Demo.fetch0 as [r [s' w']] eqn:E.
  assert (Hr : r = Ok (mkHttpCertResp (24 * Hour) "example.com" "key" "")).
  { replace r with (fst Demo.fetch0) by (by rewrite E). vm_compute. reflexivity. }
  subst r. unfold Demo.fetch0 in E. pose proof (ds_fetch (F := Disk) HttpClient.Demo.path HttpClient.Demo.noError HttpClient.Demo.client Demo.cert
    Http.Demo.server s' Demo.w0 w' (d_watch Demo.d0) []) as Hstep.
  specialize (Hstep _ E). specialize (Hstep eq_refl).
  assert (Hi : dinit Demo.cert (sConfig Http.Demo.server) Handler.Demo.disk Demo.d0)
    by (unfold dinit; split_all; reflexivity).
  pose proof (reach_step _ _ _ _ (reach_init _ (dstep (F := Disk) HttpClient.Demo.path HttpClient.Demo.noError
    HttpClient.Demo.client Demo.cert) _ Hi) Hstep) as Hd.
  destruct (poll_end_to_end HttpClient.Demo.path HttpClient.Demo.noError HttpClient.Demo.client Demo.cert
    "/etc/ssl/web.pem" "/etc/ssl/web.key" eq_refl (disk_keeps _) (sConfig Http.Demo.server) Handler.Demo.disk _
    demo_linked Hd) as (_&_&Hf&_).
  eexists _, _. split; [exact Hd|]. split; [reflexivity|].
  destruct (Hf ltac:(vm_compute; discriminate) _ ltac:(left)) as [Hs|Hv]; [discriminate Hs|exact Hv].
Defined.

Lemma empty_overwrites_witness :
  ∃ d' : Demo.deployment, d_log d' = [mkFetched zeroCert (timeNow Demo.w0) true] ∧
    ReadFile "/etc/ssl/web.pem" Handler.Demo.start = Ok "old chain" ∧
    ReadFile "/etc/ssl/web.pem" (wt_world (d_watch d')) = Ok "".
Proof.
  assert (Hw : writeCertKeyPairAtomic "/etc/ssl/web.pem" "" "/etc/ssl/web.key" "" Handler.Demo.start
    = (None, snd (writeCertKeyPairAtomic "/etc/ssl/web.pem" "" "/etc/ssl/web.key" "" Handler.Demo.start)))
    by (vm_compute; reflexivity).
  destruct (empty_overwrites HttpClient.Demo.path HttpClient.Demo.noError HttpClient.Demo.client Demo.cert
    "/etc/ssl/web.pem" "/etc/ssl/web.key" eq_refl (disk_keeps _) Demo.busy Demo.w0 (d_watch Demo.d0) [] Demo.entry _
    demo_linked ltac:(vm_compute; reflexivity) ltac:(apply lookup_insert_eq) eq_refl eq_refl eq_refl eq_refl eq_refl
    eq_refl ltac:(vm_compute; discriminate) eq_refl eq_refl Hw) as (d'&_&Hlog&_&Hc&_).
  exists d'. split; [exact Hlog|]. split; [vm_compute; reflexivity|exact Hc].
Defined.
