(* ===== verification/ClientSds.v ===== *)
(** pkg/client/sds.go: the client of the secret discovery service.  The
    subscription request, the receive loop's treatment of a response and the
    handler of one certificate are modelled, then run against the server side
    of Sds.v: the server accepts the subscription, and the two handlers of a
    pack, joined by the stream, hand over every offered certificate. *)

From Stdlib Require Import ZArith Lia Ascii.
From stdpp Require Import base option list gmap sets strings relations.
From S2P Require Import Prelude.
From S2P Require Import GoStd.
From S2P Require Import Net.
From S2P Require Import Utf8.
From S2P Require Import Domain.
From S2P Require Import Config.
From S2P Require Import CertEntry.
From S2P Require Import Sds.
From S2P Require Import Daemon.

Open Scope Z_scope.

(** ** Subscribing *)

(** The configurations of the watched certificates, in the order of the range
    over [c.certs]. *)
Section Subscribe.
Variable certs : list ClientCertification.

(** Certificates of the same name share one entry: the last one wins. *)
Definition domainSets : gmap string (list string) :=
  foldl (λ m cert, <[ cc_Name cert := cc_Domains cert ]> m) ∅ certs.

Definition resourceNames : list string := cc_Name <$> certs.

(** [structpb.NewStruct] of the metadata: it refuses strings that are not
    UTF-8. *)
Definition packRequest : result DiscoveryRequest :=
  let fields := map_to_list domainSets in
  if forallb (λ '(n, ds), ValidString n && forallb ValidString ds) fields then
    Ok (mkDiscoveryRequest typeUrl "" resourceNames
          (Some [(domainKey, VStruct ((λ '(n, ds), (n, VList (VString <$> ds))) <$> fields))]) None)
  else Err (EText "failed constructing meta data struct").

(** The handler behind each name: the position of its certificate. *)
Definition dispatchTable : gmap string nat :=
  foldl (λ m '(i, cert), <[ cc_Name cert := i ]> m) ∅ (imap pair certs).
End Subscribe.

(** ** Responses *)

Inductive SecretType := TlsCertificate (chain key : string) | OtherSecret.

Record Secret := mkSecret { sec_Name : string; sec_Type : SecretType }.

(** A resource is [None] when it is not an encoded secret. *)
Record DiscoveryResponse := mkDiscoveryResponse {
  dresp_VersionInfo : string;
  dresp_Resources : list (option Secret);
}.

Record respData := mkRespData { rd_Version : string; rd_Secret : Secret }.

(** One response in the receive loop: whether it counts as received from the
    server (the channel behind [Received] is closed), and the handler that
    gets it or the error that ends the stream. *)
Definition onResponse (dispatch : gmap string nat) (resp : DiscoveryResponse)
    : bool * result (nat * respData) :=
  match dresp_Resources resp with
  | [] => (false, Err (EText "SDS response has no resources"))
  | None :: _ => (true, Err (EText "can not unmarshal message from srv"))
  | Some secretResp :: _ =>
      match dispatch !! sec_Name secretResp with
      | None => (true, Err (EText ("unexpected cert: " +:+ sec_Name secretResp)))
      | Some i => (true, Ok (i, mkRespData (dresp_VersionInfo resp) secretResp))
      end
  end.

(** ** The handler of a certificate *)

(** The program counter of [handleCert]. *)
Inductive cstate :=
  | CWait                              (* waiting for a response *)
  | CUpdate (d : certData) (v : string)  (* sending to UpdateChan *)
  | CAck (v : string)                  (* sending the acknowledgement *)
  | CReturned.

#[export] Instance cstate_eq_dec : EqDecision cstate.
Proof. solve_decision. Defined.

(** What a response makes of the waiting handler: an unexpected secret ends
    the stream. *)
Definition onSecret (cert : ClientCertification) (r : respData) : option cstate :=
  match sec_Type (rd_Secret r) with
  | TlsCertificate chain key => Some (CUpdate (mkCertData (cc_Domains cert) chain key) (rd_Version r))
  | OtherSecret => None
  end.

Definition ackRequest (cert : ClientCertification) (v : string) : DiscoveryRequest :=
  mkDiscoveryRequest typeUrl v [cc_Name cert] None None.

(** ** The server accepts the subscription *)

Section Accepted.
Variable allowed : list string.
Variable range : gmap string (list string) → list (string * list string).
Hypothesis range_all : ∀ m, range m ≡ₚ map_to_list m.
Variable certs : list ClientCertification.

Lemma packDomains_strings ds : packDomains (VString <$> ds) = Ok ds.
Proof. induction ds as [|d ds IH]; [done|]. rewrite fmap_cons. cbn [packDomains asString]. by rewrite IH. Qed.

Lemma field_map_to_list (m : gmap string (list string)) n :
  field n ((λ '(n, ds), (n, VList (VString <$> ds))) <$> map_to_list m) = (λ ds, VList (VString <$> ds)) <$> m !! n.
Proof.
  assert (Hl : ∀ l : list (string * list string), NoDup l.*1 →
    field n ((λ '(n, ds), (n, VList (VString <$> ds))) <$> l)
      = (λ ds, VList (VString <$> ds)) <$> (list_to_map l : gmap string (list string)) !! n).
  { induction l as [|[n' ds] l IH]; simpl; [done|]. intros [Hn Hd]%NoDup_cons.
    destruct (String.eqb_spec n' n) as [->|Hne]; [by rewrite lookup_insert_eq|].
    rewrite lookup_insert_ne by done. by apply IH. }
  rewrite Hl by apply NoDup_fst_map_to_list. by rewrite list_to_map_to_list.
Qed.

Lemma domainSets_lookup n :
  domainSets certs !! n = cc_Domains <$> last (filter (λ c, cc_Name c = n) certs).
Proof.
  unfold domainSets. induction certs as [|c l IH] using rev_ind; [done|].
  rewrite foldl_app, filter_app. simpl. rewrite filter_cons, filter_nil. case_decide as Hn.
  - subst n. by rewrite last_snoc, lookup_insert_eq.
  - by rewrite app_nil_r, lookup_insert_ne.
Qed.

Lemma nameLoop_fresh domainSets names : ∀ packs,
  (∀ n, n ∈ names → ∃ ds, readPack allowed domainSets n = Ok ds) →
  nameLoop allowed ∅ domainSets names packs =
    ([], Ok (foldl (λ m n, <[ n := match readPack allowed domainSets n with Ok ds => ds | Err _ => [] end ]> m)
       packs names)).
Proof.
  induction names as [|n names IH]; intros packs Hok; simpl; [done|].
  destruct (Hok n) as [ds Hds]; [by left|]. rewrite lookup_empty, Hds. apply IH.
  intros n' Hn'. apply Hok. by right.
Qed.

Lemma foldl_insert_lookup {B} (f : string → B) names (m : gmap string B) n :
  foldl (λ m n, <[ n := f n ]> m) m names !! n = if decide (n ∈ names) then Some (f n) else m !! n.
Proof.
  revert m. induction names as [|n' names IH]; intros m; [done|]. cbn [foldl].
  rewrite IH. destruct (decide (n ∈ names)) as [H|H], (decide (n ∈ n' :: names)) as [H'|H'].
  - done.
  - destruct H'. by right.
  - apply elem_of_cons in H' as [->|]; [by rewrite lookup_insert_eq|done].
  - rewrite lookup_insert_ne; [done|]. intros ->. apply H'. by left.
Qed.

(** The server accepts what the client asks for: when every watched
    certificate's domains are allowed, the subscription request, however the
    names collide, starts exactly one handler per name, with the domains of
    the last certificate of that name, and the stream goes on. *)
Theorem subscription_accepted req :
  packRequest certs = Ok req →
  (∀ c, c ∈ certs → AllAllowed allowed (cc_Domains c) = true) →
  ∃ acts st, onRequest allowed range recv_init req = (acts, Ok st) ∧
    acts ≡ₚ (λ '(n, ds), Start n ds) <$> map_to_list (domainSets certs) ∧
    rv_dispatch st = domainSets certs ∧
    ∀ n, domainSets certs !! n = cc_Domains <$> last (filter (λ c, cc_Name c = n) certs).
Proof.
  unfold packRequest. destruct (forallb _ _); [|done]. intros [= <-] Ha.
  set (fields := (λ '(n, ds), (n, VList (VString <$> ds))) <$> map_to_list (domainSets certs)).
  assert (Hread : ∀ n, n ∈ resourceNames certs →
    ∃ ds, domainSets certs !! n = Some ds ∧ readPack allowed fields n = Ok ds).
  { intros n (c&->&Hc)%list_elem_of_fmap. rewrite domainSets_lookup.
    destruct (last (filter (λ c', cc_Name c' = cc_Name c) certs)) as [c'|] eqn:El.
    - exists (cc_Domains c'). split; [done|].
      assert (Hin : c' ∈ filter (λ c', cc_Name c' = cc_Name c) certs) by (by apply last_Some_elem_of).
      apply list_elem_of_filter in Hin as [Hn Hin].
      unfold readPack, fields. rewrite field_map_to_list, domainSets_lookup, El. simpl.
      rewrite packDomains_strings. by rewrite Ha.
    - apply last_None in El. assert (c ∈ filter (λ c', cc_Name c' = cc_Name c) certs) as Hin
        by (by apply list_elem_of_filter). rewrite El in Hin. by apply not_elem_of_nil in Hin. }
  unfold onRequest. cbn [dr_TypeUrl dr_ResourceNames]. rewrite String.eqb_refl. cbn [negb].
  assert (Hd : readDomainSets recv_init (mkDiscoveryRequest typeUrl "" (resourceNames certs)
    (Some [(domainKey, VStruct fields)]) None) = Ok fields) by reflexivity.
  rewrite Hd. cbn [rv_dispatch recv_init]. rewrite nameLoop_fresh by (intros n Hn; destruct (Hread n Hn) as (ds&_&?); eauto).
  set (packs := foldl _ ∅ _).
  assert (Hp : packs = domainSets certs).
  { apply map_eq. intros n. unfold packs. rewrite (foldl_insert_lookup
      (λ n, match readPack allowed fields n with Ok ds => ds | Err _ => [] end)).
    case_decide as Hn; [by destruct (Hread n Hn) as (ds&->&->)|].
    rewrite lookup_empty, domainSets_lookup. destruct (filter _ certs) as [|c l] eqn:E; [done|].
    assert (Hc : c ∈ filter (λ c, cc_Name c = n) certs) by (rewrite E; by left).
    apply list_elem_of_filter in Hc as [<- Hc]. destruct Hn. apply list_elem_of_fmap. eauto. }
  rewrite Hp. eexists _, _. split; [done|]. split_all.
  - simpl. by rewrite range_all.
  - apply map_eq. intros n. cbn [rv_dispatch]. rewrite startAll_range by done.
    by destruct (domainSets certs !! n).
  - apply domainSets_lookup.
Qed.
End Accepted.

(** ** The two handlers of a pack *)

Section Joint.
Variable versionOf : Time → string.
Variable conf : ClientCertification.

(** The response that offers a certificate, and what the watcher gets of it. *)
Definition response (c : CertT) : respData :=
  mkRespData (versionOf (RenewAt c)) (mkSecret (cc_Name conf) (TlsCertificate (FullChain c) (PrivKey c))).
Definition delivery (c : CertT) : certData := mkCertData (cc_Domains conf) (FullChain c) (PrivKey c).

(** The server's handler, the client's handler and the messages of the pack
    that are on the stream. *)
Record joint := mkJoint {
  j_server : hworld;
  j_client : cstate;
  j_responses : list respData;
  j_acks : list DiscoveryRequest;
  j_done : bool;                     (* the client's stream context *)
  j_updates : list certData;         (* ghost: values sent to UpdateChan *)
}.

(** Server steps that neither offer nor take an acknowledgement. *)
Definition quiet (h h' : hworld) : Prop :=
  h_offered h' = h_offered h ∧
  ∀ c seen n, h_state h = HAck c seen n → h_state h' = HAck c seen n ∨ h_state h' = HReturned.

Inductive jstep : joint → joint → Prop :=
| js_quiet h h' c rs acks d us : hstep versionOf h h' → quiet h h' →
    jstep (mkJoint h c rs acks d us) (mkJoint h' c rs acks d us)
| js_offer h h' x n c rs acks d us : hstep versionOf h h' → h_offered h' = (x, n) :: h_offered h →
    jstep (mkJoint h c rs acks d us) (mkJoint h' c (rs ++ [response x]) acks d us)
| js_ack h x seen n a c rs acks d us : h_state h = HAck x seen n →
    jstep (mkJoint h c rs (a :: acks) d us) (mkJoint (set_h (on_ack versionOf x seen n a) h) c rs acks d us)
| js_receive h r c' rs acks d us : onSecret conf r = Some c' →
    jstep (mkJoint h CWait (r :: rs) acks d us) (mkJoint h c' rs acks d us)
| js_bad h r rs acks d us : onSecret conf r = None →
    jstep (mkJoint h CWait (r :: rs) acks d us) (mkJoint h CReturned rs acks true us)
| js_update h u v rs acks d us :
    jstep (mkJoint h (CUpdate u v) rs acks d us) (mkJoint h (CAck v) rs acks d (us ++ [u]))
| js_send h v rs acks d us :
    jstep (mkJoint h (CAck v) rs acks d us) (mkJoint h CWait rs (acks ++ [ackRequest conf v]) d us)
| js_cancel h c rs acks d us : jstep (mkJoint h c rs acks d us) (mkJoint h c rs acks true us)
| js_return h c rs acks us : jstep (mkJoint h c rs acks true us) (mkJoint h CReturned rs acks true us).

Definition jinit (j : joint) : Prop := ∃ h, hinit h ∧ j = mkJoint h CWait [] [] false [].

(** The versions that are under way between the two handlers. *)
Definition held (c : cstate) : list string := match c with CUpdate _ v | CAck v => [v] | _ => [] end.
Definition tokens (j : joint) : list string :=
  (rd_Version <$> j_responses j) ++ held (j_client j) ++ (dr_VersionInfo <$> j_acks j).

(** The certificates under way to the watcher. *)
Definition inflight (c : cstate) (rs : list CertT) : list certData :=
  match c with CUpdate d _ => [d] | _ => [] end ++ (delivery <$> rs).

Definition offers (h : hworld) : list certData := delivery <$> reverse (h_offered h).*1.

(** One version at most is under way, and only while the server waits for it. *)
Definition tokens_ok (s : hstate) (c : cstate) (l : list string) : Prop :=
  match s with
  | HAck x _ _ => l = [versionOf (RenewAt x)] ∨ (l = [] ∧ c = CReturned)
  | HReturned => (length l ≤ 1)%nat
  | HPanicked => False
  | _ => l = []
  end.

Record jInv (j : joint) : Prop := {
  ji_server : reachable hinit (hstep versionOf) (j_server j);
  ji_tokens : tokens_ok (h_state (j_server j)) (j_client j) (tokens j);
  ji_data : ∃ rs, j_responses j = response <$> rs ∧
    if decide (j_client j = CReturned) then j_updates j `prefix_of` offers (j_server j)
    else j_updates j ++ inflight (j_client j) rs = offers (j_server j);
}.
Definition idle (s : hstate) : Prop :=
  match s with HAck _ _ _ | HReturned | HPanicked => False | _ => True end.

Lemma quiet_cases h h' : hstep versionOf h h' → quiet h h' →
  h_state h' = h_state h ∨ (h_state h' = HReturned ∧ h_state h ≠ HPanicked) ∨
  (idle (h_state h) ∧ idle (h_state h')).
Proof.
  intros Hs [Ho Hq]. destruct Hs as
    [w c|w|w t Hle|w c v E Es|w seen n v E Ew|w seen n ch E Ew|w ch n E Hlt|w ch n E Hd|w c v E Es
    |w c seen n E|w c seen n E Hd|w c seen n ack E|w c seen n E Hd]; simpl in *;
    try (by left); try (rewrite E; right; right; done); try (rewrite E; right; left; done).
  - rewrite E. right; right. split; [done|]. by destruct (IsValid _ _).
  - rewrite E. destruct (h_done w); [right; left; done | right; right; done].
  - exfalso. apply (f_equal length) in Ho. simpl in Ho. lia.
  - rewrite E. destruct (Hq _ _ _ E) as [Ha|Ha]; [by left|by right; left].
Qed.

Lemma offer_cases h h' x n : hstep versionOf h h' → h_offered h' = (x, n) :: h_offered h →
  ∃ seen, h_state h = HOffer x seen n ∧ h_state h' = HAck x seen n.
Proof.
  assert (Hno : ∀ l : list (CertT * nat), l ≠ (x, n) :: l)
    by (intros l E; apply (f_equal length) in E; simpl in E; lia).
  intros Hs Ho. destruct Hs; simpl in *; try (by apply Hno in Ho).
  injection Ho as -> ->. eauto.
Qed.

Lemma offers_cons h h' x n : h_offered h' = (x, n) :: h_offered h → offers h' = offers h ++ [delivery x].
Proof. intros E. unfold offers. rewrite E. simpl. by rewrite reverse_cons, fmap_app. Qed.

Lemma inflight_snoc c rs x : inflight c (rs ++ [x]) = inflight c rs ++ [delivery x].
Proof. unfold inflight. by rewrite fmap_app, (assoc_L (++)). Qed.

Lemma tokens_idle s c l : idle s → tokens_ok s c l → l = [].
Proof. by destruct s. Qed.

Lemma tokens_ok_return s c l l' : sublist l' l → tokens_ok s c l → tokens_ok s CReturned l'.
Proof.
  intros Hs. destruct s; simpl; try (intros ->; by apply sublist_nil_r in Hs); [|intros Hl|done].
  - intros [->|[-> _]]; [|right; split; [by apply sublist_nil_r in Hs|done]].
    apply sublist_cons_r in Hs as [?%sublist_nil_r|(k&->&?%sublist_nil_r)]; subst; auto.
  - etrans; [by apply sublist_length|done].
Qed.
Lemma tokens_mk h c rs acks d us :
  tokens (mkJoint h c rs acks d us) = (rd_Version <$> rs) ++ held c ++ (dr_VersionInfo <$> acks).
Proof. done. Qed.

Lemma jinv_quiet h h' c rs acks d us : hstep versionOf h h' → quiet h h' →
  jInv (mkJoint h c rs acks d us) → jInv (mkJoint h' c rs acks d us).
Proof.
  intros Hs Hq [Ir It Id]; simpl in *. split; simpl.
  - by eapply reach_step.
  - change (tokens (mkJoint h' c rs acks d us)) with (tokens (mkJoint h c rs acks d us)).
    set (l := tokens _) in *. clearbody l.
    destruct (quiet_cases _ _ Hs Hq) as [->|[[-> Hp]|[Hi Hi']]]; [done| |].
    + destruct (h_state h); simpl in *; try (subst; simpl; lia); try done.
      destruct It as [->|[-> _]]; simpl; lia.
    + apply tokens_idle in It as ->; [|done]. by destruct (h_state h').
  - unfold offers in *. destruct Hq as [-> _]. done.
Qed.

Lemma jinv_offer h h' x n c rs acks d us : hstep versionOf h h' → h_offered h' = (x, n) :: h_offered h →
  jInv (mkJoint h c rs acks d us) → jInv (mkJoint h' c (rs ++ [response x]) acks d us).
Proof.
  intros Hs Ho [Ir It (ls&Hl&Id)]; simpl in *. destruct (offer_cases _ _ _ _ Hs Ho) as (seen&E&E').
  split; simpl.
  - by eapply reach_step.
  - rewrite E in It. rewrite E'. rewrite tokens_mk in *. cbn [tokens_ok] in *.
    apply app_nil in It as [It1 [It2 It3]%app_nil]. rewrite fmap_app, It1, It2, It3. by left.
  - exists (ls ++ [x]). rewrite (offers_cons _ _ _ _ Ho), Hl, fmap_app. split; [done|].
    case_decide; [by apply prefix_app_r|]. by rewrite inflight_snoc, (assoc_L (++)), Id.
Qed.

(** The version that comes back is the one the server waits for. *)
Lemma jinv_ack h x seen n a c rs acks d us : h_state h = HAck x seen n →
  jInv (mkJoint h c rs (a :: acks) d us) →
  jInv (mkJoint (set_h (on_ack versionOf x seen n a) h) c rs acks d us).
Proof.
  intros E [Ir It (ls&Hl&Id)]; simpl in *. rewrite E, tokens_mk in It. cbn [tokens_ok] in It. rewrite fmap_cons in It.
  assert (Hnil : (rd_Version <$> rs) = [] ∧ held c = [] ∧ (dr_VersionInfo <$> acks) = [] ∧
                 dr_VersionInfo a = versionOf (RenewAt x)).
  { destruct It as [It|[It _]].
    - destruct (rd_Version <$> rs) as [|v1 l1]; simpl in It; [|by destruct l1, (held c)].
      destruct (held c) as [|v2 l2]; simpl in It; [|by destruct l2]. by injection It as -> ->.
    - by destruct (rd_Version <$> rs), (held c). }
  destruct Hnil as (H1&H2&H3&H4). unfold on_ack. rewrite H4, String.eqb_refl. split; simpl.
  - eapply reach_step; [done|]. pose proof (hs_ack versionOf h x seen n a E) as Hs.
    unfold on_ack in Hs. by rewrite H4, String.eqb_refl in Hs.
  - by rewrite tokens_mk, H1, H2, H3.
  - by exists ls.
Qed.

(** A response is a secret the client understands. *)
Lemma onSecret_response x : onSecret conf (response x) = Some (CUpdate (delivery x) (versionOf (RenewAt x))).
Proof. done. Qed.

Lemma jinv_step j j' : jInv j → jstep j j' → jInv j'.
Proof.
  intros Hi Hs. destruct Hs as
    [h h' c rs acks d us Hs Hq|h h' x n c rs acks d us Hs Ho|h x seen n a c rs acks d us E
    |h r c' rs acks d us Hr|h r rs acks d us Hr|h u v rs acks d us|h v rs acks d us
    |h c rs acks d us|h c rs acks us].
  - by eapply jinv_quiet.
  - by eapply jinv_offer.
  - by eapply jinv_ack.
  - destruct Hi as [Ir It (ls&Hl&Id)]; simpl in *. destruct ls as [|x ls]; [done|].
    injection Hl as -> ->. rewrite onSecret_response in Hr. injection Hr as <-.
    split; simpl; [done| |by exists ls].
    rewrite tokens_mk in *. rewrite fmap_cons in It. simpl held in *. 
    destruct (h_state h); cbn [tokens_ok] in *; try done.
    + destruct It as [It|[It _]]; [left|done]. injection It as Hv It.
      apply app_nil in It as [-> ->]. simpl. by rewrite <- Hv.
    + revert It. rewrite !length_app. simpl. lia.
  - destruct Hi as [_ _ (ls&Hl&_)]; simpl in *. destruct ls as [|x ls]; [done|].
    injection Hl as -> ->. by rewrite onSecret_response in Hr.
  - destruct Hi as [Ir It (ls&Hl&Id)]; simpl in *. split; simpl; [done| |].
    + rewrite tokens_mk in *. simpl held in *. destruct (h_state h); cbn [tokens_ok] in *; naive_solver.
    + exists ls. split; [done|]. rewrite <- Id. by rewrite <- (assoc_L (++)).
  - destruct Hi as [Ir It (ls&Hl&Id)]; simpl in *. split; simpl; [done| |by exists ls].
    rewrite tokens_mk, fmap_app in *. simpl held in *.
    destruct (h_state h); cbn [tokens_ok] in *; try (by destruct (rd_Version <$> rs)).
    + destruct It as [It|[It _]]; [left|by destruct (rd_Version <$> rs)].
      destruct (rd_Version <$> rs) as [|v1 [|]]; [|done..]. injection It as -> It.
      by destruct (dr_VersionInfo <$> acks).
    + revert It. rewrite !length_app. simpl. lia.
  - destruct Hi as [Ir It Id]. by split.
  - destruct Hi as [Ir It (ls&Hl&Id)]; simpl in *. split; simpl; [done| |].
    + eapply tokens_ok_return; [|exact It]. rewrite !tokens_mk. simpl held.
      apply sublist_app; [done|]. by apply sublist_inserts_l.
    + exists ls. split; [done|]. case_decide; [done|]. rewrite <- Id. by apply prefix_app_r.
Qed.

Lemma jinv_reachable j : reachable jinit jstep j → jInv j.
Proof.
  apply reachable_invariant.
  - intros ? (h&Hh&->). split; simpl; [by apply reach_init| |].
    + destruct Hh as (?&?&?&?&->). done.
    + exists []. destruct Hh as (?&?&?&?&->). done.
  - intros j0 j' _. apply jinv_step.
Qed.

(** Nothing is under way while the server waits for a renewal. *)
Lemma updates_idle j : jInv j → j_client j ≠ CReturned → idle (h_state (j_server j)) →
  j_updates j = offers (j_server j).
Proof.
  intros [_ It (ls&Hl&Id)] Hc Hi. rewrite decide_False in Id by done.
  apply tokens_idle in It; [|done]. unfold tokens in It. rewrite Hl in It.
  apply app_nil in It as [It1 [It2 _]%app_nil]. rewrite <- Id.
  assert (ls = []) as -> by (by destruct ls). unfold inflight.
  destruct (j_client j); simpl in *; try done; by rewrite app_nil_r.
Qed.

(** The certdx client never provokes the server's failure on
    acknowledgements: with a client on the other end of the stream, a pack
    handler does not panic.  The watcher is sent the certificates that were
    offered, in this order and each once; while the client handler lives, at
    most the last one is outstanding, and whenever the server's handler waits
    for a renewal, none is. *)
Theorem own_client_safe j :
  reachable jinit jstep j →
  h_state (j_server j) ≠ HPanicked ∧
  j_updates j `prefix_of` offers (j_server j) ∧
  (j_client j ≠ CReturned → idle (h_state (j_server j)) → j_updates j = offers (j_server j)) ∧
  reachable hinit (hstep versionOf) (j_server j).
Proof.
  intros Hj%jinv_reachable. pose proof Hj as [Ir It (ls&Hl&Id)]. split_all; [| |by apply updates_idle|done].
  - intros E. by rewrite E in It.
  - case_decide; [done|]. rewrite <- Id. by apply prefix_app_r.
Qed.
End Joint.

(** ** A concrete pair *)

Module Demo.
Definition conf : ClientCertification := mkClientCertification "web" "/etc/ssl" ["example.com"; "api.example.com"] "".
Definition other : ClientCertification := mkClientCertification "mail" "/etc/ssl" ["mail.example.com"] "".
Definition v0 : Time → string := Sds.Demo.versionOf.
Definition range (m : gmap string (list string)) := map_to_list m.
Definition certs : list ClientCertification := [conf; other].
Definition request : DiscoveryRequest :=
  match packRequest certs with Ok r => r | Err _ => Sds.Demo.ack end.

(** One certificate goes all the way and is acknowledged. *)
Definition r0 : respData := response v0 conf Sds.Demo.c0.
Definition h3 : hworld := set_h (HWaiting 0 0%nat) Sds.Demo.h2.
Definition j0 : joint := mkJoint Sds.Demo.h0 CWait [] [] false [].
Definition j1 : joint := mkJoint Sds.Demo.h1 CWait [] [] false [].
Definition j2 : joint := mkJoint Sds.Demo.h2 CWait [r0] [] false [].
Definition j3 : joint := mkJoint Sds.Demo.h2 (CUpdate (delivery conf Sds.Demo.c0) "v1") [] [] false [].
Definition j4 : joint := mkJoint Sds.Demo.h2 (CAck "v1") [] [] false [delivery conf Sds.Demo.c0].
Definition j5 : joint := mkJoint Sds.Demo.h2 CWait [] [ackRequest conf "v1"] false [delivery conf Sds.Demo.c0].
Definition j6 : joint := mkJoint h3 CWait [] [] false [delivery conf Sds.Demo.c0].

Lemma quiet0 : quiet Sds.Demo.h0 Sds.Demo.h1.
Proof. by split. Qed.

Lemma joint_reach : reachable jinit (jstep v0 conf) j6.
Proof.
  apply reach_step with j5; [apply reach_step with j4; [apply reach_step with j3; [apply reach_step with j2;
    [apply reach_step with j1; [apply reach_step with j0|]|]|]|]|].
  - apply reach_init. exists Sds.Demo.h0. split; [|done]. by exists ["example.com"], Sds.Demo.c0, 10, [].
  - apply (js_quiet v0 conf Sds.Demo.h0 Sds.Demo.h1); [by apply (hs_snapshot _ Sds.Demo.h0 Sds.Demo.c0 0)|].
    exact quiet0.
  - apply (js_offer v0 conf Sds.Demo.h1 Sds.Demo.h2 Sds.Demo.c0 0 CWait [] [] false []); [|done].
    by apply (hs_offer _ Sds.Demo.h1 Sds.Demo.c0 0 0).
  - by apply (js_receive v0 conf Sds.Demo.h2 r0).
  - exact (js_update v0 conf Sds.Demo.h2 (delivery conf Sds.Demo.c0) "v1" [] [] false []).
  - exact (js_send v0 conf Sds.Demo.h2 "v1" [] [] false [delivery conf Sds.Demo.c0]).
  - by apply (js_ack v0 conf Sds.Demo.h2 Sds.Demo.c0 0 0 (ackRequest conf "v1")).
Qed.
End Demo.

Lemma subscription_accepted_witness :
  packRequest Demo.certs = Ok Demo.request ∧
  ∃ acts st, onRequest ["example.com"] Demo.range recv_init Demo.request = (acts, Ok st) ∧
    rv_dispatch st !! "mail" = Some ["mail.example.com"].
Proof.
  assert (Hr : packRequest Demo.certs = Ok Demo.request) by (vm_compute; reflexivity).
  assert (Ha : ∀ c, c ∈ Demo.certs → AllAllowed ["example.com"] (cc_Domains c) = true).
  { intros c Hc. apply elem_of_cons in Hc as [->|Hc]; [vm_compute; reflexivity|].
    apply list_elem_of_singleton in Hc as ->. vm_compute. reflexivity. }
  split; [exact Hr|].
  destruct (subscription_accepted ["example.com"] Demo.range (λ m, reflexivity _) Demo.certs Demo.request Hr Ha)
    as (acts&st&Ho&_&Hd&_).
  exists acts, st. split; [exact Ho|]. rewrite Hd. vm_compute. reflexivity.
Defined.

Lemma own_client_safe_witness :
  h_state (j_server Demo.j6) ≠ HPanicked ∧ j_updates Demo.j6 = offers Demo.conf (j_server Demo.j6).
Proof.
  destruct (own_client_safe Demo.v0 Demo.conf Demo.j6 Demo.joint_reach) as (Hp&_&Hu&_).
  split; [exact Hp|]. apply Hu; [discriminate|exact I].
Defined.
