(* ===== verification/SdsEndToEnd.v ===== *)
(** From a server's entry to the files of a streaming client: the pack
    handlers of any number of streams (pkg/server/sds.go, pkg/client/sds.go),
    each with its server, run one after the other or at the same time, as the
    failover of pkg/client/grpc_streamer.go has them; all of them feed the one
    watcher of a certification (pkg/client/daemon.go), which replaces the files
    (pkg/client/handler.go).  The counterpart of HttpEndToEnd. *)

From Stdlib Require Import ZArith Lia.
From stdpp Require Import base option list gmap strings relations.
From S2P Require Import Prelude.
From S2P Require Import GoStd.
From S2P Require Import Sys.
From S2P Require Import Config.
From S2P Require Import Paths.
From S2P Require Import CertEntry.
From S2P Require Import Sds.
From S2P Require Import Handler.
From S2P Require Import Daemon.
From S2P Require Import Install.
From S2P Require Import ClientSds.

Open Scope Z_scope.

(** ** What a pack handler offers, seen from the start of its stream *)

(** The certificate was renewed after the stream started, or was unexpired
    when it did. *)
Definition fresh (st : hworld) (c : CertT) (n : nat) : Prop :=
  (updated (h_entry st) < n)%nat ∨ IsValid (h_now st) c = true.

(** The last offer is the certificate of generation [n]; with no offer at all,
    that certificate has expired. *)
Definition at_gen (n : nat) (w : hworld) : Prop :=
  match h_offered w with
  | [] => ∀ c, h_minted w !! n = Some c → IsValid (h_now w) c = false
  | (_, n') :: _ => n' = n
  end.

Arguments at_gen : simpl never.

(** What each program counter knows of the stream's start. *)
Definition since (st w : hworld) : Prop :=
  match h_state w with
  | HWaiting _ n | HSleep _ n => (updated (h_entry st) ≤ n)%nat ∧ at_gen n w
  | HWoken => h_done w = false → (updated (h_entry st) < updated (h_entry w))%nat
  | HOffer c _ n => (updated (h_entry st) ≤ n)%nat ∧ fresh st c n
  | HAck c _ n => (updated (h_entry st) ≤ n)%nat ∧ head (h_offered w) = Some (c, n)
  | _ => True
  end.

Record sinv (st w : hworld) : Prop := {
  si_now : h_now st ≤ h_now w;
  si_gen : (updated (h_entry st) ≤ updated (h_entry w))%nat;
  si_fresh c n : (c, n) ∈ h_offered w → fresh st c n;
  si_since : since st w;
}.

Section Since.
Variable versionOf : Time → string.

Lemma IsValid_later t t' c : t ≤ t' → IsValid t' c = true → IsValid t c = true.
Proof. unfold IsValid, Before. rewrite !Z.ltb_lt. lia. Qed.

Lemma sinv_start st : hinit st → sinv st st.
Proof. intros (ds&c&now&minted&->). split; simpl; try done. by intros c' n Hin%elem_of_nil. Qed.

Lemma at_gen_renew n w s e c d : (n < length (h_minted w))%nat → at_gen n w →
  at_gen n (mkH s e d (h_now w) (h_minted w ++ [c]) (h_offered w)).
Proof.
  intros Hn. unfold at_gen. simpl. destruct (h_offered w) as [|[]]; [|done].
  intros H c'. rewrite lookup_app_l by done. apply H.
Qed.

Lemma at_gen_later n w s t : h_now w ≤ t → at_gen n w →
  at_gen n (mkH s (h_entry w) (h_done w) t (h_minted w) (h_offered w)).
Proof.
  intros Ht. unfold at_gen. simpl. destruct (h_offered w) as [|[]]; [|done].
  intros H c Hc. destruct (IsValid t c) eqn:E; [|done]. apply (IsValid_later _ _ _ Ht) in E.
  by rewrite H in E.
Qed.

Lemma sinv_step st w w' : hinv w → sinv st w → hstep versionOf w w' → sinv st w'.
Proof.
  intros Hi [Hn Hg Hf Hs] Hstep. destruct Hi as [Hv Hm Hc _ _ Ht]. unfold since, hi_state_of in *. destruct Hstep as
    [w c|w|w t Hle|w c v E Es|w seen n v E Ew|w seen n ch E Ew|w ch n E Hlt|w ch n E Hd|w c v E Es
    |w c seen n E|w c seen n E Hd|w c seen n ack E|w c seen n E Hd].
  - split; simpl; try done; [lia|]. unfold since. simpl. destruct (h_state w); try done.
    + split; [easy|]. apply at_gen_renew; [lia|easy].
    + split; [easy|]. apply at_gen_renew; [lia|easy].
    + intros Hd. specialize (Hs Hd). lia.
  - split; simpl; try done. unfold since. simpl. by destruct (h_state w).
  - split; simpl; try done; [lia|]. unfold since. simpl. destruct (h_state w); try done.
    + split; [easy|]. apply at_gen_later; [done|easy].
    + split; [easy|]. apply at_gen_later; [done|easy].
  - injection Es as <- <-. rewrite E in Ht. split; simpl; try done. unfold since. simpl.
    destruct (IsValid (h_now w) (cert (h_entry w))) eqn:Ev; (split; [done|]).
    + right. by eapply IsValid_later.
    + unfold at_gen. simpl. rewrite Ht. intros c Hc'. congruence.
  - split; simpl; try done. unfold since. simpl. intros _. rewrite E in Hs, Ht. destruct Ht as (->&Hle&_), Hs as [Hs _].
    unfold wait_enter in Ew. rewrite Hv in Ew. destruct (decide (n = updated (h_entry w))) as [->|]; [|lia].
    by rewrite Z.eqb_refl in Ew.
  - split; simpl; try done. unfold since. simpl. by rewrite E in Hs.
  - split; simpl; try done. unfold since. simpl. intros _. rewrite E in Hs, Ht. lia.
  - split; simpl; try done. unfold since. simpl. congruence.
  - injection Es as <- <-. rewrite E in Hs. split; simpl; try done. unfold since. simpl.
    destruct (h_done w); [done|]. specialize (Hs eq_refl). split; [lia|by left].
  - rewrite E in Hs. split; simpl; try done.
    + intros c' n' [[= -> ->]|?]%elem_of_cons; [apply Hs|by apply Hf].
    + unfold since. simpl. split; [apply Hs|done].
  - split; simpl; try done.
  - rewrite E in Hs. split; simpl; try done. unfold since, on_ack. simpl.
    assert (Hat : (updated (h_entry st) ≤ n)%nat ∧ at_gen n (set_h (HWaiting seen n) w)).
    { destruct Hs as [Hle Hh]. split; [done|]. unfold at_gen. simpl.
      destruct (h_offered w) as [|[]]; [done|]. by injection Hh as -> ->. }
    repeat case_match; try done; by simplify_eq.
  - split; simpl; try done.
Qed.
End Since.

(** ** One stream *)

(** The two handlers of a pack, with the server's as it was when the stream
    started (ghost). *)
Record session := mkSession { ss_start : hworld; ss_now : joint }.

Definition jstart (h : hworld) : joint := mkJoint h CWait [] [] false [].
Definition open_ (h : hworld) : session := mkSession h (jstart h).

(** Nothing is left to do: the server's handler sleeps on the last renewal,
    and the client's has not returned.  (The renewals are counted in 64 bits.) *)
Definition rested (s : session) : Prop :=
  j_client (ss_now s) ≠ CReturned ∧
  ∃ n, h_state (j_server (ss_now s)) = HSleep (updated (h_entry (j_server (ss_now s)))) n ∧
    Z.of_nat (updated (h_entry (j_server (ss_now s)))) < u64_mod.

Section Session.
Variable versionOf : Time → string.
Variable conf : ClientCertification.

Notation jstep := (jstep versionOf conf).
Notation delivery := (delivery conf).

Definition ran (s : session) : Prop := hinit (ss_start s) ∧ rtc jstep (jstart (ss_start s)) (ss_now s).

Lemma ran_open h : hinit h → ran (open_ h).
Proof. intros Hh. by split. Qed.

Lemma ran_step h j j' : ran (mkSession h j) → jstep j j' → ran (mkSession h j').
Proof. intros [Hh Hr] Hs. split; [done|]. by eapply rtc_r. Qed.

Lemma ran_reachable s : ran s → reachable jinit jstep (ss_now s).
Proof. intros [Hh Hr]. eapply reachable_rtc; [|exact Hr]. apply reach_init. by exists (ss_start s). Qed.

(** The server's side of a joint step is a run of the server. *)
Lemma jstep_server j j' : jstep j j' → rtc (hstep versionOf) (j_server j) (j_server j').
Proof. intros Hs. destruct Hs; simpl; try done; try (by apply rtc_once). apply rtc_once. by apply hs_ack. Qed.

Lemma ran_sinv s : ran s → hinv (j_server (ss_now s)) ∧ sinv (ss_start s) (j_server (ss_now s)).
Proof.
  intros [Hh Hr]. set (j := ss_now s) in *. clearbody j. generalize dependent j. apply rtc_ind_r.
  - split; [apply (hinv_reachable versionOf); by apply reach_init|by apply sinv_start].
  - intros j1 j2 _ Hj [Hi Hs]. apply jstep_server in Hj. clear -Hj Hi Hs.
    induction Hj as [|x y z Hxy _ IH]; [done|]. apply IH; [by eapply hinv_step|by eapply sinv_step].
Qed.

(** What the watcher gets from a stream is certificates of its entry that were
    unexpired when it started, or renewed since. *)
Lemma session_fresh s u : ran s → u ∈ j_updates (ss_now s) →
  ∃ c n, u = delivery c ∧ h_minted (j_server (ss_now s)) !! n = Some c ∧ fresh (ss_start s) c n.
Proof.
  intros Hs Hu. destruct (ran_sinv s Hs) as [Hi Hf].
  destruct (jinv_reachable versionOf conf _ (ran_reachable s Hs)) as [_ _ (rs&_&Hd)].
  assert (Hin : u ∈ offers conf (j_server (ss_now s))).
  { case_decide; [|rewrite <- Hd; set_solver]. destruct Hd as [k ->]. set_solver. }
  unfold offers in Hin. apply list_elem_of_fmap in Hin as (c&->&Hin).
  apply elem_of_reverse, list_elem_of_fmap in Hin as ([c' n]&->&Hin).
  exists c', n. split_all; [done|by eapply hi_offered|by eapply si_fresh].
Qed.

(** A stream at rest has delivered its entry's present certificate last, or
    that certificate has expired and nothing was delivered. *)
Lemma session_rested s : ran s → rested s → let w := j_server (ss_now s) in
  (j_updates (ss_now s) = [] ∧ IsValid (h_now w) (cert (h_entry w)) = false) ∨
  ∃ us, j_updates (ss_now s) = us ++ [delivery (cert (h_entry w))].
Proof.
  intros Hs [Hc (n&Hsl&Hb)] w. destruct (ran_sinv s Hs) as [[_ _ Hcert Hoff _ Hst] [_ _ _ Hsince]]. fold w in Hsl, Hb, Hcert, Hoff, Hst, Hsince.
  unfold hi_state_of in Hst. unfold since in Hsince. rewrite Hsl in Hst, Hsince.
  destruct Hst as ([Hn _]&_&E), Hsince as [_ Hat].
  assert (n = updated (h_entry w)) as -> by (rewrite !to_u64_id in E by lia; lia).
  assert (Hu : j_updates (ss_now s) = offers conf w).
  { apply (updates_idle versionOf); [by apply jinv_reachable, ran_reachable|done|]. fold w. by rewrite Hsl. }
  rewrite Hu. unfold at_gen in Hat. unfold offers. destruct (h_offered w) as [|[c n] l] eqn:Eo.
  - left. split; [done|by apply Hat].
  - subst n. right. specialize (Hoff c _ ltac:(left)).
    exists (delivery <$> reverse l.*1). rewrite fmap_cons, reverse_cons, fmap_app. simpl. congruence.
Qed.
End Session.

(** ** All streams, the watcher and the files *)

Section Feed.
Context {F : Type} `{FL : FileSystemLaws F} `{CR : CommandRunner F}.
Variable versionOf : Time → string.
Variable cert : ClientCertification.

Notation jstep := (jstep versionOf cert).
Notation delivery := (delivery cert).
Notation watch := (watch (W := Traced F)).

Record feed := mkFeed {
  fd_streams : list session;                (* in the order they started *)
  fd_log : list (nat * certData);           (* ghost: what was sent to UpdateChan, and by which stream *)
  fd_watch : watch;
}.

Inductive fdStep : feed → feed → Prop :=
(* a stream is opened, to any server *)
| sd_open ss l x h : hinit h → fdStep (mkFeed ss l x) (mkFeed (ss ++ [open_ h]) l x)
(* a stream goes on *)
| sd_stream ss l x i h j j' : ss !! i = Some (mkSession h j) → jstep j j' → j_updates j' = j_updates j →
    fdStep (mkFeed ss l x) (mkFeed (<[ i := mkSession h j' ]> ss) l x)
(* its handler sends an update *)
| sd_update ss l x i h j j' u : ss !! i = Some (mkSession h j) → jstep j j' → j_updates j' = j_updates j ++ [u] →
    wt_chan x = None → fdStep (mkFeed ss l x) (mkFeed (<[ i := mkSession h j' ]> ss) (l ++ [(i, u)]) (push u x))
| sd_watch ss l x x' : ownStep x x' → fdStep (mkFeed ss l x) (mkFeed ss l x').

Definition fdInit (f0 : F) (d : feed) : Prop := d = mkFeed [] [] (fileStart cert f0).

Variables certPath keyPath : string.
Hypothesis paths : GetFullChainAndKeyPath cert = Ok (certPath, keyPath).
Context (HK : CommandKeeps F [certPath; keyPath]).

Record fdInv (f0 : F) (d : feed) : Prop := {
  fv_ran i s : fd_streams d !! i = Some s → ran versionOf cert s ∧ sel i (fd_log d) = j_updates (ss_now s);
  fv_log i u : (i, u) ∈ fd_log d → is_Some (fd_streams d !! i);
  fv_sent : wt_sent (fd_watch d) = (fd_log d).*2;
  fv_files : filesInv cert certPath keyPath f0 (fd_watch d);
}.

(** A stream's own step, with what it sent. *)
Lemma fdInv_stream f0 ss l x x' i h j j' us : ss !! i = Some (mkSession h j) → jstep j j' →
  j_updates j' = j_updates j ++ us → (us = [] ∧ x' = x ∨ ∃ u, us = [u] ∧ wt_chan x = None ∧ x' = push u x) →
  fdInv f0 (mkFeed ss l x) →
  fdInv f0 (mkFeed (<[ i := mkSession h j' ]> ss) (l ++ ((λ u, (i, u)) <$> us)) x').
Proof.
  intros Hi Hj Hu Hx [Hr Hlog Hs Hf]. simpl in *.
  assert (Hsel : ∀ k, sel k (l ++ ((λ u, (i, u)) <$> us)) = sel k l ++ (if decide (i = k) then us else [])).
  { intros k. destruct Hx as [[-> _]|(u&->&_)]; simpl; [case_decide; by rewrite !app_nil_r|apply sel_snoc]. }
  split; simpl.
  - intros k s. rewrite list_lookup_insert_Some, Hsel. intros [(<-&<-&_)|[Hk E]].
    + destruct (Hr i _ Hi) as [Hran E]. simpl in E. rewrite decide_True, E by done.
      split; [by eapply ran_step|done].
    + rewrite decide_False, app_nil_r by done. by apply Hr.
  - intros k u Hin. rewrite <- elem_of_sel, Hsel, elem_of_app in Hin.
    apply lookup_lt_is_Some. rewrite length_insert. apply lookup_lt_is_Some.
    destruct Hin as [Hin|Hin]; [apply (Hlog k u); by apply elem_of_sel|]. case_decide; [|by apply elem_of_nil in Hin].
    subst k. by eexists.
  - rewrite fmap_app, <- Hs. destruct Hx as [[-> ->]|(u&->&_&->)]; [by rewrite app_nil_r|done].
  - destruct Hx as [[_ ->]|(u&_&Hc&->)]; [done|]. eapply (filesInv_step cert _ _ paths HK); [done|]. by apply fs_push.
Qed.

Lemma fdInv_step f0 d d' : fdInv f0 d → fdStep d d' → fdInv f0 d'.
Proof.
  intros Hinv Hstep. destruct Hstep as [ss l x h Hh|ss l x i h j j' Hi Hj Hu|ss l x i h j j' u Hi Hj Hu Hc|ss l x x' Hown].
  - destruct Hinv as [Hr Hlog Hs Hf]. split; simpl in *; [| |done..].
    + intros k s. rewrite lookup_snoc_Some. intros [[_ ?]|[-> <-]]; [by apply Hr|]. split; [by apply ran_open|].
      destruct (sel (length ss) l) as [|u us] eqn:E; [done|].
      destruct (Hlog (length ss) u) as [? Hlen]; [apply elem_of_sel; rewrite E; by left|].
      apply lookup_lt_Some in Hlen. lia.
    + intros k u Hin. destruct (Hlog k u Hin) as [s Hk]. exists s. by apply lookup_app_l_Some.
  - rewrite <- (app_nil_r l). eapply (fdInv_stream f0 ss l x x i h j j' []); [done..|by rewrite app_nil_r|by left|done].
  - eapply (fdInv_stream f0 ss l x _ i h j j' [u]); [done..|by right; eauto|done].
  - destruct Hinv as [Hr Hlog Hs Hf]. simpl in *. split; simpl; [done..| |].
    + destruct Hown as (_&->&_). done.
    + eapply (filesInv_step cert _ _ paths HK); [done|]. by apply fs_own.
Qed.

Lemma fdInv_reachable f0 d : reachable (fdInit f0) fdStep d → fdInv f0 d.
Proof.
  apply reachable_invariant; [|by intros x y _; apply fdInv_step].
  intros ? ->. split; simpl; try done; [by intros i u Hin%elem_of_nil|apply filesInv_start].
Qed.

(** C3: from the entries to the files: whatever the servers, the streams, the
    failover between them and the watcher do, everything the watcher is sent by
    a stream is a certificate of that stream's entry which was unexpired when
    the stream started or renewed since; at every moment the certificate file
    holds what it held at the start or the whole of such a chain, and the key
    file likewise; when nothing is under way, and the stream that sent last is
    at rest, the client serves the present certificate of its entry; and a
    stream at rest has sent nothing only if that certificate has expired. *)
Theorem stream_end_to_end f0 d : reachable (fdInit f0) fdStep d →
  wt_sent (fd_watch d) = (fd_log d).*2 ∧
  (∀ i u, (i, u) ∈ fd_log d → ∃ s c n, fd_streams d !! i = Some s ∧ u = delivery c ∧
     h_minted (j_server (ss_now s)) !! n = Some c ∧ fresh (ss_start s) c n) ∧
  Forall (from_sent certPath keyPath f0 (fd_log d).*2) (moments (wt_world (fd_watch d))) ∧
  (∀ i s, fd_streams d !! i = Some s → rested s → let w := j_server (ss_now s) in
     (sel i (fd_log d) = [] ∧ IsValid (h_now w) (CertEntry.cert (h_entry w)) = false) ∨
     ∀ l u, wt_chan (fd_watch d) = None → fd_log d = l ++ [(i, u)] →
       material (Data (wt_cert (fd_watch d))) = (FullChain (CertEntry.cert (h_entry w)), PrivKey (CertEntry.cert (h_entry w)))).
Proof.
  intros Hr. destruct (fdInv_reachable f0 d Hr) as [Hran Hlog Hs Hf]. split_all; [done|..].
  - intros i u Hin. destruct (Hlog i u Hin) as [s Hi]. destruct (Hran i s Hi) as [Hs' E].
    destruct (session_fresh versionOf cert s u Hs') as (c&n&?); [rewrite <- E; by apply elem_of_sel|]. by exists s, c, n.
  - rewrite <- Hs. apply Hf.
  - intros i s Hi Hrest w. destruct (Hran i s Hi) as [Hs' E].
    destruct (session_rested versionOf cert s Hs' Hrest) as [[Hu Hv]|[us Hu]]; [left|right].
    + split; [congruence|done].
    + intros l u Hc El. rewrite El, sel_snoc, decide_True, Hu in E by done.
      apply app_inj_tail in E as [_ ->]. rewrite El, fmap_app in Hs.
      by rewrite (filesInv_last cert _ _ f0 _ _ _ Hf Hc Hs).
Qed.
End Feed.

(** ** A concrete feed *)

Import (hints) Handler.Demo.

Module Demo.
Import ClientSds.Demo.
Notation feed := (feed (F := Disk)).

Definition j7 : joint := mkJoint (set_h (HSleep 0 0) Sds.Demo.h2) CWait [] [] false [delivery conf Sds.Demo.c0].
Definition u0 : certData := delivery conf Sds.Demo.c0.

(** The watcher before the update, with it, and after each of its steps. *)
Definition x0 : watch (W := Traced Disk) := fileStart conf Handler.Demo.disk.
Definition x1 : watch (W := Traced Disk) := push u0 x0.
Definition wc : watchingCert (Traced Disk) := mkWatching u0 conf [writeHandler].
Definition z : Traced Disk := writeHandler (cd_Fullchain u0) (cd_Key u0) (wc_Config wc) (mkTraced Handler.Demo.disk []).
Definition x2 : watch (W := Traced Disk) :=
  mkWatch wc (WNotify u0 [writeHandler]) None false (mkTraced Handler.Demo.disk []) [u0] [u0] [].
Definition x3 : watch (W := Traced Disk) := mkWatch wc (WNotify u0 []) None false z [u0] [u0] [(u0, writeHandler)].
Definition x4 : watch (W := Traced Disk) := mkWatch wc WIdle None false z [u0] [u0] [(u0, writeHandler)].

Definition at_ (j : joint) : list session := [mkSession Sds.Demo.h0 j].
Definition d7 : feed := mkFeed (at_ j7) [(0%nat, u0)] x4.
End Demo.

Section Steps.
Import ClientSds.Demo Demo.
Notation step := (fdStep (F := Disk) v0 conf).

Lemma demo_moves j j' l x : jstep v0 conf j j' → j_updates j' = j_updates j →
  step (mkFeed (at_ j) l x) (mkFeed (at_ j') l x).
Proof. intros Hj Hu. by eapply (sd_stream v0 conf (at_ j) l x 0). Qed.

Lemma demo_feed : reachable (fdInit conf Handler.Demo.disk) step d7.
Proof.
  eapply reachable_rtc; [by apply reach_init|].
  apply (rtc_l _ _ (mkFeed (at_ j0) [] x0)).
  { apply (sd_open v0 conf []). by exists ["example.com"], Sds.Demo.c0, 10, []. }
  eapply rtc_l. { apply (demo_moves j0 j1); [|done]. apply js_quiet; [by apply (hs_snapshot _ Sds.Demo.h0 Sds.Demo.c0 0)|exact quiet0]. }
  eapply rtc_l. { apply (demo_moves j1 j2); [|done].
    apply (js_offer v0 conf Sds.Demo.h1 Sds.Demo.h2 Sds.Demo.c0 0 CWait [] [] false []); [|done].
    by apply (hs_offer _ Sds.Demo.h1 Sds.Demo.c0 0 0). }
  eapply rtc_l. { apply (demo_moves j2 j3); [|done]. by apply (js_receive v0 conf Sds.Demo.h2 r0). }
  eapply rtc_l. { apply (sd_update v0 conf (at_ j3) [] x0 0 Sds.Demo.h0 j3 j4 u0); [done| |done..].
    exact (js_update v0 conf Sds.Demo.h2 u0 "v1" [] [] false []). }
  apply (rtc_l _ _ (mkFeed (at_ j5) [(0%nat, u0)] x1)).
  { apply (demo_moves j4 j5); [|done]. exact (js_send v0 conf Sds.Demo.h2 "v1" [] [] false [u0]). }
  eapply rtc_l. { apply (demo_moves j5 j6); [|done]. by apply (js_ack v0 conf Sds.Demo.h2 Sds.Demo.c0 0 0 (ackRequest conf "v1")). }
  eapply rtc_l. { apply (demo_moves j6 j7); [|done]. apply js_quiet; [by apply (hs_wait_sleep _ h3 0 0 0)|].
    split; [done|]. intros c seen n E. discriminate E. }
  apply (rtc_l _ _ (mkFeed (at_ j7) [(0%nat, u0)] x2)).
  { apply sd_watch. unfold ownStep. split_all; [|done|by left]. apply (w_receive u0 (wt_cert x0)).
    vm_compute. discriminate. }
  apply (rtc_l _ _ (mkFeed (at_ j7) [(0%nat, u0)] x3)).
  { apply sd_watch. unfold ownStep. split_all; [exact (w_handler u0 writeHandler [] wc None false (mkTraced Handler.Demo.disk []) [u0] [u0] [])|done|right; discriminate]. }
  apply rtc_once, sd_watch. unfold ownStep. split_all; [apply (w_handled u0 wc)|done|by left].
Qed.
End Steps.

Lemma stream_end_to_end_witness :
  material (Data (wt_cert (fd_watch Demo.d7))) = ("chain", "key").
Proof.
  destruct (stream_end_to_end ClientSds.Demo.v0 ClientSds.Demo.conf "/etc/ssl/web.pem" "/etc/ssl/web.key" eq_refl
    (disk_keeps _) Handler.Demo.disk Demo.d7 demo_feed) as (_&_&_&Hrest).
  destruct (Hrest 0%nat (mkSession Sds.Demo.h0 Demo.j7) eq_refl) as [[Hnil _]|Hlast].
  - split; [discriminate|]. exists 0%nat. split; [reflexivity|vm_compute; reflexivity].
  - discriminate Hnil.
  - exact (Hlast [] Demo.u0 eq_refl eq_refl).
Defined.
