(* ===== verification/K8s.v ===== *)
(** exec/tools/tasks/kubernetesCertificateUpdater: the one-shot updater of
    annotated TLS secrets.  Secrets are selected and their domains parsed,
    each accepted one registers a handler with the client daemon, a delivery
    replaces the secret's content, and the run waits for all of them.  The
    Kubernetes API and client-go's conflict retry are interfaces. *)

From Stdlib Require Import ZArith Lia Ascii.
From stdpp Require Import base option list gmap sets strings relations.
From S2P Require Import Prelude.
From S2P Require Import GoStd.
From S2P Require Import Duration.
From S2P Require Import Domain.
From S2P Require Import Config.
From S2P Require Import CertStore.

Open Scope Z_scope.

Definition certDxDomainAnnotation : string := "party.para.certdx/domains".
Definition waitDeadline : Duration := 10 * Minute.
Definition SecretTypeTLS : string := "kubernetes.io/tls".
Definition TLSCertKey : string := "tls.crt".
Definition TLSPrivateKeyKey : string := "tls.key".

(** A [corev1.Secret]; [Data] is nil or a map. *)
Record Secret := mkSecret {
  Namespace : string;
  SName : string;
  ResourceVersion : Z;
  SType : string;
  Annotations : gmap string string;
  SData : option (gmap string string);
}.

(** ** Selecting secrets *)

Definition selectSecrets (items : list Secret) : list Secret :=
  List.filter (λ s, String.eqb (SType s) SecretTypeTLS &&
                    bool_decide (is_Some (Annotations s !! certDxDomainAnnotation))) items.

Fixpoint parseLoop (parts : list string) (seen : gset string) : list string :=
  match parts with
  | [] => []
  | domain :: parts' =>
      let d := ToLower (TrimSpace domain) in
      if String.eqb d "" then parseLoop parts' seen
      else if bool_decide (d ∈ seen) then parseLoop parts' seen
      else d :: parseLoop parts' ({[ d ]} ∪ seen)
  end.

Definition parseDomainsAnnotation (domainListStr : string) : list string :=
  parseLoop (Split1 domainListStr ",") ∅.

Definition areDomainsAllowed (cfg : ClientConfig) (domains : list string) : bool :=
  existsb (λ item, AllAllowed (cc_Domains item) domains) (Certifications cfg).

(** ** Replacing the content of a secret *)

(** The API server, and client-go's [RetryOnConflict] with the default
    backoff. *)
Class KubeClient (W : Type) := {
  listSecrets : W → result (list Secret) * W;
  getSecret : string → string → W → result Secret * W;
  updateSecret : Secret → W → option error * W;
  IsNotFound : error → bool;
  IsConflict : error → bool;
  RetryOnConflict : (W → option error * W) → W → option error * W;
}.

Section Replace.
Context {W : Type} `{KC : KubeClient W}.

(** [kubeClient] tells whether the client has been made: it is nil before. *)
Definition getAllCertificatesFromKubernetes (kubeClient : bool) (w : W) : result (list Secret) * W :=
  if negb kubeClient then (Err (EText "kubernetes client is not initialized"), w) else
  let '(r, w) := listSecrets w in
  match r with
  | Err err => (Err (EWrap "failed to list secrets in kubernetes: %w" err), w)
  | Ok items => (Ok (selectSecrets items), w)
  end.

Definition upToDate (s : Secret) (fullchain key : string) : bool :=
  let data := default ∅ (SData s) in
  String.eqb (default "" (data !! TLSCertKey)) fullchain &&
  String.eqb (default "" (data !! TLSPrivateKeyKey)) key &&
  String.eqb (SType s) SecretTypeTLS.

Definition withCertificate (s : Secret) (fullchain key : string) : Secret :=
  mkSecret (Namespace s) (SName s) (ResourceVersion s) SecretTypeTLS (Annotations s)
    (Some (<[ TLSPrivateKeyKey := key ]> (<[ TLSCertKey := fullchain ]> (default ∅ (SData s))))).

(** The closure that is retried on conflicts. *)
Definition replaceAttempt (cert : Secret) (fullchain key : string) (w : W) : option error * W :=
  let '(r, w) := getSecret (Namespace cert) (SName cert) w in
  match r with
  | Err err =>
      if IsNotFound err then (None, w) else (Some (EWrap "get secret before update: %w" err), w)
  | Ok secretToUpdate =>
      if upToDate secretToUpdate fullchain key then (None, w)
      else updateSecret (withCertificate secretToUpdate fullchain key) w
  end.

Definition replaceCertificateInKubernetes (cert : Secret) (fullchain key : string) (w : W) : option error * W :=
  if (slen fullchain =? 0)%nat || (slen key =? 0)%nat then (Some (EText "empty certificate or key"), w)
  else RetryOnConflict (replaceAttempt cert fullchain key) w.
End Replace.

(** ** Registering *)

(** A secret whose domains are annotated and allowed, with them. *)
Definition accepted (cfg : ClientConfig) (s : Secret) : option (list string) :=
  let domains := parseDomainsAnnotation (default "" (Annotations s !! certDxDomainAnnotation)) in
  if (length domains =? 0)%nat then None
  else if negb (areDomainsAllowed cfg domains) then None
  else Some domains.

(** The tasks of a run, numbered in registration order: the wait group's
    counter, and which task's handler a watched key leads to
    ([AddCertToWatchOpt] keeps one watch per set of domains). *)
Record registration := mkReg {
  rg_wg : Z;
  rg_tasks : list (Secret * list string);
  rg_watch : gmap Key nat;
}.

Definition register (reg : registration) (s : Secret) (domains : list string) : registration :=
  mkReg (rg_wg reg + 1) (rg_tasks reg ++ [(s, domains)])
    (<[ AsKey domains := length (rg_tasks reg) ]> (rg_watch reg)).

Definition registerWatchAndHandlers (cfg : ClientConfig) (certs : list Secret) : registration :=
  foldl (λ reg s, match accepted cfg s with Some domains => register reg s domains | None => reg end)
    (mkReg 0 [] ∅) certs.

(** ** The run *)

(** The state the handlers and [waitReplaceTask] share.  [fired] are the tasks
    whose [sync.Once] has run. *)
Record run := mkRun { wg : Z; fired : gset nat; taskErr : list error }.

Section Run.
Variable reg : registration.

(** A delivery on a watched key runs the handler of its task; the replacement
    fails with [e] or succeeds. *)
Inductive runStep : run → run → Prop :=
| r_first k i e r : rg_watch reg !! k = Some i → i ∉ fired r →
    runStep r (mkRun (wg r - 1) ({[ i ]} ∪ fired r) (taskErr r ++ option_list e))
| r_again k i r : rg_watch reg !! k = Some i → i ∈ fired r → runStep r r.

Definition runInit (r : run) : Prop := r = mkRun (rg_wg reg) ∅ [].

(** What [waitReplaceTask] can return: the errors of the tasks once all are
    done, an error when the deadline has passed. *)
Inductive waitReplaceTask (timeout : bool) (r : run) : option error → Prop :=
| wait_done : wg r = 0 → waitReplaceTask timeout r (errorsJoin (taskErr r))
| wait_timeout : timeout = true →
    waitReplaceTask timeout r (Some (EText "timeout waiting for kubernetes secrets to be updated")).
End Run.

(** The mode check of [startCertDXDaemon]; [None] means that the client runs. *)
Definition startCertDXDaemon (cfg : ClientConfig) : option error :=
  let mode := Mode (Common cfg) in
  if String.eqb mode CLIENT_MODE_HTTP then
    if String.eqb (Url (HttpMain cfg)) "" then Some (EText "http main server url should not be empty") else None
  else if String.eqb mode CLIENT_MODE_GRPC then
    if String.eqb (GServer (GrpcMain cfg)) "" then Some (EText "GRPC main server url should not be empty") else None
  else Some (EText ("not supported mode: " +:+ mode)).

(** [InvokeCertificateUpdate] up to the wait: finished with a result, or
    waiting for the tasks of a registration. *)
Definition InvokeCertificateUpdate {W} `{KubeClient W} (kubeClient : bool) (cfg : ClientConfig) (w : W)
    : (option error + registration) * W :=
  let '(r, w) := getAllCertificatesFromKubernetes kubeClient w in
  match r with
  | Err err => (inl (Some err), w)
  | Ok allCerts =>
      let reg := registerWatchAndHandlers cfg allCerts in
      if (length (rg_tasks reg) =? 0)%nat then (inl None, w)
      else match startCertDXDaemon cfg with
      | Some err => (inl (Some err), w)
      | None => (inr reg, w)
      end
  end.

(** ** Annotations *)

Lemma parseLoop_spec parts : ∀ seen,
  NoDup (parseLoop parts seen) ∧
  ∀ d, d ∈ parseLoop parts seen ↔ d ∉ seen ∧ d ≠ "" ∧ ∃ p, p ∈ parts ∧ d = ToLower (TrimSpace p).
Proof.
  induction parts as [|p parts IH]; intros seen; simpl.
  { split; [by apply NoDup_nil_2|]. intros d. split; [by intros ?%not_elem_of_nil|].
    by intros (_&_&p&?%not_elem_of_nil&_). }
  set (d0 := ToLower (TrimSpace p)).
  assert (Hskip : (d0 = "" ∨ d0 ∈ seen) → ∀ d,
    (d ∉ seen ∧ d ≠ "" ∧ ∃ q, q ∈ parts ∧ d = ToLower (TrimSpace q)) ↔
    (d ∉ seen ∧ d ≠ "" ∧ ∃ q, q ∈ p :: parts ∧ d = ToLower (TrimSpace q))).
  { intros H d. split; intros (Hs&Hd&q&Hq&E); (split; [done|]; split; [done|]); [exists q; set_solver|].
    apply elem_of_cons in Hq as [->|]; [|eauto]. fold d0 in E. subst d. by destruct H. }
  destruct (String.eqb_spec d0 "") as [E|E].
  { split; [apply IH|]. intros d. rewrite (proj2 (IH seen) d). by apply Hskip; left. }
  case_bool_decide as Hin.
  { split; [apply IH|]. intros d. rewrite (proj2 (IH seen) d). by apply Hskip; right. }
  destruct (IH ({[ d0 ]} ∪ seen)) as [Hn Hd]. split.
  - apply NoDup_cons_2; [|done]. intros H%Hd. destruct H as [H _]. apply H. set_solver.
  - intros d. rewrite elem_of_cons, Hd. split.
    + intros [->|(Hs&Hne&q&Hq&Eq)]; [split_all; [done..|exists p; set_solver]|].
      split; [set_solver|]. split; [done|]. exists q. set_solver.
    + intros (Hs&Hne&q&Hq&Eq). destruct (decide (d = d0)) as [->|Hdd]; [by left|]. right.
      split; [set_solver|]. split; [done|]. apply elem_of_cons in Hq as [->|]; [done|eauto].
Qed.

(** The domains of an annotation: each non-blank part of the
    comma-separated list, trimmed and in lower case, once; and a secret is
    taken up exactly when there is one and a certification of the client
    allows them all. *)
Theorem accepted_spec cfg s ds :
  accepted cfg s = Some ds ↔
    ds = parseDomainsAnnotation (default "" (Annotations s !! certDxDomainAnnotation)) ∧ ds ≠ [] ∧
    NoDup ds ∧
    (∀ d, d ∈ ds ↔ d ≠ "" ∧ ∃ p, p ∈ Split1 (default "" (Annotations s !! certDxDomainAnnotation)) ","
                                  ∧ d = ToLower (TrimSpace p)) ∧
    ∃ item, item ∈ Certifications cfg ∧ AllAllowed (cc_Domains item) ds = true.
Proof.
  unfold accepted. set (l := parseDomainsAnnotation _).
  destruct (parseLoop_spec (Split1 (default "" (Annotations s !! certDxDomainAnnotation)) ",") ∅) as [Hn Hd].
  assert (Hd' : ∀ d, d ∈ l ↔ d ≠ "" ∧ ∃ p, p ∈ Split1 (default "" (Annotations s !! certDxDomainAnnotation)) ","
    ∧ d = ToLower (TrimSpace p)).
  { intros d. unfold l, parseDomainsAnnotation. rewrite Hd. split; [by intros (_&?)|]. split; [apply not_elem_of_empty|done]. }
  destruct (length l =? 0)%nat eqn:El.
  { apply Nat.eqb_eq, nil_length_inv in El. split; [done|]. by intros (->&?&_). }
  destruct (areDomainsAllowed cfg l) eqn:Ea; simpl.
  - unfold areDomainsAllowed in Ea. apply existsb_elem_of in Ea. split.
    + intros [= <-]. split_all; [done| |done|done|done]. intros E. by rewrite E in El.
    + by intros (->&_).
  - split; [done|]. intros (->&_&_&_&Hex). apply (existsb_elem_of (λ item, AllAllowed (cc_Domains item) l)) in Hex.
    unfold areDomainsAllowed in Ea. congruence.
Qed.

(** Certifications that list wildcards only, as in the documentation of the
    updater, do not cover the names below them: a secret is taken up only for
    wildcards. *)
Theorem wildcards_cover_no_host cfg s ds :
  (∀ item a, item ∈ Certifications cfg → a ∈ cc_Domains item → has_byte "*" a = true) →
  accepted cfg s = Some ds → ∀ d, d ∈ ds → has_byte "*" d = true.
Proof.
  intros Hw Ha d Hd. unfold accepted in Ha. set (l := parseDomainsAnnotation _) in Ha.
  destruct (length l =? 0)%nat; [done|]. destruct (areDomainsAllowed cfg l) eqn:Ea; [|done]. injection Ha as <-.
  apply existsb_elem_of in Ea as (item&Hin&Hall). rewrite AllAllowed_forall in Hall.
  eapply wildcards_allow_wildcards; [|by apply Hall]. eauto.
Qed.

(** ** Replacement *)

Definition id_of (s : Secret) : string * string := (Namespace s, SName s).

(** What the API promises: [stored] is the cluster's content; a read gives
    what is stored, a successful update stores the object under a new version
    and nothing else, and a retried closure's last run gives the result. *)
Class KubeLaws (W : Type) `{KubeClient W} := {
  stored : W → gmap (string * string) Secret;
  stored_named w ns n s : stored w !! (ns, n) = Some s → id_of s = (ns, n);
  get_ok ns n w s w' : getSecret ns n w = (Ok s, w') → stored w' !! (ns, n) = Some s;
  get_missing ns n w e w' : getSecret ns n w = (Err e, w') → IsNotFound e = true → stored w' !! (ns, n) = None;
  update_ok s w w' : updateSecret s w = (None, w') →
    ∃ v, stored w' = <[ id_of s := mkSecret (Namespace s) (SName s) v (SType s) (Annotations s) (SData s) ]> (stored w);
  retry_last fn w r w' : RetryOnConflict fn w = (r, w') → ∃ w0, fn w0 = (r, w');
}.

(** The certificate and key a secret carries. *)
Definition carries (s : Secret) (fullchain key : string) : Prop :=
  SType s = SecretTypeTLS ∧ default "" (default ∅ (SData s) !! TLSCertKey) = fullchain ∧
  default "" (default ∅ (SData s) !! TLSPrivateKeyKey) = key.

Section ReplaceTheorem.
Context {W : Type} `{KC : KubeClient W} `{KL : !KubeLaws W}.

(** What a secret is after a replacement: the certificate and the key are
    in it, and nothing else has changed. *)
Definition renewedAs (s1 s : Secret) (fullchain key : string) : Prop :=
  carries s fullchain key ∧ Annotations s = Annotations s1 ∧
  ∀ f, f ≠ TLSCertKey → f ≠ TLSPrivateKeyKey → default ∅ (SData s) !! f = default ∅ (SData s1) !! f.

Lemma upToDate_carries s fullchain key : upToDate s fullchain key = true ↔ carries s fullchain key.
Proof. unfold upToDate, carries. rewrite !andb_true_iff, !String.eqb_eq. naive_solver. Qed.

Lemma withCertificate_renewed s fullchain key v :
  renewedAs s (let s' := withCertificate s fullchain key in
    mkSecret (Namespace s') (SName s') v (SType s') (Annotations s') (SData s')) fullchain key.
Proof.
  unfold renewedAs, carries. simpl. split_all; [done| |by rewrite lookup_insert_eq|done|].
  - rewrite lookup_insert_ne by done. by rewrite lookup_insert_eq.
  - intros f Hc Hk. by rewrite !lookup_insert_ne.
Qed.

(** One attempt that succeeds, against the content it has read. *)
Lemma replaceAttempt_spec cert fullchain key (w w' : W) :
  replaceAttempt cert fullchain key w = (None, w') →
  let w1 := snd (getSecret (Namespace cert) (SName cert) w) in
  (∀ id, id ≠ id_of cert → stored w' !! id = stored w1 !! id) ∧
  match stored w1 !! id_of cert with
  | None => w' = w1
  | Some s1 => ∃ s, stored w' !! id_of cert = Some s ∧ renewedAs s1 s fullchain key ∧
      (carries s1 fullchain key → w' = w1)
  end.
Proof.
  intros H. unfold replaceAttempt in H.
  destruct (getSecret (Namespace cert) (SName cert) w) as [[s1|e] w1] eqn:Eg; simpl.
  2:{ destruct (IsNotFound e) eqn:En; [|done]. injection H as <-. split; [done|].
      unfold id_of. by rewrite (get_missing _ _ _ _ _ Eg En). }
  pose proof (get_ok _ _ _ _ _ Eg) as Hs. pose proof (stored_named _ _ _ _ Hs) as Hid.
  unfold id_of in *. rewrite Hs. destruct (upToDate s1 fullchain key) eqn:Eu.
  - injection H as <-. split; [done|]. exists s1. apply upToDate_carries in Eu. by split_all.
  - destruct (update_ok _ _ _ H) as [v Hv].
    change (id_of (withCertificate s1 fullchain key)) with (Namespace s1, SName s1) in Hv. rewrite Hid in Hv.
    split; [intros id Hne; by rewrite Hv, lookup_insert_ne|]. rewrite Hv, lookup_insert_eq.
    eexists. split; [reflexivity|]. split; [apply withCertificate_renewed|].
    intros Hc%upToDate_carries. congruence.
Qed.

Lemma replace_nonempty cert fullchain key (w w' : W) :
  replaceCertificateInKubernetes cert fullchain key w = (None, w') →
  fullchain ≠ "" ∧ key ≠ "" ∧ RetryOnConflict (replaceAttempt cert fullchain key) w = (None, w').
Proof.
  unfold replaceCertificateInKubernetes. destruct fullchain; [done|]. by destruct key.
Qed.

(** A replacement that reports success has put the delivered certificate
    and key, neither of them empty, into the secret, unless the secret is
    gone; relative to the content read just before, nothing else changed: not
    the annotations, not the other data of the secret, not another secret; and
    a secret that is current already is not written. *)
Theorem replace_spec cert fullchain key (w w' : W) :
  replaceCertificateInKubernetes cert fullchain key w = (None, w') →
  fullchain ≠ "" ∧ key ≠ "" ∧ ∃ w1,
    (∀ id, id ≠ id_of cert → stored w' !! id = stored w1 !! id) ∧
    match stored w1 !! id_of cert with
    | None => w' = w1
    | Some s1 => ∃ s, stored w' !! id_of cert = Some s ∧ renewedAs s1 s fullchain key ∧
        (carries s1 fullchain key → w' = w1)
    end.
Proof.
  intros (Hf&Hk&[w0 H]%retry_last)%replace_nonempty. split_all; [done|done|].
  eexists. by apply (replaceAttempt_spec _ _ _ w0).
Qed.
End ReplaceTheorem.

(** ** Who is waited for *)

Record regInv (reg : registration) : Prop := {
  ri_wg : rg_wg reg = Z.of_nat (length (rg_tasks reg));
  ri_watch k i : rg_watch reg !! k = Some i → ∃ s ds, rg_tasks reg !! i = Some (s, ds) ∧ AsKey ds = k;
  ri_last i s ds : rg_tasks reg !! i = Some (s, ds) → ∃ j, rg_watch reg !! AsKey ds = Some j ∧ (i ≤ j)%nat;
}.

Lemma regInv_register reg s ds : regInv reg → regInv (register reg s ds).
Proof.
  intros [Hw Hi Hl]. split; simpl.
  - rewrite Hw, length_app. simpl. lia.
  - intros k i. destruct (decide (k = AsKey ds)) as [->|Hne].
    + rewrite lookup_insert_eq. intros [= <-]. exists s, ds. by rewrite lookup_app_r, Nat.sub_diag by lia.
    + rewrite lookup_insert_ne by done. intros (s'&ds'&Ht&Hk)%Hi. exists s', ds'. by rewrite (lookup_app_l_Some _ _ _ _ Ht).
  - intros i s' ds'. intros [Ht|[Hle Ht]]%lookup_app_Some.
    + destruct (Hl i s' ds' Ht) as (j&Hj&Hij). apply lookup_lt_Some in Ht.
      destruct (decide (AsKey ds' = AsKey ds)) as [E|Hne].
      * exists (length (rg_tasks reg)). rewrite E, lookup_insert_eq. split; [done|lia].
      * exists j. by rewrite lookup_insert_ne.
    + apply list_lookup_singleton_Some in Ht as [Hi0 [= <- <-]].
      exists (length (rg_tasks reg)). rewrite lookup_insert_eq. split; [done|lia].
Qed.

Lemma registerWatchAndHandlers_inv cfg certs : regInv (registerWatchAndHandlers cfg certs).
Proof.
  unfold registerWatchAndHandlers.
  assert (H0 : regInv (mkReg 0 [] ∅)) by (split; simpl; intros; by simplify_map_eq).
  revert H0. generalize (mkReg 0 [] ∅). induction certs as [|s certs IH]; intros reg Hr; simpl; [done|].
  apply IH. destruct (accepted cfg s); [by apply regInv_register|done].
Qed.

Section RunFacts.
Variable reg : registration.
Hypothesis reg_ok : regInv reg.

Definition ntasks : nat := length (rg_tasks reg).

(** The keys of the tasks, in registration order. *)
Definition keys : list Key := (λ t, AsKey t.2) <$> rg_tasks reg.

Record runInv (r : run) : Prop := {
  rn_fired i : i ∈ fired r → ∃ k, rg_watch reg !! k = Some i;
  rn_wg : wg r = Z.of_nat ntasks - Z.of_nat (size (fired r));
}.

Lemma run_invariant r : reachable (runInit reg) (runStep reg) r → runInv r.
Proof.
  apply reachable_invariant.
  - intros ? ->. split; [by intros i ?%not_elem_of_empty|]. cbn [wg fired].
    rewrite (ri_wg _ reg_ok), size_empty. unfold ntasks. lia.
  - intros r0 r' _ [Hf Hw] Hs. destruct Hs as [k i e r0 Hk Hi|k i r0 Hk Hi]; [|by split].
    split; simpl.
    + intros j [->%elem_of_singleton|Hj]%elem_of_union; eauto.
    + rewrite Hw, size_union by set_solver. rewrite size_singleton. lia.
Qed.

Lemma fired_bound r : runInv r → fired r ⊆ list_to_set (seq 0 ntasks).
Proof.
  intros [Hf _] i Hi. apply elem_of_list_to_set, elem_of_seq.
  destruct (Hf i Hi) as [k (s&ds&Ht%lookup_lt_Some&_)%(ri_watch _ reg_ok)]. unfold ntasks. lia.
Qed.

Lemma size_tasks : size (list_to_set (C := gset nat) (seq 0 ntasks)) = ntasks.
Proof. rewrite size_list_to_set by apply NoDup_seq. apply length_seq. Qed.

(** Every task is watched when no two share their domains. *)
Lemma watched_nodup i : NoDup keys → (i < ntasks)%nat → ∃ k, rg_watch reg !! k = Some i.
Proof.
  intros Hn [[s ds] Ht]%lookup_lt_is_Some. exists (AsKey ds).
  destruct (ri_last _ reg_ok _ _ _ Ht) as (j&Hj&_).
  destruct (ri_watch _ reg_ok _ _ Hj) as (s'&ds'&Ht'&Hk).
  assert (i = j) as ->; [|done]. apply (NoDup_lookup keys i j (AsKey ds) Hn).
  - unfold keys. by rewrite list_lookup_fmap, Ht.
  - unfold keys. rewrite list_lookup_fmap, Ht'. simpl. by rewrite Hk.
Qed.

(** One that is replaced in the watch list never fires. *)
Lemma shadowed_never i j k r : keys !! i = Some k → keys !! j = Some k → (i < j)%nat →
  runInv r → i ∉ fired r.
Proof.
  intros Hi Hj Hij [Hf _] H. destruct (Hf i H) as [k' Hk'].
  destruct (ri_watch _ reg_ok _ _ Hk') as (s&ds&Ht&<-).
  unfold keys in *. rewrite list_lookup_fmap in Hi, Hj. rewrite Ht in Hi. injection Hi as <-.
  destruct (rg_tasks reg !! j) as [[s' ds']|] eqn:Ej; [|done]. injection Hj as Hj.
  destruct (ri_last _ reg_ok _ _ _ Ej) as (m&Hm&Hle). simpl in Hj. rewrite Hj in Hm.
  rewrite Hk' in Hm. injection Hm as <-. lia.
Qed.

Lemma missing_task r i : runInv r → (i < ntasks)%nat → i ∉ fired r → 0 < wg r.
Proof.
  intros Hr Hi Hn. pose proof (fired_bound r Hr) as Hb. rewrite (rn_wg _ Hr).
  assert (fired r ⊂ list_to_set (seq 0 ntasks)) as Hlt%subset_size.
  { split; [done|]. intros H. apply Hn, H, elem_of_list_to_set, elem_of_seq. lia. }
  rewrite size_tasks in Hlt. lia.
Qed.

Lemma finish r : NoDup keys → reachable (runInit reg) (runStep reg) r →
  ∃ r', rtc (runStep reg) r r' ∧ wg r' = 0.
Proof.
  intros Hn. remember (ntasks - size (fired r))%nat as m eqn:Em. revert r Em.
  induction m as [|m IH]; intros r Em Hr.
  - exists r. split; [done|]. pose proof (run_invariant r Hr) as Hi.
    pose proof (subseteq_size _ _ (fired_bound r Hi)) as Hs. rewrite size_tasks in Hs.
    rewrite (rn_wg _ Hi). lia.
  - pose proof (run_invariant r Hr) as Hi.
    assert (∃ i, (i < ntasks)%nat ∧ i ∉ fired r) as (i&Hlt&Hni).
    { destruct (set_choose_or_empty (list_to_set (seq 0 ntasks) ∖ fired r)) as [[i Hin]|He].
      - apply elem_of_difference in Hin as [Hin ?]. exists i. split; [|done].
        apply elem_of_list_to_set, elem_of_seq in Hin. lia.
      - assert (list_to_set (seq 0 ntasks) ⊆ fired r) as Hs%subseteq_size by set_solver.
        rewrite size_tasks in Hs. lia. }
    destruct (watched_nodup i Hn Hlt) as [k Hk].
    pose proof (r_first reg k i None r Hk Hni) as Hs.
    set (r1 := mkRun (wg r - 1) ({[ i ]} ∪ fired r) (taskErr r ++ option_list None)) in *.
    assert (Em1 : m = (ntasks - size (fired r1))%nat)
      by (unfold r1; cbn [fired]; rewrite size_union, size_singleton by set_solver; lia).
    destruct (IH r1 Em1 ltac:(by eapply reach_step)) as (r'&Hr'&Hz).
    exists r'. split; [by eapply rtc_l|done].
Qed.
End RunFacts.

(** The one-shot run: the wait group never goes below zero, and it is
    zero exactly when every registered task has run; when the accepted secrets
    have pairwise different domains the run can always still complete, but
    when two of them have the same domains the earlier one is never served, and
    the wait can end only at the deadline. *)
Theorem run_waits_for_all cfg certs r :
  let reg := registerWatchAndHandlers cfg certs in
  reachable (runInit reg) (runStep reg) r →
  0 ≤ wg r ∧
  (wg r = 0 ↔ ∀ i, (i < ntasks reg)%nat → i ∈ fired r) ∧
  (NoDup (keys reg) → ∃ r', rtc (runStep reg) r r' ∧ wg r' = 0) ∧
  (∀ i j k, keys reg !! i = Some k → keys reg !! j = Some k → (i < j)%nat →
     i ∉ fired r ∧ ∀ e, waitReplaceTask false r e → False).
Proof.
  intros reg Hr. assert (reg_ok : regInv reg) by apply registerWatchAndHandlers_inv.
  pose proof (run_invariant reg reg_ok r Hr) as Hi.
  pose proof (fired_bound reg reg_ok r Hi) as Hb. pose proof (subseteq_size _ _ Hb) as Hs.
  rewrite size_tasks in Hs. pose proof (rn_wg _ _ Hi) as Hw.
  split_all.
  - lia.
  - split.
    + intros Hz i Hlt. destruct (decide (i ∈ fired r)) as [|Hn]; [done|].
      pose proof (missing_task reg reg_ok r i Hi Hlt Hn). lia.
    + intros Hall. assert (list_to_set (seq 0 (ntasks reg)) ⊆ fired r) as Hsz%subseteq_size.
      { intros i Hin%elem_of_list_to_set%elem_of_seq. apply Hall. lia. }
      rewrite size_tasks in Hsz. lia.
  - intros Hn. by apply finish.
  - intros i j k H1 H2 Hij. pose proof (shadowed_never reg reg_ok i j k r H1 H2 Hij Hi) as Hn.
    split; [done|]. intros e He. destruct He as [Hz|]; [|done].
    assert (Hlt : (i < ntasks reg)%nat).
    { apply lookup_lt_Some in H1. unfold keys in H1. by rewrite length_fmap in H1. }
    pose proof (missing_task reg reg_ok r i Hi Hlt Hn). lia.
Qed.

(** ** A concrete cluster *)

Module Demo.
Definition Cluster : Type := gmap (string * string) Secret.

Definition conflict : error := EText "conflict".

Fixpoint retryLoop {X} (n : nat) (fn : X → option error * X) (w : X) : option error * X :=
  let '(r, w1) := fn w in
  match r, n with
  | Some (EText m), S n' => if String.eqb m "conflict" then retryLoop n' fn w1 else (r, w1)
  | _, _ => (r, w1)
  end.

Definition setVersion (s : Secret) (v : Z) : Secret :=
  mkSecret (Namespace s) (SName s) v (SType s) (Annotations s) (SData s).

(** An object counts only under its own name. *)
Definition lookupSecret (k : string * string) (w : Cluster) : option Secret :=
  s ← w !! k; if decide (id_of s = k) then Some s else None.

Definition named (w : Cluster) : Cluster := filter (λ ks, id_of ks.2 = ks.1) w.

(** Updates check the version. *)
#[export] Instance cluster : KubeClient Cluster := {
  listSecrets w := (Ok (map_to_list (named w)).*2, w);
  getSecret ns n w := match lookupSecret (ns, n) w with Some s => (Ok s, w) | None => (Err (ESentinel ErrNotExist), w) end;
  updateSecret s w := match w !! id_of s with
    | Some s0 => if ResourceVersion s0 =? ResourceVersion s
                 then (None, <[ id_of s := setVersion s (ResourceVersion s + 1) ]> w) else (Some conflict, w)
    | None => (Some (ESentinel ErrNotExist), w) end;
  IsNotFound e := errIs e ErrNotExist;
  IsConflict e := match e with EText m => String.eqb m "conflict" | _ => false end;
  RetryOnConflict := retryLoop 5;
}.

Definition s1 : Secret := mkSecret "web" "site" 7 SecretTypeTLS
  (<[ certDxDomainAnnotation := "Example.com, www.example.com,,example.com " ]> ∅)
  (Some (<[ TLSCertKey := "old" ]> (<[ "ca.crt" := "ca" ]> ∅))).
Definition s2 : Secret := mkSecret "mail" "site" 3 SecretTypeTLS
  (<[ certDxDomainAnnotation := "www.example.com,example.com" ]> ∅) None.

Definition cfg : ClientConfig :=
  mkClientConfig (mkClientCommonConfig 3 "http" "10m" (10 * Minute))
    (mkClientHttpServer "https://certdx.example.com/" "token" "secret" "")
    (mkClientHttpServer "" "" "" "") (mkClientGRPCServer "" "") (mkClientGRPCServer "" "")
    [mkClientCertification "example" "" ["example.com"] ""].
Definition reg : registration := registerWatchAndHandlers cfg [s1; s2].
Definition r0 : run := mkRun (rg_wg reg) ∅ [].
End Demo.

Import (hints) Demo.

(** The documented configuration, and the secret it is said to allow. *)
Example documented_wildcard :
  areDomainsAllowed (mkClientConfig (mkClientCommonConfig 5 CLIENT_MODE_HTTP "10m" 0) (mkClientHttpServer "" "" "" "")
      (mkClientHttpServer "" "" "" "") (mkClientGRPCServer "" "") (mkClientGRPCServer "" "")
      [mkClientCertification "domainsToWatch" "" ["*.example.com"; "*.mm.example.com"] ""]) ["foo.example.com"] = false.
Proof. vm_compute. reflexivity. Qed.

Example parse_example :
  parseDomainsAnnotation "Example.com, www.example.com,,example.com " = ["example.com"; "www.example.com"].
Proof. vm_compute. reflexivity. Qed.

(** The cluster with one secret. *)
Definition demoCluster : Demo.Cluster := <[ ("web", "site") := Demo.s1 ]> ∅.

Lemma retry_last_demo {X} n fn (w : X) r w' :
  Demo.retryLoop n fn w = (r, w') → ∃ w0, fn w0 = (r, w').
Proof.
  revert w. induction n as [|n IH]; intros w; simpl; destruct (fn w) as [o w1] eqn:E.
  - intros H. exists w. rewrite E. by destruct o as [[]|].
  - destruct o as [[| m | |]|]; try (intros [= <- <-]; by exists w).
    destruct (String.eqb m "conflict"); [by apply IH|]. intros [= <- <-]. by exists w.
Qed.

#[export] Instance demo_laws : KubeLaws Demo.Cluster.
Proof.
  refine (Build_KubeLaws Demo.Cluster _ Demo.named _ _ _ _ (retry_last_demo 5)).
  - intros w ns n s [_ H]%map_lookup_filter_Some. exact H.
  - intros ns n w s w'. simpl. unfold Demo.lookupSecret.
    destruct (w !! (ns, n)) as [s0|] eqn:E; simpl; [|done]. case_decide as Hid; [|done].
    intros [= -> <-]. by apply map_lookup_filter_Some.
  - intros ns n w e w'. simpl. unfold Demo.lookupSecret.
    destruct (w !! (ns, n)) as [s0|] eqn:E; simpl.
    + case_decide as Hid; [done|]. intros [= <- <-] _. apply map_lookup_filter_None. right.
      intros s Hs. pose proof (eq_trans (eq_sym Hs) E) as Hss. injection Hss as ->. exact Hid.
    + intros [= <- <-] _. apply map_lookup_filter_None. by left.
  - intros s w w'. simpl. destruct (w !! id_of s) as [s0|]; [|done].
    destruct (ResourceVersion s0 =? ResourceVersion s); [|done]. intros [= <-].
    exists (ResourceVersion s + 1). by apply (map_filter_insert_True (M := gmap (string * string))).
Defined.

Lemma replace_spec_witness :
  ∃ w', replaceCertificateInKubernetes Demo.s1 "chain" "key" demoCluster = (None, w') ∧
    ∃ w1, match stored w1 !! ("web", "site") with
          | None => w' = w1
          | Some _ => ∃ s, stored w' !! ("web", "site") = Some s ∧ carries s "chain" "key"
          end.
Proof.
  destruct (replaceCertificateInKubernetes Demo.s1 "chain" "key" demoCluster) as [r w'] eqn:E.
  assert (Hr : r = None).
  { replace r with (fst (replaceCertificateInKubernetes Demo.s1 "chain" "key" demoCluster)) by (by rewrite E).
    vm_compute. reflexivity. }
  subst r. exists w'. split; [reflexivity|].
  destruct (replace_spec Demo.s1 "chain" "key" demoCluster w' E) as (_&_&w1&_&H).
  exists w1. change (id_of Demo.s1) with ("web", "site") in H.
  destruct (stored w1 !! ("web", "site")) as [s|]; [|exact H].
  destruct H as (s'&Hs&[Hc _]&_). exists s'. split; assumption.
Defined.

Lemma run_waits_for_all_witness :
  keys Demo.reg !! 0%nat = keys Demo.reg !! 1%nat ∧
  wg Demo.r0 = 2 ∧ ∀ e, ¬ waitReplaceTask false Demo.r0 e.
Proof.
  assert (Hr : reachable (runInit Demo.reg) (runStep Demo.reg) Demo.r0) by (by apply reach_init).
  assert (H0 : keys Demo.reg !! 0%nat = Some (AsKey ["example.com"; "www.example.com"])) by (vm_compute; reflexivity).
  assert (H1 : keys Demo.reg !! 1%nat = Some (AsKey ["example.com"; "www.example.com"])) by (vm_compute; reflexivity).
  split; [rewrite H0, H1; reflexivity|]. split; [vm_compute; reflexivity|].
  destruct (run_waits_for_all Demo.cfg [Demo.s1; Demo.s2] Demo.r0 Hr) as (_&_&_&Hs).
  intros e He. exact (proj2 (Hs 0%nat 1%nat _ H0 H1 (Nat.lt_0_succ 0)) e He).
Defined.
