(* ===== verification/Txc.v ===== *)
(** exec/tools/tasks/txcCertificateUpdater: the one-shot updater of
    certificates hosted at Tencent Cloud.  The hosted certificates are listed
    page by page, the expiring ones are matched with the configuration by
    their names, and each match waits for a fresh certificate to upload.  The
    SDK is an interface. *)

From Stdlib Require Import ZArith Lia Ascii.
From stdpp Require Import base option list gmap sets strings relations.
From S2P Require Import Prelude.
From S2P Require Import GoStd.
From S2P Require Import Domain.
From S2P Require Import Retry.
From S2P Require Import CertStore.

Open Scope Z_scope.

Definition updateRetryCount : Z := 3.
Definition describeRetryCount : Z := 3.
Definition pageSize : Z := 100.

(** ** util.go *)

Definition isSameStrSetIgnoringNil (a b : list string) : bool :=
  if negb (length a =? length b)%nat then false
  else let set := list_to_set (C := gset string) a in forallb (λ v, bool_decide (v ∈ set)) b.

Fixpoint derefAll (l : list (option string)) : option (list string) :=
  match l with
  | [] => Some []
  | None :: _ => None
  | Some v :: l' => (λ out, v :: out) <$> derefAll l'
  end.

Definition isSameStrSetRejectNilItem (a : list (option string)) (b : list string) : bool :=
  match derefAll a with None => false | Some deref => isSameStrSetIgnoringNil deref b end.

Definition isSameStrSetRejectNilItemPtrArrPtrArr (a b : list (option string)) : bool :=
  match derefAll a with
  | None => false
  | Some derefA => match derefAll b with None => false | Some derefB => isSameStrSetIgnoringNil derefA derefB end
  end.

(** ** model.go *)

Record ResourceTypeRegions := mkRegions { ResourceType : string; Regions : list string }.

Record ClientCertification := mkTxcCert {
  xc_Name : string;
  xc_Domains : list string;
  ResourceTypes : list string;
  ResourceTypesRegions : list ResourceTypeRegions;
  certDxKey : Key;
  oldCertificateId : string;
}.

(** A hosted certificate, as the SDK gives it: any pointer may be nil. *)
Record Certificates := mkCertificates { CertificateId : option string; CertSANs : list (option string) }.

(** The regions are nil when there are none. *)
Definition ToResourceTypesAndResourceTypesRegions (r : ClientCertification)
    : list string * option (list ResourceTypeRegions) :=
  (ResourceTypes r, match ResourceTypesRegions r with [] => None | l => Some l end).

(** ** The SDK *)

Record DescribeCertificatesRequest := mkDescribe {
  CertificateType : string;
  CertificateStatus : list Z;
  FilterSource : string;
  FilterExpiring : Z;
  Offset : Z;
  Limit : Z;
}.

Record UpdateCertificateInstanceRequest := mkUpdate {
  OldCertificateId : string;
  CertificatePublicKey : string;
  CertificatePrivateKey : string;
  up_ResourceTypes : list string;
  up_ResourceTypesRegions : option (list ResourceTypeRegions);
  ExpiringNotificationSwitch : Z;
  Repeatable : bool;
}.

Class TxcClient (W : Type) := {
  DescribeCertificates : DescribeCertificatesRequest → W → result (list (option Certificates)) * W;
  UpdateCertificateInstance : UpdateCertificateInstanceRequest → W → option error * W;
  isCertificateExists : error → bool;           (* SDK error "FailedOperation.CertificateExists" *)
}.

Section Updater.
Context {W : Type} `{RT : Runtime W} `{TX : TxcClient W}.

(** ** Listing *)

(** The requests of [GetCertificateToUpdate]. *)
Definition describeRequest (expiring : Z) (offset : Z) : DescribeCertificatesRequest :=
  mkDescribe "SVR" [1] "upload" expiring offset pageSize.

(** The closure of one page, with the variables it assigns. *)
Definition describeAttempt (req : DescribeCertificatesRequest) (x : W * (list (option Certificates) * bool))
    : option error * (W * (list (option Certificates) * bool)) :=
  let '(w, (fetched, noMore)) := x in
  let '(r, w) := DescribeCertificates req w in
  match r with
  | Err err => (Some (EWrap "DescribeCertificates: %w" err), (w, (fetched, noMore)))
  | Ok certs => (None, (w, (fetched ++ certs, (length certs =? 0)%nat)))
  end.

(** [None] when out of fuel. *)
Fixpoint fetchLoop (fuel : nat) (expiring offset : Z) (fetched : list (option Certificates)) (w : W)
    : option (result (list (option Certificates)) * W) :=
  match fuel with
  | O => None
  | S fuel' =>
      match Do describeRetryCount (describeAttempt (describeRequest expiring offset)) (w, (fetched, false)) with
      | None => None
      | Some (Some err, (w, _)) => Some (Err (EWrap "list certificates: %w" err), w)
      | Some (None, (w, (fetched, noMoreResult))) =>
          let offset := to_u64 (offset + pageSize) in
          if (noMoreResult : bool) then Some (Ok fetched, w) else fetchLoop fuel' expiring offset fetched w
      end
  end.

Definition FetchTencentCloudCertificate (fuel : nat) (expiring : Z) (w : W)
    : option (result (list (option Certificates)) * W) :=
  fetchLoop fuel expiring 0 [] w.

(** ** Matching *)

Definition sameId (a b : Certificates) : bool :=
  match CertificateId a, CertificateId b with Some x, Some y => String.eqb x y | _, _ => false end.

Fixpoint activatingLoop (activating : list (option Certificates)) (cert : Certificates)
    : result (option Certificates) :=
  match activating with
  | [] => Ok None
  | None :: _ => Err (EText "activatingCertificates contains nil certificate")
  | Some ac :: activating' =>
      if sameId ac cert then activatingLoop activating' cert
      else if isSameStrSetRejectNilItemPtrArrPtrArr (CertSANs ac) (CertSANs cert) then Ok (Some ac)
      else activatingLoop activating' cert
  end.

Definition isActivatingCertificateExists (activating : list (option Certificates)) (cert : option Certificates)
    : result (option Certificates) :=
  match cert with
  | None => Err (EText "certificate is nil")
  | Some cert => activatingLoop activating cert
  end.

Definition forTask (c : ClientCertification) (id : string) : ClientCertification :=
  mkTxcCert (xc_Name c) (xc_Domains c) (ResourceTypes c) (ResourceTypesRegions c) (AsKey (xc_Domains c)) id.

(** One expiring certificate of the matching loop. *)
Definition matchOne (activating : list (option Certificates)) (configured : list ClientCertification)
    (expiringCert : option Certificates) : outcome (list ClientCertification) :=
  match expiringCert with
  | None => Panic nil_deref
  | Some e =>
      match CertificateId e with
      | None => Ret []
      | Some id =>
          match isActivatingCertificateExists activating expiringCert with
          | Err _ => Ret []
          | Ok (Some ac) => match CertificateId ac with None => Panic nil_deref | Some _ => Ret [] end
          | Ok None =>
              Ret ((λ c, forTask c id) <$>
                     List.filter (λ c, isSameStrSetRejectNilItem (CertSANs e) (xc_Domains c)) configured)
          end
      end
  end.

Fixpoint matchAll (activating : list (option Certificates)) (configured : list ClientCertification)
    (expiring : list (option Certificates)) : outcome (list ClientCertification) :=
  match expiring with
  | [] => Ret []
  | e :: expiring' =>
      match matchOne activating configured e with
      | Panic m => Panic m
      | Ret l =>
          match matchAll activating configured expiring' with
          | Panic m => Panic m
          | Ret l' => Ret (l ++ l')
          end
      end
  end.

(** The new certifications of the configuration, which replace the old ones. *)
Definition GetCertificateToUpdate (fuel : nat) (configured : list ClientCertification) (w : W)
    : option (outcome (result (list ClientCertification)) * W) :=
  match FetchTencentCloudCertificate fuel 1 w with
  | None => None
  | Some (Err err, w) => Some (Ret (Err (EWrap "fetch expiring certificates: %w" err)), w)
  | Some (Ok expiring, w) =>
      match FetchTencentCloudCertificate fuel 0 w with
      | None => None
      | Some (Err err, w) => Some (Ret (Err (EWrap "fetch activating certificates: %w" err)), w)
      | Some (Ok activating, w) =>
          match matchAll activating configured expiring with
          | Panic m => Some (Panic m, w)
          | Ret matched => Some (Ret (Ok matched), w)
          end
      end
  end.

(** The configured certificates [logMissingCerts] warns about. *)
Definition logMissingCerts (configured matched : list ClientCertification) : list ClientCertification :=
  let key c := xc_Name c +:+ "|" +:+ Join (xc_Domains c) "," in
  let matchedKeys := list_to_set (C := gset string) (key <$> matched) in
  List.filter (λ c, negb (bool_decide (key c ∈ matchedKeys))) configured.

(** ** Uploading *)

Definition updateRequest (taskCert : ClientCertification) (fullchain key : string)
    : UpdateCertificateInstanceRequest :=
  let '(types, regions) := ToResourceTypesAndResourceTypesRegions taskCert in
  mkUpdate (oldCertificateId taskCert) (TrimSpace fullchain) (TrimSpace key) types regions 1 false.

Definition updateAttempt (req : UpdateCertificateInstanceRequest) (w : W) : option error * W :=
  let '(err, w) := UpdateCertificateInstance req w in
  match err with
  | Some err => if isCertificateExists err then (None, w) else (Some (EWrap "UpdateCertificateInstance: %w" err), w)
  | None => (None, w)
  end.

(** The handler: the error it adds to [taskErr], if any.  It calls [wg.Done]
    every time it runs.  (The fuel of [Do] suffices.) *)
Definition replaceHandler (taskCert : ClientCertification) (fullchain key : string) (w : W) : option error * W :=
  match Do updateRetryCount (updateAttempt (updateRequest taskCert fullchain key)) w with
  | Some (err, w) => (err, w)
  | None => (None, w)
  end.
End Updater.

(** ** Waiting *)

(** The shared state of the run; [served] are the tasks whose handler ran. *)
Record txcRun := mkTxcRun {
  x_wg : Z;
  x_served : list nat;
  x_taskErr : list error;
  x_panic : bool;                  (* sync: negative WaitGroup counter *)
}.

Section Run.
(** The registered tasks, and the task each watched key leads to. *)
Variable tasks : list ClientCertification.

(** [AddReplaceTask]: a later task with the same domains takes over the watch. *)
Definition AddReplaceTask : gmap Key nat :=
  foldl (λ m '(i, c), <[ AsKey (xc_Domains c) := i ]> m) ∅ (imap pair tasks).

(** One delivery: the handler of the watched task runs to its end, with or
    without an error.  A watch delivers again whenever the material changes. *)
Inductive txcStep : txcRun → txcRun → Prop :=
| x_deliver k i e r : AddReplaceTask !! k = Some i → x_panic r = false →
    txcStep r (mkTxcRun (x_wg r - 1) (x_served r ++ [i]) (x_taskErr r ++ option_list e)
                 (x_wg r - 1 <? 0)).

Definition txcInit (r : txcRun) : Prop := r = mkTxcRun (Z.of_nat (length tasks)) [] [] false.

(** [WaitReplaceTask]. *)
Inductive WaitReplaceTask (ctxErr : option error) (r : txcRun) : option error → Prop :=
| xw_done : x_wg r = 0 → x_panic r = false → WaitReplaceTask ctxErr r (errorsJoin (x_taskErr r))
| xw_ctx e : ctxErr = Some e → x_panic r = false →
    WaitReplaceTask ctxErr r (Some (EWrap "wait for certificate replacement: %w" e)).
End Run.

(** ** Name sets *)

Lemma isSame_iff a b :
  isSameStrSetIgnoringNil a b = true ↔ length a = length b ∧ ∀ v, v ∈ b → v ∈ a.
Proof.
  unfold isSameStrSetIgnoringNil. destruct (length a =? length b)%nat eqn:E; simpl.
  - apply Nat.eqb_eq in E. rewrite forallb_elem_of. split.
    + intros H. split; [done|]. intros v Hv%H. apply bool_decide_eq_true in Hv. by apply elem_of_list_to_set in Hv.
    + intros [_ H] v Hv%H. apply bool_decide_eq_true. by apply elem_of_list_to_set.
  - apply Nat.eqb_neq in E. split; [done|]. by intros [? _].
Qed.

(** The comparison of two name lists is equality up to order when the
    second one has no duplicates; the first one may have any. *)
Theorem same_set_spec a b : NoDup b →
  isSameStrSetIgnoringNil a b = true ↔ a ≡ₚ b.
Proof.
  intros Hn. rewrite isSame_iff. split.
  - intros [Hl Hs]. symmetry. apply submseteq_length_Permutation; [|lia].
    apply NoDup_submseteq; [done|]. intros v. apply Hs.
  - intros Hp. split; [by rewrite Hp|]. intros v Hv. by rewrite Hp.
Qed.

(** With duplicates it is not: two names match one name twice. *)
Example same_set_duplicates :
  isSameStrSetIgnoringNil ["a.example.com"; "b.example.com"] ["a.example.com"; "a.example.com"] = true ∧
  isSameStrSetIgnoringNil ["a.example.com"; "a.example.com"] ["a.example.com"; "b.example.com"] = false.
Proof. vm_compute. done. Qed.

(** ** Listing everything *)

Section Fetch.
Context {W : Type} `{RT : Runtime W} `{TX : TxcClient W}.

(** The service answers every page request from one list while the updater
    runs. *)
Variable hosted : Z → list (option Certificates).
Hypothesis describe_pages : ∀ req (w : W), ctxErr w = None → ∃ w' : W,
  DescribeCertificates req w =
    (Ok (firstn (Z.to_nat (Limit req)) (drop (Z.to_nat (Offset req)) (hosted (FilterExpiring req)))), w') ∧
  ctxErr w' = None.

Lemma fetch_page expiring offset fetched (w : W) : ctxErr w = None → ∃ w' : W,
  let page := firstn 100 (drop (Z.to_nat offset) (hosted expiring)) in
  Do describeRetryCount (describeAttempt (describeRequest expiring offset)) (w, (fetched, false)) =
    Some (None, (w', (fetched ++ page, (length page =? 0)%nat))) ∧ ctxErr w' = None.
Proof.
  intros Hw. destruct (describe_pages (describeRequest expiring offset) w Hw) as (w'&Hd&Hw').
  exists w'. split; [|done]. unfold Do, doFuel. cbn [ctxErr prod_Runtime fst]. rewrite Hw.
  cbn [doLoop]. unfold describeAttempt. by rewrite Hd.
Qed.

Lemma fetchLoop_pages expiring : let l := hosted expiring in
  Z.of_nat (length l) < 2 ^ 62 → ∀ fuel (k : nat) (w : W),
  ctxErr w = None → (100 * k < length l + 100)%nat → (length l + 100 ≤ 100 * (k + fuel))%nat →
  ∃ w' : W, fetchLoop fuel expiring (Z.of_nat (100 * k)) (firstn (100 * k) l) w = Some (Ok l, w').
Proof.
  intros l Hl fuel. induction fuel as [|fuel IH]; intros k w Hw Hk Hf; [lia|].
  destruct (fetch_page expiring (Z.of_nat (100 * k)) (firstn (100 * k) l) w Hw) as (w'&Hp&Hw').
  rewrite Nat2Z.id in Hp. fold l in Hp. cbn [fetchLoop]. rewrite Hp.
  rewrite take_take_drop. destruct (length (firstn 100 (drop (100 * k) l)) =? 0)%nat eqn:E.
  - apply Nat.eqb_eq in E. rewrite length_take, length_drop in E.
    exists w'. rewrite take_ge by lia. done.
  - apply Nat.eqb_neq in E. rewrite length_take, length_drop in E.
    replace (to_u64 (Z.of_nat (100 * k) + pageSize)) with (Z.of_nat (100 * S k))
      by (unfold to_u64, u64_mod, pageSize; rewrite Z.mod_small by lia; lia).
    replace (100 * k + 100)%nat with (100 * S k)%nat by lia. apply IH; [done|lia|lia].
Qed.

(** C37: listing ends and is complete: against a service that answers page
    requests from a fixed list, one round per page and one more give exactly
    this list, in order, without a gap or a repetition. *)
Theorem fetch_complete expiring fuel (w : W) :
  ctxErr w = None → Z.of_nat (length (hosted expiring)) < 2 ^ 62 →
  (length (hosted expiring) / 100 + 2 ≤ fuel)%nat →
  ∃ w' : W, FetchTencentCloudCertificate fuel expiring w = Some (Ok (hosted expiring), w').
Proof.
  intros Hw Hl Hf. unfold FetchTencentCloudCertificate.
  pose proof (Nat.div_mod_eq (length (hosted expiring)) 100).
  pose proof (Nat.mod_upper_bound (length (hosted expiring)) 100 ltac:(lia)).
  by apply (fetchLoop_pages expiring Hl fuel 0 w Hw ltac:(lia) ltac:(lia)).
Qed.
End Fetch.

(** ** What is updated *)

(** Both lists without nil entries, as the service sends them. *)
Definition sameNames (a b : Certificates) : bool :=
  isSameStrSetRejectNilItemPtrArrPtrArr (CertSANs a) (CertSANs b).

Lemma activatingLoop_none activating e :
  activatingLoop (Some <$> activating) e = Ok None ↔
  ∀ ac, ac ∈ activating → sameId ac e = true ∨ sameNames ac e = false.
Proof.
  induction activating as [|ac l IH]; cbn [fmap list_fmap activatingLoop].
  { split; [by intros _ ac ?%not_elem_of_nil|done]. }
  fold (sameNames ac e). split.
  - intros H ac' [->|Hin]%elem_of_cons.
    + destruct (sameId ac e); [by left|]. destruct (sameNames ac e); [done|by right].
    + destruct (sameId ac e); [by apply IH|]. destruct (sameNames ac e); [done|by apply IH].
  - intros H. assert (Hl : activatingLoop (Some <$> l) e = Ok None) by (apply IH; intros ac' ?; apply H; by right).
    destruct (H ac) as [->| ->]; [by left|done|]. by destruct (sameId ac e).
Qed.

Lemma activatingLoop_some activating e r :
  activatingLoop (Some <$> activating) e = r →
  r = Ok None ∨ ∃ ac, r = Ok (Some ac) ∧ ac ∈ activating.
Proof.
  intros <-. induction activating as [|ac l IH]; cbn [fmap list_fmap activatingLoop]; [by left|].
  assert (IH' : activatingLoop (Some <$> l) e = Ok None ∨
    ∃ ac', activatingLoop (Some <$> l) e = Ok (Some ac') ∧ ac' ∈ ac :: l).
  { destruct IH as [?|(ac'&?&?)]; [by left|]. right. exists ac'. split; [done|by right]. }
  destruct (sameId ac e); [done|]. destruct (isSameStrSetRejectNilItemPtrArrPtrArr _ _); [|done].
  right. exists ac. split; [done|by left].
Qed.

Lemma matchOne_in activating configured e l m :
  matchOne (Some <$> activating) configured (Some e) = Ret l →
  m ∈ l ↔ ∃ id c, CertificateId e = Some id ∧ c ∈ configured ∧ m = forTask c id ∧
    isSameStrSetRejectNilItem (CertSANs e) (xc_Domains c) = true ∧
    ∀ ac, ac ∈ activating → sameId ac e = true ∨ sameNames ac e = false.
Proof.
  unfold matchOne, isActivatingCertificateExists. destruct (CertificateId e) as [id|] eqn:Eid.
  2:{ intros [= <-]. split; [by intros ?%not_elem_of_nil|]. by intros (?&?&?&_). }
  pose proof (activatingLoop_none activating e) as Hn.
  destruct (activatingLoop_some activating e _ eq_refl) as [E|(ac&E&_)]; rewrite E in *.
  - intros [= <-]. rewrite list_elem_of_fmap. split.
    + intros (c&->&Hc). apply list_elem_of_In, filter_In in Hc as [Hc Hs]. apply list_elem_of_In in Hc.
      exists id, c. split_all; try done. by apply Hn.
    + intros (id'&c&[= <-]&Hc&->&Hs&_). exists c. split; [done|].
      apply list_elem_of_In, filter_In. split; [by apply list_elem_of_In|done].
  - destruct (CertificateId ac); [|done]. intros [= <-]. split; [by intros ?%not_elem_of_nil|].
    intros (_&_&_&_&_&_&Ha). apply Hn in Ha. done.
Qed.

(** Which certificates a run replaces: a configured certificate is paired
    with an expiring one exactly when their name sets agree and no hosted
    certificate with another id carries the same names; the pairing goes by
    the expiring certificate's id. *)
Theorem update_targets activating configured expiring matched m :
  matchAll (Some <$> activating) configured (Some <$> expiring) = Ret matched →
  m ∈ matched ↔ ∃ e id c, e ∈ expiring ∧ CertificateId e = Some id ∧ c ∈ configured ∧ m = forTask c id ∧
    isSameStrSetRejectNilItem (CertSANs e) (xc_Domains c) = true ∧
    ∀ ac, ac ∈ activating → sameId ac e = true ∨ sameNames ac e = false.
Proof.
  revert matched. induction expiring as [|e l IH]; intros matched; cbn [fmap list_fmap matchAll].
  { intros [= <-]. split; [by intros ?%not_elem_of_nil|]. by intros (?&?&?&?%not_elem_of_nil&_). }
  destruct (matchOne _ _ (Some e)) as [l1|] eqn:E1; [|done].
  destruct (matchAll _ _ _) as [l2|] eqn:E2; [|done]. intros [= <-].
  rewrite elem_of_app, (matchOne_in _ _ _ _ m E1), (IH l2 eq_refl). split.
  - intros [(id&c&?)|(e'&id&c&?&?)]; [exists e, id, c|exists e', id, c]; (split; [|done]); [by left|by right].
  - intros (e'&id&c&[->|Hin]%elem_of_cons&H); [left; by exists id, c|right; by exists e', id, c].
Qed.

(** Two hosted certificates with the same names and different ids exclude each
    other, although neither is newer: the list of [FilterExpiring = 0] holds
    the expiring ones too. *)
Lemma twins_skipped activating configured e1 e2 :
  (∀ ac, ac ∈ activating → is_Some (CertificateId ac)) →
  e1 ∈ activating → is_Some (CertificateId e2) → CertificateId e1 ≠ CertificateId e2 →
  sameNames e1 e2 = true → matchOne (Some <$> activating) configured (Some e2) = Ret [].
Proof.
  intros Hid Hin [i2 E2] Hne Hs. unfold matchOne, isActivatingCertificateExists. rewrite E2.
  pose proof (activatingLoop_none activating e2) as Hn.
  destruct (activatingLoop_some activating e2 _ eq_refl) as [E|(ac&E&Hac)]; rewrite E in *.
  - exfalso. destruct (proj1 Hn eq_refl e1 Hin) as [H|H]; [|congruence].
    unfold sameId in H. destruct (Hid e1 Hin) as [i1 E1]. rewrite E1, E2 in *.
    apply String.eqb_eq in H. congruence.
  - by destruct (Hid ac Hac) as [i ->].
Qed.

(** ** The wait group *)

Section RunFacts.
Variable tasks : list ClientCertification.

Record txcInv (r : txcRun) : Prop := {
  ti_wg : x_wg r = Z.of_nat (length tasks) - Z.of_nat (length (x_served r));
  ti_served i : i ∈ x_served r → ∃ k, AddReplaceTask tasks !! k = Some i;
  ti_panic : x_panic r = bool_decide (x_wg r < 0);
}.

Lemma AddReplaceTask_task k i : AddReplaceTask tasks !! k = Some i →
  ∃ c, tasks !! i = Some c ∧ AsKey (xc_Domains c) = k.
Proof.
  unfold AddReplaceTask.
  assert (Hb : ∀ l (m : gmap Key nat) (Q : nat → Prop), (∀ j, m !! k = Some j → Q j) →
    (∀ j c, (j, c) ∈ l → AsKey (xc_Domains c) = k → Q j) →
    ∀ j, foldl (λ m '(i, c), <[ AsKey (xc_Domains c) := i ]> m) m l !! k = Some j → Q j).
  { induction l as [|[n c] l IH]; intros m Q Hm Hl; [done|]. cbn [foldl]. apply IH.
    - intros j. destruct (decide (AsKey (xc_Domains c) = k)) as [E|Hne].
      + rewrite E, lookup_insert_eq. intros [= <-]. apply (Hl n c); [by left|done].
      + rewrite lookup_insert_ne by done. apply Hm.
    - intros j c' Hin. apply Hl. by right. }
  apply (Hb _ _ (λ i, ∃ c, tasks !! i = Some c ∧ AsKey (xc_Domains c) = k)); [by intros j ?%lookup_empty_Some|].
  intros j c (j'&c'&[= -> ->]&Hl)%elem_of_lookup_imap E. by exists c'.
Qed.

Lemma AddReplaceTask_bound k i : AddReplaceTask tasks !! k = Some i → (i < length tasks)%nat.
Proof. by intros (c&?%lookup_lt_Some&_)%AddReplaceTask_task. Qed.

Lemma txc_invariant r : reachable (txcInit tasks) (txcStep tasks) r → txcInv r.
Proof.
  apply reachable_invariant.
  - intros ? ->. split; cbn; [lia|by intros i ?%not_elem_of_nil|]. by rewrite bool_decide_eq_false_2 by lia.
  - intros ? ? _ [Hw Hs Hp] Hstep. destruct Hstep as [k i e r0 Hk Hf]. split; cbn [x_wg x_served x_panic].
    + rewrite length_app. cbn [length]. lia.
    + intros j [Hj| ->%list_elem_of_singleton]%elem_of_app; eauto.
    + by destruct (Z.ltb_spec (x_wg r0 - 1) 0); [rewrite bool_decide_eq_true_2|rewrite bool_decide_eq_false_2 by lia].
Qed.

Lemma served_once r : txcInv r → NoDup (x_served r) → x_served r ⊆+ seq 0 (length tasks).
Proof.
  intros [_ Hs _] Hn. apply NoDup_submseteq; [done|]. intros i [k Hk]%Hs. apply elem_of_seq.
  pose proof (AddReplaceTask_bound k i Hk). lia.
Qed.

Lemma served_all r : txcInv r → NoDup (x_served r) → x_wg r = 0 → ∀ i, (i < length tasks)%nat → i ∈ x_served r.
Proof.
  intros Hi Hn Hz i Hlt. pose proof (ti_wg _ Hi).
  rewrite (submseteq_length_Permutation _ _ (served_once r Hi Hn)) by (rewrite length_seq; lia). apply elem_of_seq. lia.
Qed.

(** A watched task can be served any number of times. *)
Lemma serve_again k i n : AddReplaceTask tasks !! k = Some i → (n ≤ S (length tasks))%nat →
  reachable (txcInit tasks) (txcStep tasks)
    (mkTxcRun (Z.of_nat (length tasks) - Z.of_nat n) (repeat i n) [] (bool_decide (length tasks < n)%nat)).
Proof.
  intros Hk. induction n as [|n IH]; intros Hn.
  - apply reach_init. unfold txcInit. rewrite bool_decide_eq_false_2 by lia. f_equal. lia.
  - rewrite (bool_decide_eq_false_2 (_ < n)%nat) in IH by lia. eapply reach_step; [apply IH; lia|].
    assert (Hs := x_deliver tasks k i None (mkTxcRun (Z.of_nat (length tasks) - Z.of_nat n) (repeat i n) [] false) Hk eq_refl).
    cbn [x_wg x_served x_taskErr x_panic option_list app] in Hs. rewrite <- repeat_cons in Hs.
    replace (Z.of_nat (length tasks) - Z.of_nat n - 1) with (Z.of_nat (length tasks) - Z.of_nat (S n)) in Hs by lia.
    replace (bool_decide (length tasks < S n)%nat) with (Z.of_nat (length tasks) - Z.of_nat (S n) <? 0); [exact Hs|].
    destruct (Z.ltb_spec (Z.of_nat (length tasks) - Z.of_nat (S n)) 0);
      [rewrite bool_decide_eq_true_2 by lia|rewrite bool_decide_eq_false_2 by lia]; done.
Qed.

(** What the wait group counts is deliveries, not tasks.  As long as no
    task is served twice, the wait ends without the context only when every
    task was served, and never panics; but any watched task whose
    certificate changes again uses up the share of the others: the updater can
    report success with one task served and all others not, and one delivery
    more makes the counter negative, which panics. *)
Theorem wait_counts_deliveries r :
  reachable (txcInit tasks) (txcStep tasks) r →
  (NoDup (x_served r) → x_panic r = false ∧
     ∀ e, WaitReplaceTask None r e → ∀ i, (i < length tasks)%nat → i ∈ x_served r) ∧
  (∀ k i, AddReplaceTask tasks !! k = Some i → ∃ r1 r2,
     reachable (txcInit tasks) (txcStep tasks) r1 ∧ WaitReplaceTask None r1 None ∧
     (∀ j, j ≠ i → j ∉ x_served r1) ∧ txcStep tasks r1 r2 ∧ x_panic r2 = true).
Proof.
  intros Hr. split.
  - intros Hn. pose proof (txc_invariant r Hr) as Hi. split.
    + rewrite (ti_panic _ Hi). apply bool_decide_eq_false_2. rewrite (ti_wg _ Hi).
      pose proof (submseteq_length _ _ (served_once r Hi Hn)) as Hlen. rewrite length_seq in Hlen. lia.
    + intros e He. inversion He as [Hz|]; [|done]. by apply served_all.
  - intros k i Hk.
    pose proof (serve_again k i (length tasks) Hk ltac:(lia)) as H1.
    rewrite bool_decide_eq_false_2, Z.sub_diag in H1 by lia.
    eexists _, _. split; [exact H1|]. split; [by apply xw_done|].
    split; [|split; [by apply (x_deliver tasks k i None)|done]].
    cbn [x_served]. by intros j Hj Hin%list_elem_of_In%repeat_spec.
Qed.
End RunFacts.

(** ** A concrete account *)

Module Demo.
Definition hostedCert (id : string) (sans : list string) : option Certificates :=
  Some (mkCertificates (Some id) (Some <$> sans)).

Definition expiringCert : Certificates := mkCertificates (Some "old") (Some <$> ["b.example.com"; "a.example.com"]).
Definition otherCert : Certificates := mkCertificates (Some "other") (Some <$> ["c.example.com"]).

(** One certificate expires, another one does not. *)
Definition hosted (expiring : Z) : list (option Certificates) :=
  if expiring =? 1 then [Some expiringCert] else [Some expiringCert; Some otherCert].

#[export] Instance account : TxcClient Sim := {
  DescribeCertificates req w :=
    (Ok (firstn (Z.to_nat (Limit req)) (drop (Z.to_nat (Offset req)) (hosted (FilterExpiring req)))), w);
  UpdateCertificateInstance req w := (None, w);
  isCertificateExists e := match e with EText m => String.eqb m "FailedOperation.CertificateExists" | _ => false end;
}.

Definition w0 : Sim := {| sim_now := 0; sim_cancel := None |}.

Definition site (name : string) (ds : list string) : ClientCertification :=
  mkTxcCert name ds ["cdn"] [] (AsKey []) "".

Definition configured : list ClientCertification :=
  [site "ab" ["a.example.com"; "b.example.com"]; site "c" ["c.example.com"]].

(** Both sites are to be replaced; the watch of the first one fires. *)
Definition ab : ClientCertification := forTask (site "ab" ["a.example.com"; "b.example.com"]) "old".
Definition tasks : list ClientCertification := [ab; forTask (site "c" ["c.example.com"]) "other"].
Definition r1 : txcRun := mkTxcRun 1 [0%nat] [] false.
End Demo.

Import (hints) Demo.

Example account_run :
  GetCertificateToUpdate 3 Demo.configured Demo.w0 = Some (Ret (Ok [Demo.ab]), Demo.w0) ∧
  xc_Name <$> logMissingCerts Demo.configured [Demo.ab] = ["c"].
Proof. split; vm_compute; reflexivity. Qed.

Lemma same_set_spec_witness :
  isSameStrSetIgnoringNil ["b.example.com"; "a.example.com"] ["a.example.com"; "b.example.com"] = true
  ↔ ["b.example.com"; "a.example.com"] ≡ₚ ["a.example.com"; "b.example.com"].
Proof.
  apply (same_set_spec ["b.example.com"; "a.example.com"] ["a.example.com"; "b.example.com"]).
  apply (bool_decide_unpack _). vm_compute. exact I.
Defined.

Lemma fetch_complete_witness :
  ∃ w', FetchTencentCloudCertificate 2 0 Demo.w0 = Some (Ok (Demo.hosted 0), w').
Proof.
  assert (H0 : ctxErr Demo.w0 = None) by (vm_compute; reflexivity).
  apply (fetch_complete Demo.hosted).
  - intros req w Hw. exists w. split; [reflexivity|exact Hw].
  - exact H0.
  - vm_compute. reflexivity.
  - apply Nat.leb_le. vm_compute. reflexivity.
Defined.

Lemma update_targets_witness :
  Demo.ab ∈ [Demo.ab] ↔ ∃ e id c, e ∈ [Demo.expiringCert] ∧ CertificateId e = Some id ∧
    c ∈ Demo.configured ∧ Demo.ab = forTask c id ∧
    isSameStrSetRejectNilItem (CertSANs e) (xc_Domains c) = true ∧
    ∀ ac, ac ∈ [Demo.expiringCert; Demo.otherCert] → sameId ac e = true ∨ sameNames ac e = false.
Proof.
  assert (H : matchAll (Some <$> [Demo.expiringCert; Demo.otherCert]) Demo.configured (Some <$> [Demo.expiringCert])
    = Ret [Demo.ab]) by (vm_compute; reflexivity).
  exact (update_targets _ _ _ _ Demo.ab H).
Defined.

Lemma wait_counts_deliveries_witness :
  (∀ e, WaitReplaceTask None Demo.r1 e → 1%nat ∈ x_served Demo.r1) ∧
  ∃ r1 r2, reachable (txcInit Demo.tasks) (txcStep Demo.tasks) r1 ∧ WaitReplaceTask None r1 None ∧
    1%nat ∉ x_served r1 ∧ txcStep Demo.tasks r1 r2 ∧ x_panic r2 = true.
Proof.
  assert (Hk : AddReplaceTask Demo.tasks !! AsKey ["a.example.com"; "b.example.com"] = Some 0%nat)
    by (vm_compute; reflexivity).
  assert (Hr : reachable (txcInit Demo.tasks) (txcStep Demo.tasks) Demo.r1).
  { eapply reach_step; [apply reach_init; reflexivity|].
    exact (x_deliver Demo.tasks _ 0 None (mkTxcRun 2 [] [] false) Hk eq_refl). }
  destruct (wait_counts_deliveries Demo.tasks Demo.r1 Hr) as [H1 H2]. split.
  - intros e He. apply (proj2 (H1 (NoDup_singleton _)) e He 1%nat). apply Nat.ltb_lt. reflexivity.
  - destruct (H2 _ 0%nat Hk) as (r1&r2&Hr1&Hw&Hn&Hs&Hp). exists r1, r2.
    split; [exact Hr1|]. split; [exact Hw|]. split; [apply Hn; discriminate|]. split; assumption.
Defined.
