(* ===== verification/Caddy.v ===== *)
(** exec/caddytls: the Caddy plugin.  The [certdx] block of a Caddyfile is
    parsed into a configuration, Caddy hands it to the app as JSON, the app
    provisions a client daemon, and each site asks the daemon for the
    certificate of its cert-id.  Caddy's token dispenser is an interface whose
    laws speak of the tree of directives it walks; parsing is proved equal to
    an interpretation of that tree. *)

From Stdlib Require Import ZArith Lia Ascii.
From stdpp Require Import base option list gmap strings relations.
From S2P Require Import Prelude.
From S2P Require Import GoStd.
From S2P Require Import Duration.
From S2P Require Import Sys.
From S2P Require Import Domain.
From S2P Require Import Config.
From S2P Require Import Mtls.
From S2P Require Import Daemon.

Open Scope Z_scope.

(** ** strconv.Atoi *)

Definition Atoi (s : string) : option Z :=
  match bigSetString s with
  | Some v => if (- 2 ^ 63 <=? v) && (v <? 2 ^ 63) then Some v else None
  | None => None
  end.

(** ** certdx.go: the configuration *)

Abbreviation CertificateDef := (gmap string (list string)) (only parsing).

Definition Add (id : string) (domains : list string) (d : CertificateDef) : result CertificateDef :=
  if String.eqb id "" then Err (EText "certificate id must not be empty")
  else if (length domains =? 0)%nat then Err (EText ("certificate " +:+ id +:+ " has no domains"))
  else match d !! id with
  | Some _ => Err (EText ("certificate " +:+ id +:+ " already defined"))
  | None => Ok (<[ id := domains ]> d)
  end.

Definition Lookup (id : string) (d : CertificateDef) : option (list string) := d !! id.

Record CertDXCaddyConfig := mkCaddyConfig {
  cx_Common : ClientCommonConfig;
  cx_HttpMain : ClientHttpServer;
  cx_HttpStandby : ClientHttpServer;
  cx_GrpcMain : ClientGRPCServer;
  cx_GrpcStandby : ClientGRPCServer;
  CertificateDefs : CertificateDef;
}.

Definition set_common (x : ClientCommonConfig) (c : CertDXCaddyConfig) : CertDXCaddyConfig :=
  mkCaddyConfig x (cx_HttpMain c) (cx_HttpStandby c) (cx_GrpcMain c) (cx_GrpcStandby c) (CertificateDefs c).
Definition set_httpMain (x : ClientHttpServer) (c : CertDXCaddyConfig) : CertDXCaddyConfig :=
  mkCaddyConfig (cx_Common c) x (cx_HttpStandby c) (cx_GrpcMain c) (cx_GrpcStandby c) (CertificateDefs c).
Definition set_httpStandby (x : ClientHttpServer) (c : CertDXCaddyConfig) : CertDXCaddyConfig :=
  mkCaddyConfig (cx_Common c) (cx_HttpMain c) x (cx_GrpcMain c) (cx_GrpcStandby c) (CertificateDefs c).
Definition set_grpcMain (x : ClientGRPCServer) (c : CertDXCaddyConfig) : CertDXCaddyConfig :=
  mkCaddyConfig (cx_Common c) (cx_HttpMain c) (cx_HttpStandby c) x (cx_GrpcStandby c) (CertificateDefs c).
Definition set_grpcStandby (x : ClientGRPCServer) (c : CertDXCaddyConfig) : CertDXCaddyConfig :=
  mkCaddyConfig (cx_Common c) (cx_HttpMain c) (cx_HttpStandby c) (cx_GrpcMain c) x (CertificateDefs c).
Definition set_defs (x : CertificateDef) (c : CertDXCaddyConfig) : CertDXCaddyConfig :=
  mkCaddyConfig (cx_Common c) (cx_HttpMain c) (cx_HttpStandby c) (cx_GrpcMain c) (cx_GrpcStandby c) x.

Definition set_retryCount (n : Z) (x : ClientCommonConfig) : ClientCommonConfig :=
  mkClientCommonConfig n (Mode x) (ReconnectInterval x) (ReconnectDuration x).
Definition set_mode (v : string) (x : ClientCommonConfig) : ClientCommonConfig :=
  mkClientCommonConfig (RetryCount x) v (ReconnectInterval x) (ReconnectDuration x).
Definition set_reconnectInterval (v : string) (x : ClientCommonConfig) : ClientCommonConfig :=
  mkClientCommonConfig (RetryCount x) (Mode x) v (ReconnectDuration x).
Definition set_reconnectDuration (d : Duration) (x : ClientCommonConfig) : ClientCommonConfig :=
  mkClientCommonConfig (RetryCount x) (Mode x) (ReconnectInterval x) d.

(** [SetDefaultConfig] *)
Definition SetDefaultConfig (c : CertDXCaddyConfig) : CertDXCaddyConfig :=
  mkCaddyConfig (set_retryCount 5 (set_mode CLIENT_MODE_HTTP (set_reconnectInterval "10m" (cx_Common c))))
    (set_authMethod HTTP_AUTH_TOKEN (cx_HttpMain c)) (set_authMethod HTTP_AUTH_TOKEN (cx_HttpStandby c))
    (cx_GrpcMain c) (cx_GrpcStandby c) (CertificateDefs c).

(** [MakeCertDXCaddyDaemon], whose daemon part is nil until [Provision]. *)
Definition MakeCertDXCaddyDaemon : CertDXCaddyConfig :=
  SetDefaultConfig (mkCaddyConfig (mkClientCommonConfig 0 "" "" 0) (mkClientHttpServer "" "" "" "")
    (mkClientHttpServer "" "" "" "") (mkClientGRPCServer "" "") (mkClientGRPCServer "" "") ∅).

(** [caddyconfig.JSON] of the parsed module, and Caddy's decoding of it into
    a new module. *)
Class CaddyJson := {
  moduleJSON : CertDXCaddyConfig → string;
  loadModule : string → result CertDXCaddyConfig;
}.

(** ** The dispenser and its monad *)

Class Dispenser (D : Type) := {
  Next : D → bool * D;
  NextArg : D → bool * D;
  NextBlock : Z → D → bool * D;
  Val : D → string;
  RemainingArgs : D → list string * D;
  NewFromNextSegment : D → D * D;          (* the new dispenser, and the receiver *)
  Errf : string → list string → option error → D → error;   (* format, operands, a cause *)
}.

(** A parser: the dispenser is threaded, an error returns early; [None] when
    out of fuel. *)
Definition M (D A : Type) : Type := D → option (result A * D).

Definition pret {D A} (a : A) : M D A := λ d, Some (Ok a, d).
Definition pbind {D A B} (m : M D A) (k : A → M D B) : M D B := λ d,
  match m d with
  | None => None
  | Some (Err e, d) => Some (Err e, d)
  | Some (Ok a, d) => k a d
  end.
Definition lift {D A} (op : D → A * D) : M D A := λ d, let '(a, d) := op d in Some (Ok a, d).

Notation "'let!' x := m 'in' k" := (pbind m (λ x, k)) (at level 200, x name, m at level 100, k at level 200) : go_scope.
Local Open Scope go_scope.

(** [for cond() { body }] *)
Fixpoint forLoop {D A} (fuel : nat) (cond : D → bool * D) (body : A → M D A) (s : A) : M D A := λ d,
  match fuel with
  | O => None
  | S fuel' =>
      let '(ok, d) := cond d in
      if (ok : bool) then pbind (body s) (forLoop fuel' cond body) d else Some (Ok s, d)
  end.

(** ** caddyfile.go *)

Definition dirCertDX : string := "certdx".
Definition dirRetryCount : string := "retry_count".
Definition dirMode : string := "mode".
Definition dirReconnectInterval : string := "reconnect_interval".
Definition dirHTTP : string := "http".
Definition dirGRPC : string := "GRPC".
Definition dirCertificate : string := "certificate".
Definition dirMainServer : string := "main_server".
Definition dirStandbyServer : string := "standby_server".
Definition dirURL : string := "url".
Definition dirAuthMethod : string := "authMethod".
Definition dirToken : string := "token".
Definition dirPEM : string := "pem".
Definition dirServerAddr : string := "server".

Section Parse.
Context {D : Type} `{DS : Dispenser D}.
Variable fuel : nat.

Definition val : M D string := lift (λ d, (Val d, d)).
Definition errf {A} (format : string) (args : list string) (cause : option error) : M D A := λ d,
  Some (Err (Errf format args cause d), d).

(** A parser applied to [d.NewFromNextSegment()]; its error is returned as it
    is, or as the cause of another one. *)
Definition onSegment {A} (m : M D A) : M D A := λ d,
  let '(sub, d) := NewFromNextSegment d in
  match m sub with None => None | Some (r, _) => Some (r, d) end.
Definition orErrf {A} (format : string) (args : list string) (m : M D A) : M D A := λ d,
  match m d with
  | Some (Err err, d) => errf format args (Some err) d
  | r => r
  end.

Definition expectArg1 : M D string :=
  let! args := lift RemainingArgs in
  match args with
  | [v] => pret v
  | _ => let! v := val in errf "expected 1 argument for %s, got %d" [v; bigString (Z.of_nat (length args))] None
  end.

(** The loop bodies of the blocks are named. *)
Definition httpServerDirective (s : ClientHttpServer) : M D ClientHttpServer :=
  let! directive := val in
  let! v := expectArg1 in
  if String.eqb directive dirURL then pret (mkClientHttpServer v (ClientAuthMethod s) (Token s) (HttpPEM s))
  else if String.eqb directive dirAuthMethod then pret (mkClientHttpServer (Url s) v (Token s) (HttpPEM s))
  else if String.eqb directive dirToken then pret (mkClientHttpServer (Url s) (ClientAuthMethod s) v (HttpPEM s))
  else if String.eqb directive dirPEM then pret (mkClientHttpServer (Url s) (ClientAuthMethod s) (Token s) v)
  else errf "unrecognized subdirective for http server: %s" [directive] None.

Definition unmarshalHttpServerBlock (s : ClientHttpServer) : M D ClientHttpServer :=
  forLoop fuel Next (forLoop fuel (NextBlock 0) httpServerDirective) s.

Definition httpDirective (c : CertDXCaddyConfig) : M D CertDXCaddyConfig :=
  let! directive := val in
  if String.eqb directive dirMainServer then
    let! s := onSegment (unmarshalHttpServerBlock (cx_HttpMain c)) in pret (set_httpMain s c)
  else if String.eqb directive dirStandbyServer then
    let! s := onSegment (unmarshalHttpServerBlock (cx_HttpStandby c)) in pret (set_httpStandby s c)
  else errf "unrecognized subdirective for %s: %s" [dirHTTP; directive] None.

Definition UnmarshalHttpBlock (c : CertDXCaddyConfig) : M D CertDXCaddyConfig :=
  forLoop fuel Next (forLoop fuel (NextBlock 0) httpDirective) c.

Definition grpcServerDirective (s : ClientGRPCServer) : M D ClientGRPCServer :=
  let! directive := val in
  let! v := expectArg1 in
  if String.eqb directive dirServerAddr then pret (mkClientGRPCServer v (GrpcPEM s))
  else if String.eqb directive dirPEM then pret (mkClientGRPCServer (GServer s) v)
  else errf "unrecognized subdirective for grpc server: %s" [directive] None.

Definition unmarshalGRPCServerBlock (s : ClientGRPCServer) : M D ClientGRPCServer :=
  forLoop fuel Next (forLoop fuel (NextBlock 0) grpcServerDirective) s.

Definition grpcDirective (c : CertDXCaddyConfig) : M D CertDXCaddyConfig :=
  let! directive := val in
  if String.eqb directive dirMainServer then
    let! s := onSegment (unmarshalGRPCServerBlock (cx_GrpcMain c)) in pret (set_grpcMain s c)
  else if String.eqb directive dirStandbyServer then
    let! s := onSegment (unmarshalGRPCServerBlock (cx_GrpcStandby c)) in pret (set_grpcStandby s c)
  else errf "unrecognized subdirective for grpc: %s" [directive] None.

Definition UnmarshalGRPCBlock (c : CertDXCaddyConfig) : M D CertDXCaddyConfig :=
  forLoop fuel Next (forLoop fuel (NextBlock 0) grpcDirective) c.

Definition UnmarshalCertificateBlock (certID : string) (c : CertDXCaddyConfig) : M D CertDXCaddyConfig :=
  let! domains := forLoop fuel Next (forLoop fuel (NextBlock 0) (λ domains,
    let! v := val in pret (domains ++ [v]))) [] in
  match Add certID domains (CertificateDefs c) with
  | Err err => errf "%s" [] (Some err)
  | Ok defs => pret (set_defs defs c)
  end.

(** One directive of the global block. *)
Definition parseDirective (module : CertDXCaddyConfig) : M D CertDXCaddyConfig :=
  let! directive := val in
  if String.eqb directive dirRetryCount then
    let! v := expectArg1 in
    match Atoi v with
    | None => errf "invalid value for %s: %v" [dirRetryCount; v] None
    | Some n => pret (set_common (set_retryCount n (cx_Common module)) module)
    end
  else if String.eqb directive dirMode then
    let! v := expectArg1 in pret (set_common (set_mode v (cx_Common module)) module)
  else if String.eqb directive dirReconnectInterval then
    let! v := expectArg1 in pret (set_common (set_reconnectInterval v (cx_Common module)) module)
  else if String.eqb directive dirHTTP then
    let! arg := lift NextArg in
    if (arg : bool) then errf "no argument expected for %s" [dirHTTP] None
    else orErrf "failed unmarshaling %s block: %v" [dirHTTP] (onSegment (UnmarshalHttpBlock module))
  else if String.eqb directive dirGRPC then
    let! arg := lift NextArg in
    if (arg : bool) then errf "no argument expected for %s" [dirGRPC] None
    else orErrf "failed unmarshaling %s block: %v" [dirGRPC] (onSegment (UnmarshalGRPCBlock module))
  else if String.eqb directive dirCertificate then
    let! certID := expectArg1 in
    orErrf "failed unmarshaling %s block: %v" [dirCertificate] (onSegment (UnmarshalCertificateBlock certID module))
  else errf "unrecognized subdirective for %s: %s" [dirCertDX; directive] None.

(** The app of the global options: its name and its JSON. *)
Definition parseCertDXGlobalOptions `{CaddyJson} : M D (string * string) :=
  let! module := forLoop fuel Next (λ module,
    let! arg := lift NextArg in
    if (arg : bool) then errf "no argument expected for %s" [dirCertDX] None
    else forLoop fuel (NextBlock 0) parseDirective module) MakeCertDXCaddyDaemon in
  pret (dirCertDX, moduleJSON module).

(** ** caddytls.go *)

(** [CertDXTls.UnmarshalCaddyfile]: the cert-id of a site. *)
Definition UnmarshalCaddyfile (certId : string) : M D string :=
  forLoop fuel Next (λ _,
    let! args := lift RemainingArgs in
    match args with
    | [v] =>
        let! block := lift (NextBlock 0) in
        if (block : bool) then errf "no block expected for certdx" [] None else pret v
    | _ => errf "expected 1 argument for certdx, got %d" [bigString (Z.of_nat (length args))] None
    end) certId.
End Parse.

(** ** The app and the sites *)

Section App.
Context {W : Type} `{PM : Pem} `{TC : TlsCrypto}.
(** The order in which the Go runtime ranges over the definitions. *)
Variable range : CertificateDef → list (string * list string).

(** [Provision]: the client daemon's configuration and its watch list. *)
Definition Provision (m : CertDXCaddyConfig) : result (ClientConfig * gmap Key (watchingCert W)) :=
  let cfg := ClientConfig_SetDefault zeroClientConfig in
  match ParseDuration (ReconnectInterval (cx_Common m)) with
  | Err err => Err (EWrap ("parse reconnect_interval " +:+ ReconnectInterval (cx_Common m) +:+ ": %w") err)
  | Ok d =>
      Ok (mkClientConfig (set_reconnectDuration d (cx_Common m)) (cx_HttpMain m) (cx_HttpStandby m)
            (cx_GrpcMain m) (cx_GrpcStandby m) (Certifications cfg),
          foldl (λ certs '(certID, domains), AddCertToWatch certID domains certs) ∅ (range (CertificateDefs m)))
  end.

(** [Start]: [None] when the client goroutine was started. *)
Definition Start (cfg : ClientConfig) : option error :=
  let mode := Mode (Common cfg) in
  if String.eqb mode CLIENT_MODE_HTTP then
    if String.eqb (Url (HttpMain cfg)) "" then Some (EText "http main_server url is required") else None
  else if String.eqb mode CLIENT_MODE_GRPC then
    if String.eqb (GServer (GrpcMain cfg)) "" then Some (EText "grpc main_server is required") else None
  else Some (EText ("unsupported mode " +:+ mode)).

(** [CertDXTls.Validate], given what [ctx.App] answers ([Ok None]: an app of
    another type): the key the site will ask for. *)
Definition Validate (app : result (option CertDXCaddyConfig)) (certId : string) : result Key :=
  match app with
  | Err err => Err (EWrap "certdx app is not configured: %w" err)
  | Ok None => Err (EText "certdx app has unexpected type")
  | Ok (Some m) =>
      match Lookup certId (CertificateDefs m) with
      | None => Err (EText ("no certificate definition for cert-id " +:+ certId))
      | Some domains => Ok (AsKey domains)
      end
  end.

(** [CertDXTls.GetCertificate] through the app. *)
Definition siteCertificate (certHash : Key) (certs : gmap Key (watchingCert W)) : result tlsCertificate :=
  GetCertificate certHash certs.
End App.

(** ** Directive trees *)

(** A directive: its name, the arguments on its line, and its block. *)
Inductive seg := Seg (name : string) (args : list string) (body : list seg).

Definition seg_name (x : seg) : string := let '(Seg n _ _) := x in n.
Definition seg_args (x : seg) : list string := let '(Seg _ a _) := x in a.
Definition seg_body (x : seg) : list seg := let '(Seg _ _ b) := x in b.

(** The words of a line. *)
Definition seg_words (x : seg) : list string := seg_name x :: seg_args x.

Fixpoint seg_size (x : seg) : nat := let '(Seg _ a b) := x in S (S (length a + sum_list_with seg_size b)).

(** Where a dispenser stands in such a tree, whose words are no braces:
    before the directive it was made for; on its first token; on the first
    token of a directive of the block, or on a later one, as if its line began
    there; on the last token of that line, the whole line read; between two directives of the block; at the end. *)
Inductive place :=
  | PStart (x : seg)
  | PTop (x : seg)
  | PIn (x : seg) (rest : list seg)
  | PArg (v : string) (body rest : list seg)
  | PNext (rest : list seg)
  | PEnd.

(** The documented behaviour of the dispenser's methods.  NextBlock looks for
    a brace after one word at the start, and goes on token by token, not line
    by line, inside the block. *)
Class DispenserLaws (D : Type) `{Dispenser D} := {
  at_place : place → D → Prop;
  next_start x d : at_place (PStart x) d → ∃ d', Next d = (true, d') ∧ at_place (PTop x) d';
  next_end d : at_place PEnd d → ∃ d', Next d = (false, d');
  top_plain n b d : at_place (PTop (Seg n [] b)) d →
    (∃ d', NextArg d = (false, d') ∧ at_place (PTop (Seg n [] b)) d') ∧ at_place (PNext b) d;
  top_arg n a l b d : at_place (PTop (Seg n (a :: l) b)) d → ∃ d', NextArg d = (true, d');
  top_more n a l b d : at_place (PTop (Seg n (a :: l) b)) d →
    ∃ d', NextBlock 0 d = (false, d') ∧ at_place (PStart (Seg a l b)) d';
  top_args n a b d : at_place (PTop (Seg n a b)) d → ∃ d', RemainingArgs d = (a, d') ∧ at_place (PNext b) d';
  in_val x rest d : at_place (PIn x rest) d → Val d = seg_name x;
  in_plain n b rest d : at_place (PIn (Seg n [] b) rest) d →
    ∃ d', NextArg d = (false, d') ∧ at_place (PIn (Seg n [] b) rest) d';
  in_arg n a l b rest d : at_place (PIn (Seg n (a :: l) b) rest) d → ∃ d', NextArg d = (true, d');
  in_args n a b rest d : at_place (PIn (Seg n a b) rest) d →
    ∃ d', RemainingArgs d = (a, d') ∧ at_place (PArg (List.last a n) b rest) d';
  in_segment x rest d : at_place (PIn x rest) d → ∃ d1 d2,
    NewFromNextSegment d = (d1, d2) ∧ at_place (PStart x) d1 ∧ at_place (PNext rest) d2;
  arg_segment v b rest d : at_place (PArg v b rest) d → ∃ d1 d2,
    NewFromNextSegment d = (d1, d2) ∧ at_place (PStart (Seg v [] b)) d1 ∧ at_place (PNext rest) d2;
  in_leaf n rest d : at_place (PIn (Seg n [] []) rest) d → at_place (PNext rest) d;
  in_line n a l b rest d : at_place (PIn (Seg n (a :: l) b) rest) d → at_place (PNext (Seg a l b :: rest)) d;
  arg_leaf v rest d : at_place (PArg v [] rest) d → at_place (PNext rest) d;
  block_more x rest d : at_place (PNext (x :: rest)) d →
    ∃ d', NextBlock 0 d = (true, d') ∧ at_place (PIn x rest) d';
  block_done d : at_place (PNext []) d → ∃ d', NextBlock 0 d = (false, d') ∧ at_place PEnd d';
}.

(** ** What a tree means *)

Definition foldO {A B} (f : A → B → option A) : A → list B → option A :=
  fix go s l := match l with [] => Some s | x :: l' => match f s x with Some s' => go s' l' | None => None end end.

Definition leafArg (x : seg) : option string :=
  match x with Seg _ [v] _ => Some v | _ => None end.

Definition httpServerDir (s : ClientHttpServer) (x : seg) : option ClientHttpServer :=
  v ← leafArg x;
  if String.eqb (seg_name x) "url" then Some (mkClientHttpServer v (ClientAuthMethod s) (Token s) (HttpPEM s))
  else if String.eqb (seg_name x) "authMethod" then Some (mkClientHttpServer (Url s) v (Token s) (HttpPEM s))
  else if String.eqb (seg_name x) "token" then Some (mkClientHttpServer (Url s) (ClientAuthMethod s) v (HttpPEM s))
  else if String.eqb (seg_name x) "pem" then Some (mkClientHttpServer (Url s) (ClientAuthMethod s) (Token s) v)
  else None.

Definition grpcServerDir (s : ClientGRPCServer) (x : seg) : option ClientGRPCServer :=
  v ← leafArg x;
  if String.eqb (seg_name x) "server" then Some (mkClientGRPCServer v (GrpcPEM s))
  else if String.eqb (seg_name x) "pem" then Some (mkClientGRPCServer (GServer s) v)
  else None.

Definition httpDir (c : CertDXCaddyConfig) (x : seg) : option CertDXCaddyConfig :=
  if String.eqb (seg_name x) "main_server"
  then (λ s, set_httpMain s c) <$> foldO httpServerDir (cx_HttpMain c) (seg_body x)
  else if String.eqb (seg_name x) "standby_server"
  then (λ s, set_httpStandby s c) <$> foldO httpServerDir (cx_HttpStandby c) (seg_body x)
  else None.

Definition grpcDir (c : CertDXCaddyConfig) (x : seg) : option CertDXCaddyConfig :=
  if String.eqb (seg_name x) "main_server"
  then (λ s, set_grpcMain s c) <$> foldO grpcServerDir (cx_GrpcMain c) (seg_body x)
  else if String.eqb (seg_name x) "standby_server"
  then (λ s, set_grpcStandby s c) <$> foldO grpcServerDir (cx_GrpcStandby c) (seg_body x)
  else None.

Definition certDir (c : CertDXCaddyConfig) (id : string) (ds : list string) : option CertDXCaddyConfig :=
  if bool_decide (id ≠ "" ∧ ds ≠ [] ∧ CertificateDefs c !! id = None)
  then Some (set_defs (<[ id := ds ]> (CertificateDefs c)) c) else None.

Definition certdxDir (c : CertDXCaddyConfig) (x : seg) : option CertDXCaddyConfig :=
  if String.eqb (seg_name x) "retry_count" then
    v ← leafArg x; n ← Atoi v; Some (set_common (set_retryCount n (cx_Common c)) c)
  else if String.eqb (seg_name x) "mode" then
    v ← leafArg x; Some (set_common (set_mode v (cx_Common c)) c)
  else if String.eqb (seg_name x) "reconnect_interval" then
    v ← leafArg x; Some (set_common (set_reconnectInterval v (cx_Common c)) c)
  else if String.eqb (seg_name x) "http" then
    if bool_decide (seg_args x = []) then foldO httpDir c (seg_body x) else None
  else if String.eqb (seg_name x) "GRPC" then
    if bool_decide (seg_args x = []) then foldO grpcDir c (seg_body x) else None
  else if String.eqb (seg_name x) "certificate" then
    id ← leafArg x; certDir c id (concat (seg_words <$> seg_body x))
  else None.

Definition interp (x : seg) : option CertDXCaddyConfig :=
  if bool_decide (seg_args x = []) then foldO certdxDir MakeCertDXCaddyDaemon (seg_body x) else None.

(** No block after a directive that takes an argument, or after a domain. *)
Definition leaf (x : seg) : Prop := seg_body x = [].
Definition server_shape (x : seg) : Prop := Forall leaf (seg_body x).
Definition transport_dir_shape (x : seg) : Prop :=
  if String.eqb (seg_name x) "main_server" || String.eqb (seg_name x) "standby_server" then server_shape x else True.
Definition dir_shape (x : seg) : Prop :=
  if String.eqb (seg_name x) "http" || String.eqb (seg_name x) "GRPC" then Forall transport_dir_shape (seg_body x)
  else if String.eqb (seg_name x) "certificate" then Forall leaf (seg_body x)
  else if String.eqb (seg_name x) "retry_count" || String.eqb (seg_name x) "mode"
    || String.eqb (seg_name x) "reconnect_interval" then leaf x
  else True.
Definition block_shape (x : seg) : Prop := Forall dir_shape (seg_body x).

(** ** Parsing is interpretation *)

Lemma seg_size_body x y : y ∈ seg_body x → (seg_size y ≤ seg_size x)%nat.
Proof.
  destruct x as [n a b]. simpl. induction b as [|z b IH]; [by intros ?%elem_of_nil|].
  simpl. intros [->|Hin]%elem_of_cons; [lia|]. specialize (IH Hin). lia.
Qed.

Lemma seg_size_width x : (length (seg_args x) + length (seg_body x) + 2 ≤ seg_size x)%nat.
Proof. destruct x as [n a b]. simpl. induction b as [|[] b IH]; simpl in *; lia. Qed.

Lemma seg_size_words x : (length (concat (seg_words <$> seg_body x)) + 2 ≤ seg_size x)%nat.
Proof.
  destruct x as [n a b]. cbn [seg_body seg_size].
  assert (length (concat (seg_words <$> b)) ≤ sum_list_with seg_size b)%nat; [|lia].
  induction b as [|[m l bb] b IH]; [done|]. rewrite fmap_cons. cbn [concat sum_list_with]. rewrite length_app.
  unfold seg_words at 1. cbn [length seg_size seg_args seg_name]. lia.
Qed.

Section Parsing.
Context {D : Type} `{DS : Dispenser D} `{DL : !DispenserLaws D}.

(** A run gives the value [o] in a place of [P], or an error where [o] is
    [None]. *)
Definition yields {A} (r : option (result A * D)) (o : option A) (P : D → Prop) : Prop :=
  match o with
  | Some a => ∃ d', r = Some (Ok a, d') ∧ P d'
  | None => ∃ e d', r = Some (Err e, d')
  end.

Lemma yields_bind {A B} (m : M D A) (k : A → M D B) o f P Q d :
  yields (m d) o P → (∀ a d', o = Some a → P d' → yields (k a d') (f a) Q) →
  yields (pbind m k d) (a ← o; f a) Q.
Proof.
  unfold pbind. destruct o as [a|]; simpl.
  - intros (d'&->&HP) Hk. by apply Hk.
  - intros (e&d'&->) _. by exists e, d'.
Qed.

Lemma yields_fmap {A B} (m : M D A) (g : A → B) o P d :
  yields (m d) o P → yields (pbind m (λ a, pret (g a)) d) (g <$> o) P.
Proof.
  intros H. pose proof (yields_bind m (λ a, pret (g a)) o (Some ∘ g) P P d H) as Hb.
  replace (g <$> o) with (a ← o; (Some ∘ g) a) by (by destruct o). apply Hb.
  intros a d' _ HP. by exists d'.
Qed.

Lemma yields_mono {A} r (o : option A) (P Q : D → Prop) : yields r o P → (∀ d, P d → Q d) → yields r o Q.
Proof. destruct o; [|done]. intros (d'&?&?) HPQ. exists d'. eauto. Qed.

Lemma block_loop {A} fuel (body : A → M D A) f ss : ∀ s d,
  (∀ s x rest d, x ∈ ss → at_place (PIn x rest) d → yields (body s d) (f s x) (at_place (PNext rest))) →
  (length ss < fuel)%nat → at_place (PNext ss) d →
  yields (forLoop fuel (NextBlock 0) body s d) (foldO f s ss) (at_place PEnd).
Proof.
  revert fuel. induction ss as [|x ss IH]; intros [|fuel] s d Hb Hf Hp; simpl in Hf; try lia; cbn [forLoop foldO].
  - destruct (block_done _ Hp) as (d'&->&He). by exists d'.
  - destruct (block_more _ _ _ Hp) as (d'&->&Hi). fold (foldO f).
    apply (yields_bind (body s) (forLoop fuel (NextBlock 0) body) (f s x) (λ s, foldO f s ss) (at_place (PNext ss))).
    + apply Hb; [by left|done].
    + intros s' d2 _ Hn. apply IH; [|lia|done]. intros s1 y rest d1 Hy. apply Hb. by right.
Qed.

Lemma next_loop {A} fuel (body : A → M D A) x s o d :
  (2 ≤ fuel)%nat → at_place (PStart x) d →
  (∀ d, at_place (PTop x) d → yields (body s d) o (at_place PEnd)) →
  yields (forLoop fuel Next body s d) o (λ _, True).
Proof.
  destruct fuel as [|[|fuel]]; [lia..|]. intros _ Hs Hb. cbn [forLoop].
  destruct (next_start _ _ Hs) as (d1&->&Ht). unfold pbind. specialize (Hb _ Ht).
  destruct o as [a|]; simpl in *.
  - destruct Hb as (d2&->&He). destruct (next_end _ He) as (d3&->). by exists d3.
  - destruct Hb as (e&d2&->). by exists e, d2.
Qed.

(** The words before the brace are passed over one by one. *)
Lemma next_words {A} fuel (body : A → M D A) f b :
  (∀ s x rest d, x ∈ b → at_place (PIn x rest) d → yields (body s d) (f s x) (at_place (PNext rest))) →
  (length b < fuel)%nat → ∀ a n k s d, (length a + 2 ≤ k)%nat → at_place (PStart (Seg n a b)) d →
  yields (forLoop k Next (forLoop fuel (NextBlock 0) body) s d) (foldO f s b) (λ _, True).
Proof.
  intros Hb Hf. induction a as [|v a IH]; intros n k s d Hk Hp.
  - apply (next_loop _ _ (Seg n [] b)); [simpl in Hk; lia|done|]. intros d0 Ht. apply block_loop; [done|lia|].
    by apply (top_plain _ _ _ Ht).
  - destruct k as [|k]; [simpl in Hk; lia|]. destruct fuel as [|fuel]; [lia|]. cbn [forLoop].
    destruct (next_start _ _ Hp) as (d1&->&Ht). destruct (top_more _ _ _ _ _ Ht) as (d2&E&Hp2).
    unfold pbind. rewrite E. apply (IH v); [simpl in Hk; lia|done].
Qed.

(** A block visited directive by directive, in a segment of its own. *)
Lemma segment_block {A} fuel (body : A → M D A) f n a b s d rest :
  (∀ s x rest d, x ∈ b → at_place (PIn x rest) d → yields (body s d) (f s x) (at_place (PNext rest))) →
  (length a + length b + 2 ≤ fuel)%nat →
  (∃ d1 d2, NewFromNextSegment d = (d1, d2) ∧ at_place (PStart (Seg n a b)) d1 ∧ at_place (PNext rest) d2) →
  yields (onSegment (λ d, forLoop fuel Next (forLoop fuel (NextBlock 0) body) s d) d) (foldO f s b) (at_place (PNext rest)).
Proof.
  intros Hb Hf (d1&d2&Hn&Hs&Hr). unfold onSegment. rewrite Hn.
  assert (Hy : yields (forLoop fuel Next (forLoop fuel (NextBlock 0) body) s d1) (foldO f s b) (λ _, True))
    by (apply (next_words fuel body f b Hb) with (a := a) (n := n); [lia..|done]).
  destruct (foldO f s b) as [x|]; simpl in *.
  - destruct Hy as (d0&->&_). by exists d2.
  - destruct Hy as (e&d0&->). by exists e, d2.
Qed.

Lemma orErrf_yields {A} fmt args (m : M D A) o P d : yields (m d) o P → yields (orErrf fmt args m d) o P.
Proof.
  unfold orErrf. destruct o as [a|]; simpl.
  - intros (d'&->&?). by exists d'.
  - intros (e&d'&->). by eexists _, d'.
Qed.

(** [expectArg1] on the directives that take one argument. *)
Lemma expectArg1_yields x rest d : at_place (PIn x rest) d →
  yields (expectArg1 d) (leafArg x) (at_place (PArg (default "" (leafArg x)) (seg_body x) rest)).
Proof.
  destruct x as [n a b]. intros Hp. destruct (in_args _ _ _ _ _ Hp) as (d'&Hr&Ha).
  unfold expectArg1, pbind, lift. rewrite Hr.
  destruct a as [|v [|w a]]; simpl; [by eexists _, _| |by eexists _, _]. by exists d'.
Qed.

Lemma val_bind {A} (k : string → M D A) d : pbind val k d = k (Val d) d.
Proof. done. Qed.

(** One argument of a line without a block. *)
Lemma leaf_arg {A} x rest d (k : string → M D A) f : at_place (PIn x rest) d → leaf x →
  (∀ v d', at_place (PNext rest) d' → yields (k v d') (f v) (at_place (PNext rest))) →
  yields (pbind expectArg1 k d) (v ← leafArg x; f v) (at_place (PNext rest)).
Proof.
  intros Hp Hl Hk. eapply yields_bind; [by apply expectArg1_yields|].
  intros v d' _ Ha. apply Hk. rewrite Hl in Ha. by eapply arg_leaf.
Qed.

Lemma yields_ret {A} (a : A) (P : D → Prop) d : P d → yields (pret a d) (Some a) P.
Proof. by exists d. Qed.

Lemma yields_errf {A} fmt args cause (P : D → Prop) d : yields (errf (A := A) fmt args cause d) None P.
Proof. by eexists _, _. Qed.

Lemma httpServer_yields s x rest d : at_place (PIn x rest) d → leaf x →
  yields (httpServerDirective s d) (httpServerDir s x) (at_place (PNext rest)).
Proof.
  intros Hp Hl. unfold httpServerDirective. rewrite val_bind, (in_val _ _ _ Hp). unfold httpServerDir.
  apply (leaf_arg x rest d); [done..|]. intros v d' Hn.
  unfold dirURL, dirAuthMethod, dirToken, dirPEM. repeat case_match; auto using yields_ret, yields_errf.
Qed.

Lemma grpcServer_yields s x rest d : at_place (PIn x rest) d → leaf x →
  yields (grpcServerDirective s d) (grpcServerDir s x) (at_place (PNext rest)).
Proof.
  intros Hp Hl. unfold grpcServerDirective. rewrite val_bind, (in_val _ _ _ Hp). unfold grpcServerDir.
  apply (leaf_arg x rest d); [done..|]. intros v d' Hn.
  unfold dirServerAddr, dirPEM. repeat case_match; auto using yields_ret, yields_errf.
Qed.

(** The two transports' server blocks. *)
Lemma httpServer_block fuel s x rest d : at_place (PIn x rest) d → server_shape x → (seg_size x ≤ fuel)%nat →
  yields (onSegment (unmarshalHttpServerBlock fuel s) d) (foldO httpServerDir s (seg_body x)) (at_place (PNext rest)).
Proof.
  destruct x as [n a b]. intros Hp Hl Hf. unfold server_shape in Hl.
  pose proof (seg_size_width (Seg n a b)) as Hw. cbn [seg_args seg_body] in Hw, Hl.
  apply (segment_block fuel httpServerDirective httpServerDir n a); [|cbn [seg_body]; lia|by apply in_segment].
  intros s' x rest' d' Hin Hp'. apply httpServer_yields; [done|]. rewrite Forall_forall in Hl. by apply Hl.
Qed.

Lemma grpcServer_block fuel s x rest d : at_place (PIn x rest) d → server_shape x → (seg_size x ≤ fuel)%nat →
  yields (onSegment (unmarshalGRPCServerBlock fuel s) d) (foldO grpcServerDir s (seg_body x)) (at_place (PNext rest)).
Proof.
  destruct x as [n a b]. intros Hp Hl Hf. unfold server_shape in Hl.
  pose proof (seg_size_width (Seg n a b)) as Hw. cbn [seg_args seg_body] in Hw, Hl.
  apply (segment_block fuel grpcServerDirective grpcServerDir n a); [|cbn [seg_body]; lia|by apply in_segment].
  intros s' x rest' d' Hin Hp'. apply grpcServer_yields; [done|]. rewrite Forall_forall in Hl. by apply Hl.
Qed.

Lemma http_yields fuel c x rest d : at_place (PIn x rest) d → transport_dir_shape x → (seg_size x ≤ fuel)%nat →
  yields (httpDirective fuel c d) (httpDir c x) (at_place (PNext rest)).
Proof.
  intros Hp Hs Hf. unfold transport_dir_shape in Hs. unfold httpDirective. rewrite val_bind, (in_val _ _ _ Hp). unfold httpDir, dirMainServer, dirStandbyServer.
  destruct (String.eqb (seg_name x) "main_server");
    [|destruct (String.eqb (seg_name x) "standby_server"); [|apply yields_errf]];
    (eapply (yields_fmap _ (λ s, _ s c)); by apply httpServer_block).
Qed.

Lemma grpc_yields fuel c x rest d : at_place (PIn x rest) d → transport_dir_shape x → (seg_size x ≤ fuel)%nat →
  yields (grpcDirective fuel c d) (grpcDir c x) (at_place (PNext rest)).
Proof.
  intros Hp Hs Hf. unfold transport_dir_shape in Hs. unfold grpcDirective. rewrite val_bind, (in_val _ _ _ Hp). unfold grpcDir, dirMainServer, dirStandbyServer.
  destruct (String.eqb (seg_name x) "main_server");
    [|destruct (String.eqb (seg_name x) "standby_server"); [|apply yields_errf]];
    (eapply (yields_fmap _ (λ s, _ s c)); by apply grpcServer_block).
Qed.

(** The domains of a certificate block, word by word; then its definition. *)
Definition collect (ds : list string) : M D (list string) := let! v := val in pret (ds ++ [v]).

Lemma domains_loop k : ∀ fuel ss ds d, length (concat (seg_words <$> ss)) = k → (k < fuel)%nat → Forall leaf ss →
  at_place (PNext ss) d →
  ∃ d', forLoop fuel (NextBlock 0) collect ds d = Some (Ok (ds ++ concat (seg_words <$> ss)), d') ∧ at_place PEnd d'.
Proof.
  induction k as [|k IH]; intros [|fuel] [|[n a b] ss] ds d Hk Hf Hl Hp; try lia; try done; cbn [forLoop].
  1: { destruct (block_done _ Hp) as (d'&->&He). rewrite app_nil_r. by exists d'. }
  destruct (block_more _ _ _ Hp) as (d1&->&Hi). unfold collect at 1, pbind at 1. rewrite val_bind, (in_val _ _ _ Hi).
  apply Forall_cons in Hl as [Hb Hl]. unfold leaf in Hb. simpl in Hb. subst b. simpl in Hk. cbn [pret seg_name].
  assert (∃ ss', at_place (PNext ss') d1 ∧ Forall leaf ss' ∧ a ++ concat (seg_words <$> ss) = concat (seg_words <$> ss'))
    as (ss'&Hp'&Hl'&E).
  { destruct a as [|v a]; [exists ss; by split_all; [by eapply in_leaf|..]|].
    exists (Seg v a [] :: ss). split_all; [by eapply in_line|by constructor|done]. }
  destruct (IH fuel ss' (ds ++ [n]) d1) as (d'&->&He); [by rewrite <- E; injection Hk|lia|done..|].
  exists d'. split; [|done]. by rewrite <- E, <- app_assoc.
Qed.

Lemma certificate_yields fuel c v b rest d : at_place (PArg v b rest) d → Forall leaf b →
  (length (concat (seg_words <$> b)) + 2 ≤ fuel)%nat →
  yields (onSegment (UnmarshalCertificateBlock fuel v c) d) (certDir c v (concat (seg_words <$> b))) (at_place (PNext rest)).
Proof.
  intros Hp Hb Hf. destruct (arg_segment _ _ _ _ Hp) as (d1&d2&Hn&Hs&Hr).
  unfold onSegment, UnmarshalCertificateBlock, pbind at 1. rewrite Hn. fold collect.
  assert (Hy : yields (forLoop fuel Next (forLoop fuel (NextBlock 0) collect) [] d1)
    (Some (concat (seg_words <$> b))) (λ _, True)).
  { apply (next_loop _ _ (Seg v [] b)); [lia|done|]. intros d0 Ht. apply top_plain in Ht as [_ Ht].
    by apply (domains_loop _ fuel b [] d0 eq_refl); [lia|..]. }
  destruct Hy as (d0&->&_).
  unfold certDir, Add. set (ds := concat (seg_words <$> b)).
  destruct (String.eqb_spec v "") as [->|Hv]; [rewrite bool_decide_eq_false_2 by naive_solver; by eexists _, _|].
  destruct ds as [|x ds]; [rewrite bool_decide_eq_false_2 by naive_solver; by eexists _, _|].
  cbn [length Nat.eqb]. destruct (CertificateDefs c !! v) eqn:E.
  - rewrite bool_decide_eq_false_2 by naive_solver. by eexists _, _.
  - rewrite bool_decide_eq_true_2 by done. by exists d2.
Qed.

(** A transport block: no argument, then its directives. *)
Lemma transport_yields fuel fmt c x rest d (body : CertDXCaddyConfig → M D CertDXCaddyConfig) f :
  at_place (PIn x rest) d → (length (seg_body x) + 2 ≤ fuel)%nat →
  (∀ c y rest d, y ∈ seg_body x → at_place (PIn y rest) d → yields (body c d) (f c y) (at_place (PNext rest))) →
  yields ((let! arg := lift NextArg in
     if (arg : bool) then errf "no argument expected for %s" [fmt] None
     else orErrf "failed unmarshaling %s block: %v" [fmt]
       (onSegment (λ d, forLoop fuel Next (forLoop fuel (NextBlock 0) body) c d))) d)
    (if bool_decide (seg_args x = []) then foldO f c (seg_body x) else None) (at_place (PNext rest)).
Proof.
  destruct x as [n [|v a] b]; intros Hp Hf Hb; cbn [seg_args seg_body] in *; unfold pbind, lift.
  - destruct (in_plain _ _ _ _ Hp) as (d'&->&Hp'). rewrite bool_decide_eq_true_2 by done.
    apply orErrf_yields, (segment_block _ _ _ n []); [done|simpl; lia|by apply in_segment].
  - destruct (in_arg _ _ _ _ _ _ Hp) as (d'&->). rewrite bool_decide_eq_false_2 by done. apply yields_errf.
Qed.

Lemma directive_yields fuel c x rest d : at_place (PIn x rest) d → dir_shape x → (seg_size x ≤ fuel)%nat →
  yields (parseDirective fuel c d) (certdxDir c x) (at_place (PNext rest)).
Proof.
  intros Hp Hs Hf. pose proof (seg_size_width x) as Hw. unfold parseDirective. rewrite val_bind, (in_val _ _ _ Hp).
  unfold certdxDir, dirRetryCount, dirMode, dirReconnectInterval, dirHTTP, dirGRPC, dirCertificate.
  unfold dir_shape in Hs.
  assert (Hsub : ∀ y, seg_body x = seg_body x → y ∈ seg_body x → (seg_size y ≤ fuel)%nat)
    by (intros y _ Hy; pose proof (seg_size_body x y Hy); lia).
  destruct (String.eqb_spec (seg_name x) "retry_count") as [E|_].
  { rewrite E in Hs. apply (leaf_arg x rest d); [done|exact Hs|]. intros v d' Hn.
    destruct (Atoi v); [by apply yields_ret|apply yields_errf]. }
  destruct (String.eqb_spec (seg_name x) "mode") as [E|_].
  { rewrite E in Hs. apply (leaf_arg x rest d); [done|exact Hs|]. intros v d' Hn. by apply yields_ret. }
  destruct (String.eqb_spec (seg_name x) "reconnect_interval") as [E|_].
  { rewrite E in Hs. apply (leaf_arg x rest d); [done|exact Hs|]. intros v d' Hn. by apply yields_ret. }
  destruct (String.eqb_spec (seg_name x) "http") as [E|_].
  { rewrite E in Hs. apply (transport_yields fuel "http" c x rest d (httpDirective fuel) httpDir); [done|lia|].
    intros c' y rest' d' Hy Hp'. apply http_yields; [done| |by apply Hsub].
    cbn in Hs. rewrite Forall_forall in Hs. by apply Hs. }
  destruct (String.eqb_spec (seg_name x) "GRPC") as [E|_].
  { rewrite E in Hs. apply (transport_yields fuel "GRPC" c x rest d (grpcDirective fuel) grpcDir); [done|lia|].
    intros c' y rest' d' Hy Hp'. apply grpc_yields; [done| |by apply Hsub].
    cbn in Hs. rewrite Forall_forall in Hs. by apply Hs. }
  destruct (String.eqb_spec (seg_name x) "certificate") as [E|_]; [|apply yields_errf].
  cbn in Hs. eapply yields_bind; [by apply expectArg1_yields|].
  intros v d' Hv Ha. apply orErrf_yields. rewrite Hv in Ha.
  pose proof (seg_size_words x). by apply certificate_yields; [|exact Hs|lia].
Qed.

Lemma parse_yields `{CJ : CaddyJson} fuel x d :
  at_place (PStart x) d → block_shape x → (seg_size x ≤ fuel)%nat →
  yields (parseCertDXGlobalOptions fuel d) ((λ m, (dirCertDX, moduleJSON m)) <$> interp x) (λ _, True).
Proof.
  intros Hp Hs Hf. pose proof (seg_size_width x) as Hw.
  assert (Hy : yields (forLoop fuel Next (λ module, let! arg := lift NextArg in
      if (arg : bool) then errf "no argument expected for %s" [dirCertDX] None
      else forLoop fuel (NextBlock 0) (parseDirective fuel) module) MakeCertDXCaddyDaemon d) (interp x) (λ _, True)).
  { apply (next_loop _ _ x); [lia|done|]. intros d0 Ht. unfold interp, pbind, lift.
    destruct x as [n [|v a] b]; cbn [seg_args seg_body] in *.
    - destruct (top_plain _ _ _ Ht) as [(d1&->&Ht1) _]. rewrite bool_decide_eq_true_2 by done.
      apply block_loop; [|lia|by apply (top_plain _ _ _ Ht1)].
      intros c y rest d2 Hy Hp'. unfold block_shape in Hs. rewrite Forall_forall in Hs.
      apply directive_yields; [done|by apply Hs|]. pose proof (seg_size_body (Seg n [] b) y Hy). lia.
    - destruct (top_arg _ _ _ _ _ Ht) as (d1&->). rewrite bool_decide_eq_false_2 by done. apply yields_errf. }
  by apply (yields_fmap _ (λ m, (dirCertDX, moduleJSON m))) in Hy.
Qed.

(** C38: the plugin reads a Caddyfile as it is written: on every [certdx] block
    in which no block follows a directive that takes an argument (of certdx or
    of a server) or a domain, the token-by-token parser terminates and agrees
    with the direct reading of the block as a tree, where every word of a
    certificate's block is a domain and words after main_server or
    standby_server do not matter: it gives the configuration that the directives, in their order,
    make of the defaults, and an error exactly when a directive is unknown,
    has the wrong number of arguments, a malformed count, or defines a
    certificate without id, without domains or twice. *)
Theorem caddyfile_meaning `{CJ : CaddyJson} fuel x d :
  at_place (PStart x) d → block_shape x → (seg_size x ≤ fuel)%nat →
  match interp x with
  | Some m => ∃ d', parseCertDXGlobalOptions fuel d = Some (Ok ("certdx", moduleJSON m), d')
  | None => ∃ err d', parseCertDXGlobalOptions fuel d = Some (Err err, d')
  end.
Proof.
  intros Hp Hs Hf. pose proof (parse_yields fuel x d Hp Hs Hf) as Hy.
  destruct (interp x) as [m|]; cbn in Hy.
  - destruct Hy as (d'&E&_). by exists d'.
  - exact Hy.
Qed.

Lemma parse_place `{CJ : CaddyJson} fuel x d m :
  at_place (PStart x) d → block_shape x → (seg_size x ≤ fuel)%nat → interp x = Some m →
  ∃ d', parseCertDXGlobalOptions fuel d = Some (Ok (dirCertDX, moduleJSON m), d').
Proof.
  intros Hp Hs Hf Hm. pose proof (parse_yields fuel x d Hp Hs Hf) as Hy. rewrite Hm in Hy.
  destruct Hy as (d'&E&_). by exists d'.
Qed.
End Parsing.

(** ** Writing a configuration *)

Definition arg (n v : string) : seg := Seg n [v] [].

Definition renderHttpServer (n : string) (s : ClientHttpServer) : seg :=
  Seg n [] [arg "url" (Url s); arg "authMethod" (ClientAuthMethod s); arg "token" (Token s); arg "pem" (HttpPEM s)].

Definition renderGrpcServer (n : string) (s : ClientGRPCServer) : seg :=
  Seg n [] [arg "server" (GServer s); arg "pem" (GrpcPEM s)].

Definition renderCertificate (p : string * list string) : seg :=
  Seg "certificate" [p.1] ((λ v, Seg v [] []) <$> p.2).

Definition render (m : CertDXCaddyConfig) : seg :=
  Seg "certdx" []
    ([arg "retry_count" (bigString (RetryCount (cx_Common m))); arg "mode" (Mode (cx_Common m));
      arg "reconnect_interval" (ReconnectInterval (cx_Common m));
      Seg "http" [] [renderHttpServer "main_server" (cx_HttpMain m); renderHttpServer "standby_server" (cx_HttpStandby m)];
      Seg "GRPC" [] [renderGrpcServer "main_server" (cx_GrpcMain m); renderGrpcServer "standby_server" (cx_GrpcStandby m)]]
     ++ (renderCertificate <$> map_to_list (CertificateDefs m))).

Record writable (m : CertDXCaddyConfig) : Prop := {
  wr_retry : - 2 ^ 63 ≤ RetryCount (cx_Common m) < 2 ^ 63;
  wr_duration : ReconnectDuration (cx_Common m) = 0;
  wr_defs id ds : CertificateDefs m !! id = Some ds → id ≠ "" ∧ ds ≠ [];
}.

Lemma Atoi_bigString n : - 2 ^ 63 ≤ n < 2 ^ 63 → Atoi (bigString n) = Some n.
Proof.
  intros Hn. unfold Atoi. rewrite bigString_roundtrip.
  by rewrite (proj2 (Z.leb_le _ _)), (proj2 (Z.ltb_lt _ _)) by lia.
Qed.

Lemma foldO_app {A B} (f : A → B → option A) l l' s :
  foldO f s (l ++ l') = s' ← foldO f s l; foldO f s' l'.
Proof. revert s. induction l as [|x l IH]; intros s; simpl; [done|]. destruct (f s x); [apply IH|done]. Qed.

Lemma seg_words_leaves (ds : list string) : concat (seg_words <$> ((λ v, Seg v [] []) <$> ds)) = ds.
Proof. induction ds as [|d ds IH]; [done|]. rewrite !fmap_cons. cbn [concat]. by rewrite IH. Qed.

Lemma certificates_fold l : ∀ c, NoDup l.*1 →
  (∀ id ds, (id, ds) ∈ l → id ≠ "" ∧ ds ≠ [] ∧ CertificateDefs c !! id = None) →
  foldO certdxDir c (renderCertificate <$> l) = Some (set_defs (list_to_map l ∪ CertificateDefs c) c).
Proof.
  induction l as [|[id ds] l IH]; intros c Hn Hd.
  - simpl. rewrite (left_id_L ∅ (∪)). by destruct c.
  - rewrite fmap_cons. cbn [foldO]. fold (foldO certdxDir).
    destruct (Hd id ds) as (Hid&Hds&Hc); [by left|].
    apply NoDup_cons in Hn as [Hni Hn].
    assert (E : certdxDir c (renderCertificate (id, ds)) = Some (set_defs (<[ id := ds ]> (CertificateDefs c)) c)).
    { unfold renderCertificate, certdxDir. cbn [seg_name seg_body leafArg fst snd mbind option_bind].
      cbn [String.eqb Ascii.eqb Bool.eqb]. rewrite seg_words_leaves. unfold certDir.
      by rewrite bool_decide_eq_true_2. }
    rewrite E. rewrite IH; [|done|].
    + assert (Hm : list_to_map l ∪ <[ id := ds ]> (CertificateDefs c) = list_to_map ((id, ds) :: l) ∪ CertificateDefs c).
      { rewrite list_to_map_cons, <- insert_union_l. symmetry. by apply insert_union_r, not_elem_of_list_to_map_1. }
      unfold set_defs at 2. cbn [CertificateDefs set_defs cx_Common cx_HttpMain cx_HttpStandby cx_GrpcMain cx_GrpcStandby].
      by rewrite Hm.
    + intros id' ds' Hin. destruct (Hd id' ds') as (?&?&?); [by right|]. split_all; [done..|].
      simpl. rewrite lookup_insert_ne; [done|]. intros ->. apply Hni, list_elem_of_fmap. by exists (id', ds').
Qed.

Lemma interp_render m : writable m → interp (render m) = Some m.
Proof.
  intros [Hr Hdur Hd]. unfold interp, render. cbn [seg_args seg_body].
  rewrite bool_decide_eq_true_2 by done. rewrite foldO_app.
  set (m1 := set_defs ∅ m).
  match goal with |- (foldO ?f ?s ?l ≫= _) = _ => assert (E : foldO f s l = Some m1) end.
  { unfold arg. cbn [foldO certdxDir seg_name leafArg String.eqb Ascii.eqb Bool.eqb mbind option_bind].
    rewrite Atoi_bigString by done. unfold m1, set_defs, MakeCertDXCaddyDaemon. cbn.
    destruct m as [[]  [] [] [] [] ?]. cbn in *. by subst. }
  rewrite E. cbn [mbind option_bind]. rewrite certificates_fold.
  - unfold m1, set_defs. cbn. rewrite list_to_map_to_list, (right_id_L ∅ (∪)). by destruct m.
  - apply NoDup_fst_map_to_list.
  - intros id ds Hin%elem_of_map_to_list. destruct (Hd id ds Hin). split_all; [done..|]. apply lookup_empty.
Qed.

Lemma render_shape m : block_shape (render m).
Proof.
  unfold block_shape, render. cbn [seg_body]. apply Forall_app. split.
  - repeat constructor.
  - apply Forall_fmap, Forall_forall. intros [id ds] _. unfold compose, renderCertificate, dir_shape. cbn.
    apply Forall_fmap, Forall_forall. by intros v _.
Qed.

(** ** From the Caddyfile to the handshake *)

Section Serve.
Context {W : Type} `{PM : Pem} `{PL : !PemLaws} `{TC : TlsCrypto}.

Lemma watchlist_lookup l id ds : (id, ds) ∈ l → ∃ id' ds', (id', ds') ∈ l ∧ AsKey ds' = AsKey ds ∧
  foldl (λ certs '(certID, domains), AddCertToWatch certID domains certs) (∅ : gmap Key (watchingCert W)) l
    !! AsKey ds = Some (mkWatching (mkCertData ds' "" "") (mkClientCertification id' "" ds' "") []).
Proof.
  induction l as [|[id1 ds1] l IH] using rev_ind; [by intros ?%elem_of_nil|].
  rewrite foldl_app. cbn [foldl]. rewrite AddCertToWatch_lookup. intros Hin.
  case_decide as Hk.
  - exists id1, ds1. split_all; [|by rewrite Hk|done]. apply elem_of_app. right. by left.
  - apply elem_of_app in Hin as [Hin| [= -> ->]%list_elem_of_singleton]; [|done].
    destruct (IH Hin) as (id'&ds'&?&?&?). exists id', ds'. split_all; [|done..]. apply elem_of_app. by left.
Qed.

Lemma GetCertificate_insert k (wc : watchingCert W) certs :
  GetCertificate k (<[ k := wc ]> certs) =
    match X509KeyPair (material (Data wc)).1 (material (Data wc)).2 with
    | Ok tlsCert => Ok tlsCert
    | Err _ => Err (EText "no certificate found")
    end.
Proof. unfold GetCertificate. by rewrite lookup_insert_eq. Qed.

Variable range : gmap string (list string) → list (string * list string).
Hypothesis range_all : ∀ m, range m ≡ₚ map_to_list m.
Context {D : Type} `{DS : Dispenser D} `{DL : !DispenserLaws D} `{CJ : CaddyJson}.
(** Decoding into a new module what [caddyconfig.JSON] encoded; the parsed
    duration is not part of it. *)
Hypothesis json_roundtrip : ∀ m, ReconnectDuration (cx_Common m) = 0 → loadModule (moduleJSON m) = Ok m.

(** C30: from the Caddyfile to the handshake: a configuration written as a
    [certdx] block is parsed back as it was, reaches the app unchanged and is
    provisioned; every site whose cert-id it defines gets a key under which a
    certificate with the same set of domains is watched, and serves the pair
    the servers delivered last: no pair before the first delivery, and any
    other cert-id is refused when Caddy validates the site. *)
Theorem caddy_serves fuel m d dur :
  writable m → ParseDuration (ReconnectInterval (cx_Common m)) = Ok dur →
  at_place (PStart (render m)) d → (seg_size (render m) ≤ fuel)%nat →
  ∃ json d' cfg certs,
    parseCertDXGlobalOptions fuel d = Some (Ok ("certdx", json), d') ∧ loadModule json = Ok m ∧
    Provision (W := W) range m = Ok (cfg, certs) ∧ Common cfg = set_reconnectDuration dur (cx_Common m) ∧
    ∀ id, match CertificateDefs m !! id with
      | None => ∃ err, Validate (Ok (Some m)) id = Err err
      | Some ds => Validate (Ok (Some m)) id = Ok (AsKey ds) ∧
          ∃ wc, certs !! AsKey ds = Some wc ∧ AsKey (cc_Domains (wc_Config wc)) = AsKey ds ∧
            ∀ x, reachable (watchInit wc) watchStep x → wt_chan x = None →
              siteCertificate (AsKey ds) (<[ AsKey ds := wt_cert x ]> certs) =
                match last (wt_sent x) with
                | Some u => match X509KeyPair (cd_Fullchain u) (cd_Key u) with
                            | Ok tlsCert => Ok tlsCert | Err _ => Err (EText "no certificate found") end
                | None => Err (EText "no certificate found")
                end
      end.
Proof.
  intros Hw Hdur Hp Hf.
  destruct (parse_place fuel (render m) d m Hp (render_shape m) Hf (interp_render m Hw)) as [d' Hparse].
  unfold Provision. rewrite Hdur.
  do 4 eexists. split; [exact Hparse|]. split; [apply json_roundtrip, Hw|]. split; [done|]. split; [done|].
  intros id. unfold Validate, Lookup. destruct (CertificateDefs m !! id) as [ds|] eqn:E; [|by eexists].
  split; [done|].
  assert (Hin : (id, ds) ∈ range (CertificateDefs m)) by (rewrite range_all; by apply elem_of_map_to_list).
  destruct (watchlist_lookup _ _ _ Hin) as (id'&ds'&_&Hk&Hl). eexists. split; [exact Hl|]. split; [exact Hk|].
  intros x [If _ Id _ _]%watch_invariant Hc. unfold siteCertificate. rewrite GetCertificate_insert, Id.
  rewrite Hc in If. cbn [option_list] in If. rewrite app_nil_r in If. rewrite <- If.
  destruct (last (wt_sent x)) as [u|]; [done|]. cbn. unfold X509KeyPair. by rewrite pemBlocks_nil.
Qed.
End Serve.

(** ** A concrete Caddyfile *)

Import (hints) Mtls.Demo.

Module Demo.
(** A dispenser that walks a tree. *)
Definition norm (p : place) : place :=
  match p with
  | PTop (Seg _ [] b) => PNext b
  | PIn (Seg _ [] []) rest => PNext rest
  | PIn (Seg _ (a :: l) b) rest => PNext (Seg a l b :: rest)
  | PArg _ [] rest => PNext rest
  | _ => p
  end.

#[export] Instance walker : Dispenser place := {
  Next d := match d with PStart x => (true, PTop x) | _ => (false, PEnd) end;
  NextArg d := match d with
    | PTop (Seg _ (_ :: _) _) | PIn (Seg _ (_ :: _) _) _ => (true, PEnd)
    | _ => (false, d) end;
  NextBlock _ d := match norm d with
    | PNext (x :: rest) => (true, PIn x rest) | PTop (Seg _ (a :: l) b) => (false, PStart (Seg a l b))
    | _ => (false, PEnd) end;
  Val d := match d with PStart x | PTop x | PIn x _ => seg_name x | PArg v _ _ => v | _ => "" end;
  RemainingArgs d := match d with
    | PTop (Seg _ a b) => (a, PNext b)
    | PIn (Seg n a b) rest => (a, PArg (List.last a n) b rest)
    | _ => ([], d) end;
  NewFromNextSegment d := match d with
    | PIn x rest => (PStart x, PNext rest)
    | PArg v b rest => (PStart (Seg v [] b), PNext rest)
    | _ => (PEnd, d) end;
  Errf format args cause d := match cause with Some err => EWrap format err | None => EText (Join (format :: args) " ") end;
}.

#[export] Instance walker_laws : DispenserLaws place.
Proof.
  refine (Build_DispenserLaws place _ (λ p d, d = p ∨ norm d = p) _ _ _ _ _ _ _ _ _ _ _ _ _ _ _ _ _);
    intros; repeat match goal with
    | H : _ ∨ _ |- _ => destruct H
    | d : place |- _ => destruct d as [[? [|] ?]|[? [|] ?]|[? [|] [|]] ?|? [|] ?|[|]|]
    | d : seg |- _ => destruct d as [? [|] ?]
    end; simplify_eq/=; eauto 10.
Defined.

(** Configurations are countable: any numbering serves as an encoding. *)
Definition fields (m : CertDXCaddyConfig) :=
  let s h := (Url h, ClientAuthMethod h, Token h, HttpPEM h) in
  let g h := (GServer h, GrpcPEM h) in
  (RetryCount (cx_Common m), Mode (cx_Common m), ReconnectInterval (cx_Common m),
   s (cx_HttpMain m), s (cx_HttpStandby m), g (cx_GrpcMain m), g (cx_GrpcStandby m), CertificateDefs m).
Definition fromFields (x : Z * string * string * (string * string * string * string) *
    (string * string * string * string) * (string * string) * (string * string) * gmap string (list string)) : CertDXCaddyConfig :=
  let '(n, mo, r, (u1, a1, t1, p1), (u2, a2, t2, p2), (g1, q1), (g2, q2), defs) := x in
  mkCaddyConfig (mkClientCommonConfig n mo r 0) (mkClientHttpServer u1 a1 t1 p1) (mkClientHttpServer u2 a2 t2 p2)
    (mkClientGRPCServer g1 q1) (mkClientGRPCServer g2 q2) defs.

#[export] Instance numbering : CaddyJson := {
  moduleJSON m := bigString (Zpos (encode (fields m)));
  loadModule s := match bigSetString s with
    | Some (Zpos p) => match decode p with Some x => Ok (fromFields x) | None => Err (EText "json") end
    | _ => Err (EText "json") end;
}.

Lemma numbering_roundtrip m : ReconnectDuration (cx_Common m) = 0 → loadModule (moduleJSON m) = Ok m.
Proof.
  intros Hd. unfold loadModule, moduleJSON, numbering. rewrite bigString_roundtrip, decode_encode.
  destruct m as [[] [] [] [] [] ?]. simpl in *. by subst.
Qed.

Definition config : CertDXCaddyConfig :=
  mkCaddyConfig (mkClientCommonConfig 3 "http" "10m" 0)
    (mkClientHttpServer "https://certdx.example.com/" "token" "secret" "")
    (mkClientHttpServer "" "token" "" "") (mkClientGRPCServer "" "") (mkClientGRPCServer "" "")
    (<[ "web" := ["example.com"; "www.example.com"] ]> (<[ "alias" := ["WWW.example.com"; "example.com"] ]> ∅)).

(** Refused blocks: an unknown directive, a duplicate certificate. *)
Definition unknown : seg := Seg "certdx" [] [arg "retries" "3"].
Definition twice : seg := Seg "certdx" []
  [renderCertificate ("web", ["example.com"]); renderCertificate ("web", ["example.org"])].
(** Two domains on a line, and a name for the server. *)
Definition inline : seg := Seg "certdx" []
  [Seg "http" [] [Seg "main_server" ["primary"] [arg "url" "https://certdx.example.com/"]];
   Seg "certificate" ["web"] [Seg "example.com" ["www.example.com"] []]].
End Demo.

Import (hints) Demo.

Example inline_domains :
  CertificateDefs <$> interp Demo.inline = Some (<[ "web" := ["example.com"; "www.example.com"] ]> ∅) ∧
  ∃ m d', interp Demo.inline = Some m ∧
    parseCertDXGlobalOptions 30 (PStart Demo.inline) = Some (Ok ("certdx", moduleJSON m), d').
Proof.
  split; [vm_compute; reflexivity|]. destruct (interp Demo.inline) as [m|] eqn:E; [|discriminate E]. exists m.
  assert (Hp : at_place (PStart Demo.inline) (PStart Demo.inline)) by (by left).
  assert (Hs : block_shape Demo.inline) by (by repeat constructor).
  destruct (parse_place 30 Demo.inline (PStart Demo.inline) m Hp Hs) as [d' Hd];
    [apply Nat.leb_le; vm_compute; reflexivity|exact E|exists d'; exact (conj eq_refl Hd)].
Qed.

Example refused_blocks : interp Demo.unknown = None ∧ interp Demo.twice = None ∧
  interp (Seg "certdx" [] [arg "retry_count" "5x"]) = None.
Proof. split_all; vm_compute; reflexivity. Qed.

Lemma caddyfile_meaning_witness :
  (∃ d', parseCertDXGlobalOptions 90 (PStart (render Demo.config)) =
    Some (Ok ("certdx", moduleJSON Demo.config), d')) ∧
  ∃ err d', parseCertDXGlobalOptions 90 (PStart Demo.twice) = Some (Err err, d').
Proof.
  split.
  - assert (Hi : interp (render Demo.config) = Some Demo.config) by (vm_compute; reflexivity).
    pose proof (caddyfile_meaning 90 (render Demo.config) (PStart (render Demo.config))
      (or_introl eq_refl) (render_shape Demo.config)) as H.
    rewrite Hi in H. apply H. apply Nat.leb_le. vm_compute. reflexivity.
  - assert (Hi : interp Demo.twice = None) by (vm_compute; reflexivity).
    assert (Hs : block_shape Demo.twice) by (repeat constructor).
    pose proof (caddyfile_meaning 90 Demo.twice (PStart Demo.twice) (or_introl eq_refl) Hs) as H.
    rewrite Hi in H. apply H. apply Nat.leb_le. vm_compute. reflexivity.
Defined.

Lemma caddy_serves_witness :
  AsKey ["WWW.example.com"; "example.com"] = AsKey ["example.com"; "www.example.com"] ∧
  ∃ json d' cfg certs, parseCertDXGlobalOptions 90 (PStart (render Demo.config)) = Some (Ok ("certdx", json), d') ∧
    Provision (W := Disk) map_to_list Demo.config = Ok (cfg, certs) ∧
    Validate (Ok (Some Demo.config)) "alias" = Ok (AsKey ["WWW.example.com"; "example.com"]) ∧
    is_Some (certs !! AsKey ["WWW.example.com"; "example.com"]).
Proof.
  split; [vm_compute; reflexivity|].
  assert (Hw : writable Demo.config).
  { split; [split; vm_compute; congruence|reflexivity|]. intros id ds Hid.
    unfold Demo.config in Hid. cbn in Hid.
    apply lookup_insert_Some in Hid as [[<- <-]|[_ [[<- <-]|[_ Hid]]%lookup_insert_Some]];
      [by split|by split|]. by apply lookup_empty_Some in Hid. }
  assert (Hd : ParseDuration (ReconnectInterval (cx_Common Demo.config)) = Ok (10 * Minute)) by (vm_compute; reflexivity).
  assert (Hf : (seg_size (render Demo.config) ≤ 90)%nat) by (apply Nat.leb_le; vm_compute; reflexivity).
  assert (Hp0 : at_place (PStart (render Demo.config)) (PStart (render Demo.config))) by (left; reflexivity).
  destruct (caddy_serves (W := Disk) map_to_list (λ m, reflexivity _) Demo.numbering_roundtrip 90 Demo.config
    (PStart (render Demo.config)) (10 * Minute) Hw Hd Hp0 Hf) as (json&d'&cfg&certs&Hp&_&Hv&_&Hall).
  exists json, d', cfg, certs. split; [exact Hp|]. split; [exact Hv|].
  pose proof (Hall "alias") as Ha.
  assert (Hl : CertificateDefs Demo.config !! "alias" = Some ["WWW.example.com"; "example.com"]) by (vm_compute; reflexivity).
  rewrite Hl in Ha. destruct Ha as [Hk (wc&Hwc&_)]. split; [exact Hk|]. by exists wc.
Defined.
