(* ===== verification/Stream.v ===== *)
(** pkg/server/sds.go, [StreamSecrets]: one SDS stream as a whole.  The receive
    goroutine, the sending goroutine, the handlers of the packs and the
    goroutine that waits for the end share the stream's context, unbuffered
    channels and the error channel of capacity one.  The receive loop's
    decisions are those of Sds ([onRequest]), a handler is its [hstep]. *)

From Stdlib Require Import ZArith Lia.
From stdpp Require Import base option list gmap strings relations.
From S2P Require Import Prelude.
From S2P Require Import GoStd.
From S2P Require Import CertEntry.
From S2P Require Import Domain.
From S2P Require Import Sds.

Open Scope Z_scope.

(** The receive goroutine: at its context check, in [Recv], working off a
    request, in [sendStreamErr], returned. *)
Inductive rx :=
  | RxTop
  | RxRecv
  | RxActs (req : DiscoveryRequest) (acts : list action) (r : result recvState)
  | RxReport (err : error)
  | RxReturned.

(** The sending goroutine, with the pack and the certificate it sends. *)
Inductive tx :=
  | TxIdle
  | TxSend (name : string) (c : CertT)
  | TxReport (err : error)
  | TxReturned.

Record stream := mkStream {
  sm_inbox : list DiscoveryRequest;      (* what the client has sent *)
  sm_recv : recvState;
  sm_rx : rx;
  sm_tx : tx;
  sm_packs : gmap string hworld;         (* the handlers *)
  sm_errChan : option error;
  sm_ctx : bool;                         (* the stream's context is done *)
  sm_result : option error;              (* what StreamSecrets returned *)
  sm_sent : list (string * CertT);       (* ghost: responses on the wire *)
}.

Definition set_rx (x : rx) (s : stream) : stream :=
  mkStream (sm_inbox s) (sm_recv s) x (sm_tx s) (sm_packs s) (sm_errChan s) (sm_ctx s) (sm_result s) (sm_sent s).
Definition set_tx (x : tx) (s : stream) : stream :=
  mkStream (sm_inbox s) (sm_recv s) (sm_rx s) x (sm_packs s) (sm_errChan s) (sm_ctx s) (sm_result s) (sm_sent s).
Definition set_recv (st : recvState) (s : stream) : stream :=
  mkStream (sm_inbox s) st (sm_rx s) (sm_tx s) (sm_packs s) (sm_errChan s) (sm_ctx s) (sm_result s) (sm_sent s).
Definition set_inbox (l : list DiscoveryRequest) (s : stream) : stream :=
  mkStream l (sm_recv s) (sm_rx s) (sm_tx s) (sm_packs s) (sm_errChan s) (sm_ctx s) (sm_result s) (sm_sent s).
Definition set_pack (n : string) (h : hworld) (s : stream) : stream :=
  mkStream (sm_inbox s) (sm_recv s) (sm_rx s) (sm_tx s) (<[ n := h ]> (sm_packs s)) (sm_errChan s) (sm_ctx s)
    (sm_result s) (sm_sent s).
Definition set_err (e : option error) (s : stream) : stream :=
  mkStream (sm_inbox s) (sm_recv s) (sm_rx s) (sm_tx s) (sm_packs s) e (sm_ctx s) (sm_result s) (sm_sent s).
Definition set_result (e : error) (s : stream) : stream :=
  mkStream (sm_inbox s) (sm_recv s) (sm_rx s) (sm_tx s) (sm_packs s) (sm_errChan s) (sm_ctx s) (Some e) (sm_sent s).
Definition add_sent (m : string * CertT) (s : stream) : stream :=
  mkStream (sm_inbox s) (sm_recv s) (sm_rx s) (sm_tx s) (sm_packs s) (sm_errChan s) (sm_ctx s) (sm_result s)
    (sm_sent s ++ [m]).

(** The handlers share the stream's context. *)
Definition with_done (b : bool) (h : hworld) : hworld :=
  mkH (h_state h) (h_entry h) b (h_now h) (h_minted h) (h_offered h).
Definition cancel (s : stream) : stream :=
  mkStream (sm_inbox s) (sm_recv s) (sm_rx s) (sm_tx s) (with_done true <$> sm_packs s) (sm_errChan s) true
    (sm_result s) (sm_sent s).

Section Stream.
Variable allowed : list string.
Variable range : gmap string (list string) → list (string * list string).
Variable versionOf : Time → string.

(** Steps of a handler that use none of the stream's channels and leave the
    context alone. *)
Definition internal (h h' : hworld) : Prop :=
  hstep versionOf h h' ∧ h_done h' = h_done h ∧ h_offered h' = h_offered h ∧
  (∀ c seen n, h_state h = HAck c seen n → h_state h' = h_state h ∨ h_state h' = HReturned).

(** The environment: the client sends a request, the client or the server's
    shutdown end the context, the connection takes a response or fails. *)
Inductive estep : stream → stream → Prop :=
| es_request s req : estep s (set_inbox (sm_inbox s ++ [req]) s)
| es_cancel s : estep s (cancel s)
| es_recv_err s err : sm_rx s = RxRecv → estep s (set_rx (RxReport (EWrap "failed receiving request: %w" err)) s)
| es_sent s n c : sm_tx s = TxSend n c → estep s (set_tx TxIdle (add_sent (n, c) s))
| es_send_err s n c err : sm_tx s = TxSend n c → estep s (set_tx (TxReport (EWrap "failed sending message: %w" err)) s).

(** The program.  [Recv] and [Send] fail once StreamSecrets has returned: gRPC
    ends the stream then. *)
Inductive sstep : stream → stream → Prop :=
(* the receive goroutine *)
| ss_top s : sm_rx s = RxTop → sstep s (set_rx (if sm_ctx s then RxReturned else RxRecv) s)
| ss_recv s req rest acts r : sm_rx s = RxRecv → sm_inbox s = req :: rest →
    onRequest allowed range (sm_recv s) req = (acts, r) →
    sstep s (set_rx (RxActs req acts r) (set_inbox rest s))
| ss_recv_end s : sm_rx s = RxRecv → is_Some (sm_result s) →
    sstep s (set_rx (RxReport (EWrap "failed receiving request: %w" (ESentinel Canceled))) s)
| ss_forward s req n acts r h c seen k : sm_rx s = RxActs req (Forward n :: acts) r →
    sm_packs s !! n = Some h → h_state h = HAck c seen k →
    sstep s (set_rx (RxActs req acts r) (set_pack n (set_h (on_ack versionOf c seen k req) h) s))
| ss_forward_done s req n acts r : sm_rx s = RxActs req (Forward n :: acts) r → sm_ctx s = true →
    sstep s (set_rx RxReturned s)
| ss_start s req n ds acts r h : sm_rx s = RxActs req (Start n ds :: acts) r → hinit h →
    AsKey (domains (h_entry h)) = AsKey ds →
    sstep s (set_rx (RxActs req acts r) (set_pack n (with_done (sm_ctx s) h) s))
| ss_next s req st : sm_rx s = RxActs req [] (Ok st) → sstep s (set_rx RxTop (set_recv st s))
| ss_bad s req err : sm_rx s = RxActs req [] (Err err) → sstep s (set_rx (RxReport err) s)
| ss_rx_report s err : sm_rx s = RxReport err → sm_errChan s = None →
    sstep s (set_rx RxReturned (set_err (Some err) s))
| ss_rx_report_done s err : sm_rx s = RxReport err → sm_ctx s = true → sstep s (set_rx RxReturned s)
(* a handler *)
| ss_handler s n h h' : sm_packs s !! n = Some h → internal h h' → sstep s (set_pack n h' s)
| ss_offer s n h h' c k : sm_packs s !! n = Some h → hstep versionOf h h' →
    h_offered h' = (c, k) :: h_offered h → sm_tx s = TxIdle →
    sstep s (set_tx (TxSend n c) (set_pack n h' s))
(* the sending goroutine *)
| ss_send_end s n c : sm_tx s = TxSend n c → is_Some (sm_result s) →
    sstep s (set_tx (TxReport (EWrap "failed sending message: %w" (ESentinel Canceled))) s)
| ss_tx_report s err : sm_tx s = TxReport err → sm_errChan s = None →
    sstep s (set_tx TxReturned (set_err (Some err) s))
| ss_tx_report_done s err : sm_tx s = TxReport err → sm_ctx s = true → sstep s (set_tx TxReturned s)
| ss_tx_done s : sm_tx s = TxIdle → sm_ctx s = true → sstep s (set_tx TxReturned s)
(* StreamSecrets waits for the end; its return cancels the context *)
| ss_end_ctx s : sm_result s = None → sm_ctx s = true → sstep s (set_result (ESentinel Canceled) s)
| ss_end_err s err : sm_result s = None → sm_errChan s = Some err →
    sstep s (cancel (set_result err (set_err None s))).

Definition step (s s' : stream) : Prop := sstep s s' ∨ estep s s'.

Definition sinit (s : stream) : Prop :=
  ∃ inbox, s = mkStream inbox recv_init RxTop TxIdle ∅ None false None [].

(** Everything has returned. *)
Definition finished (s : stream) : Prop :=
  is_Some (sm_result s) ∧ sm_rx s = RxReturned ∧ sm_tx s = TxReturned ∧
  ∀ n h, sm_packs s !! n = Some h → h_state h = HReturned.

(** ** Winding down *)

Lemma hstep_to h h' st : hstep versionOf h (set_h st h) → h' = set_h st h →
  (∀ c seen n, h_state h = HAck c seen n → st = HReturned) → internal h h'.
Proof.
  intros Hs -> Ha. unfold internal. split_all; [done..|]. intros c seen n E. right. by eapply Ha.
Qed.

Lemma woken_returns h : h_done h = true → h_state h = HWoken → ∃ h', rtc internal h h' ∧ h_state h' = HReturned.
Proof.
  intros Hd E. exists (set_h HReturned h). split; [|done]. apply rtc_once.
  pose proof (hs_woken versionOf h (cert (h_entry h)) (version (h_entry h)) E eq_refl) as Hs. rewrite Hd in Hs.
  eapply hstep_to; [exact Hs|done|congruence].
Qed.

Lemma waiting_returns h seen n : h_done h = true → h_state h = HWaiting seen n →
  ∃ h', rtc internal h h' ∧ h_state h' = HReturned.
Proof.
  intros Hd E. destruct (wait_enter (h_entry h) seen) as [v|ch] eqn:Ew.
  - destruct (woken_returns (set_h HWoken h)) as (h'&Hr&Hs); [done..|]. exists h'. split; [|done].
    eapply rtc_l; [|exact Hr]. eapply hstep_to; [by eapply hs_wait_pass|done|congruence].
  - destruct (woken_returns (set_h HWoken h)) as (h'&Hr&Hs); [done..|]. exists h'. split; [|done].
    eapply rtc_l; [|eapply rtc_l; [|exact Hr]].
    + eapply (hstep_to h (set_h (HSleep ch n) h)); [by eapply hs_wait_sleep|done|congruence].
    + eapply (hstep_to (set_h (HSleep ch n) h)); [by eapply hs_wake_ctx|done|done].
Qed.

(** A handler whose context is done can return, whatever it is doing. *)
Lemma handler_returns h : h_done h = true → h_state h ≠ HPanicked →
  ∃ h', rtc internal h h' ∧ h_state h' = HReturned.
Proof.
  intros Hd Hp. destruct (h_state h) as [|seen n|ch n| |c seen n|c seen n| |] eqn:E; [| | | | | | |done].
  - pose proof (hs_snapshot versionOf h _ _ E eq_refl) as Hs. destruct (IsValid (h_now h) _).
    + exists (set_h HReturned h). split; [|done].
      eapply rtc_l; [eapply hstep_to; [exact Hs|done|congruence]|]. apply rtc_once.
      by eapply (hstep_to (set_h (HOffer _ _ _) h)); [by eapply hs_offer_done| |].
    + edestruct (waiting_returns (set_h (HWaiting (version (h_entry h)) (updated (h_entry h))) h)) as (h'&Hr&Hs'); [done..|].
      exists h'. split; [|done]. eapply rtc_l; [|exact Hr]. eapply hstep_to; [exact Hs|done|congruence].
  - by eapply waiting_returns.
  - destruct (woken_returns (set_h HWoken h)) as (h'&Hr&Hs); [done..|]. exists h'. split; [|done].
    eapply rtc_l; [|exact Hr]. eapply hstep_to; [by eapply hs_wake_ctx|done|congruence].
  - by apply woken_returns.
  - exists (set_h HReturned h). split; [|done]. apply rtc_once.
    eapply hstep_to; [by eapply hs_offer_done|done|congruence].
  - exists (set_h HReturned h). split; [|done]. apply rtc_once.
    eapply hstep_to; [by eapply hs_ack_done|done|done].
  - by exists h.
Qed.

(** The state of a stream that is to end. *)
Record ending (s : stream) : Prop := {
  en_ctx : sm_ctx s = true;
  en_result : is_Some (sm_result s);
  en_done n h : sm_packs s !! n = Some h → h_done h = true ∧ h_state h ≠ HPanicked;
}.

Lemma rtc_handler s n h h' : sm_packs s !! n = Some h →
  rtc internal h h' → rtc sstep s (set_pack n h' s).
Proof.
  intros Hn Hr. revert s Hn. induction Hr as [h|h1 h2 h3 Hi _ IH]; intros s Hn.
  - unfold set_pack. rewrite insert_id by done. by destruct s.
  - eapply rtc_l; [by eapply ss_handler|].
    specialize (IH (set_pack n h2 s) ltac:(apply lookup_insert_eq)).
    unfold set_pack in *. simpl in *. by rewrite insert_insert_eq in IH.
Qed.

(** The receive goroutine gets out of whatever it is doing. *)
Lemma rx_returns s : ending s → ∃ s', rtc sstep s s' ∧ ending s' ∧ sm_rx s' = RxReturned ∧
  sm_tx s' = sm_tx s ∧ sm_result s' = sm_result s.
Proof.
  assert (Hreport : ∀ s err, ending s → sm_rx s = RxReport err → ∃ s', rtc sstep s s' ∧ ending s' ∧
    sm_rx s' = RxReturned ∧ sm_tx s' = sm_tx s ∧ sm_result s' = sm_result s).
  { intros s1 err He Hx. exists (set_rx RxReturned s1). split_all; [|by destruct He|done..].
    apply rtc_once. eapply ss_rx_report_done; [done|apply He]. }
  assert (Htop : ∀ s, ending s → sm_rx s = RxTop → ∃ s', rtc sstep s s' ∧ ending s' ∧
    sm_rx s' = RxReturned ∧ sm_tx s' = sm_tx s ∧ sm_result s' = sm_result s).
  { intros s1 He Hx. exists (set_rx RxReturned s1). split_all; [|by destruct He|done..].
    apply rtc_once. pose proof (ss_top s1 Hx) as Hs. by rewrite (en_ctx _ He) in Hs. }
  intros He. destruct (sm_rx s) as [| |req acts r|err|] eqn:Hx.
  - by apply Htop.
  - destruct (Hreport (set_rx (RxReport (EWrap "failed receiving request: %w" (ESentinel Canceled))) s)
      (EWrap "failed receiving request: %w" (ESentinel Canceled))) as (s'&Hr&H); [by destruct He|done|].
    exists s'. split; [|exact H]. eapply rtc_l; [apply ss_recv_end; [done|apply He]|exact Hr].
  - revert s He Hx. induction acts as [|[n|n ds] acts IH]; intros s He Hx.
    + destruct r as [st|err].
      * destruct (Htop (set_rx RxTop (set_recv st s))) as (s'&Hr&H); [by destruct He|done|].
        exists s'. split; [|exact H]. eapply rtc_l; [by eapply ss_next|exact Hr].
      * destruct (Hreport (set_rx (RxReport err) s) err) as (s'&Hr&H); [by destruct He|done|].
        exists s'. split; [|exact H]. eapply rtc_l; [by eapply ss_bad|exact Hr].
    + exists (set_rx RxReturned s). split_all; [|by destruct He|done..]. apply rtc_once.
      eapply ss_forward_done; [done|apply He].
    + set (h := mkH HSnapshot (mkEntry ds None zeroCert (to_u64 (Z.of_nat 0)) 0%nat None 1) false 0 [zeroCert] []).
      assert (Hh : hinit h) by (by exists ds, zeroCert, 0, []).
      destruct (IH (set_rx (RxActs req acts r) (set_pack n (with_done (sm_ctx s) h) s))) as (s'&Hr&H); [|done|].
      { destruct He as [Hc Hres Hd]. split; [done..|]. simpl. intros n' h' [[<- <-]|[_ Hn]]%lookup_insert_Some; [by split|eauto]. }
      exists s'. split; [|exact H]. eapply rtc_l; [by eapply ss_start|exact Hr].
  - by apply Hreport with err.
  - by exists s.
Qed.

Lemma tx_returns s : ending s → ∃ s', rtc sstep s s' ∧ ending s' ∧ sm_tx s' = TxReturned ∧
  sm_rx s' = sm_rx s ∧ sm_result s' = sm_result s.
Proof.
  intros He. destruct (sm_tx s) as [|n c|err|] eqn:Hx.
  - exists (set_tx TxReturned s). split_all; [|by destruct He|done..].
    apply rtc_once. apply ss_tx_done; [done|apply He].
  - set (s1 := set_tx (TxReport (EWrap "failed sending message: %w" (ESentinel Canceled))) s).
    exists (set_tx TxReturned s1). split_all; [|by destruct He|done..].
    eapply rtc_l; [apply (ss_send_end s n c); [done|apply He]|]. apply rtc_once. by eapply ss_tx_report_done, He.
  - exists (set_tx TxReturned s). split_all; [|by destruct He|done..].
    apply rtc_once. eapply ss_tx_report_done; [done|apply He].
  - by exists s.
Qed.

Lemma packs_return (l : list string) : ∀ s, ending s → ∃ s', rtc sstep s s' ∧ ending s' ∧
  sm_rx s' = sm_rx s ∧ sm_tx s' = sm_tx s ∧ sm_result s' = sm_result s ∧ dom (sm_packs s') = dom (sm_packs s) ∧
  (∀ n h, n ∈ l → sm_packs s' !! n = Some h → h_state h = HReturned) ∧
  (∀ n h, sm_packs s !! n = Some h → h_state h = HReturned →
     ∃ h', sm_packs s' !! n = Some h' ∧ h_state h' = HReturned).
Proof.
  induction l as [|n l IH]; intros s He.
  { exists s. split_all; try done; [by intros n h ?%elem_of_nil|eauto]. }
  destruct (sm_packs s !! n) as [h|] eqn:En.
  - destruct (en_done _ He n h En) as [Hd Hp]. destruct (handler_returns h Hd Hp) as (h'&Hr&Hs).
    assert (Hd' : h_done h' = true).
    { clear -Hr Hd. induction Hr as [|x y z (_&E&_) _ IH]; [done|]. apply IH. congruence. }
    destruct (IH (set_pack n h' s)) as (s'&Hr'&He'&?&?&?&Hdom&Hall&Hkeep).
    { destruct He as [Hc Hres Hdn]. split; [done..|]. simpl.
      intros m h1 [[<- <-]|[_ Hm]]%lookup_insert_Some; [by rewrite Hs|eauto]. }
    exists s'. split; [etrans; [by eapply rtc_handler|exact Hr']|]. split_all; try done.
    + rewrite Hdom. simpl. rewrite dom_insert_L. apply elem_of_dom_2 in En. set_solver.
    + intros m h1 [->|?]%elem_of_cons Hm; [|by eapply Hall].
      destruct (Hkeep n h') as (h2&Hn2&?); [apply lookup_insert_eq|done|]. by simplify_eq.
    + intros m h1 Hm Hret. destruct (decide (m = n)) as [->|Hne].
      * apply (Hkeep n h'); [apply lookup_insert_eq|done].
      * apply (Hkeep m h1); [|done]. simpl. by rewrite lookup_insert_ne.
  - destruct (IH s He) as (s'&Hr'&He'&?&?&?&Hdom&Hall&Hkeep). exists s'. split_all; try done.
    intros m h1 [->|?]%elem_of_cons Hm; [|by eapply Hall].
    exfalso. apply elem_of_dom_2 in Hm. rewrite Hdom in Hm. by apply not_elem_of_dom in En.
Qed.

(** The handlers' contexts are the stream's. *)
Lemma done_inv s : reachable sinit step s → sm_ctx s = true → ∀ n h, sm_packs s !! n = Some h → h_done h = true.
Proof.
  revert s. apply (reachable_invariant sinit step (λ s, sm_ctx s = true → ∀ n h, sm_packs s !! n = Some h → h_done h = true)).
  - by intros s [inbox ->] [=].
  - assert (Hcancel : ∀ s, ∀ n h, sm_packs (cancel s) !! n = Some h → h_done h = true).
    { intros s m h0. simpl. rewrite lookup_fmap. by destruct (sm_packs s !! m); intros [= <-]. }
    intros s s' _ IH [Hs|Hs]; [|destruct Hs; try exact IH; intros _; apply Hcancel].
    destruct Hs; try exact IH; simpl; intros Hc m h0; try (by apply Hcancel);
      intros [[<- <-]|[_ ?]]%lookup_insert_Some; try (by eapply IH).
    + simpl. by eapply IH.
    + done.
    + match goal with Hi : internal _ _ |- _ => destruct Hi as (_&->&_) end. by eapply IH.
    + match goal with Hh : hstep _ ?a ?b, Hl : sm_packs s !! _ = Some ?a |- _ => pose proof (IH Hc _ _ Hl); by destruct Hh end.
Qed.

(** Once its context is done, StreamSecrets returns. *)
Lemma stream_returns s : sm_ctx s = true →
  (∀ n h, sm_packs s !! n = Some h → h_done h = true ∧ h_state h ≠ HPanicked) →
  ∃ s', rtc sstep s s' ∧ ending s'.
Proof.
  intros Hc Hd. destruct (sm_result s) as [err|] eqn:Eres.
  - exists s. split; [done|]. by split.
  - exists (set_result (ESentinel Canceled) s). split; [by apply rtc_once, ss_end_ctx|]. by split.
Qed.

(** Somebody has noticed the end of the stream. *)
Definition noticed (s : stream) : Prop :=
  sm_ctx s = true ∨ is_Some (sm_errChan s) ∨ (∃ err, sm_rx s = RxReport err) ∨ (∃ err, sm_tx s = TxReport err).

Lemma result_inv s : reachable sinit step s → is_Some (sm_result s) → sm_ctx s = true.
Proof.
  revert s. apply (reachable_invariant sinit step (λ s, is_Some (sm_result s) → sm_ctx s = true)).
  - intros s [inbox ->] H. by apply is_Some_None in H.
  - intros s s' _ IH [Hs|Hs]; destruct Hs; simpl; auto.
Qed.

(** A step that leaves the handlers alone up to their context. *)
Definition calm (s s' : stream) : Prop :=
  ∀ n h', sm_packs s' !! n = Some h' → ∃ h, sm_packs s !! n = Some h ∧ h_state h' = h_state h.

Lemma stream_error_cancels s err : sm_result s = None → sm_errChan s = Some err →
  ∃ s', sstep s s' ∧ sm_ctx s' = true ∧ calm s s'.
Proof.
  intros Er Ee. exists (cancel (set_result err (set_err None s))). split_all; [by apply ss_end_err|done|].
  intros n h'. simpl. rewrite lookup_fmap. destruct (sm_packs s !! n) as [h|]; intros [= <-]. by exists h.
Qed.

Lemma stream_noticed_cancels s : reachable sinit step s → noticed s →
  ∃ s', rtc sstep s s' ∧ sm_ctx s' = true ∧ calm s s'.
Proof.
  intros Hr Hn. destruct (sm_ctx s) eqn:Ec; [exists s; split_all; [done..|]; intros n h; eauto|].
  destruct (sm_result s) as [e|] eqn:Er; [rewrite (result_inv s Hr) in Ec; [done|by rewrite Er]|].
  assert (H1 : ∀ s1 err, sstep s s1 → sm_result s1 = None → sm_errChan s1 = Some err → sm_packs s1 = sm_packs s →
    ∃ s', rtc sstep s s' ∧ sm_ctx s' = true ∧ calm s s').
  { intros s1 err Hs E1 E2 E3. destruct (stream_error_cancels s1 err E1 E2) as (s'&Hs'&?&Hcalm). exists s'.
    split_all; [by eapply rtc_l, rtc_once|done|]. unfold calm in *. by rewrite E3 in Hcalm. }
  destruct (sm_errChan s) as [err|] eqn:Ee.
  - destruct (stream_error_cancels s err Er Ee) as (s'&Hs'&?&?). exists s'. split_all; [by apply rtc_once|done..].
  - destruct Hn as [?|[[? ?]|[[err Ex]|[err Ex]]]]; [congruence|congruence| |].
    + by eapply (H1 _ err); [by eapply ss_rx_report|..].
    + by eapply (H1 _ err); [by eapply ss_tx_report|..].
Qed.

(** C23: a stream always comes to its end: as soon as anybody has noticed it
    (the context is done, an error is on the channel or about to be), whatever
    the goroutines are doing (waiting for a request or a renewal, handing over
    a request, an offer or an error nobody takes), StreamSecrets and all of
    them can return by steps of the program alone, without the client sending,
    taking a response or closing the connection. *)
Theorem stream_teardown s :
  reachable sinit step s → noticed s →
  (∀ n h, sm_packs s !! n = Some h → h_state h ≠ HPanicked) →
  ∃ s', rtc sstep s s' ∧ finished s'.
Proof.
  intros Hr Hn Hp. destruct (stream_noticed_cancels s Hr Hn) as (sc&Rc&Hc&Hcalm).
  destruct (stream_returns sc Hc) as (s0&R0&E0).
  { intros n h Hl; split.
    - eapply done_inv; [|exact Hc|exact Hl]. eapply reachable_rtc; [exact Hr|]. eapply rtc_subrel; [|exact Rc]. by left.
    - destruct (Hcalm n h Hl) as (h0&Hl0&->). by eapply Hp. }
  destruct (rx_returns s0 E0) as (s1&R1&E1&X1&_&_). destruct (tx_returns s1 E1) as (s2&R2&E2&T2&X2&_).
  destruct (packs_return (elements (dom (sm_packs s2))) s2 E2) as (s3&R3&E3&X3&T3&_&Hdom&Hall&_).
  exists s3. split; [etrans; [exact Rc|]; etrans; [exact R0|]; etrans; [exact R1|]; etrans; [exact R2|exact R3]|].
  unfold finished. split_all; [apply E3|congruence|congruence|]. intros n h Hl. apply (Hall n h); [|done].
  apply elem_of_elements. rewrite <- Hdom. by apply elem_of_dom_2 in Hl.
Qed.

(** ** One request too many *)

(** The receive goroutine hands a request to the handler of [n], which waits
    for a renewal. *)
Definition stalled (n : string) (s : stream) : Prop :=
  ∃ req acts r h ch k, sm_rx s = RxActs req (Forward n :: acts) r ∧ sm_packs s !! n = Some h ∧
    h_state h = HSleep ch k ∧ (updated (h_entry h) ≤ ch)%nat ∧ h_done h = false.

(** Steps during which the stream lives and the entry of [n] is not renewed. *)
Definition unrenewed (n : string) (s s' : stream) : Prop :=
  step s s' ∧ sm_ctx s' = false ∧ h_entry <$> sm_packs s' !! n = h_entry <$> sm_packs s !! n.

(** The pack's response is out and not acknowledged. *)
Definition unacked (m : string) (s : stream) : Prop :=
  ∃ h c seen k, sm_packs s !! m = Some h ∧ h_state h = HAck c seen k ∧ h_done h = false.

Lemma internal_sleep h h' ch k : internal h h' → h_state h = HSleep ch k → (updated (h_entry h) ≤ ch)%nat →
  h_done h = false → h_entry h' = h_entry h → h_state h' = HSleep ch k ∧ h_done h' = false.
Proof.
  intros (Hs&Hd&_&_) E Hle Hf He. destruct Hs; simpl in *; simplify_eq; try congruence; try done; try lia.
  - assert (ch0 = ch) by congruence. lia.
Qed.

Lemma internal_ack h h' c seen k : internal h h' → h_state h = HAck c seen k → h_done h = false →
  h_state h' = HAck c seen k ∧ h_done h' = false.
Proof.
  intros (Hs&Hd&_&Ha) E Hf. split; [|by rewrite Hd]. destruct (Ha _ _ _ E) as [->|Er]; [done|].
  exfalso. destruct Hs; simpl in *; simplify_eq; try congruence.
  unfold on_ack in Er. repeat case_match; congruence.
Qed.

Lemma offering h h' x : hstep versionOf h h' → h_offered h' = x :: h_offered h → ∃ c seen k, h_state h = HOffer c seen k.
Proof.
  intros Hs Ho. assert (Hne : ∀ l : list (CertT * nat), l ≠ x :: l) by (intros l E; apply (f_equal length) in E; simpl in E; lia).
  destruct Hs; simpl in *; try (by exfalso; eapply Hne); eauto.
Qed.

(** A step that is neither a renewal of [n] nor an end leaves the receive
    goroutine, the unread requests and the unacknowledged packs as they are. *)
Lemma stalled_step n s s' : stalled n s → unrenewed n s s' →
  stalled n s' ∧ (∃ new, sm_inbox s' = sm_inbox s ++ new) ∧ (∀ m, unacked m s → unacked m s').
Proof.
  intros (req&acts&r&h&ch&k&Hx&Hn&Hsl&Hle&Hd) (Hs&Hc&He).
  assert (Hsame : ∃ new : list DiscoveryRequest, sm_inbox s = sm_inbox s ++ new) by (exists []; by rewrite app_nil_r).
  destruct Hs as [Hs|Hs]; destruct Hs; simpl in *; try congruence; try (by rewrite Hx in *);
    try (split_all; [by exists req, acts, r, h, ch, k|first [done|by eexists]|done]).
  - (* a handler *) rename select (internal _ _) into Hi. rename select (sm_packs s !! _ = Some _) into Hl.
    match type of Hl with _ !! ?a = Some ?b => set (n1 := a) in *; set (h1 := b) in * end.
    split_all; [|done|].
    + destruct (decide (n1 = n)) as [E|Hne].
      * subst n1. rewrite E in *. simplify_eq. rewrite lookup_insert_eq, Hn in He. injection He as He.
        destruct (internal_sleep _ _ _ _ Hi Hsl Hle Hd He) as [Hs' Hd'].
        exists req, acts, r, h', ch, k. simpl. rewrite lookup_insert_eq, He. split_all; done.
      * exists req, acts, r, h, ch, k. simpl. rewrite lookup_insert_ne by done. split_all; done.
    + intros m (h2&c&seen&k2&Hm&Ha&Hd2). destruct (decide (n1 = m)) as [E|Hne].
      * subst m. rewrite Hl in Hm. injection Hm as <-. destruct (internal_ack _ _ _ _ _ Hi Ha Hd2) as [Hs' Hd'].
        exists h', c, seen, k2. simpl. by rewrite lookup_insert_eq.
      * exists h2, c, seen, k2. simpl. by rewrite lookup_insert_ne.
  - (* an offer *) rename select (hstep _ _ _) into Hi. rename select (h_offered _ = _) into Ho.
    destruct (offering _ _ _ Hi Ho) as (cx&sx&kx&E0). rename select (sm_packs s !! _ = Some _) into Hl.
    match type of Hl with _ !! ?a = Some ?b => assert (Hne : ∀ m h2, sm_packs s !! m = Some h2 →
      (∀ c seen k, h_state h2 ≠ HOffer c seen k) → a ≠ m) by (intros m h2 Hm Hnot ->; simplify_eq; by eapply Hnot) end.
    split_all; [|done|].
    + exists req, acts, r, h, ch, k. simpl. rewrite lookup_insert_ne; [done|]. apply (Hne n h); [done|intros; congruence].
    + intros m (h2&c1&seen&k2&Hm&Ha&Hd2). exists h2, c1, seen, k2. simpl.
      rewrite lookup_insert_ne; [done|]. apply (Hne m h2); [done|intros; congruence].
Qed.

(** A request for a pack whose handler is waiting for a renewal (an
    acknowledgement sent twice, a repeated subscription) stalls the whole
    stream: until this pack's entry is renewed or the stream ends, no further
    request is read, and a response of any other pack stays unacknowledged, so
    that its handler does not offer its next renewals either. *)
Theorem stream_stalls n s s' :
  stalled n s → rtc (unrenewed n) s s' →
  stalled n s' ∧ (∃ new, sm_inbox s' = sm_inbox s ++ new) ∧ ∀ m, unacked m s → unacked m s'.
Proof.
  intros Hst Hr. induction Hr as [s|s s1 s2 Hs _ IH].
  - split_all; [done|by exists []; rewrite app_nil_r|done].
  - destruct (stalled_step _ _ _ Hst Hs) as (H1&[new1 E1]&Hk1). destruct (IH H1) as (H2&[new2 E2]&Hk2).
    split_all; [done| |eauto]. exists (new1 ++ new2). by rewrite E2, E1, (assoc_L (++)).
Qed.
End Stream.

(** ** A stream with two packs *)

Module Demo.
Definition metadata : list (string * Value) :=
  [("domains", VStruct [("web", VList [VString "example.com"]); ("mail", VList [VString "mail.example.com"])])].
Definition subscribe : DiscoveryRequest := mkDiscoveryRequest typeUrl "" ["web"; "mail"] (Some metadata) None.
Definition ack (n : string) : DiscoveryRequest := mkDiscoveryRequest typeUrl "v1" [n] None None.
Definition allowed : list string := ["example.com"].
Definition range (m : gmap string (list string)) := map_to_list m.
Definition vOf : Time → string := Sds.Demo.versionOf.
Definition step : stream → stream → Prop := Stream.step allowed range vOf.

(** The client acknowledges "web" twice before it acknowledges "mail". *)
Definition inbox : list DiscoveryRequest := [subscribe; ack "web"; ack "web"; ack "mail"].
Definition s0 : stream := mkStream inbox recv_init RxTop TxIdle ∅ None false None [].

(** A handler of the pack with the given domains, through its first offer and
    acknowledgement. *)
Definition c0 : CertT := Sds.Demo.c0.
Definition entry (ds : list string) : certEntry := mkEntry ds None c0 0 0%nat None 1.
Definition h0 (ds : list string) : hworld := mkH HSnapshot (entry ds) false 10 [c0] [].
Definition h1 (ds : list string) : hworld := mkH (HOffer c0 0 0%nat) (entry ds) false 10 [c0] [].
Definition h2 (ds : list string) : hworld := mkH (HAck c0 0 0%nat) (entry ds) false 10 [c0] [(c0, 0%nat)].
Definition h3 (ds : list string) : hworld := set_h (HWaiting 0 0%nat) (h2 ds).
Definition h4 (ds : list string) : hworld := set_h (HSleep 0 0%nat) (h2 ds).
Definition web : list string := ["example.com"].
Definition mail : list string := ["mail.example.com"].

Definition st1 : recvState :=
  mkRecv (Some [("web", VList [VString "example.com"]); ("mail", VList [VString "mail.example.com"])])
    (<[ "web" := ["example.com"] ]> (<[ "mail" := ["mail.example.com"] ]> ∅)).
Definition starts : list action := fst (onRequest allowed range recv_init subscribe).

(** Both handlers wait for their acknowledgements. *)
Definition waiting : stream :=
  mkStream [ack "web"; ack "web"; ack "mail"] st1 RxTop TxIdle (<[ "web" := h2 web ]> (<[ "mail" := h2 mail ]> ∅)) None false None
    [("web", c0); ("mail", c0)].
Definition stuck : stream :=
  mkStream [ack "mail"] st1 (RxActs (ack "web") [Forward "web"] (Ok st1)) TxIdle
    (<[ "web" := h4 web ]> (<[ "mail" := h2 mail ]> ∅)) None false None [("web", c0); ("mail", c0)].
End Demo.

Lemma demo_hinit ds : hinit (Demo.h0 ds).
Proof. by exists ds, Sds.Demo.c0, 10, []. Qed.

Lemma demo_first ds : internal Demo.vOf (Demo.h0 ds) (Demo.h1 ds).
Proof. unfold internal. split_all; [exact (hs_snapshot Demo.vOf (Demo.h0 ds) Demo.c0 0 eq_refl eq_refl)|done..]. Qed.

Lemma demo_offer ds : hstep Demo.vOf (Demo.h1 ds) (Demo.h2 ds).
Proof. exact (hs_offer Demo.vOf (Demo.h1 ds) Demo.c0 0 0 eq_refl). Qed.

Lemma demo_sleep ds : internal Demo.vOf (Demo.h3 ds) (Demo.h4 ds).
Proof. unfold internal. split_all; [exact (hs_wait_sleep Demo.vOf (Demo.h3 ds) 0 0 0 eq_refl eq_refl)|done..]. Qed.

Lemma demo_run s s1 s2 : reachable sinit Demo.step s → Demo.step s s1 → s1 = s2 → reachable sinit Demo.step s2.
Proof. intros Hr Hs <-. by eapply reach_step. Qed.

(** The two handlers side by side. *)
Definition demoPair (l : list DiscoveryRequest) (st : recvState) (x : rx) (t : tx) (web mail : hworld)
    (sent : list (string * CertT)) : stream :=
  mkStream l st x t (<[ "web" := web ]> (<[ "mail" := mail ]> ∅)) None false None sent.

Tactic Notation "demo_step" constr(R) uconstr(t) :=
  eapply (demo_run _ _ _ R); [first [left; eapply t; reflexivity|right; eapply t; reflexivity] | vm_compute; reflexivity].

(** The subscription is accepted and both handlers start. *)
Lemma demo_started : reachable sinit Demo.step
  (demoPair [Demo.ack "web"; Demo.ack "web"; Demo.ack "mail"] Demo.st1 RxTop TxIdle (Demo.h0 Demo.web) (Demo.h0 Demo.mail) []).
Proof.
  set (rest := [Demo.ack "web"; Demo.ack "web"; Demo.ack "mail"]).
  set (s1 := mkStream rest recv_init (RxActs Demo.subscribe
    [Start "web" ["example.com"]; Start "mail" ["mail.example.com"]] (Ok Demo.st1)) TxIdle ∅ None false None []).
  set (s2 := set_rx (RxActs Demo.subscribe [Start "mail" ["mail.example.com"]] (Ok Demo.st1))
    (set_pack "web" (Demo.h0 Demo.web) s1)).
  set (s3 := set_rx (RxActs Demo.subscribe [] (Ok Demo.st1)) (set_pack "mail" (Demo.h0 Demo.mail) s2)).
  assert (R0 : reachable sinit Demo.step Demo.s0) by (apply reach_init; by eexists).
  assert (R1 : reachable sinit Demo.step (set_rx RxRecv Demo.s0)) by demo_step R0 ss_top.
  assert (R2 : reachable sinit Demo.step s1) by demo_step R1 ss_recv.
  assert (R3 : reachable sinit Demo.step s2) by demo_step R2 (ss_start _ _ _ s1 _ "web" _ _ _ (Demo.h0 Demo.web) eq_refl (demo_hinit _) eq_refl).
  assert (R4 : reachable sinit Demo.step s3) by demo_step R3 (ss_start _ _ _ s2 _ "mail" _ _ _ (Demo.h0 Demo.mail) eq_refl (demo_hinit _) eq_refl).
  demo_step R4 ss_next.
Qed.

Lemma demo_handler s n h h' : reachable sinit Demo.step s → sm_packs s !! n = Some h → internal Demo.vOf h h' →
  reachable sinit Demo.step (set_pack n h' s).
Proof. intros R Hn Hi. eapply reach_step; [exact R|]. left. by eapply ss_handler. Qed.

Lemma demo_offer_sent s n h h' c k : reachable sinit Demo.step s → sm_packs s !! n = Some h → hstep Demo.vOf h h' →
  h_offered h' = (c, k) :: h_offered h → sm_tx s = TxIdle →
  reachable sinit Demo.step (set_tx TxIdle (add_sent (n, c) (set_tx (TxSend n c) (set_pack n h' s)))).
Proof.
  intros R Hn Hs Ho Et. eapply reach_step; [eapply reach_step; [exact R|]|].
  - left. by eapply ss_offer.
  - right. by apply es_sent.
Qed.

(** Each handler offers its certificate and the sending goroutine puts it on the
    wire. *)
Lemma demo_offered : reachable sinit Demo.step Demo.waiting.
Proof.
  pose proof demo_started as R0.
  pose proof (demo_handler _ "web" _ _ R0 eq_refl (demo_first Demo.web)) as R1.
  pose proof (demo_offer_sent _ "web" _ _ Demo.c0 0%nat R1 eq_refl (demo_offer Demo.web) eq_refl eq_refl) as R2.
  pose proof (demo_handler _ "mail" _ _ R2 eq_refl (demo_first Demo.mail)) as R3.
  pose proof (demo_offer_sent _ "mail" _ _ Demo.c0 0%nat R3 eq_refl (demo_offer Demo.mail) eq_refl eq_refl) as R4.
  match type of R4 with reachable _ _ ?s => replace Demo.waiting with s by (vm_compute; reflexivity) end. exact R4.
Qed.

(** The first acknowledgement of "web" is taken and its handler waits for a
    renewal; the second one cannot be forwarded. *)
Lemma demo_stuck : reachable sinit Demo.step Demo.stuck.
Proof.
  pose proof demo_offered as R0.
  pose (at_ := fun l x web => demoPair l Demo.st1 x TxIdle web (Demo.h2 Demo.mail) [("web", Demo.c0); ("mail", Demo.c0)]).
  pose (l1 := [Demo.ack "web"; Demo.ack "mail"]).
  assert (R1 : reachable sinit Demo.step (at_ (Demo.ack "web" :: l1) RxRecv (Demo.h2 Demo.web))) by demo_step R0 ss_top.
  assert (R2 : reachable sinit Demo.step
    (at_ l1 (RxActs (Demo.ack "web") [Forward "web"] (Ok Demo.st1)) (Demo.h2 Demo.web))) by demo_step R1 ss_recv.
  assert (R3 : reachable sinit Demo.step
    (at_ l1 (RxActs (Demo.ack "web") [] (Ok Demo.st1)) (Demo.h3 Demo.web))) by demo_step R2 ss_forward.
  assert (R4 : reachable sinit Demo.step (at_ l1 RxTop (Demo.h3 Demo.web))) by demo_step R3 ss_next.
  pose proof (demo_handler _ "web" _ _ R4 eq_refl (demo_sleep Demo.web)) as R5.
  assert (R6 : reachable sinit Demo.step (at_ l1 RxRecv (Demo.h4 Demo.web))) by demo_step R5 ss_top.
  demo_step R6 ss_recv.
Qed.

Lemma demo_stalled : stalled "web" Demo.stuck ∧ unacked "mail" Demo.stuck.
Proof.
  split.
  - exists (Demo.ack "web"), [], (Ok Demo.st1), (Demo.h4 Demo.web), 0%nat, 0%nat.
    split_all; [done..|vm_compute; lia|done].
  - exists (Demo.h2 Demo.mail), Demo.c0, 0, 0%nat. by split_all.
Qed.

(** A further request of the client is not read. *)
Lemma stream_stalls_witness :
  reachable sinit Demo.step Demo.stuck ∧ stalled "web" Demo.stuck ∧
  stalled "web" (set_inbox [Demo.ack "mail"; Demo.ack "web"] Demo.stuck) ∧
  unacked "mail" (set_inbox [Demo.ack "mail"; Demo.ack "web"] Demo.stuck).
Proof.
  destruct demo_stalled as [Hs Hu].
  destruct (stream_stalls Demo.allowed Demo.range Demo.vOf "web" Demo.stuck
    (set_inbox [Demo.ack "mail"; Demo.ack "web"] Demo.stuck) Hs) as (H1&_&H3).
  { apply rtc_once. unfold unrenewed, step. split_all; [right; exact (es_request Demo.stuck (Demo.ack "web"))|reflexivity..]. }
  exact (conj demo_stuck (conj Hs (conj H1 (H3 "mail" Hu)))).
Defined.

(** The stalled stream ends when the server shuts down. *)
Lemma stream_teardown_witness :
  reachable sinit Demo.step (cancel Demo.stuck) ∧
  ∃ s', rtc (sstep Demo.allowed Demo.range Demo.vOf) (cancel Demo.stuck) s' ∧ finished s'.
Proof.
  assert (R : reachable sinit Demo.step (cancel Demo.stuck)).
  { eapply reach_step; [exact demo_stuck|right; apply es_cancel]. }
  split; [exact R|]. apply (stream_teardown Demo.allowed Demo.range Demo.vOf (cancel Demo.stuck)); [exact R|left; reflexivity|].
  intros n h. unfold cancel, Demo.stuck. simpl. rewrite lookup_fmap, !lookup_insert. repeat case_decide; by intros [= <-].
Defined.
