(* ===== verification/ClientStream.v ===== *)
(** pkg/client/sds.go, [Stream]: one stream of the certdx client as a whole,
    from the connection to its deferred clean-up.  The receive goroutine, the
    sending goroutine, the handlers and [Stream] itself share the stream's
    context, unbuffered channels and the error channel of capacity one.  What
    a response or a handler does is as in ClientSds. *)

From Stdlib Require Import ZArith Lia.
From stdpp Require Import base option list gmap strings relations.
From S2P Require Import Prelude.
From S2P Require Import GoStd.
From S2P Require Import Config.
From S2P Require Import CertEntry.
From S2P Require Import Sds.
From S2P Require Import Daemon.
From S2P Require Import ClientSds.

Open Scope Z_scope.

(** [Stream] itself: before the client connection exists, opening the stream,
    in its final [select], and in each of the deferred calls. *)
Inductive cmain :=
  | MStart
  | MOpen
  | MWait
  | MRunning (err : error)      (* Running.Store(false) *)
  | MConn (err : error)         (* conn.Close() *)
  | MCancel (err : error)       (* cancel() *)
  | MNil (err : error)          (* c.cancel.Store(nil) *)
  | MReturned (err : error).

(** The receive goroutine: at its context check, in [Recv], handing a response
    to the handler at a position, in [sendStreamErr], returned. *)
Inductive crx :=
  | CRNone
  | CRTop
  | CRRecv
  | CRHand (i : nat) (r : respData)
  | CRReport (err : error)
  | CRReturned.

(** The sending goroutine; [what] is the message its error would carry. *)
Inductive ctx :=
  | CTNone
  | CTSubscribe
  | CTLoop
  | CTSend (what : string) (req : DiscoveryRequest)
  | CTReport (err : error)
  | CTReturned.

(** A handler: as in ClientSds, or in [sendStreamErr]. *)
Inductive chand :=
  | CH (c : cstate)
  | CHReport (err : error).

Record cstream := mkCS {
  cs_inbox : list DiscoveryResponse;      (* what the server has sent *)
  cs_main : cmain;
  cs_rx : crx;
  cs_tx : ctx;
  cs_hands : list chand;
  cs_chans : list (list certData);        (* UpdateChan of each certificate, capacity 1 *)
  cs_received : nat;                      (* how often Received was closed *)
  cs_running : bool;
  cs_cancel : bool;                       (* c.cancel holds the cancel function *)
  cs_errChan : option error;
  cs_done : bool;                         (* streamCtx is done *)
  cs_sent : list DiscoveryRequest;        (* ghost: requests on the wire *)
  cs_taken : list (nat * respData);       (* ghost: responses handed to handlers *)
  cs_updates : list (nat * certData);     (* ghost: values sent to UpdateChan *)
  cs_acks : list (nat * string);          (* ghost: acknowledgements handed to the sender *)
}.

Definition put_inbox (l : list DiscoveryResponse) (s : cstream) : cstream :=
  mkCS l (cs_main s) (cs_rx s) (cs_tx s) (cs_hands s) (cs_chans s) (cs_received s) (cs_running s) (cs_cancel s)
    (cs_errChan s) (cs_done s) (cs_sent s) (cs_taken s) (cs_updates s) (cs_acks s).
Definition put_main (m : cmain) (s : cstream) : cstream :=
  mkCS (cs_inbox s) m (cs_rx s) (cs_tx s) (cs_hands s) (cs_chans s) (cs_received s) (cs_running s) (cs_cancel s)
    (cs_errChan s) (cs_done s) (cs_sent s) (cs_taken s) (cs_updates s) (cs_acks s).
Definition put_rx (x : crx) (s : cstream) : cstream :=
  mkCS (cs_inbox s) (cs_main s) x (cs_tx s) (cs_hands s) (cs_chans s) (cs_received s) (cs_running s) (cs_cancel s)
    (cs_errChan s) (cs_done s) (cs_sent s) (cs_taken s) (cs_updates s) (cs_acks s).
Definition put_tx (x : ctx) (s : cstream) : cstream :=
  mkCS (cs_inbox s) (cs_main s) (cs_rx s) x (cs_hands s) (cs_chans s) (cs_received s) (cs_running s) (cs_cancel s)
    (cs_errChan s) (cs_done s) (cs_sent s) (cs_taken s) (cs_updates s) (cs_acks s).
Definition put_hands (l : list chand) (s : cstream) : cstream :=
  mkCS (cs_inbox s) (cs_main s) (cs_rx s) (cs_tx s) l (cs_chans s) (cs_received s) (cs_running s) (cs_cancel s)
    (cs_errChan s) (cs_done s) (cs_sent s) (cs_taken s) (cs_updates s) (cs_acks s).
Definition put_chan (i : nat) (l : list certData) (s : cstream) : cstream :=
  mkCS (cs_inbox s) (cs_main s) (cs_rx s) (cs_tx s) (cs_hands s) (<[ i := l ]> (cs_chans s)) (cs_received s)
    (cs_running s) (cs_cancel s) (cs_errChan s) (cs_done s) (cs_sent s) (cs_taken s) (cs_updates s) (cs_acks s).
Definition put_received (n : nat) (s : cstream) : cstream :=
  mkCS (cs_inbox s) (cs_main s) (cs_rx s) (cs_tx s) (cs_hands s) (cs_chans s) n (cs_running s) (cs_cancel s)
    (cs_errChan s) (cs_done s) (cs_sent s) (cs_taken s) (cs_updates s) (cs_acks s).
Definition put_running (b : bool) (s : cstream) : cstream :=
  mkCS (cs_inbox s) (cs_main s) (cs_rx s) (cs_tx s) (cs_hands s) (cs_chans s) (cs_received s) b (cs_cancel s)
    (cs_errChan s) (cs_done s) (cs_sent s) (cs_taken s) (cs_updates s) (cs_acks s).
Definition put_cancel (b : bool) (s : cstream) : cstream :=
  mkCS (cs_inbox s) (cs_main s) (cs_rx s) (cs_tx s) (cs_hands s) (cs_chans s) (cs_received s) (cs_running s) b
    (cs_errChan s) (cs_done s) (cs_sent s) (cs_taken s) (cs_updates s) (cs_acks s).
Definition put_err (e : option error) (s : cstream) : cstream :=
  mkCS (cs_inbox s) (cs_main s) (cs_rx s) (cs_tx s) (cs_hands s) (cs_chans s) (cs_received s) (cs_running s) (cs_cancel s)
    e (cs_done s) (cs_sent s) (cs_taken s) (cs_updates s) (cs_acks s).
Definition put_done (s : cstream) : cstream :=
  mkCS (cs_inbox s) (cs_main s) (cs_rx s) (cs_tx s) (cs_hands s) (cs_chans s) (cs_received s) (cs_running s) (cs_cancel s)
    (cs_errChan s) true (cs_sent s) (cs_taken s) (cs_updates s) (cs_acks s).
Definition log_sent (req : DiscoveryRequest) (s : cstream) : cstream :=
  mkCS (cs_inbox s) (cs_main s) (cs_rx s) (cs_tx s) (cs_hands s) (cs_chans s) (cs_received s) (cs_running s) (cs_cancel s)
    (cs_errChan s) (cs_done s) (cs_sent s ++ [req]) (cs_taken s) (cs_updates s) (cs_acks s).
Definition log_taken (i : nat) (r : respData) (s : cstream) : cstream :=
  mkCS (cs_inbox s) (cs_main s) (cs_rx s) (cs_tx s) (cs_hands s) (cs_chans s) (cs_received s) (cs_running s) (cs_cancel s)
    (cs_errChan s) (cs_done s) (cs_sent s) (cs_taken s ++ [(i, r)]) (cs_updates s) (cs_acks s).
Definition log_update (i : nat) (d : certData) (s : cstream) : cstream :=
  mkCS (cs_inbox s) (cs_main s) (cs_rx s) (cs_tx s) (cs_hands s) (cs_chans s) (cs_received s) (cs_running s) (cs_cancel s)
    (cs_errChan s) (cs_done s) (cs_sent s) (cs_taken s) (cs_updates s ++ [(i, d)]) (cs_acks s).
Definition log_ack (i : nat) (v : string) (s : cstream) : cstream :=
  mkCS (cs_inbox s) (cs_main s) (cs_rx s) (cs_tx s) (cs_hands s) (cs_chans s) (cs_received s) (cs_running s) (cs_cancel s)
    (cs_errChan s) (cs_done s) (cs_sent s) (cs_taken s) (cs_updates s) (cs_acks s ++ [(i, v)]).

Definition put_hand (i : nat) (h : chand) (s : cstream) : cstream := put_hands (<[ i := h ]> (cs_hands s)) s.

(** [Kill] cancels the stream that is running, if there is one. *)
Definition Kill (s : cstream) : cstream := if cs_cancel s then put_done s else s.

Section ClientStream.
(** The certificates in the order of the range that starts the handlers, and
    in the one that builds the subscription: Go's map ranges are unordered. *)
Variables certs order : list ClientCertification.

(** The goroutines are started. *)
Definition startStream (s : cstream) : cstream :=
  put_main MWait (put_rx CRTop (put_tx CTSubscribe (put_hands (replicate (length certs) (CH CWait)) s))).

(** The handler takes the response: an unexpected secret is reported. *)
Definition takeResponse (cert : ClientCertification) (r : respData) : chand :=
  match onSecret cert r with Some c => CH c | None => CHReport (EText "unexpected resp type") end.

(** The environment: responses arrive; the parent context ends; [Kill] is
    called; the watcher, or the handler of another stream, uses UpdateChan; the
    connection opens a stream, takes a request, or fails. *)
Inductive cenv : cstream → cstream → Prop :=
| ce_response s resp : cenv s (put_inbox (cs_inbox s ++ [resp]) s)
| ce_parent s : cenv s (put_done s)
| ce_kill s : cenv s (Kill s)
| ce_chan s i l : (length l ≤ 1)%nat → cenv s (put_chan i l s)
| ce_open s : cs_main s = MOpen → cenv s (startStream s)
| ce_open_err s err : cs_main s = MOpen → cenv s (put_main (MRunning (EWrap "stream secrets failed: %w" err)) s)
| ce_recv_err s err : cs_rx s = CRRecv → cenv s (put_rx (CRReport (EWrap "failed receiving request: %w" err)) s)
| ce_sent s what req : cs_tx s = CTSend what req → cenv s (put_tx CTLoop (log_sent req s))
| ce_send_err s what req err : cs_tx s = CTSend what req → cenv s (put_tx (CTReport (EWrap what err)) s).

(** The program.  Calls on the stream fail once its context is done. *)
Inductive cstep : cstream → cstream → Prop :=
(* Stream *)
| cs_conn s : cs_main s = MStart → cstep s (put_running true (put_main MOpen s))
| cs_conn_err s err : cs_main s = MStart → cstep s (put_main (MCancel (EWrap "new grpc client failed: %w" err)) s)
| cs_open_done s : cs_main s = MOpen → cs_done s = true →
    cstep s (put_main (MRunning (EWrap "stream secrets failed: %w" (ESentinel Canceled))) s)
| cs_end_ctx s : cs_main s = MWait → cs_done s = true → cstep s (put_main (MRunning (ESentinel Canceled)) s)
| cs_end_err s err : cs_main s = MWait → cs_errChan s = Some err →
    cstep s (put_main (MRunning err) (put_err None s))
| cs_defer_running s err : cs_main s = MRunning err → cstep s (put_main (MConn err) (put_running false s))
| cs_defer_conn s err : cs_main s = MConn err → cstep s (put_main (MCancel err) s)
| cs_defer_cancel s err : cs_main s = MCancel err → cstep s (put_main (MNil err) (put_done s))
| cs_defer_nil s err : cs_main s = MNil err → cstep s (put_main (MReturned err) (put_cancel false s))
(* the receive goroutine *)
| cs_rx_top s : cs_rx s = CRTop → cstep s (put_rx (if cs_done s then CRReturned else CRRecv) s)
| cs_rx_recv s resp rest (got : bool) r : cs_rx s = CRRecv → cs_inbox s = resp :: rest →
    onResponse (dispatchTable certs) resp = (got, r) →
    cstep s (put_rx (match r with Ok (i, d) => CRHand i d | Err err => CRReport err end)
      (put_received (if got then S (cs_received s) else cs_received s) (put_inbox rest s)))
| cs_rx_end s : cs_rx s = CRRecv → cs_done s = true →
    cstep s (put_rx (CRReport (EWrap "failed receiving request: %w" (ESentinel Canceled))) s)
| cs_rx_hand s i r cert : cs_rx s = CRHand i r → cs_hands s !! i = Some (CH CWait) → certs !! i = Some cert →
    cstep s (put_rx CRTop (put_hand i (takeResponse cert r) (log_taken i r s)))
| cs_rx_hand_done s i r : cs_rx s = CRHand i r → cs_done s = true → cstep s (put_rx CRTop s)
| cs_rx_report s err : cs_rx s = CRReport err → cs_errChan s = None →
    cstep s (put_rx CRReturned (put_err (Some err) s))
| cs_rx_report_done s err : cs_rx s = CRReport err → cs_done s = true → cstep s (put_rx CRReturned s)
(* a handler *)
| cs_hand_done s i : cs_hands s !! i = Some (CH CWait) → cs_done s = true → cstep s (put_hand i (CH CReturned) s)
| cs_hand_update s i d v : cs_hands s !! i = Some (CH (CUpdate d v)) → cs_chans s !! i = Some [] →
    cstep s (put_hand i (CH (CAck v)) (put_chan i [d] (log_update i d s)))
| cs_hand_update_done s i d v : cs_hands s !! i = Some (CH (CUpdate d v)) → cs_done s = true →
    cstep s (put_hand i (CH CReturned) s)
| cs_hand_ack s i v cert : cs_hands s !! i = Some (CH (CAck v)) → certs !! i = Some cert → cs_tx s = CTLoop →
    cstep s (put_hand i (CH CWait) (put_tx (CTSend "failed sending ack: %w" (ackRequest cert v)) (log_ack i v s)))
| cs_hand_ack_done s i v : cs_hands s !! i = Some (CH (CAck v)) → cs_done s = true →
    cstep s (put_hand i (CH CReturned) s)
| cs_hand_report s i err : cs_hands s !! i = Some (CHReport err) → cs_errChan s = None →
    cstep s (put_hand i (CH CReturned) (put_err (Some err) s))
| cs_hand_report_done s i err : cs_hands s !! i = Some (CHReport err) → cs_done s = true →
    cstep s (put_hand i (CH CReturned) s)
(* the sending goroutine *)
| cs_tx_subscribe s : cs_tx s = CTSubscribe →
    cstep s (put_tx (match packRequest order with
                     | Ok req => CTSend "failed sending request: %w" req
                     | Err err => CTReport err end) s)
| cs_tx_end s what req : cs_tx s = CTSend what req → cs_done s = true →
    cstep s (put_tx (CTReport (EWrap what (ESentinel Canceled))) s)
| cs_tx_done s : cs_tx s = CTLoop → cs_done s = true → cstep s (put_tx CTReturned s)
| cs_tx_report s err : cs_tx s = CTReport err → cs_errChan s = None →
    cstep s (put_tx CTReturned (put_err (Some err) s))
| cs_tx_report_done s err : cs_tx s = CTReport err → cs_done s = true → cstep s (put_tx CTReturned s).

Definition cstep_or_env (s s' : cstream) : Prop := cstep s s' ∨ cenv s s'.

(** [Stream] is called on a client that is not running. *)
Definition cinit (s : cstream) : Prop :=
  ∃ inbox chans received, s = mkCS inbox MStart CRNone CTNone [] chans received false true None false [] [] [] []
    ∧ length chans = length certs.

(** ** Where the parts of a stream stand *)

Definition opened (m : cmain) : Prop := match m with MStart | MOpen => False | _ => True end.

Record cinv (s : cstream) : Prop := {
  ci_idle : ¬ opened (cs_main s) → cs_rx s = CRNone ∧ cs_tx s = CTNone ∧ cs_hands s = [] ∧ cs_errChan s = None;
  ci_running : cs_running s = match cs_main s with MOpen | MWait | MRunning _ => true | _ => false end;
  ci_cancel : cs_cancel s = match cs_main s with MReturned _ => false | _ => true end;
  ci_done err : cs_main s = MNil err ∨ cs_main s = MReturned err → cs_done s = true;
}.

Lemma cinv_init s : cinit s → cinv s.
Proof. intros (?&?&?&->&_). by split; [|..|intros err [|]]. Qed.

Ltac main_cases := repeat match goal with E : cs_main _ = _ |- _ => rewrite E in *; clear E end; simpl in *.

Ltac cinv_field := simpl; main_cases; first
  [ done
  | congruence
  | intros e [?|?]; simplify_eq; by eauto
  | intros Hno; tauto
  | match goal with Hi : ¬ opened _ → _ |- _ =>
      let Hh := fresh in intros Hno; destruct Hi as (?&?&Hh&?); [tauto|]; rewrite ?Hh in *; split_all; simplify_eq/=;
      congruence end ].

Lemma cinv_step s s' : cinv s → cstep s s' → cinv s'.
Proof. intros [Hi Hr Hc Hd] Hs. destruct Hs; split; cinv_field. Qed.

Lemma cinv_env s s' : cinv s → cenv s s' → cinv s'.
Proof.
  intros [Hi Hr Hc Hd] Hs. destruct Hs; try (unfold Kill; destruct (cs_cancel s) eqn:Ec); split; cinv_field.
Qed.

Lemma cinv_reachable s : reachable cinit cstep_or_env s → cinv s.
Proof.
  apply reachable_invariant; [apply cinv_init|]. intros s1 s2 _ Hi [Hs|Hs]; [by eapply cinv_step|by eapply cinv_env].
Qed.

(** ** Winding down *)

(** Somebody has noticed the end of the stream. *)
Definition noticed (s : cstream) : Prop :=
  cs_done s = true ∨ is_Some (cs_errChan s) ∨ (∃ err, cs_rx s = CRReport err) ∨ (∃ err, cs_tx s = CTReport err) ∨
  (∃ i err, cs_hands s !! i = Some (CHReport err)).

(** Everything has returned, and a new stream can be run. *)
Definition cfinished (s : cstream) : Prop :=
  (∃ err, cs_main s = MReturned err) ∧ cs_running s = false ∧ cs_cancel s = false ∧ cs_done s = true ∧
  (cs_rx s = CRNone ∨ cs_rx s = CRReturned) ∧ (cs_tx s = CTNone ∨ cs_tx s = CTReturned) ∧
  ∀ i h, cs_hands s !! i = Some h → h = CH CReturned.

(** The deferred calls cancel the context. *)
Lemma defers_cancel s err : cs_main s = MRunning err ∨ cs_main s = MConn err ∨ cs_main s = MCancel err →
  ∃ s', rtc cstep s s' ∧ cs_done s' = true.
Proof.
  assert (H1 : ∀ s, cs_main s = MCancel err → ∃ s', rtc cstep s s' ∧ cs_done s' = true).
  { intros s0 E. eexists. split; [by apply rtc_once, cs_defer_cancel|done]. }
  assert (H2 : ∀ s, cs_main s = MConn err → ∃ s', rtc cstep s s' ∧ cs_done s' = true).
  { intros s0 E. destruct (H1 (put_main (MCancel err) s0)) as (s'&Hr&?); [done|].
    exists s'. split; [|done]. eapply rtc_l; [by apply cs_defer_conn|done]. }
  intros [E|[E|E]]; [|by apply H2|by apply H1].
  destruct (H2 (put_main (MConn err) (put_running false s))) as (s'&Hr&?); [done|].
  exists s'. split; [|done]. eapply rtc_l; [by apply cs_defer_running|done].
Qed.

(** An error on the channel ends [Stream], which cancels the context. *)
Lemma error_cancels s err : cs_main s = MWait → cs_errChan s = Some err → ∃ s', rtc cstep s s' ∧ cs_done s' = true.
Proof.
  intros Em Ee. destruct (defers_cancel (put_main (MRunning err) (put_err None s)) err) as (s'&Hr&?); [by left|].
  exists s'. split; [|done]. eapply rtc_l; [by apply cs_end_err|done].
Qed.

Lemma noticed_cancels s : cinv s → noticed s → ∃ s', rtc cstep s s' ∧ cs_done s' = true.
Proof.
  intros Hi Hn. destruct (cs_done s) eqn:Ed; [by exists s|].
  destruct (cs_main s) as [| | |err|err|err|err|err] eqn:Em; try (by eapply defers_cancel; eauto).
  1,2: destruct (ci_idle _ Hi) as (E1&E2&E3&E4); [rewrite Em; tauto|]; unfold noticed in Hn; rewrite Ed, E1, E2, E3, E4 in Hn;
    exfalso; naive_solver.
  - destruct (cs_errChan s) as [err|] eqn:Ee; [by eapply error_cancels|].
    assert (Hrep : ∃ s1 err, cstep s s1 ∧ cs_main s1 = MWait ∧ cs_errChan s1 = Some err).
    { destruct Hn as [?|[[? ?]|[[err Ex]|[[err Ex]|(i&err&Ex)]]]]; [congruence|congruence| | |].
      - eexists _, err. split; [by eapply cs_rx_report|done].
      - eexists _, err. split; [by eapply cs_tx_report|done].
      - eexists _, err. split; [by eapply cs_hand_report|done]. }
    destruct Hrep as (s1&err&Hs&E1&E2). destruct (error_cancels s1 err E1 E2) as (s'&Hr&?).
    exists s'. split; [by eapply rtc_l|done].
  - rewrite (ci_done _ Hi err) in Ed; [done|eauto].
  - rewrite (ci_done _ Hi err) in Ed; [done|eauto].
Qed.

(** Each part by itself gets out of whatever it is doing; a step of one leaves
    the others as they are. *)
Lemma main_ends s : cs_done s = true → ∃ s', rtc cstep s s' ∧ cs_done s' = true ∧ (∃ err, cs_main s' = MReturned err) ∧
  cs_rx s' = cs_rx s ∧ cs_tx s' = cs_tx s ∧ cs_hands s' = cs_hands s.
Proof.
  intros Hd. set (Q s := ∃ s', rtc cstep s s' ∧ cs_done s' = true ∧ (∃ err, cs_main s' = MReturned err) ∧
    cs_rx s' = cs_rx s ∧ cs_tx s' = cs_tx s ∧ cs_hands s' = cs_hands s).
  assert (Hback : ∀ s1 s2, cstep s1 s2 → cs_rx s2 = cs_rx s1 → cs_tx s2 = cs_tx s1 → cs_hands s2 = cs_hands s1 → Q s2 → Q s1).
  { intros s1 s2 Hs E1 E2 E3 (s3&Hr&Hd3&Hm&H1&H2&H3). exists s3. split; [by eapply rtc_l|]. split_all; congruence. }
  assert (HN : ∀ s err, cs_done s = true → cs_main s = MNil err → Q s).
  { intros s0 err H0 E. eapply Hback; [by apply (cs_defer_nil s0 err)|done..|]. eexists. split; [done|].
    split_all; [done|by eexists|done..]. }
  assert (HC : ∀ s err, cs_done s = true → cs_main s = MCancel err → Q s).
  { intros s0 err H0 E. eapply Hback; [by apply (cs_defer_cancel s0 err)|done..|]. by eapply HN. }
  assert (HR : ∀ s err, cs_done s = true → cs_main s = MConn err → Q s).
  { intros s0 err H0 E. eapply Hback; [by apply (cs_defer_conn s0 err)|done..|]. by eapply HC. }
  assert (HW : ∀ s err, cs_done s = true → cs_main s = MRunning err → Q s).
  { intros s0 err H0 E. eapply Hback; [by apply (cs_defer_running s0 err)|done..|]. by eapply HR. }
  assert (HO : ∀ s, cs_done s = true → cs_main s = MOpen → Q s).
  { intros s0 H0 E. eapply Hback; [by apply (cs_open_done s0)|done..|]. by eapply HW. }
  destruct (cs_main s) as [| | |err|err|err|err|err] eqn:E;
    [|by apply HO| |by eapply HW|by eapply HR|by eapply HC|by eapply HN|].
  - eapply Hback; [by apply (cs_conn s)|done..|]. by eapply HO.
  - eapply Hback; [by apply (cs_end_ctx s)|done..|]. by eapply HW.
  - exists s. split; [done|]. split_all; [done|by eexists|done..].
Qed.

Lemma crx_ends s : cs_done s = true → ∃ s', rtc cstep s s' ∧ cs_done s' = true ∧ cs_main s' = cs_main s ∧
  (cs_rx s' = CRNone ∨ cs_rx s' = CRReturned) ∧ cs_tx s' = cs_tx s ∧ cs_hands s' = cs_hands s.
Proof.
  intros Hd.
  assert (Htop : ∀ s, cs_done s = true → cs_rx s = CRTop → cstep s (put_rx CRReturned s)).
  { intros s0 H0 E. pose proof (cs_rx_top s0 E) as Hs. by rewrite H0 in Hs. }
  assert (Hrep : ∀ s err, cs_done s = true → cs_rx s = CRReport err → cstep s (put_rx CRReturned s)).
  { intros s0 err H0 E. by eapply cs_rx_report_done. }
  destruct (cs_rx s) as [| | |i r|err|] eqn:E.
  - exists s. split_all; [done..|by left|done|done].
  - exists (put_rx CRReturned s). split_all; [by apply rtc_once, Htop|done|done|by right|done..].
  - exists (put_rx CRReturned (put_rx (CRReport (EWrap "failed receiving request: %w" (ESentinel Canceled))) s)).
    split_all; [|done|done|by right|done..]. eapply rtc_l; [by apply cs_rx_end|]. by eapply rtc_once, Hrep.
  - exists (put_rx CRReturned (put_rx CRTop s)). split_all; [|done|done|by right|done..].
    eapply rtc_l; [by eapply cs_rx_hand_done|]. by apply rtc_once, Htop.
  - exists (put_rx CRReturned s). split_all; [by eapply rtc_once, Hrep|done|done|by right|done..].
  - exists s. split_all; [done..|by right|done|done].
Qed.

Lemma ctx_ends s : cs_done s = true → ∃ s', rtc cstep s s' ∧ cs_done s' = true ∧ cs_main s' = cs_main s ∧
  cs_rx s' = cs_rx s ∧ (cs_tx s' = CTNone ∨ cs_tx s' = CTReturned) ∧ cs_hands s' = cs_hands s.
Proof.
  intros Hd. set (Q s := ∃ s', rtc cstep s s' ∧ cs_done s' = true ∧ cs_main s' = cs_main s ∧
    cs_rx s' = cs_rx s ∧ (cs_tx s' = CTNone ∨ cs_tx s' = CTReturned) ∧ cs_hands s' = cs_hands s).
  assert (Hrep : ∀ s err, cs_done s = true → cs_tx s = CTReport err → Q s).
  { intros s0 err H0 E. exists (put_tx CTReturned s0). split_all; [|done..|by right|done].
    by eapply rtc_once, cs_tx_report_done. }
  assert (Hsend : ∀ s what req, cs_done s = true → cs_tx s = CTSend what req → Q s).
  { intros s0 what req H0 E. destruct (Hrep (put_tx (CTReport (EWrap what (ESentinel Canceled))) s0)
      (EWrap what (ESentinel Canceled))) as (s'&Hr&H'); [done..|].
    exists s'. split; [|exact H']. eapply rtc_l; [by eapply cs_tx_end|exact Hr]. }
  destruct (cs_tx s) as [| | |what req|err|] eqn:E; [| | |by eapply Hsend|by eapply Hrep|].
  - exists s. split_all; [done..|by left|done].
  - pose proof (cs_tx_subscribe s E) as Hs. destruct (packRequest order) as [req|err].
    + destruct (Hsend (put_tx (CTSend "failed sending request: %w" req) s) "failed sending request: %w" req Hd eq_refl) as (s'&Hr&H'). exists s'.
      split; [by eapply rtc_l|exact H'].
    + destruct (Hrep (put_tx (CTReport err) s) err Hd eq_refl) as (s'&Hr&H'). exists s'. split; [by eapply rtc_l|exact H'].
  - exists (put_tx CTReturned s). split_all; [by apply rtc_once, cs_tx_done|done..|by right|done].
  - exists s. split_all; [done..|by right|done].
Qed.

Lemma hand_ends s i h : cs_done s = true → cs_hands s !! i = Some h →
  cstep s (put_hand i (CH CReturned) s) ∨ h = CH CReturned.
Proof.
  intros Hd Hi. destruct h as [[|d v|v|]|err]; [left|left|left|by right|left].
  - by apply cs_hand_done.
  - by eapply cs_hand_update_done.
  - by eapply cs_hand_ack_done.
  - by eapply cs_hand_report_done.
Qed.

Lemma hands_end n : ∀ s, cs_done s = true → ∃ s', rtc cstep s s' ∧ cs_done s' = true ∧ cs_main s' = cs_main s ∧
  cs_rx s' = cs_rx s ∧ cs_tx s' = cs_tx s ∧ length (cs_hands s') = length (cs_hands s) ∧
  ∀ i h, (i < n)%nat → cs_hands s' !! i = Some h → h = CH CReturned.
Proof.
  induction n as [|n IH]; intros s Hd.
  { exists s. split_all; try done. intros. lia. }
  destruct (IH s Hd) as (s1&R1&Hd1&Em&Ex&Et&El&Hall).
  assert (Hs : ∃ s2, rtc cstep s1 s2 ∧ s2 = put_hand n (CH CReturned) s1 ∨ s2 = s1 ∧ rtc cstep s1 s2 ∧
    ∀ h, cs_hands s1 !! n = Some h → h = CH CReturned).
  { destruct (cs_hands s1 !! n) as [h|] eqn:En; [|by exists s1; right].
    destruct (hand_ends s1 n h Hd1 En) as [Hst| ->].
    - exists (put_hand n (CH CReturned) s1). left. split; [by apply rtc_once|done].
    - exists s1. right. split_all; [done..|]. by intros h' [= <-]. }
  destruct Hs as (s2&[[R2 ->]|(->&R2&Hn)]).
  - exists (put_hand n (CH CReturned) s1). split_all; try done; [by etrans|by simpl; rewrite length_insert|].
    intros i h Hi. simpl. intros [(->&->&_)|[Hne Hl]]%list_lookup_insert_Some; [done|]. apply (Hall i); [lia|done].
  - exists s1. split_all; try done. intros i h Hi Hl. destruct (decide (i = n)) as [->|]; [by apply Hn|].
    apply (Hall i); [lia|done].
Qed.

(** C24: a client stream always comes to its end and leaves the client ready
    for the next one: as soon as anybody has noticed the end (the context is
    done, an error is on the channel or about to be), [Stream] returns, its
    deferred calls clear Running and the cancel function, and all goroutines
    return, by steps of the program alone: a watcher that takes nothing, a
    full error channel or a dead connection do not hold them up. *)
Theorem client_stream_ends s :
  reachable cinit cstep_or_env s → noticed s →
  ∃ s', rtc cstep s s' ∧ cfinished s'.
Proof.
  intros Hr Hn. destruct (noticed_cancels s (cinv_reachable _ Hr) Hn) as (s0&R0&D0).
  destruct (main_ends s0 D0) as (s1&R1&D1&[err M1]&X1&T1&H1).
  destruct (crx_ends s1 D1) as (s2&R2&D2&M2&X2&T2&H2). destruct (ctx_ends s2 D2) as (s3&R3&D3&M3&X3&T3&H3).
  destruct (hands_end (length (cs_hands s3)) s3 D3) as (s4&R4&D4&M4&X4&T4&L4&H4).
  assert (R : rtc cstep s s4) by (etrans; [exact R0|]; etrans; [exact R1|]; etrans; [exact R2|]; by etrans).
  exists s4. split; [exact R|].
  assert (Hc : cinv s4).
  { apply cinv_reachable. eapply reachable_rtc; [exact Hr|]. eapply rtc_subrel; [|exact R]. by left. }
  assert (Em : cs_main s4 = MReturned err) by congruence.
  unfold cfinished. rewrite (ci_running _ Hc), (ci_cancel _ Hc), Em, X4, X3, T4. split_all; [by eexists|done..|].
  intros i h Hi. apply (H4 i); [|done]. rewrite <- L4. by eapply lookup_lt_Some.
Qed.

(** ** Order *)

(** What the handler in state [h] has done with the responses [T] it took: [U]
    went to UpdateChan, [A] was acknowledged. *)
Definition handled (cert : ClientCertification) (T : list respData) (U : list certData) (A : list string) (k m : nat) : Prop :=
  Forall2 (λ r d, onSecret cert r = Some (CUpdate d (rd_Version r))) (take k T) U ∧
  A = rd_Version <$> take m T ∧ (m ≤ k ≤ length T)%nat ∧ (length T ≤ S m)%nat.

Definition took (cert : ClientCertification) (h : option chand) (T : list respData) (U : list certData) (A : list string) : Prop :=
  ∃ k m, handled cert T U A k m ∧
    match h with
    | None => T = []
    | Some (CH CWait) => m = length T
    | Some (CH (CUpdate d v)) => k = m ∧ ∃ r, T !! m = Some r ∧ onSecret cert r = Some (CUpdate d v)
    | Some (CH (CAck v)) => k = S m ∧ ∃ r, T !! m = Some r ∧ rd_Version r = v
    | _ => True
    end.

Lemma took_return cert h T U A : took cert h T U A → took cert (Some (CH CReturned)) T U A.
Proof. intros (k&m&H&_). by exists k, m. Qed.

Lemma onSecret_version cert r c : onSecret cert r = Some c → ∃ d, c = CUpdate d (rd_Version r).
Proof. unfold onSecret. destruct (sec_Type _); intros [= <-]; eauto. Qed.

Lemma took_take cert r T U A : took cert (Some (CH CWait)) T U A → took cert (Some (takeResponse cert r)) (T ++ [r]) U A.
Proof.
  intros (k&m&(HU&->&Hk&Hm)&->). assert (k = length T) as -> by lia. exists (length T), (length T). split.
  - unfold handled. rewrite length_app. simpl. rewrite !take_app_length. rewrite firstn_all in *. split_all; [done..|lia|lia].
  - unfold takeResponse. destruct (onSecret cert r) as [c|] eqn:Er; [|done].
    destruct (onSecret_version _ _ _ Er) as [d ->]. split; [done|]. exists r. split; [|done].
    by rewrite list_lookup_middle.
Qed.

Lemma took_update cert d v T U A : took cert (Some (CH (CUpdate d v))) T U A → took cert (Some (CH (CAck v))) T (U ++ [d]) A.
Proof.
  intros (k&m&(HU&->&Hk&Hm)&->&r&Hr&Es). destruct (onSecret_version _ _ _ Es) as [d' [= <- Ev]].
  pose proof (lookup_lt_Some _ _ _ Hr) as Hlt. exists (S m), m. split.
  - unfold handled. split_all; [|done|lia|lia|done]. rewrite (take_S_r _ _ _ Hr).
    apply Forall2_app; [done|]. constructor; [|done]. by rewrite Es, Ev.
  - split; [done|]. by exists r.
Qed.

Lemma took_ack cert v T U A : took cert (Some (CH (CAck v))) T U A → took cert (Some (CH CWait)) T U (A ++ [v]).
Proof.
  intros (k&m&(HU&->&Hk&Hm)&->&r&Hr&<-). pose proof (lookup_lt_Some _ _ _ Hr) as Hlt. exists (S m), (S m). split; [|lia].
  unfold handled. split_all; [done| |lia..]. by rewrite (take_S_r _ _ _ Hr), fmap_app.
Qed.

(** The requests that should be on the wire. *)
Definition ackOf (a : nat * string) : option DiscoveryRequest := (λ cert, ackRequest cert a.2) <$> certs !! a.1.

Definition wire (s : cstream) : Prop :=
  match cs_tx s with
  | CTNone | CTSubscribe => cs_sent s = [] ∧ cs_acks s = []
  | CTLoop => ∃ req, packRequest order = Ok req ∧ cs_sent s = req :: omap ackOf (cs_acks s)
  | CTSend _ r => ∃ req, packRequest order = Ok req ∧ cs_sent s ++ [r] = req :: omap ackOf (cs_acks s)
  | CTReport _ | CTReturned => cs_sent s = [] ∨
      ∃ req, packRequest order = Ok req ∧ cs_sent s `prefix_of` req :: omap ackOf (cs_acks s)
  end.

Definition order_inv (s : cstream) : Prop :=
  wire s ∧ ∀ i cert, certs !! i = Some cert →
    took cert (cs_hands s !! i) (sel i (cs_taken s)) (sel i (cs_updates s)) (sel i (cs_acks s)).

Lemma order_init s : cinit s → order_inv s.
Proof.
  intros (?&?&?&->&_). split; [done|]. intros i cert _. exists 0%nat, 0%nat. split; [|done].
  unfold handled. simpl. split_all; [constructor|done|lia..].
Qed.

Lemma order_env s s' : cinv s → order_inv s → cenv s s' → order_inv s'.
Proof.
  intros Hc [Hw Ht] Hs. destruct Hs; try (by split).
  - unfold Kill. by destruct (cs_cancel s).
  - destruct (ci_idle _ Hc) as (E1&E2&E3&E4); [rewrite H; tauto|]. split.
    + unfold wire in *. simpl. by rewrite E2 in Hw.
    + intros i cert Hi. destruct (Ht i cert Hi) as (k&m&Hh&Hn). rewrite E3 in Hn. simpl in *.
      rewrite lookup_replicate_2 by (by eapply lookup_lt_Some). exists k, m. split; [done|].
      rewrite Hn in *. destruct Hh as (_&_&?&?). simpl in *. lia.
  - split; [|done]. unfold wire in *. rewrite H in Hw. by destruct Hw as (r&E&Hw); exists r.
  - split; [|done]. unfold wire in *. rewrite H in Hw. simpl. right. destruct Hw as (r&E&Hw). exists r. split; [done|].
    rewrite <- Hw. by apply prefix_app_r.
Qed.

(** Handler [j] moves from [h] to [h']; the logs change at [j] only. *)
Lemma order_hand (s s' : cstream) j h h' :
  (∀ i cert, certs !! i = Some cert →
    took cert (cs_hands s !! i) (sel i (cs_taken s)) (sel i (cs_updates s)) (sel i (cs_acks s))) →
  cs_hands s !! j = Some h → cs_hands s' = <[ j := h' ]> (cs_hands s) →
  (∀ i, i ≠ j → sel i (cs_taken s') = sel i (cs_taken s) ∧ sel i (cs_updates s') = sel i (cs_updates s) ∧
    sel i (cs_acks s') = sel i (cs_acks s)) →
  (∀ cert, certs !! j = Some cert →
    took cert (Some h) (sel j (cs_taken s)) (sel j (cs_updates s)) (sel j (cs_acks s)) →
    took cert (Some h') (sel j (cs_taken s')) (sel j (cs_updates s')) (sel j (cs_acks s'))) →
  ∀ i cert, certs !! i = Some cert →
    took cert (cs_hands s' !! i) (sel i (cs_taken s')) (sel i (cs_updates s')) (sel i (cs_acks s')).
Proof.
  intros Ht Hj Eh Ho Hn i cert Hi. rewrite Eh. destruct (decide (i = j)) as [->|Hne].
  - rewrite list_lookup_insert_eq by (by eapply lookup_lt_Some). apply Hn; [done|]. rewrite <- Hj. by apply Ht.
  - rewrite list_lookup_insert_ne by done. destruct (Ho i Hne) as (->&->&->). by apply Ht.
Qed.

Ltac sel_other := intros ? ?; simpl; rewrite ?sel_snoc, ?decide_False, ?app_nil_r by done; by split_all.

Lemma wire_ack s i v cert : wire s → cs_tx s = CTLoop → certs !! i = Some cert →
  wire (put_hand i (CH CWait) (put_tx (CTSend "failed sending ack: %w" (ackRequest cert v)) (log_ack i v s))).
Proof.
  intros Hw Et Hc. unfold wire in *. rewrite Et in Hw. simpl. destruct Hw as (r&E&Hw). exists r. split; [done|].
  rewrite Hw, omap_app. simpl. unfold ackOf at 3. simpl. by rewrite Hc.
Qed.

Lemma wire_fail s x : wire s → (∃ err, x = CTReport err) ∨ x = CTReturned → wire (put_tx x s).
Proof.
  intros Hw Hx. assert (Hgoal : cs_sent s = [] ∨ ∃ req, packRequest order = Ok req ∧
    cs_sent s `prefix_of` req :: omap ackOf (cs_acks s)).
  { unfold wire in Hw. destruct (cs_tx s) as [| | |w r|e|]; try done.
    - left. by destruct Hw.
    - left. by destruct Hw.
    - right. destruct Hw as (r&E&->). by exists r.
    - right. destruct Hw as (r'&E&Hw). exists r'. split; [done|]. rewrite <- Hw. by apply prefix_app_r. }
  unfold wire. simpl. by destruct Hx as [[err ->]| ->].
Qed.

Lemma order_step s s' : cinv s → order_inv s → cstep s s' → order_inv s'.
Proof.
  intros Hc [Hw Ht] Hs. destruct Hs; try (by split).
  - split; [done|]. eapply order_hand; [exact Ht|done..|sel_other|]. intros cert' Hc' H'. simplify_eq.
    simpl. rewrite sel_snoc, decide_True by done. by apply took_take.
  - split; [done|]. eapply order_hand; [exact Ht|done..|sel_other|]. intros. by eapply took_return.
  - split; [done|]. eapply order_hand; [exact Ht|done..|sel_other|]. intros cert' Hc' H'.
    simpl. rewrite sel_snoc, decide_True by done. by apply took_update.
  - split; [done|]. eapply order_hand; [exact Ht|done..|sel_other|]. intros. by eapply took_return.
  - split; [by apply wire_ack|]. eapply order_hand; [exact Ht|done..|sel_other|]. intros cert' Hc' H'.
    simpl. rewrite sel_snoc, decide_True by done. by apply took_ack.
  - split; [done|]. eapply order_hand; [exact Ht|done..|sel_other|]. intros. by eapply took_return.
  - split; [done|]. eapply order_hand; [exact Ht|done..|sel_other|]. intros. by eapply took_return.
  - split; [done|]. eapply order_hand; [exact Ht|done..|sel_other|]. intros. by eapply took_return.
  - (* the subscription *) split; [|done]. unfold wire in *. rewrite H in Hw. destruct Hw as [E1 E2]. simpl.
    destruct (packRequest order) as [req|err]; [|by left]. exists req. by rewrite E1, E2.
  - split; [|done]. apply wire_fail; [done|eauto].
  - split; [|done]. apply wire_fail; [done|eauto].
  - split; [|done]. apply (wire_fail s); [done|eauto].
  - split; [|done]. apply wire_fail; [done|eauto].
Qed.

Lemma order_reachable s : reachable cinit cstep_or_env s → order_inv s.
Proof.
  intros Hr. assert (H : cinv s ∧ order_inv s); [|by destruct H]. revert s Hr. apply reachable_invariant.
  - intros s Hi. split; [by apply cinv_init|by apply order_init].
  - intros s s' _ [Hc Ho] [Hs|Hs].
    + split; [by eapply cinv_step|by eapply order_step].
    + split; [by eapply cinv_env|by eapply order_env].
Qed.

(** C25: the client acknowledges nothing it has not handed on: of the
    responses [T] that the handler of a certificate took, a prefix went to its
    update channel, in order and each once, and a prefix of that prefix was
    acknowledged, each under its own version; at most the last response is
    still in the handler's hands.  On the wire, the subscription comes first,
    then the acknowledgements of all handlers in the order they were made. *)
Theorem acks_after_updates s :
  reachable cinit cstep_or_env s →
  (∀ i cert, certs !! i = Some cert → ∃ k m,
     let T := sel i (cs_taken s) in
     Forall2 (λ r d, onSecret cert r = Some (CUpdate d (rd_Version r))) (take k T) (sel i (cs_updates s)) ∧
     sel i (cs_acks s) = rd_Version <$> take m T ∧ (m ≤ k ≤ length T)%nat ∧ (length T ≤ S m)%nat) ∧
  (cs_sent s = [] ∨ ∃ req, packRequest order = Ok req ∧ cs_sent s `prefix_of` req :: omap ackOf (cs_acks s)).
Proof.
  intros [Hw Ht]%order_reachable. split.
  - intros i cert Hi. destruct (Ht i cert Hi) as (k&m&Hh&_). by exists k, m.
  - unfold wire in Hw. destruct (cs_tx s); try done; try (by left; destruct Hw);
      right; destruct Hw as (r&E&Hw); exists r; (split; [done|]); [by rewrite Hw|].
    rewrite <- Hw. by apply prefix_app_r.
Qed.
End ClientStream.

(** ** A stream with two certificates *)

Module Demo.
Definition certs : list ClientCertification := ClientSds.Demo.certs.
Definition order : list ClientCertification := [ClientSds.Demo.other; ClientSds.Demo.conf].
Definition step : cstream → cstream → Prop := cstep_or_env certs order.
Definition s0 : cstream := mkCS [] MStart CRNone CTNone [] [[]; []] 0 false true None false [] [] [] [].
Definition request : DiscoveryRequest := match packRequest order with Ok r => r | Err _ => Sds.Demo.ack end.
Definition r0 : respData := ClientSds.Demo.r0.
Definition resp : DiscoveryResponse := mkDiscoveryResponse (rd_Version r0) [Some (rd_Secret r0)].
Definition d0 : certData := delivery ClientSds.Demo.conf Sds.Demo.c0.
Definition ack : DiscoveryRequest := ackRequest ClientSds.Demo.conf "v1".

(** The certificate of "web" came, went to the watcher's channel and was
    acknowledged. *)
Definition served : cstream :=
  mkCS [] MWait CRTop CTLoop [CH CWait; CH CWait] [[d0]; []] 1 true true None false [request; ack] [(0%nat, r0)] [(0%nat, d0)]
    [(0%nat, "v1")].
End Demo.

Lemma demo_served : reachable (cinit Demo.certs) Demo.step Demo.served.
Proof.
  assert (R : reachable (cinit Demo.certs) Demo.step Demo.s0) by (apply reach_init; by eexists [], _, _).
  run_step R cs_conn. run_step R ce_open. run_step R cs_tx_subscribe. run_step R ce_sent.
  run_step R (ce_response _ _ Demo.resp). run_step R cs_rx_top. run_step R cs_rx_recv. run_step R cs_rx_hand.
  run_step R (cs_hand_update _ _ _ 0%nat). run_step R (cs_hand_ack _ _ _ 0%nat). run_step R ce_sent. exact R.
Qed.

(** A second response finds the watcher's channel full; the stream is killed
    and ends although nobody takes the update. *)
Lemma client_stream_ends_witness :
  ∃ s s', reachable (cinit Demo.certs) Demo.step s ∧ cs_hands s !! 0%nat = Some (CH (CUpdate Demo.d0 "v1")) ∧
    cs_chans s !! 0%nat = Some [Demo.d0] ∧ rtc (cstep Demo.certs Demo.order) s s' ∧ cfinished s'.
Proof.
  pose proof demo_served as R. unfold Demo.served in R.
  run_step R (ce_response _ _ Demo.resp). run_step R cs_rx_top. run_step R cs_rx_recv. run_step R cs_rx_hand.
  run_step R ce_kill.
  match type of R with reachable _ _ ?s => destruct (client_stream_ends Demo.certs Demo.order s R) as (s'&Hs&Hf);
    [left; reflexivity|exists s, s'; split; [exact R|]] end.
  split_all; [vm_compute; reflexivity|reflexivity|exact Hs|apply Hf..].
Defined.

Lemma acks_after_updates_witness :
  sel 0 (cs_acks Demo.served) = ["v1"] ∧ sel 0 (cs_updates Demo.served) = [Demo.d0] ∧
  (cs_sent Demo.served = [] ∨ ∃ req, packRequest Demo.order = Ok req ∧
    cs_sent Demo.served `prefix_of` req :: omap (ackOf Demo.certs) (cs_acks Demo.served)).
Proof.
  destruct (acks_after_updates Demo.certs Demo.order Demo.served demo_served) as [_ H].
  split; [reflexivity|]. split; [reflexivity|exact H].
Defined.
