(* ===== verification/EndToEnd.v ===== *)
(** The certdx client against the certdx server: the two ends of an SDS stream
    (Stream, ClientStream), joined by the connection, which carries requests
    and responses in order or fails.  With this client the server's stream is
    not stalled, no pack handler panics, and neither receive loop ever waits
    for a handler that waits for something else. *)

From Stdlib Require Import ZArith Lia.
From stdpp Require Import base option list gmap sets strings relations.
From S2P Require Import Prelude.
From S2P Require Import GoStd.
From S2P Require Import Config.
From S2P Require Import CertEntry.
From S2P Require Import Sds.
From S2P Require Import Daemon.
From S2P Require Import ClientSds.
From S2P Require Import Stream.
From S2P Require Import ClientStream.

Open Scope Z_scope.

Section Both.
Variable allowed : list string.
Variable range : gmap string (list string) → list (string * list string).
Hypothesis range_all : ∀ m, range m ≡ₚ map_to_list m.
Variable versionOf : Time → string.
Variables certs order : list ClientCertification.

(** The response that offers a certificate for a pack (pkg/server/sds.go,
    [handleCert]). *)
Definition mkResponse (n : string) (c : CertT) : DiscoveryResponse :=
  mkDiscoveryResponse (versionOf (RenewAt c)) [Some (mkSecret n (TlsCertificate (FullChain c) (PrivKey c)))].

Record both := mkBoth { b_srv : stream; b_cli : cstream }.

(** Either end moves by itself, a message crosses the connection, or the
    environment of one end acts without carrying a message. *)
Inductive bstep : both → both → Prop :=
| b_server s s' c : sstep allowed range versionOf s s' → bstep (mkBoth s c) (mkBoth s' c)
| b_client s c c' : cstep certs order c c' → bstep (mkBoth s c) (mkBoth s c')
| b_response s c n x : sm_tx s = TxSend n x →
    bstep (mkBoth s c) (mkBoth (set_tx TxIdle (add_sent (n, x) s)) (put_inbox (cs_inbox c ++ [mkResponse n x]) c))
| b_request s c what req : cs_tx c = CTSend what req →
    bstep (mkBoth s c) (mkBoth (set_inbox (sm_inbox s ++ [req]) s) (put_tx CTLoop (log_sent req c)))
| b_server_env s s' c : estep s s' → sm_inbox s' = sm_inbox s → sm_sent s' = sm_sent s →
    bstep (mkBoth s c) (mkBoth s' c)
| b_client_env s c c' : cenv certs c c' → cs_inbox c' = cs_inbox c → cs_sent c' = cs_sent c →
    bstep (mkBoth s c) (mkBoth s c').

Definition binit (b : both) : Prop := b_srv b = mkStream [] recv_init RxTop TxIdle ∅ None false None [] ∧
  cinit certs (b_cli b) ∧ cs_inbox (b_cli b) = [].

(** ** What is under way *)

(** A token is a pack and the version of its certificate that is under way from
    the server's handler to the client's and, acknowledged, back. *)
Abbreviation token := (string * string)%type (only parsing).

Definition respToken (resp : DiscoveryResponse) : list token :=
  match dresp_Resources resp with Some sec :: _ => [(sec_Name sec, dresp_VersionInfo resp)] | _ => [] end.
Definition ackToken (req : DiscoveryRequest) : list token :=
  match dr_Metadata req, dr_ResourceNames req with None, [n] => [(n, dr_VersionInfo req)] | _, _ => [] end.
Definition actToken (req : DiscoveryRequest) (a : action) : list token :=
  match a with Forward n => [(n, dr_VersionInfo req)] | Start _ _ => [] end.
Definition handToken (i : nat) (h : chand) : list token :=
  match certs !! i, h with Some cert, CH c => (λ v, (cc_Name cert, v)) <$> held c | _, _ => [] end.

Definition txTokens (s : stream) : list token :=
  match sm_tx s with TxSend n c => [(n, versionOf (RenewAt c))] | _ => [] end.
Definition rxTokens (s : stream) : list token :=
  match sm_rx s with RxActs req acts _ => acts ≫= actToken req | _ => [] end.
Definition serverTokens (s : stream) : list token := txTokens s ++ (sm_inbox s ≫= ackToken) ++ rxTokens s.

Definition crxTokens (c : cstream) : list token :=
  match cs_rx c with CRHand _ r => [(sec_Name (rd_Secret r), rd_Version r)] | _ => [] end.
Definition ctxTokens (c : cstream) : list token := match cs_tx c with CTSend _ req => ackToken req | _ => [] end.
Definition handTokens (l : list chand) : list token := mjoin (imap handToken l).
Definition clientTokens (c : cstream) : list token :=
  (cs_inbox c ≫= respToken) ++ crxTokens c ++ handTokens (cs_hands c) ++ ctxTokens c.

Definition tokens (b : both) : list token := serverTokens (b_srv b) ++ clientTokens (b_cli b).

Lemma handTokens_insert l i h h' : l !! i = Some h →
  ∃ l1 l2, handTokens l = l1 ++ handToken i h ++ l2 ∧ handTokens (<[ i := h' ]> l) = l1 ++ handToken i h' ++ l2.
Proof.
  intros Hi. pose proof (lookup_lt_Some _ _ _ Hi) as Hlt.
  assert (E : handTokens l = handTokens (take i l ++ h :: drop (S i) l)) by (by rewrite take_drop_middle).
  rewrite E, insert_take_drop by done. unfold handTokens.
  exists (mjoin (imap handToken (take i l))), (mjoin (imap (λ j, handToken (i + S j)) (drop (S i) l))).
  rewrite !imap_app, !join_app. simpl. rewrite length_take, Nat.min_l by lia. rewrite !Nat.add_0_r.
  split; repeat f_equal; apply imap_ext; intros j x _; simpl; f_equal; lia.
Qed.

Lemma dispatchTable_lookup n i : dispatchTable certs !! n = Some i → ∃ cert, certs !! i = Some cert ∧ cc_Name cert = n.
Proof.
  unfold dispatchTable. induction certs as [|c l IH] using rev_ind; [done|].
  rewrite imap_app, foldl_app. simpl. rewrite lookup_insert_Some. intros [[<- <-]|[_ Hl]].
  - exists c. split; [|done]. by rewrite Nat.add_0_r, list_lookup_middle.
  - destruct (IH Hl) as (cert&Hc&?). exists cert. split; [|done]. by apply lookup_app_l_Some.
Qed.

(** ** Each end by itself *)

(** A handler of the server shares the stream's context, and only its end lets
    it return. *)
Definition server_inv (s : stream) : Prop := ∀ n h, sm_packs s !! n = Some h →
  h_done h = sm_ctx s ∧ (h_state h = HReturned → sm_ctx s = true).

Lemma returned_done h h' : hstep versionOf h h' → h_state h' = HReturned → h_state h = HReturned ∨ h_done h = true.
Proof.
  intros Hs. destruct Hs; simpl; intros E; try (by left); try (by right); try done.
  - by destruct (IsValid _ _).
  - destruct (h_done w); [by right|done].
  - unfold on_ack in E. by repeat case_match.
Qed.

Lemma server_inv_cancel s : server_inv s → server_inv (cancel s).
Proof. intros Hi n h. simpl. rewrite lookup_fmap. by destruct (sm_packs s !! n); intros [= <-]. Qed.

Lemma server_inv_pack s n h : server_inv s → h_done h = sm_ctx s → (h_state h = HReturned → sm_ctx s = true) →
  server_inv (set_pack n h s).
Proof. intros Hi Hd Hr m h'. simpl. intros [[<- <-]|[_ ?]]%lookup_insert_Some; [done|by apply (Hi m)]. Qed.

Lemma server_inv_hstep s n h h' : server_inv s → sm_packs s !! n = Some h → hstep versionOf h h' → h_done h' = h_done h →
  server_inv (set_pack n h' s).
Proof.
  intros Hi Hl Hs Hd. destruct (Hi n h Hl) as [Hc Hr]. apply server_inv_pack; [done|by rewrite Hd|].
  intros E. destruct (returned_done _ _ Hs E) as [?|?]; [auto|congruence].
Qed.

Lemma offer_done h h' x : hstep versionOf h h' → h_offered h' = x :: h_offered h → h_done h' = h_done h.
Proof.
  assert (Hne : ∀ l : list (CertT * nat), l ≠ x :: l) by (intros l E; apply (f_equal length) in E; simpl in E; lia).
  intros Hs Ho. destruct Hs; simpl in *; try done. by apply Hne in Ho.
Qed.

Lemma server_inv_step s s' : server_inv s → sstep allowed range versionOf s s' → server_inv s'.
Proof.
  intros Hi Hs. destruct Hs; try exact Hi.
  - apply (server_inv_hstep s n h); [done..|by apply hs_ack|done].
  - match goal with Hh : hinit _ |- _ => destruct Hh as (?&?&?&?&->) end. by apply server_inv_pack.
  - destruct H0 as (Hs&Hd&_). by apply (server_inv_hstep s n h).
  - apply (server_inv_hstep s n h); [done..|]. by eapply offer_done.
  - by apply server_inv_cancel.
Qed.

Lemma server_inv_env s s' : server_inv s → estep s s' → server_inv s'.
Proof. intros Hi Hs. destruct Hs; try exact Hi. by apply server_inv_cancel. Qed.

(** On the client, only responses of the server are under way, each is handed
    to the handler of its name, and a handler returns only at the end. *)
Record client_inv (c : cstream) : Prop := {
  cl_inbox : Forall (λ resp, ∃ n x, resp = mkResponse n x) (cs_inbox c);
  cl_rx i r : cs_rx c = CRHand i r → ∃ cert x, certs !! i = Some cert ∧
    r = mkRespData (versionOf (RenewAt x)) (mkSecret (cc_Name cert) (TlsCertificate (FullChain x) (PrivKey x)));
  cl_len : cs_rx c ≠ CRNone → length (cs_hands c) = length certs;
  cl_hands i h : cs_hands c !! i = Some h →
    is_Some (certs !! i) ∧ (∀ err, h ≠ CHReport err) ∧ (h = CH CReturned → cs_done c = true);
}.

Lemma onResponse_mk n x got r : onResponse (dispatchTable certs) (mkResponse n x) = (got, r) →
  ∀ i d, r = Ok (i, d) → ∃ cert, certs !! i = Some cert ∧ cc_Name cert = n ∧
    d = mkRespData (versionOf (RenewAt x)) (mkSecret n (TlsCertificate (FullChain x) (PrivKey x))).
Proof.
  unfold onResponse, mkResponse. simpl. destruct (dispatchTable certs !! n) as [j|] eqn:Ej; intros [= <- <-] i d; [|done].
  intros [= <- <-]. destruct (dispatchTable_lookup _ _ Ej) as (cert&Hc&Hn). by exists cert.
Qed.

Lemma client_hand c i h h' : client_inv c → cs_hands c !! i = Some h → (∀ err, h' ≠ CHReport err) →
  (h' = CH CReturned → cs_done c = true) → ∀ j k, <[ i := h' ]> (cs_hands c) !! j = Some k →
  is_Some (certs !! j) ∧ (∀ err, k ≠ CHReport err) ∧ (k = CH CReturned → cs_done c = true).
Proof.
  intros Hi Hl H1 H2 j k [(->&->&_)|[Hne Hk]]%list_lookup_insert_Some; [|by apply (cl_hands _ Hi)].
  split; [by eapply (cl_hands _ Hi)|done].
Qed.

Ltac client_field Hb Hr Hl Hh := simpl; rewrite ?length_insert; first
  [ exact Hb | exact Hr | exact Hl | exact Hh
  | done
  | intros _; apply Hl; congruence
  | intros ? ? ?; simplify_eq; fail
  | let Hk := fresh in intros ?i ?h Hk; destruct (Hh _ _ Hk) as (?&?&?); split_all; by auto
  | by eapply client_hand; [by split|..|] ].

Lemma client_inv_step c c' : client_inv c → cstep certs order c c' → client_inv c'.
Proof.
  intros [Hb Hr Hl Hh] Hs. destruct Hs as [| | | | | | | | | |s resp rest got r Hx Hin Hon| |s i r cert Hx Hk Hc| | | | | | | | | | | | | | |];
    try (split; client_field Hb Hr Hl Hh; fail).
  - split; simpl; [exact Hb|by destruct (cs_done s)|intros _; apply Hl; congruence|exact Hh].
  - (* a response *) rewrite Hin in Hb. apply Forall_cons in Hb as [(n&x&->) Hb]. split; simpl; [done| | |exact Hh].
    + intros i d E. destruct r as [[i' d']|err]; [|done]. injection E as -> ->.
      destruct (onResponse_mk _ _ _ _ Hon i d eq_refl) as (cert&Hc&<-&->). by exists cert, x.
    + intros _. apply Hl. congruence.
  - (* handed over *) destruct (Hr i r Hx) as (cert'&x&Hc'&->). simplify_eq.
    split; simpl; [done|done|rewrite length_insert; intros _; apply Hl; congruence|].
    eapply client_hand; [by split|done|done|done].
  - destruct (Hh i (CHReport err)) as (_&Hn&_); [done|]. by destruct (Hn err).
Qed.

Lemma client_inv_env c c' : cinv c → client_inv c → cenv certs c c' → cs_inbox c' = cs_inbox c → client_inv c'.
Proof.
  intros Hc [Hb Hr Hl Hh] Hs Hin.
  destruct Hs; try (split; client_field Hb Hr Hl Hh; fail).
  - simpl in Hin. exfalso. apply (f_equal length) in Hin. rewrite length_app in Hin. simpl in Hin. lia.
  - unfold Kill. destruct (cs_cancel s); [|by split]. split; client_field Hb Hr Hl Hh.
  - (* the goroutines start *) split; simpl; [done|by intros ? ? [=]|intros _; by rewrite length_replicate|].
    intros i h [-> Hi]%lookup_replicate_1. split_all; [by apply lookup_lt_is_Some|by intros ? [=]|by intros [=]].
Qed.

Lemma client_inv_response c n x : client_inv c → client_inv (put_inbox (cs_inbox c ++ [mkResponse n x]) c).
Proof. intros [Hb Hr Hl Hh]. split; simpl; [|done..]. apply Forall_app. split; [done|]. constructor; [by eexists _, _|done]. Qed.

Lemma client_inv_request c what req : client_inv c → cs_tx c = CTSend what req → client_inv (put_tx CTLoop (log_sent req c)).
Proof. intros [Hb Hr Hl Hh] _. by split. Qed.

(** ** The tokens of one end *)

Lemma handToken_nil i c : held c = [] → handToken i (CH c) = [].
Proof. intros E. unfold handToken. destruct (certs !! i); [|done]. by rewrite E. Qed.

Lemma handToken_report i err : handToken i (CHReport err) = [].
Proof. unfold handToken. by destruct (certs !! i). Qed.

Lemma handToken_held i cert c : certs !! i = Some cert → handToken i (CH c) = (λ v, (cc_Name cert, v)) <$> held c.
Proof. intros E. unfold handToken. by rewrite E. Qed.

(** A handler lets go of what it holds. *)
Lemma handTokens_drop l i h : l !! i = Some h → handTokens (<[ i := CH CReturned ]> l) ⊆+ handTokens l.
Proof.
  intros Hl. destruct (handTokens_insert l i h (CH CReturned) Hl) as (l1&l2&->&->).
  rewrite (handToken_nil i CReturned) by done. solve_submseteq.
Qed.

Lemma clientTokens_drop (A B C : list token) l i h : l !! i = Some h →
  A ++ B ++ handTokens (<[ i := CH CReturned ]> l) ++ C ⊆+ A ++ B ++ handTokens l ++ C.
Proof.
  intros Hl. do 2 (apply submseteq_app; [done|]). apply submseteq_app; [by eapply handTokens_drop|done].
Qed.

Lemma sub_shape req : packRequest order = Ok req → dr_TypeUrl req = typeUrl ∧ is_Some (dr_Metadata req).
Proof. unfold packRequest. destruct (forallb _ _); [|done]. intros [= <-]. split; [done|by eexists]. Qed.

Lemma sub_token req : packRequest order = Ok req → ackToken req = [].
Proof. intros Hp. destruct (sub_shape _ Hp) as [_ [m E]]. unfold ackToken. by rewrite E. Qed.

Ltac show_tokens := unfold clientTokens, serverTokens, crxTokens, ctxTokens, rxTokens, txTokens; simpl.

(** Steps of the client only move its tokens along, or drop them. *)
Lemma clientTokens_step c c' : client_inv c → cstep certs order c c' → clientTokens c' ⊆+ clientTokens c.
Proof.
  intros [Hb Hr Hl Hh] Hs.
  destruct Hs as [| | | | | | | | |s Hx|s resp rest got r Hx Hin Hon|s Hx Hd|s i r cert Hx Hk Hc|s i r Hx| | |s i Hk|s i d v Hk
    |s i d v Hk|s i v cert Hk Hc Et|s i v Hk|s i err Hk|s i err Hk|s Et| | | |];
    try done; show_tokens.
  - rewrite Hx. by destruct (cs_done s).
  - rewrite Hx, Hin. rewrite Hin in Hb. apply Forall_cons in Hb as [(n&x&->) Hb]. simpl.
    destruct r as [[i d]|err]; [|solve_submseteq].
    destruct (onResponse_mk _ _ _ _ Hon i d eq_refl) as (cert&_&_&->). simpl. solve_submseteq.
  - rewrite Hx. solve_submseteq.
  - rewrite Hx. destruct (Hr i r Hx) as (cert'&x&Hc'&->). simplify_eq. simpl.
    destruct (handTokens_insert (cs_hands s) i (CH CWait) (CH (CUpdate (mkCertData (cc_Domains cert) (FullChain x) (PrivKey x))
      (versionOf (RenewAt x)))) Hk) as (l1&l2&E1&E2).
    unfold takeResponse, onSecret. simpl. rewrite E1, E2, (handToken_nil i CWait) by done.
    rewrite (handToken_held _ _ _ Hc). simpl. solve_submseteq.
  - rewrite Hx. solve_submseteq.
  - match goal with E : cs_rx s = _ |- _ => rewrite E end. solve_submseteq.
  - match goal with E : cs_rx s = _ |- _ => rewrite E end. solve_submseteq.
  - by eapply clientTokens_drop.
  - destruct (handTokens_insert (cs_hands s) i _ (CH (CAck v)) Hk) as (l1&l2&E1&E2). rewrite E1, E2. done.
  - by eapply clientTokens_drop.
  - destruct (handTokens_insert (cs_hands s) i _ (CH CWait) Hk) as (l1&l2&E1&E2).
    rewrite E1, E2, Et, (handToken_nil i CWait), (handToken_held _ _ _ Hc) by done. simpl. solve_submseteq.
  - by eapply clientTokens_drop.
  - by eapply clientTokens_drop.
  - by eapply clientTokens_drop.
  - rewrite Et. destruct (packRequest order) as [req|err] eqn:Ep; [|done]. by rewrite (sub_token req).
  - match goal with E : cs_tx s = _ |- _ => rewrite E end. solve_submseteq.
  - match goal with E : cs_tx s = _ |- _ => rewrite E end. solve_submseteq.
  - match goal with E : cs_tx s = _ |- _ => rewrite E end. solve_submseteq.
  - match goal with E : cs_tx s = _ |- _ => rewrite E end. solve_submseteq.
Qed.

Lemma handTokens_start n : handTokens (replicate n (CH CWait)) = [].
Proof.
  unfold handTokens. assert (H : ∀ f : nat → nat, mjoin (imap (λ i, handToken (f i)) (replicate n (CH CWait))) = []).
  { induction n as [|n IH]; intros f; [done|]. simpl. rewrite handToken_nil by done. exact (IH (f ∘ S)). }
  apply (H (λ i, i)).
Qed.

Lemma snoc_ne {A} (l : list A) x : l ++ [x] ≠ l.
Proof. intros E. apply (f_equal length) in E. rewrite length_app in E. simpl in E. lia. Qed.

Lemma clientTokens_env c c' : cenv certs c c' → cs_inbox c' = cs_inbox c → cs_sent c' = cs_sent c →
  clientTokens c' ⊆+ clientTokens c.
Proof.
  intros Hs Hin Hsent. destruct Hs; try done; show_tokens.
  - by apply snoc_ne in Hin.
  - unfold Kill. by destruct (cs_cancel s).
  - rewrite handTokens_start. solve_submseteq.
  - match goal with E : cs_rx s = _ |- _ => rewrite E end. solve_submseteq.
  - by apply snoc_ne in Hsent.
  - match goal with E : cs_tx s = _ |- _ => rewrite E end. solve_submseteq.
Qed.

(** ** The tokens and the handlers of the server *)

(** A pack that is under way is one whose handler waits for the acknowledgement
    of this version, or has returned; no handler panicked. *)
Definition owed (v : string) (h : hworld) : Prop :=
  (∃ c seen k, h_state h = HAck c seen k ∧ v = versionOf (RenewAt c)) ∨ h_state h = HReturned.

Record packs_ok (T : list token) (P : gmap string hworld) : Prop := {
  po_nodup : NoDup T.*1;
  po_owed n v : (n, v) ∈ T → ∃ h, P !! n = Some h ∧ owed v h;
  po_panic n h : P !! n = Some h → h_state h ≠ HPanicked;
}.

Lemma packs_ok_sub T T' P : T' ⊆+ T → packs_ok T P → packs_ok T' P.
Proof.
  intros Hs [Hn Ho Hp]. split; [|intros n v Hin; apply Ho; by eapply elem_of_submseteq|done].
  apply (fmap_submseteq fst) in Hs. apply submseteq_Permutation in Hs as [k Hk]. rewrite Hk in Hn.
  by apply NoDup_app in Hn as [? _].
Qed.

(** The handler of [n] changes to one that owes what it owed. *)
Lemma packs_ok_pack T P n h h' : P !! n = Some h → (∀ v, owed v h → owed v h') → h_state h' ≠ HPanicked →
  packs_ok T P → packs_ok T (<[ n := h' ]> P).
Proof.
  intros Hl Hk Hp [Hn Ho Hp']. split; [done| |].
  - intros m v Hin. destruct (Ho m v Hin) as (h0&Hm&Hw). destruct (decide (m = n)) as [->|Hne].
    + simplify_eq. exists h'. rewrite lookup_insert_eq. auto.
    + exists h0. by rewrite lookup_insert_ne.
  - intros m h0 [[<- <-]|[_ ?]]%lookup_insert_Some; [done|by eapply Hp'].
Qed.

(** A handler that owes nothing may change, or start. *)
Lemma packs_ok_free T P n h' : n ∉ T.*1 → h_state h' ≠ HPanicked → packs_ok T P → packs_ok T (<[ n := h' ]> P).
Proof.
  intros Hf Hp [Hn Ho Hp']. split; [done| |].
  - intros m v Hin. destruct (Ho m v Hin) as (h0&Hm&Hw). exists h0. rewrite lookup_insert_ne; [done|].
    intros ->. apply Hf. apply list_elem_of_fmap. by exists (m, v).
  - intros m h0 [[<- <-]|[_ ?]]%lookup_insert_Some; [done|by eapply Hp'].
Qed.

Lemma packs_ok_offer T P n v h' : n ∉ T.*1 → h_state h' ≠ HPanicked → owed v h' → packs_ok T P →
  packs_ok ((n, v) :: T) (<[ n := h' ]> P).
Proof.
  intros Hf Hp Hv Ht. destruct (packs_ok_free T P n h' Hf Hp Ht) as [Hn Ho Hp']. split; [|..|done].
  - by apply NoDup_cons.
  - intros m w [[= -> ->]|Hin]%elem_of_cons; [|by apply Ho]. exists h'. by rewrite lookup_insert_eq.
Qed.

Lemma packs_ok_cancel T P : packs_ok T P → packs_ok T (with_done true <$> P).
Proof.
  intros [Hn Ho Hp]. split; [done| |].
  - intros n v Hin. destruct (Ho n v Hin) as (h&Hl&Hw). exists (with_done true h). by rewrite lookup_fmap, Hl.
  - intros n h. rewrite lookup_fmap. destruct (P !! n) as [h0|] eqn:E; intros [= <-]. exact (Hp n h0 E).
Qed.

(** A handler in another state than these is on no token. *)
Lemma packs_ok_busy T P n h : packs_ok T P → P !! n = Some h →
  (∀ c seen k, h_state h ≠ HAck c seen k) → h_state h ≠ HReturned → n ∉ T.*1.
Proof.
  intros [_ Ho _] Hl Ha Hr Hin. apply list_elem_of_fmap in Hin as ([m v]&->&Hin).
  destruct (Ho m v Hin) as (h0&Hm&Hw). simpl in *. simplify_eq. destruct Hw as [(c&seen&k&E&_)|E]; [by eapply Ha|done].
Qed.

Lemma internal_panic h h' : internal versionOf h h' → h_state h ≠ HPanicked → h_state h' ≠ HPanicked.
Proof.
  intros (Hs&_&_&Ha) Hp. destruct Hs; simpl in *; try congruence; try (by destruct (IsValid _ _)).
  - by destruct (h_done w).
  - rename select (h_state w = HAck _ _ _) into E. destruct (Ha _ _ _ E) as [E'|E']; congruence.
Qed.

Lemma internal_owed h h' v : internal versionOf h h' → owed v h → owed v h'.
Proof.
  intros (Hs&_&_&Ha) [(c&seen&k&E&->)|E].
  - destruct (Ha _ _ _ E) as [E'|E']; [left; exists c, seen, k; split; [congruence|done]|by right].
  - right. destruct Hs; simpl in *; congruence.
Qed.

(** ** Subscription first, then acknowledgements *)

Definition isAck (req : DiscoveryRequest) : Prop :=
  dr_TypeUrl req = typeUrl ∧ dr_Metadata req = None ∧ ∃ n, dr_ResourceNames req = [n].

(** The requests that the server has not read. *)
Definition pending (c : cstream) : list DiscoveryRequest := match cs_tx c with CTSend _ req => [req] | _ => [] end.

(** Nothing has been subscribed. *)
Definition fresh (s : stream) : Prop :=
  sm_packs s = ∅ ∧ sm_recv s = recv_init ∧ match sm_rx s with RxActs _ _ _ => False | _ => True end.

(** The receive loop knows the packs that are served. *)
Definition knows (d : gset string) (st : recvState) : Prop := d ⊆ dom (rv_dispatch st) ∧ is_Some (rv_domainSets st).

Definition subscribed (s : stream) : Prop :=
  match sm_rx s with
  | RxTop | RxRecv => knows (dom (sm_packs s)) (sm_recv s)
  | RxActs _ acts r => in_order allowed (dom (sm_packs s)) acts ∧
      ∀ st, r = Ok st → knows (started acts ∪ dom (sm_packs s)) st
  | _ => True
  end.

Definition proto (s : stream) (l : list DiscoveryRequest) : Prop :=
  (fresh s ∧ (l = [] ∨ ∃ sub rest, packRequest order = Ok sub ∧ l = sub :: rest ∧ Forall isAck rest)) ∨
  (subscribed s ∧ Forall isAck l).

Lemma nameLoop_empty ds names : ∀ packs, fst (nameLoop allowed ∅ ds names packs) = [].
Proof.
  induction names as [|n names IH]; intros packs; simpl; [done|].
  rewrite lookup_empty. by destruct (readPack allowed ds n).
Qed.

(** The first request only starts handlers. *)
Lemma onRequest_first req acts r : onRequest allowed range recv_init req = (acts, r) →
  acts ≫= actToken req = [] ∧ in_order allowed ∅ acts ∧ ∀ st, r = Ok st → knows (started acts) st.
Proof.
  intros Ho. split_all.
  - revert Ho. unfold onRequest. destruct (negb _); [by intros [= <- _]|].
    destruct (readDomainSets recv_init req) as [ds|]; [|by intros [= <- _]].
    pose proof (nameLoop_empty ds (dr_ResourceNames req) ∅) as Hn. simpl in *.
    destruct (nameLoop allowed ∅ ds (dr_ResourceNames req) ∅) as [acts1 [packs|]]; simpl in Hn; subst acts1; intros [= <- _]; [|done].
    simpl. induction (range packs) as [|[n d] l IH]; done.
  - apply onRequest_in_order in Ho as [Ho _]; [|done]. simpl in Ho. by rewrite dom_empty_L in Ho.
  - intros st ->. pose proof Ho as Ho'. apply onRequest_in_order in Ho as [_ Hd]; [|done]. split.
    + rewrite (Hd st eq_refl). set_solver.
    + unfold onRequest in Ho'. repeat case_match; simplify_eq; by eexists.
Qed.

(** An acknowledgement is forwarded. *)
Lemma onRequest_ack st req n : knows {[ n ]} st → dr_TypeUrl req = typeUrl → dr_ResourceNames req = [n] →
  ∃ st', onRequest allowed range st req = ([Forward n], Ok st') ∧ dom (rv_dispatch st') = dom (rv_dispatch st) ∧
    is_Some (rv_domainSets st').
Proof.
  intros [Hn [m Em]] Et En. unfold onRequest, readDomainSets. rewrite Et, String.eqb_refl, Em, En. simpl.
  assert (is_Some (rv_dispatch st !! n)) as [d ->] by (apply elem_of_dom; set_solver).
  assert (range ∅ = []) as -> by (apply Permutation_nil_r; rewrite range_all; by rewrite map_to_list_empty).
  eexists. split; [done|]. split; [done|by eexists].
Qed.

Lemma recv_cases s req rest acts r l K : sm_rx s = RxRecv → sm_inbox s = req :: rest →
  onRequest allowed range (sm_recv s) req = (acts, r) → proto s (req :: rest ++ l) →
  packs_ok (serverTokens s ++ K) (sm_packs s) →
  let s' := set_rx (RxActs req acts r) (set_inbox rest s) in
  serverTokens s' ⊆+ serverTokens s ∧ subscribed s' ∧ Forall isAck (rest ++ l).
Proof.
  intros Hx Hin Ho Hp Ht. unfold serverTokens, subscribed, rxTokens. simpl. rewrite Hx, Hin. simpl.
  destruct Hp as [[(Hpk&Hr&_) [?|(sub&rest'&Hsub&E&Hrest)]]|[Hsub Hack]]; [done| |].
  - injection E as -> <-. rewrite Hr in Ho. destruct (onRequest_first _ _ _ Ho) as (Hf&Hord&Hk).
    rewrite Hf, (sub_token sub) by done. split_all; [done| | |done].
    + by rewrite Hpk, dom_empty_L.
    + intros st E. rewrite Hpk, dom_empty_L, (right_id_L ∅ (∪)). by apply Hk.
  - apply Forall_cons in Hack as [(Et&Em&n&En) Hack]. unfold subscribed in Hsub. rewrite Hx in Hsub.
    assert (Ea : ackToken req = [(n, dr_VersionInfo req)]) by (unfold ackToken; by rewrite Em, En).
    assert (Htok : (n, dr_VersionInfo req) ∈ serverTokens s ++ K).
    { unfold serverTokens. rewrite Hin. simpl. rewrite Ea. set_solver. }
    destruct (po_owed _ _ Ht _ _ Htok) as (h&Hl&_). apply elem_of_dom_2 in Hl. destruct Hsub as [Hsub Hds].
    destruct (onRequest_ack (sm_recv s) req n) as (st'&Ho'&Hd&Hds'); [split; [set_solver|done]|done|done|].
    rewrite Ho' in Ho. injection Ho as <- <-. simpl. rewrite Ea. split_all; [|done|done| |done].
    + solve_submseteq.
    + intros st [= <-]. split; [|done]. rewrite Hd. set_solver.
Qed.

Lemma serverTokens_report s s' : sm_tx s' = sm_tx s → sm_inbox s' = sm_inbox s → rxTokens s' = [] →
  serverTokens s' ⊆+ serverTokens s.
Proof. intros E1 E2 E3. unfold serverTokens, txTokens. rewrite E1, E2, E3. solve_submseteq. Qed.

(** The acknowledgement is the one the handler waits for. *)
Lemma packs_forward s req n acts r h c seen k K : sm_rx s = RxActs req (Forward n :: acts) r →
  sm_packs s !! n = Some h → h_state h = HAck c seen k → packs_ok (serverTokens s ++ K) (sm_packs s) →
  let s' := set_rx (RxActs req acts r) (set_pack n (set_h (on_ack versionOf c seen k req) h) s) in
  packs_ok (serverTokens s' ++ K) (sm_packs s').
Proof.
  intros Hx Hl Eh Ht. cbn [sm_packs set_rx set_pack].
  assert (Hperm : serverTokens s ++ K ≡ₚ (n, dr_VersionInfo req) :: (serverTokens (set_rx (RxActs req acts r) s) ++ K)).
  { unfold serverTokens, rxTokens, txTokens. rewrite Hx. simpl. solve_Permutation. }
  assert (Hv : dr_VersionInfo req = versionOf (RenewAt c)).
  { destruct (po_owed _ _ Ht n (dr_VersionInfo req)) as (h0&Hl0&Hw); [rewrite Hperm; by left|].
    simplify_eq. destruct Hw as [(c'&seen'&k'&E&->)|E]; congruence. }
  assert (Hn : n ∉ (serverTokens (set_rx (RxActs req acts r) s) ++ K).*1).
  { pose proof (po_nodup _ _ Ht) as Hnd. rewrite Hperm in Hnd. by apply NoDup_cons in Hnd as [? _]. }
  apply packs_ok_free; [exact Hn| |].
  - simpl. unfold on_ack. by rewrite Hv, String.eqb_refl.
  - eapply packs_ok_sub; [|exact Ht]. rewrite Hperm. by apply submseteq_cons.
Qed.

(** A handler offers: its pack is under way from here on. *)
Lemma packs_offer s n h h' c k K : sm_packs s !! n = Some h → hstep versionOf h h' →
  h_offered h' = (c, k) :: h_offered h → sm_tx s = TxIdle → packs_ok (serverTokens s ++ K) (sm_packs s) →
  let s' := set_tx (TxSend n c) (set_pack n h' s) in
  packs_ok (serverTokens s' ++ K) (sm_packs s').
Proof.
  intros Hl Hs Ho Et Ht. cbn [sm_packs set_tx set_pack]. destruct (offer_cases _ _ _ _ _ Hs Ho) as (seen&E&E').
  assert (Hn : n ∉ (serverTokens s ++ K).*1) by (eapply packs_ok_busy; [done|done|congruence|congruence]).
  eapply packs_ok_sub; [|eapply (packs_ok_offer _ _ n (versionOf (RenewAt c)) h' Hn); [congruence| |exact Ht]].
  - unfold serverTokens, txTokens. rewrite Et. simpl. solve_submseteq.
  - left. by exists c, seen, k.
Qed.

(** A step of the server keeps the tokens and the handlers in step. *)
Lemma packs_server s s' l K : sstep allowed range versionOf s s' → proto s (sm_inbox s ++ l) →
  packs_ok (serverTokens s ++ K) (sm_packs s) → packs_ok (serverTokens s' ++ K) (sm_packs s').
Proof.
  assert (Hsub : ∀ s s1, sm_packs s1 = sm_packs s → serverTokens s1 ⊆+ serverTokens s →
    packs_ok (serverTokens s ++ K) (sm_packs s) → packs_ok (serverTokens s1 ++ K) (sm_packs s1)).
  { intros s0 s1 -> Hs. apply packs_ok_sub. by apply submseteq_app. }
  intros Hs Hp Ht.
  destruct Hs as [s Hx|s req rest acts r Hx Hin Ho|s Hx Hr|s req n acts r h c seen k Hx Hl Eh|s req n acts r Hx Hc
    |s req n ds acts r h Hx Hh Eds|s req st Hx|s req err Hx|s err Hx He|s err Hx Hc|s n h h' Hl Hi|s n h h' c k Hl Hh Hoff Et
    |s n c Et Hr|s err Et He|s err Et Hc|s Et Hc|s Hr Hc|s err Hr He];
    try (apply (Hsub s); [done|by apply serverTokens_report|exact Ht]; fail);
    try (apply (Hsub s); [done|unfold serverTokens, txTokens; simpl; solve_submseteq|exact Ht]; fail); try (exact Ht).
  - apply (Hsub s); [done| |done]. apply serverTokens_report; [done..|]. unfold rxTokens. simpl. by destruct (sm_ctx s).
  - apply (Hsub s); [done| |done]. rewrite Hin in Hp. by eapply recv_cases.
  - exact (packs_forward s req n acts r h c seen k K Hx Hl Eh Ht).
  - (* a handler starts *) destruct Hp as [[(_&_&Hno) _]|[Hok _]]; [by rewrite Hx in Hno|].
    unfold subscribed in Hok. rewrite Hx in Hok. destruct Hok as [(Hn&_) _].
    apply packs_ok_free.
    + intros ([m v]&->&Hin)%list_elem_of_fmap. destruct (po_owed _ _ Ht m v) as (h0&Hl&_).
      { revert Hin. unfold serverTokens, rxTokens, txTokens. simpl. by rewrite Hx. }
      apply Hn. by apply elem_of_dom_2 in Hl.
    + by destruct Hh as (?&?&?&?&->).
    + revert Ht. apply packs_ok_sub. unfold serverTokens, rxTokens, txTokens. simpl. by rewrite Hx.
  - eapply packs_ok_pack; [exact Hl| | |exact Ht]; [by intros v; apply internal_owed|].
    eapply internal_panic; [exact Hi|by eapply po_panic].
  - exact (packs_offer s n h h' c k K Hl Hh Hoff Et Ht).
  - apply packs_ok_cancel. exact Ht.
Qed.

Lemma dom_insert_same (P : gmap string hworld) n h h' : P !! n = Some h → dom (<[ n := h' ]> P) = dom P.
Proof. intros Hl. rewrite dom_insert_L. apply elem_of_dom_2 in Hl. set_solver. Qed.

(** A step of the server other than reading a request leaves the phase of the
    subscription as it is. *)
Lemma server_phase s s' : sstep allowed range versionOf s s' →
  (sm_inbox s' = sm_inbox s ∧ (fresh s → fresh s') ∧ (subscribed s → subscribed s')) ∨
  (∃ req rest acts r, sm_rx s = RxRecv ∧ sm_inbox s = req :: rest ∧
    onRequest allowed range (sm_recv s) req = (acts, r) ∧ s' = set_rx (RxActs req acts r) (set_inbox rest s)).
Proof.
  intros Hs.
  destruct Hs as [s Hx|s req rest acts r Hx Hin Ho|s Hx Hr|s req n acts r h c seen k Hx Hl Eh|s req n acts r Hx Hc
    |s req n ds acts r h Hx Hh Eds|s req st Hx|s req err Hx|s err Hx He|s err Hx Hc|s n h h' Hl Hi|s n h h' c k Hl Hh Hoff Et
    |s n c Et Hr|s err Et He|s err Et Hc|s Et Hc|s Hr Hc|s err Hr He];
    [|right; by exists req, rest, acts, r|..]; left; (split; [done|]); unfold fresh, subscribed; simpl;
    try rewrite Hx; try (by (split; intros; split_all; naive_solver)).
  - by destruct (sm_ctx s).
  - split; [by intros (_&_&?)|]. rewrite (dom_insert_same _ _ _ _ Hl). by intros [[_ ?] ?].
  - split; [by intros (_&_&?)|]. rewrite dom_insert_L. intros [(_&_&Ho) Hk]. split; [done|]. intros st E.
    replace (started acts ∪ ({[ n ]} ∪ dom (sm_packs s))) with (({[ n ]} ∪ started acts) ∪ dom (sm_packs s)) by set_solver.
    by apply Hk.
  - split; [by intros (_&_&?)|]. intros [_ Hk]. specialize (Hk st eq_refl). simpl in Hk. by rewrite (left_id_L ∅ (∪)) in Hk.
  - rewrite (dom_insert_same _ _ _ _ Hl). split; [|done]. intros (E&_). by rewrite E, lookup_empty in Hl.
  - rewrite (dom_insert_same _ _ _ _ Hl). split; [|done]. intros (E&_). by rewrite E, lookup_empty in Hl.
  - rewrite dom_fmap_L. split; [|done]. intros (->&?&?). by rewrite fmap_empty.
Qed.

Lemma proto_server s s' l K : sstep allowed range versionOf s s' → packs_ok (serverTokens s ++ K) (sm_packs s) →
  proto s (sm_inbox s ++ l) → proto s' (sm_inbox s' ++ l).
Proof.
  intros Hs Ht Hp. destruct (server_phase _ _ Hs) as [(->&Hf&Hk)|(req&rest&acts&r&Hx&Hin&Ho&->)].
  - destruct Hp as [[? ?]|[? ?]]; [left|right]; auto.
  - right. simpl. rewrite Hin in Hp. by destruct (recv_cases s req rest acts r l K Hx Hin Ho Hp Ht).
Qed.

Lemma env_phase s s' : estep s s' → sm_inbox s' = sm_inbox s →
  (fresh s → fresh s') ∧ (subscribed s → subscribed s') ∧ serverTokens s' ⊆+ serverTokens s ∧
  (∀ T, packs_ok T (sm_packs s) → packs_ok T (sm_packs s')).
Proof.
  intros Hs Hin. destruct Hs as [s req|s|s err Hx|s n c Et|s n c err Et]; unfold fresh, subscribed; simpl in *.
  - by apply snoc_ne in Hin.
  - rewrite dom_fmap_L. split_all; [|done|done|intros T; apply packs_ok_cancel]. intros (->&?&?). by rewrite fmap_empty.
  - split_all; [naive_solver|done|by apply serverTokens_report|done].
  - split_all; [done|done| |done]. unfold serverTokens, txTokens. simpl. solve_submseteq.
  - split_all; [done|done| |done]. unfold serverTokens, txTokens. simpl. solve_submseteq.
Qed.

(** What a step of the client does to the requests that are under way. *)
Definition unsubscribed (c : cstream) : Prop := cs_tx c = CTNone ∨ cs_tx c = CTSubscribe.

Definition client_phase (c c' : cstream) : Prop :=
  (pending c' = pending c ∧ (unsubscribed c' → unsubscribed c)) ∨
  (pending c' = [] ∧ ¬ unsubscribed c') ∨
  (unsubscribed c ∧ ¬ unsubscribed c' ∧ ∃ sub, packRequest order = Ok sub ∧ pending c' = [sub]) ∨
  (pending c = [] ∧ ¬ unsubscribed c' ∧ ∃ n v, (n, v) ∈ clientTokens c ∧
     ∃ req, pending c' = [req] ∧ isAck req).

Lemma client_phase_step c c' : client_inv c → cstep certs order c c' → client_phase c c'.
Proof.
  intros Hi Hs. unfold client_phase, unsubscribed, pending.
  destruct Hs as [| | | | | | | | |s Hx|s resp rest got r Hx Hin Hon|s Hx Hd|s i r cert Hx Hk Hc|s i r Hx| | |s i Hk|s i d v Hk
    |s i d v Hk|s i v cert Hk Hc Et|s i v Hk|s i err Hk|s i err Hk|s Et| | | |]; simpl;
    try (left; by split); try (right; left; split; [done|by intros [|]]; fail).
  - right; right; right. rewrite Et. split_all; [done|by intros [|]|]. exists (cc_Name cert), v. split.
    + destruct (handTokens_insert (cs_hands s) i _ (CH CWait) Hk) as (l1&l2&E1&_).
      show_tokens. rewrite E1, (handToken_held _ _ _ Hc). set_solver.
    + eexists. split; [done|]. unfold isAck. split_all; [done..|by eexists].
  - rewrite Et. destruct (packRequest order) as [req|err]; [|right; left; split; [done|by intros [|]]].
    right; right; left. split_all; [by right|by intros [|]|by exists req].
Qed.

Lemma client_phase_env c c' : cinv c → cenv certs c c' → cs_sent c' = cs_sent c → client_phase c c'.
Proof.
  intros Hi Hs Hsent. unfold client_phase, unsubscribed, pending.
  destruct Hs; simpl; try (left; by split); try (right; left; split; [done|by intros [|]]; fail).
  - left. unfold Kill. by destruct (cs_cancel s).
  - destruct (ci_idle _ Hi) as (_&E&_); [match goal with Em : cs_main s = _ |- _ => rewrite Em end; simpl; tauto|].
    left. rewrite E. auto.
Qed.

(** ** The whole stream *)

Record both_inv (b : both) : Prop := {
  bi_server : server_inv (b_srv b);
  bi_main : cinv (b_cli b);
  bi_client : client_inv (b_cli b);
  bi_packs : packs_ok (tokens b) (sm_packs (b_srv b));
  bi_proto : proto (b_srv b) (sm_inbox (b_srv b) ++ pending (b_cli b));
  bi_fresh : unsubscribed (b_cli b) → fresh (b_srv b) ∧ sm_inbox (b_srv b) = [];
}.

Lemma unsubscribed_pending c : unsubscribed c → pending c = [].
Proof. unfold unsubscribed, pending. by intros [->| ->]. Qed.

Lemma proto_drop s l k : proto s (l ++ k) → proto s l.
Proof.
  intros [[Hf Hl]|[Hs Hl]]; [left|right; split; [done|by apply Forall_app in Hl as [? _]]]. split; [done|].
  destruct l as [|x l]; [by left|]. right. destruct Hl as [Hl|(sub&rest&Hp&[= -> <-]&Hr)]; [done|].
  exists sub, l. split_all; [done..|]. by apply Forall_app in Hr as [? _].
Qed.

Lemma both_inv_client s c c' : both_inv (mkBoth s c) → cinv c' → client_inv c' → clientTokens c' ⊆+ clientTokens c →
  client_phase c c' → both_inv (mkBoth s c').
Proof.
  intros [H1 H2 H3 H4 H5 H6] Hm Hc Ht Hp. split; simpl in *; [done..| | |].
  - eapply packs_ok_sub; [|exact H4]. unfold tokens. simpl. by apply submseteq_app.
  - destruct Hp as [[-> _]|[[-> _]|[(Hu&_&sub&Hsub&->)|(En&_&n&v&Hin&req&->&Ha)]]].
    + done.
    + rewrite app_nil_r. by eapply proto_drop.
    + destruct (H6 Hu) as [Hf ->]. left. split; [done|]. right. exists sub, []. by split_all.
    + rewrite En, app_nil_r in H5. destruct (po_owed _ _ H4 n v) as (h&Hl&_); [unfold tokens; simpl; set_solver|].
      destruct H5 as [[(E&_) _]|[Hs Hl']]; [by rewrite E, lookup_empty in Hl|].
      right. split; [done|]. apply Forall_app. split; [done|by constructor].
  - intros Hu. destruct Hp as [[_ Hp]|[[_ Hp]|[(_&Hp&_)|(_&Hp&_)]]]; [by apply H6, Hp|by destruct Hp..].
Qed.

Lemma both_inv_server s s' c : both_inv (mkBoth s c) → sstep allowed range versionOf s s' → both_inv (mkBoth s' c).
Proof.
  intros [H1 H2 H3 H4 H5 H6] Hs. unfold tokens in *. simpl in *. split; simpl; [by eapply server_inv_step|done|done| | |].
  - by eapply packs_server.
  - by eapply proto_server.
  - intros Hu. destruct (H6 Hu) as [Hf Hin].
    destruct (server_phase _ _ Hs) as [(->&Hf'&_)|(req&rest&acts&r&_&Hin'&_)]; [auto|congruence].
Qed.

Lemma both_inv_server_env s s' c : both_inv (mkBoth s c) → estep s s' → sm_inbox s' = sm_inbox s → both_inv (mkBoth s' c).
Proof.
  intros [H1 H2 H3 H4 H5 H6] Hs Hin. unfold tokens in *. simpl in *.
  destruct (env_phase _ _ Hs Hin) as (Hf&Hk&Ht&Hp). split; simpl; [by eapply server_inv_env|done|done| | |].
  - apply Hp. eapply packs_ok_sub; [|exact H4]. by apply submseteq_app.
  - rewrite Hin. destruct H5 as [[? ?]|[? ?]]; [left|right]; auto.
  - rewrite Hin. intros Hu. destruct (H6 Hu). auto.
Qed.

Lemma both_inv_response s c n x : both_inv (mkBoth s c) → sm_tx s = TxSend n x →
  both_inv (mkBoth (set_tx TxIdle (add_sent (n, x) s)) (put_inbox (cs_inbox c ++ [mkResponse n x]) c)).
Proof.
  intros [H1 H2 H3 H4 H5 H6] Et. split; [exact H1|by destruct H2; split|by apply client_inv_response| |exact H5|exact H6].
  eapply packs_ok_sub; [|exact H4]. unfold tokens. show_tokens. rewrite Et, bind_app. simpl. solve_submseteq.
Qed.

Lemma both_inv_request s c what req : both_inv (mkBoth s c) → cs_tx c = CTSend what req →
  both_inv (mkBoth (set_inbox (sm_inbox s ++ [req]) s) (put_tx CTLoop (log_sent req c))).
Proof.
  intros [H1 H2 H3 H4 H5 H6] Et. unfold tokens in *. simpl in *. split; simpl; [exact H1| |by eapply client_inv_request| | |].
  - eapply cinv_env; [exact H2|by apply (ce_sent certs c what)].
  - eapply packs_ok_sub; [|exact H4]. unfold tokens. show_tokens. rewrite Et, bind_app. simpl. solve_submseteq.
  - unfold pending in *. simpl. rewrite Et in H5. by rewrite app_nil_r.
  - by intros [|].
Qed.

Lemma both_inv_reachable b0 : reachable binit bstep b0 → both_inv b0.
Proof.
  apply reachable_invariant.
  - intros [s c] (Es&Hc&Hin). simpl in *. subst s. split; simpl.
    + intros n h Hl. simpl in Hl. by rewrite lookup_empty in Hl.
    + by eapply cinv_init.
    + destruct Hc as (?&?&?&->&_). simpl in Hin. subst. by split.
    + destruct Hc as (?&?&?&->&_). simpl in Hin. subst. split; simpl; [constructor|by intros n v ?%elem_of_nil|].
      intros n h Hl. by rewrite lookup_empty in Hl.
    + left. split; [done|]. left. by destruct Hc as (?&?&?&->&_).
    + done.
  - intros b b' _ Hi Hs. destruct Hs as [s s' c Hs|s c c' Hs|s c n x Et|s c what req Et|s s' c Hs Hin Hsent|s c c' Hs Hin Hsent].
    + by eapply both_inv_server.
    + eapply both_inv_client; [exact Hi|eapply cinv_step; [apply (bi_main _ Hi)|exact Hs]| | |].
      * eapply client_inv_step; [apply (bi_client _ Hi)|exact Hs].
      * eapply clientTokens_step; [apply (bi_client _ Hi)|exact Hs].
      * eapply client_phase_step; [apply (bi_client _ Hi)|exact Hs].
    + by apply both_inv_response.
    + by eapply both_inv_request.
    + by eapply both_inv_server_env.
    + pose proof (bi_main _ Hi) as Hm. eapply both_inv_client; [exact Hi|eapply cinv_env; [exact Hm|exact Hs]| | |].
      * eapply client_inv_env; [exact Hm|apply (bi_client _ Hi)|exact Hs|exact Hin].
      * eapply clientTokens_env; [exact Hs|exact Hin|exact Hsent].
      * eapply client_phase_env; [exact Hm|exact Hs|exact Hsent].
Qed.

(** C4: joined with the certdx client, the server's stream never stalls: when
    its receive loop hands an acknowledgement to a pack handler, this handler
    is waiting for exactly this acknowledgement (or the stream is over), so
    that no pack holds up another; no pack handler panics; and when the
    client's receive loop hands a response to a handler, this handler is idle
    and not waiting for its watcher (or the stream is over). *)
Theorem end_to_end_flow b :
  reachable binit bstep b →
  (∀ req n acts r, sm_rx (b_srv b) = RxActs req (Forward n :: acts) r → ∃ h, sm_packs (b_srv b) !! n = Some h ∧
     ((∃ c seen k, h_state h = HAck c seen k ∧ dr_VersionInfo req = versionOf (RenewAt c)) ∨ sm_ctx (b_srv b) = true)) ∧
  (∀ n, ¬ stalled n (b_srv b)) ∧
  (∀ n h, sm_packs (b_srv b) !! n = Some h → h_state h ≠ HPanicked) ∧
  (∀ i r, cs_rx (b_cli b) = CRHand i r → ∃ cert, certs !! i = Some cert ∧ cc_Name cert = sec_Name (rd_Secret r) ∧
     (cs_hands (b_cli b) !! i = Some (CH CWait) ∨ cs_done (b_cli b) = true)).
Proof.
  intros [H1 H2 H3 H4 H5 H6]%both_inv_reachable.
  assert (Hfwd : ∀ req n acts r, sm_rx (b_srv b) = RxActs req (Forward n :: acts) r →
    ∃ h, sm_packs (b_srv b) !! n = Some h ∧ owed (dr_VersionInfo req) h).
  { intros req n acts r Hx. apply (po_owed _ _ H4). unfold tokens, serverTokens, rxTokens. rewrite Hx. set_solver. }
  split_all; [| |apply H4|].
  - intros req n acts r Hx. destruct (Hfwd _ _ _ _ Hx) as (h&Hl&[Hw|Hret]); exists h; (split; [done|]); [by left|].
    right. by apply (H1 n h).
  - intros n (req&acts&r&h&ch&k&Hx&Hl&Hs&_). destruct (Hfwd _ _ _ _ Hx) as (h'&Hl'&Hw). simplify_eq.
    destruct Hw as [(?&?&?&?&_)|?]; congruence.
  - intros i r Hx. destruct (cl_rx _ H3 i r Hx) as (cert&x&Hc&->). exists cert. split_all; [done..|].
    destruct (lookup_lt_is_Some_2 (cs_hands (b_cli b)) i) as [h Hl].
    { rewrite (cl_len _ H3) by congruence. by eapply lookup_lt_Some. }
    destruct (cl_hands _ H3 i h Hl) as (_&Hrep&Hret).
    assert (Hheld : ∀ c v, h = CH c → held c = [v] → False).
    { intros c v -> Hv. pose proof (po_nodup _ _ H4) as Hnd. unfold tokens, clientTokens, crxTokens in Hnd.
      destruct (handTokens_insert _ i _ (CH CWait) Hl) as (l1&l2&E1&_).
      rewrite Hx, E1, (handToken_held _ _ _ Hc), Hv in Hnd. rewrite !fmap_app in Hnd. simpl in Hnd.
      apply NoDup_app in Hnd as (_&_&Hnd). apply NoDup_app in Hnd as (_&_&Hnd).
      apply NoDup_cons in Hnd as [Hn _]. set_solver. }
    destruct h as [[|d v|v|]|err]; [by left| | |by right; apply Hret|by destruct (Hrep err)];
      exfalso; by eapply Hheld.
Qed.
End Both.

(** ** One certificate all the way and back *)

Module Demo.
Definition certs : list ClientCertification := [ClientSds.Demo.conf].
Definition allowed : list string := ["example.com"].
Definition range (m : gmap string (list string)) := map_to_list m.
Definition vOf : Time → string := Sds.Demo.versionOf.
Definition step : both → both → Prop := bstep allowed range vOf certs certs.
Definition s0 : stream := mkStream [] recv_init RxTop TxIdle ∅ None false None [].
Definition c0 : cstream := mkCS [] MStart CRNone CTNone [] [[]] 0 false true None false [] [] [] [].
Definition domains : list string := ["example.com"; "api.example.com"].
End Demo.

(** [both_step R a b] extends [R] by the step [a] of the whole, which is the
    step [b] of an end. *)
Tactic Notation "both_step" hyp(R) uconstr(a) uconstr(b) :=
  match type of R with reachable ?i ?st ?s =>
    let R' := fresh in
    eassert (R' : reachable i st _);
      [ eapply (reach_step i st s _ R); eapply a; [eapply b; try reflexivity|..]; reflexivity
      | clear R; match type of R' with reachable _ _ ?s' => let v := eval vm_compute in s' in change (reachable i st v) in R' end;
        rename R' into R ]
  end.

Lemma demo_start s req n ds acts r : sm_rx s = RxActs req (Start n ds :: acts) r →
  sstep Demo.allowed Demo.range Demo.vOf s
    (set_rx (RxActs req acts r) (set_pack n (with_done (sm_ctx s) (Stream.Demo.h0 ds)) s)).
Proof. intros Hx. eapply ss_start; [exact Hx|apply Stream.demo_hinit|done]. Qed.

Lemma demo_snapshot s n ds : sm_packs s !! n = Some (Stream.Demo.h0 ds) →
  sstep Demo.allowed Demo.range Demo.vOf s (set_pack n (Stream.Demo.h1 ds) s).
Proof. intros Hl. eapply ss_handler; [exact Hl|apply Stream.demo_first]. Qed.

Lemma demo_offers s n ds : sm_packs s !! n = Some (Stream.Demo.h1 ds) → sm_tx s = TxIdle →
  sstep Demo.allowed Demo.range Demo.vOf s (set_tx (TxSend n Stream.Demo.c0) (set_pack n (Stream.Demo.h2 ds) s)).
Proof. intros Hl Et. eapply ss_offer; [exact Hl|apply Stream.demo_offer|done|done]. Qed.

Lemma demo_acknowledged : ∃ b, reachable (binit Demo.certs) Demo.step b ∧
  ∃ req acts r, sm_rx (b_srv b) = RxActs req (Forward "web" :: acts) r.
Proof.
  assert (R : reachable (binit Demo.certs) Demo.step (mkBoth Demo.s0 Demo.c0)).
  { apply reach_init. split; [done|]. split; [|done]. by eexists [], _, _. }
  both_step R b_client cs_conn. both_step R b_client_env ce_open. both_step R b_client cs_tx_subscribe.
  run_step R b_request. both_step R b_server ss_top. both_step R b_server ss_recv.
  both_step R b_server demo_start. both_step R b_server ss_next.
  both_step R b_server (demo_snapshot _ "web" Demo.domains). both_step R b_server (demo_offers _ "web" Demo.domains).
  run_step R b_response. both_step R b_client cs_rx_top. both_step R b_client cs_rx_recv. both_step R b_client cs_rx_hand.
  both_step R b_client (cs_hand_update _ _ _ 0%nat). both_step R b_client (cs_hand_ack _ _ _ 0%nat).
  run_step R b_request. both_step R b_server ss_top. both_step R b_server ss_recv.
  match type of R with reachable _ _ ?b => exists b; split; [exact R|] end. eexists _, _, _. reflexivity.
Qed.

(** The acknowledgement on its way to the handler of "web" finds it waiting. *)
Lemma end_to_end_flow_witness :
  ∃ b, reachable (binit Demo.certs) Demo.step b ∧ (∀ n, ¬ stalled n (b_srv b)) ∧
    ∃ h, sm_packs (b_srv b) !! "web" = Some h ∧ ((∃ c seen k, h_state h = HAck c seen k) ∨ sm_ctx (b_srv b) = true).
Proof.
  destruct demo_acknowledged as (b&R&req&acts&r&Hx). exists b. split; [exact R|].
  destruct (end_to_end_flow Demo.allowed Demo.range (λ m, reflexivity _) Demo.vOf Demo.certs Demo.certs b R) as (Hf&Hs&_).
  split; [exact Hs|]. destruct (Hf req "web" acts r Hx) as (h&Hl&Hw). exists h. split; [exact Hl|].
  destruct Hw as [(c&seen&k&E&_)|E]; [left; exists c, seen, k; exact E|right; exact E].
Defined.
