(* ===== verification/Shutdown.v ===== *)
(** Shutting down.  The gRPC client (pkg/client/grpc_streamer.go) after Stop:
    every schedule ends, and none gets stuck.  The server process
    (exec/server/main.go, pkg/cli/signal.go) with its renewals and its store
    writer, at whose every step the process may end. *)

From Stdlib Require Import ZArith Lia.
From stdpp Require Import base option list gmap strings relations.
From S2P Require Import Prelude.
From S2P Require Import GoStd.
From S2P Require Import Sys.
From S2P Require Import Domain.
From S2P Require Import CertEntry.
From S2P Require Import CertStore.
From S2P Require Import Failover.

Open Scope Z_scope.

(** ** The gRPC client *)

Section Client.
Variable RetryCount : Z.
Variable standbyExists : bool.

(** What is left to do after Stop: the states order the goroutines that each
    can still start. *)
Definition work_st (s : GRPC_CLIENT_STATE) : nat :=
  match s with
  | GRPC_STATE_STOP => 1
  | GRPC_STATE_MAIN => 5
  | GRPC_STATE_RESTART_MAIN => 8
  | GRPC_STATE_TRY_FALLBACK => 12
  | GRPC_STATE_FAILOVER => 15
  end.

Definition work_go (g : go) : nat :=
  match g with
  | GSend s => S (work_st s)
  | GGrpcMain | GMain _ => 3
  | GMainStart => 4
  | GMainBackoff | GRestart _ => 7
  | GStandbyTop _ | GStandby _ _ _ | GFallbackWait _ _ => 1
  | GStandbySleep _ _ | GFallback _ => 2
  end.

Definition work_disp (d : dispatcher) : nat :=
  match d with DWait => 1 | DSend s => S (S (work_st s)) | DStopped => 0 end.

Definition work (w : grpcStreamer) : nat :=
  (on_opt work_st (stateChan w) + work_disp (disp w) + sum_list_with work_go (gos w))%nat.

(** A step of the program: not a message of the server, the passage of time or
    another call of Stop. *)
Definition own (w w' : grpcStreamer) : Prop :=
  Failover.step RetryCount standbyExists w w' ∧ received w' = received w ∧ now w' = now w ∧ w' ≠ w.

(** [run] and all goroutines have returned. *)
Definition all_returned (w : grpcStreamer) : Prop := disp w = DStopped ∧ gos w = [].

Lemma sessionDone_root w n : rootDone w = true → sessionDone w n = true.
Proof. unfold sessionDone. by intros ->. Qed.

Lemma gstep_work g w g' w' : gstep RetryCount standbyExists g w g' w' → rootDone w = true → received w' = received w →
  (on_opt work_st (stateChan w') + sum_list_with work_go (option_list g') <
     on_opt work_st (stateChan w) + work_go g)%nat ∧ disp w' = disp w ∧ rootDone w' = true.
Proof.
  intros Hs Hr Hrec. pose proof (sessionDone_root w) as Hd.
  destruct Hs; simpl in *; try congruence; try (rewrite Hd in * by done; done);
    repeat match goal with E : stateChan w = _ |- _ => rewrite E in *; clear E end; simpl in *;
    try (split_all; [lia|done|done]); lia.
Qed.

Lemma dispatch_work s w : disp w = DWait → stateChan w = Some s →
  (work (dispatch s (set_chan None w)) < work w)%nat.
Proof. intros Hd Hc. unfold work. rewrite Hc. destruct s; simpl; rewrite ?Hd; simpl; lia. Qed.

Lemma own_work w w' : rootDone w = true → own w w' → rootDone w' = true ∧ (work w' < work w)%nat.
Proof.
  intros Hr (Hs&Hrec&Hnow&Hne). destruct Hs as [w|w t Hle|w s Hd Hc|w Hd Hr'|w s Hd Hc|w s Hd Hr'|w l g l' g' w' Hg Hs].
  - destruct Hne. destruct w. simpl in *. by subst.
  - destruct Hne. destruct w. simpl in *. by subst.
  - split; [by destruct s|by apply dispatch_work].
  - split; [done|]. unfold work. rewrite Hd. simpl. lia.
  - split; [done|]. unfold work. rewrite Hd, Hc. simpl. lia.
  - split; [done|]. unfold work. rewrite Hd. simpl. lia.
  - destruct (gstep_work _ _ _ _ Hs Hr Hrec) as (Hlt&Hdisp&Hr'). split; [done|].
    unfold work. simpl. rewrite Hg, Hdisp, !sum_list_with_app. simpl. lia.
Qed.

(** Every goroutine can move. *)
Lemma gstep_root_exists g w : rootDone w = true →
  ∃ g' w', gstep RetryCount standbyExists g w g' w' ∧ received w' = received w ∧ now w' = now w.
Proof.
  intros Hr. pose proof (sessionDone_root w) as Hd. destruct g.
  - eexists _, _. split; [by apply g_stop|done].
  - eexists _, _. split; [by apply g_send_root|done].
  - eexists _, _. split; [by apply g_main_start|done].
  - eexists _, _. split; [by apply g_main_root|done].
  - eexists _, _. split; [by apply g_backoff_root|done].
  - eexists _, _. split; [by apply g_standby_exit, Hd|done].
  - eexists _, _. split; [by apply g_standby_done, Hd|done].
  - eexists _, _. split; [by apply g_standby_reset, Hd|done].
  - eexists _, _. split; [by apply g_fallback|done].
  - eexists _, _. split; [by apply g_fallback_done, Hd|done].
  - eexists _, _. split; [by apply g_restart_reset, Hd|done].
Qed.

Lemma own_exists w : rootDone w = true → all_returned w ∨ ∃ w', own w w'.
Proof.
  intros Hr. assert (Hown : ∀ w', Failover.step RetryCount standbyExists w w' → received w' = received w →
    now w' = now w → disp w' ≠ disp w ∨ gos w' ≠ gos w → ∃ w', own w w').
  { intros w' Hs H1 H2 Hne. exists w'. unfold own. split_all; [done..|]. intros ->. by destruct Hne. }
  destruct (disp w) as [|s|] eqn:Ed.
  - right. eapply Hown; [by apply s_dispatch_root|done..|]. left. simpl. congruence.
  - right. eapply Hown; [by eapply s_send_root|done..|]. left. simpl. congruence.
  - destruct (gos w) as [|g l] eqn:Eg; [by left|]. right.
    destruct (gstep_root_exists g w Hr) as (g'&w'&Hs&Hrec&Hnow).
    pose proof (s_go RetryCount standbyExists w [] g l g' w' Eg Hs) as Hstep.
    exists (set_gos (option_list g' ++ l) w'). unfold own. split_all; [exact Hstep|done|done|].
    intros E. pose proof (gstep_work _ _ _ _ Hs Hr Hrec) as (Hlt&_&_).
    apply (f_equal (λ w, on_opt work_st (stateChan w) + sum_list_with work_go (gos w))%nat) in E. revert E.
    simpl. rewrite Eg, sum_list_with_app. simpl. lia.
Qed.

(** After Stop the gRPC client shuts down on every schedule: each step of
    the dispatcher or of a goroutine, in whatever order, uses up a part of a
    finite amount of work, although states still in flight may start further
    goroutines; and until the dispatcher and all goroutines have returned,
    some step is possible.  So they all return. *)
Theorem grpc_shutdown w :
  rootDone w = true →
  (∀ w', own w w' → rootDone w' = true ∧ (work w' < work w)%nat) ∧
  (all_returned w ∨ ∃ w', own w w') ∧
  ∃ w', rtc own w w' ∧ all_returned w'.
Proof.
  intros Hr. split_all; [intros w'; by apply own_work|by apply own_exists|].
  destruct (measured_run own (λ w, rootDone w = true) all_returned work own_work own_exists w Hr) as [_ (w'&?&?&_)].
  by exists w'.
Qed.
End Client.

(** The standby stream, the fallback watcher, a restarted main stream and
    [GRPCMain] are running when Stop is called. *)
Lemma grpc_shutdown_witness :
  (work (set_root recovering) = 9)%nat ∧
  ∃ w', rtc (own 1 true) (set_root recovering) w' ∧ all_returned w'.
Proof.
  split; [vm_compute; reflexivity|]. exact (proj2 (proj2 (grpc_shutdown 1 true (set_root recovering) eq_refl))).
Defined.

(** ** The server process *)

(** A sub-server's goroutine of [main]: not enabled, serving, failed and about
    to call Stop, done. *)
Inductive subserver := SubOff | SubServing | SubFailed | SubEnded.

(** [WaitForShutdown]: waiting for a signal; in its [select], with [done]
    closed or not; returned. *)
Inductive shutdown := ShWait | ShSelect (done : bool) | ShReturned.

Section Process.
Context {F : Type} `{FileSystem F} `{CacheCodec}.

(** The domains that the configuration allows. *)
Variable allowed : list string.

Record process := mkProcess {
  p_exit : option Z;             (* the exit code *)
  p_writer : writer F;           (* listenUpdate; its context is rootCtx *)
  p_http : subserver;
  p_sds : subserver;
  p_shutdown : shutdown;
  p_signals : nat;               (* in the channel of capacity 2 *)
  p_blocked : list certStoreEntry;  (* in the select that hands the certificate over, under renewMu *)
  p_renewed : list certStoreEntry;  (* ghost: every certificate obtained *)
  p_dropped : list certStoreEntry;  (* ghost: the caller's context was done first *)
}.

Definition rootCtxDone (p : process) : bool := w_done (p_writer p).

Definition with_writer (w : writer F) (p : process) : process :=
  mkProcess (p_exit p) w (p_http p) (p_sds p) (p_shutdown p) (p_signals p) (p_blocked p) (p_renewed p) (p_dropped p).
Definition with_http (x : subserver) (p : process) : process :=
  mkProcess (p_exit p) (p_writer p) x (p_sds p) (p_shutdown p) (p_signals p) (p_blocked p) (p_renewed p) (p_dropped p).
Definition with_sds (x : subserver) (p : process) : process :=
  mkProcess (p_exit p) (p_writer p) (p_http p) x (p_shutdown p) (p_signals p) (p_blocked p) (p_renewed p) (p_dropped p).
Definition with_shutdown (x : shutdown) (n : nat) (p : process) : process :=
  mkProcess (p_exit p) (p_writer p) (p_http p) (p_sds p) x n (p_blocked p) (p_renewed p) (p_dropped p).
Definition with_renewals (blocked renewed dropped : list certStoreEntry) (p : process) : process :=
  mkProcess (p_exit p) (p_writer p) (p_http p) (p_sds p) (p_shutdown p) (p_signals p) blocked renewed dropped.
Definition exit (code : Z) (p : process) : process :=
  mkProcess (Some code) (p_writer p) (p_http p) (p_sds p) (p_shutdown p) (p_signals p)
    (p_blocked p) (p_renewed p) (p_dropped p).

(** [CertDXServer.Stop]. *)
Definition Stop (p : process) : process := with_writer (cancel (p_writer p)) p.

Definition key_of (fe : certStoreEntry) : Key := AsKey (se_Domains fe).

(** One step of the running process; an exit ends every goroutine, wherever
    it is. *)
Inductive prun : process → process → Prop :=
(* [Renew] has obtained a certificate; it holds the renewMu of its entry until it has handed it over *)
| pr_renew p fe : AllAllowed allowed (se_Domains fe) = true → key_of fe ∉ key_of <$> p_blocked p →
    prun p (with_renewals (p_blocked p ++ [fe]) (p_renewed p ++ [fe]) (p_dropped p) p)
| pr_send p l fe l' : p_blocked p = l ++ fe :: l' → (length (cs_update (w_store (p_writer p))) < updateCap)%nat →
    prun p (with_writer (send fe (p_writer p)) (with_renewals (l ++ l') (p_renewed p) (p_dropped p) p))
| pr_drop p l fe l' : p_blocked p = l ++ fe :: l' →
    prun p (with_renewals (l ++ l') (p_renewed p) (p_dropped p ++ [fe]) p)
(* the store writer's own steps *)
| pr_writer p w : wstep (p_writer p) w → w_done w = w_done (p_writer p) → w_sent w = w_sent (p_writer p) →
    prun p (with_writer w p)
(* the sub-servers: an error, the call of Stop it leads to, the end *)
| pr_http_err p : p_http p = SubServing → prun p (with_http SubFailed p)
| pr_http_stop p : p_http p = SubFailed → prun p (Stop (with_http SubEnded p))
| pr_http_end p : p_http p = SubServing → rootCtxDone p = true → prun p (with_http SubEnded p)
| pr_sds_err p : p_sds p = SubServing → prun p (with_sds SubFailed p)
| pr_sds_stop p : p_sds p = SubFailed → prun p (Stop (with_sds SubEnded p))
| pr_sds_end p : p_sds p = SubServing → rootCtxDone p = true → prun p (with_sds SubEnded p)
(* WaitForShutdown *)
| pr_signal p : (p_signals p < 2)%nat → prun p (with_shutdown (p_shutdown p) (S (p_signals p)) p)
| pr_shut_begin p n : p_shutdown p = ShWait → p_signals p = S n → prun p (with_shutdown (ShSelect false) n p)
| pr_shut_stop p : p_shutdown p = ShSelect false → prun p (Stop (with_shutdown (ShSelect true) (p_signals p) p))
| pr_shut_done p : p_shutdown p = ShSelect true → prun p (with_shutdown ShReturned (p_signals p) p)
| pr_shut_again p d n : p_shutdown p = ShSelect d → p_signals p = S n → prun p (exit 1 p)
| pr_shut_timeout p d : p_shutdown p = ShSelect d → prun p (exit 1 p)
(* main: Wait returns *)
| pr_main p : rootCtxDone p = true → prun p (exit 0 p).

Definition pstep (p p' : process) : Prop := p_exit p = None ∧ prun p p'.

(** [main], after [init] with the loaded store [s]. *)
Definition pinit (s : CertStore) (f : F) (httpEnabled sdsEnabled : bool) (p : process) : Prop :=
  ∃ w, winit s f w ∧
    p = mkProcess None w (if httpEnabled then SubServing else SubOff) (if sdsEnabled then SubServing else SubOff)
          ShWait 0%nat [] [] [].

(** ** What an exit leaves behind *)

Lemma writer_of_process (s : CertStore) (f : F) h g p : reachable (pinit s f h g) pstep p → reachable (winit s f) wstep (p_writer p).
Proof.
  revert p. apply reachable_invariant.
  - intros p (w&Hw&->). by apply reach_init.
  - intros p p' _ Hr [_ Hs].
    assert (Hstop : reachable (winit s f) wstep (p_writer (Stop p))) by (eapply reach_step; [exact Hr|apply ws_cancel]).
    destruct Hs; simpl; try exact Hr; try exact Hstop; (eapply reach_step; [exact Hr|]); [by apply ws_send|done].
Qed.

(** Why the process has ended. *)
Definition exit_reason (p : process) : Prop :=
  match p_exit p with
  | None => True
  | Some code => (code = 0 ∧ rootCtxDone p = true) ∨ (code = 1 ∧ ∃ d, p_shutdown p = ShSelect d)
  end.

Lemma exit_reason_reachable (s : CertStore) (f : F) h g p : reachable (pinit s f h g) pstep p → exit_reason p.
Proof.
  revert p. apply reachable_invariant.
  - intros p (w&_&->). done.
  - intros p p' _ _ [He Hs]. destruct Hs; unfold exit_reason; simpl; try (by rewrite He); [right|right|left]; eauto.
Qed.

(** Where the certificates that were obtained are. *)
Definition accounted (p : process) : Prop :=
  p_renewed p ≡ₚ w_sent (p_writer p) ++ p_blocked p ++ p_dropped p ∧ NoDup (key_of <$> p_blocked p).

Lemma keys_remove l (fe : certStoreEntry) l' : NoDup (key_of <$> l ++ fe :: l') → NoDup (key_of <$> l ++ l').
Proof. rewrite !fmap_app. simpl. rewrite <- Permutation_middle. by intros [_ ?]%NoDup_cons. Qed.

Lemma accounted_reachable (s : CertStore) (f : F) h g p : reachable (pinit s f h g) pstep p → accounted p.
Proof.
  revert p. apply reachable_invariant.
  - intros p (w&[_ ->]&->). by split; [|constructor].
  - intros p p' _ Ha [_ Hs]. unfold accounted in *.
    destruct Hs as [p fe Hal Hk|p l fe l' Hb _|p l fe l' Hb|p w Hw Hd Hse| | | | | | | | | | | | |]; simpl in *; try done.
    + destruct Ha as [Ha Hn]. split.
      * rewrite Ha. rewrite <- !app_assoc. do 2 apply Permutation_app_head. apply Permutation_app_comm.
      * rewrite fmap_app. simpl. rewrite <- Permutation_cons_append. by apply NoDup_cons.
    + rewrite Hb in Ha. destruct Ha as [Ha ?%keys_remove]. split; [|done].
      rewrite Ha, <- !app_assoc. apply Permutation_app_head. simpl. by rewrite <- Permutation_middle.
    + rewrite Hb in Ha. destruct Ha as [Ha ?%keys_remove]. split; [|done].
      rewrite Ha, <- !app_assoc. do 2 apply Permutation_app_head. simpl.
      rewrite (app_assoc l'), <- Permutation_cons_append. by constructor.
    + by rewrite Hse.
Qed.

(** A signal makes the process return from [main] at once. *)
Lemma exits_on_signal (s : CertStore) (f : F) h g p : reachable (pinit s f h g) pstep p →
  p_exit p = None → p_shutdown p = ShWait → p_signals p = 0%nat →
  ∃ p', reachable (pinit s f h g) pstep p' ∧ p_exit p' = Some 0 ∧ p_renewed p' = p_renewed p ∧
    p_writer p' = cancel (p_writer p).
Proof.
  intros Hr He Hs Hn. set (q n := with_shutdown ShWait n p).
  assert (R1 : reachable (pinit s f h g) pstep (q 1%nat)).
  { eapply reach_step; [exact Hr|]. split; [done|]. unfold q. rewrite <- Hs.
    pose proof (pr_signal p) as Hp. rewrite Hn in Hp. apply Hp. lia. }
  pose proof (reach_step _ _ _ _ R1 (conj He (pr_shut_begin (q 1%nat) 0 eq_refl eq_refl))) as R2.
  pose proof (reach_step _ _ _ _ R2 (conj He (pr_shut_stop (with_shutdown (ShSelect false) 0%nat (q 1%nat)) eq_refl))) as R3.
  eexists. split; [eapply reach_step; [exact R3|split; [exact He|by apply pr_main]]|]. done.
Qed.

Definition renewable (fe : certStoreEntry) : Prop := AllAllowed allowed (se_Domains fe) = true.

Lemma all_blocked (s : CertStore) (f : F) h g l : cs_update s = [] → Forall renewable l → NoDup (key_of <$> l) →
  ∃ p, reachable (pinit s f h g) pstep p ∧ p_exit p = None ∧ p_shutdown p = ShWait ∧ p_signals p = 0%nat ∧
    p_writer p = mkWriter s f Running false NoSave [] [] None ∧ p_blocked p = l ∧ p_renewed p = l.
Proof.
  intros Hq. induction l as [|fe l IH] using rev_ind.
  - intros _ _. eexists. split; [apply reach_init; eexists; split; [split; [exact Hq|reflexivity]|reflexivity]|done].
  - intros [Hal Hfe]%Forall_app. rewrite Forall_singleton in Hfe.
    rewrite fmap_app. simpl. rewrite <- Permutation_cons_append. intros [Hk Hn]%NoDup_cons.
    destruct (IH Hal Hn) as (p&Hr&He&Hs&Hsi&Hw&Hb&Hre).
    assert (Hk' : key_of fe ∉ key_of <$> p_blocked p) by by rewrite Hb.
    eexists. split; [exact (reach_step _ _ _ _ Hr (conj He (pr_renew p fe Hfe Hk')))|]. simpl. by rewrite Hb, Hre.
Qed.

(** The writer is inside os.WriteFile. *)
Lemma mid_write (s : CertStore) (f : F) h g fe text f' : cs_update s = [] → renewable fe →
  MarshalCache (Some <$> <[ key_of fe := fe ]> (cs_entries s)) = Ok text → writing (cs_path s) text f f' →
  ∃ p, reachable (pinit s f h g) pstep p ∧ p_exit p = None ∧ p_shutdown p = ShWait ∧ p_signals p = 0%nat ∧
    w_fs (p_writer p) = f' ∧ p_renewed p = [fe].
Proof.
  intros Hq Hfe Hm Hw. destruct (all_blocked s f h g [fe] Hq) as (p&Hr&He&Hs&Hn&Hwr&Hb&Hre).
  { by rewrite Forall_singleton. }
  { simpl. apply NoDup_singleton. }
  assert (Hlt : (length (cs_update (w_store (p_writer p))) < updateCap)%nat)
    by (rewrite Hwr; simpl; rewrite Hq; simpl; unfold updateCap; lia).
  pose proof (reach_step _ _ _ _ Hr (conj He (pr_send p [] fe [] Hb Hlt))) as R1.
  rewrite Hwr in R1. match type of R1 with reachable _ _ ?p1 => set (p1' := p1) in * end.
  set (w1 := send fe _) in *. set (w2 := receive fe [] w1).
  set (w3 := mkWriter (set_entries (<[ key_of fe := fe ]> (cs_entries s)) (w_store w2)) f Running false
    (Writing text f) [fe] [fe] None).
  assert (Hs1 : wstep w1 w2) by (apply ws_update; simpl; by rewrite ?Hq).
  assert (Hs2 : wstep w2 w3).
  { pose proof (ws_marshal w2 fe eq_refl) as Hm2. unfold beginSave in Hm2. simpl in Hm2.
    unfold key_of in *. by rewrite Hm in Hm2. }
  assert (Hs3 : wstep w3 (set_fs f' w3)) by (by eapply ws_partial).
  assert (R2 : reachable (pinit s f h g) pstep (with_writer w2 p1')) by (eapply reach_step; [exact R1|split; [done|by apply pr_writer]]).
  assert (R3 : reachable (pinit s f h g) pstep (with_writer w3 (with_writer w2 p1')))
    by (eapply reach_step; [exact R2|split; [done|by apply pr_writer]]).
  eexists. split; [eapply reach_step; [exact R3|split; [done|by apply (pr_writer _ (set_fs f' w3))]]|]. done.
Qed.
End Process.
Arguments process F : clear implicits.

Section Exit.
Context {F : Type} `{FileSystemLaws F} `{CacheCodecLaws}.
Variable range : gmap Key (option certStoreEntry) → list (Key * option certStoreEntry).
Hypothesis range_all : ∀ m, range m ≡ₚ map_to_list m.

(** C33: [main] ends as soon as the root context is done, without waiting for
    the store writer.  At any moment each certificate obtained has been received
    by the writer, is one of at most ten in the queue, is held by a renewal of
    another bundle that waits for room, or was given up by a caller that went
    away; and when the writer is between two writes, of which the last
    succeeded, the cache file has all those received.  But nothing bounds what is
    lost: on a signal the process may exit with code 0 after any number of
    renewals of different allowed bundles none of which has reached the writer; and it
    may exit in the middle of writing the file, truncated or cut short. *)
Theorem server_exit (allowed : list string) (s : CertStore) (f : F) h g :
  cs_update s = [] →
  (∀ p, reachable (pinit s f h g) (pstep allowed) p → exit_reason p ∧
     let w := p_writer p in
     p_renewed p ≡ₚ w_taken w ++ cs_update (w_store w) ++ p_blocked p ++ p_dropped p ∧
     (length (cs_update (w_store w)) ≤ 10)%nat ∧ NoDup (key_of <$> p_blocked p) ∧
     (w_saving w = NoSave → w_last w = Some None → recovers range s (w_taken w) (w_fs w))) ∧
  (∀ l, Forall (renewable allowed) l → NoDup (key_of <$> l) → ∃ p, reachable (pinit s f h g) (pstep allowed) p ∧ p_exit p = Some 0 ∧
     p_renewed p = l ∧ w_taken (p_writer p) = [] ∧ w_fs (p_writer p) = f) ∧
  (∀ fe text f', renewable allowed fe → MarshalCache (Some <$> <[ key_of fe := fe ]> (cs_entries s)) = Ok text →
     writing (cs_path s) text f f' →
     ∃ p, reachable (pinit s f h g) (pstep allowed) p ∧ p_exit p = Some 0 ∧ p_renewed p = [fe] ∧ w_fs (p_writer p) = f').
Proof.
  intros Hq. split_all.
  - intros p Hr. split; [by eapply exit_reason_reachable|]. destruct (accounted_reachable allowed s f h g p Hr) as [Ha Hn].
    pose proof (writer_inv_reachable s f _ (writer_of_process allowed s f h g p Hr)) as Hi. simpl. split_all.
    + rewrite Ha, (wi_queue _ _ _ Hi), <- !app_assoc. done.
    + apply (wi_bound _ _ _ Hi).
    + done.
    + by apply (inv_recovers range range_all s f).
  - intros l Hal Hl. destruct (all_blocked allowed s f h g l Hq Hal Hl) as (p&Hr&He&Hs&Hn&Hw&_&Hre).
    destruct (exits_on_signal allowed s f h g p Hr He Hs Hn) as (p'&Hr'&He'&Hre'&Hw').
    exists p'. rewrite Hw', Hw, Hre'. by split_all.
  - intros fe text f' Hfe Hm Hw. destruct (mid_write allowed s f h g fe text f' Hq Hfe Hm Hw) as (p&Hr&He&Hs&Hn&Hf&Hre).
    destruct (exits_on_signal allowed s f h g p Hr He Hs Hn) as (p'&Hr'&He'&Hre'&Hw').
    exists p'. rewrite Hw', Hre'. by split_all.
Qed.
End Exit.

#[local] Existing Instance CertStore.Demo.bit_codec.
#[local] Existing Instance CertStore.Demo.bit_codec_laws.

(** The demo store, and the cache file cut short to nothing. *)
Definition demo_store : CertStore := mkCertStore "/data/cache.json" ∅ [].
Definition truncated : Disk := mkDisk (<[ "/data/cache.json" := "" ]> ∅) [].

Lemma truncated_writing text : writing "/data/cache.json" text CertStore.Demo.empty_disk truncated.
Proof.
  split; [|split; [reflexivity|by exists "", text]]. intros q Hq. unfold truncated. simpl. by rewrite read_insert_ne.
Qed.

(** Two renewals are lost; another exit leaves an empty file. *)
Lemma server_exit_witness :
  (∃ p, reachable (pinit demo_store CertStore.Demo.empty_disk true true) (pstep ["example.com"]) p ∧
    p_exit p = Some 0 ∧ p_renewed p = [CertStore.Demo.new_cert; CertStore.Demo.old_cert] ∧
    w_fs (p_writer p) = CertStore.Demo.empty_disk) ∧
  ∃ p, reachable (pinit demo_store CertStore.Demo.empty_disk true true) (pstep ["example.com"]) p ∧
    p_exit p = Some 0 ∧ w_fs (p_writer p) = truncated.
Proof.
  destruct (server_exit CertStore.Demo.range (λ m, reflexivity _) ["example.com"] demo_store CertStore.Demo.empty_disk true true eq_refl)
    as (_&H1&H2). split.
  - destruct (H1 [CertStore.Demo.new_cert; CertStore.Demo.old_cert]) as (p&R&He&Hp&_&Hf).
    { by repeat constructor. }
    { apply (bool_decide_unpack _). vm_compute. exact I. }
    exists p. exact (conj R (conj He (conj Hp Hf))).
  - destruct (H2 CertStore.Demo.new_cert _ truncated eq_refl eq_refl (truncated_writing _)) as (p&R&He&_&Hf).
    exists p. exact (conj R (conj He Hf)).
Defined.
