(* ===== verification/Commands.v ===== *)
(** exec/tools: the command line of certdx_tools.  The registry of commands and
    aliases, their dispatch in [main], and the tasks with their flags, down to
    the functions of Mtls, Acme and CertStore they call.  The flag library
    (pflag) is an interface; the two updaters are seen through the two methods
    their tasks call (Updaters has them). *)

From Stdlib Require Import ZArith Lia.
From stdpp Require Import base option list gmap sets strings.
From S2P Require Import Prelude.
From S2P Require Import GoStd.
From S2P Require Import Sys.
From S2P Require Import Paths.
From S2P Require Import Domain.
From S2P Require Import Retry.
From S2P Require Import Acme.
From S2P Require Import CertEntry.
From S2P Require Import CertStore.
From S2P Require Import Mtls.

Open Scope Z_scope.

(** ** Flags *)

Inductive flagValue := FBool (b : bool) | FString (s : string) | FStrings (l : list string).

Record flag := mkFlag { fl_name : string; fl_short : string; fl_default : flagValue }.

(** A flag set with ExitOnError: [Parse] gives the values of the flags, or
    prints the usage and ends the process. *)
Class Pflag := { Parse : list flag → list string → option (gmap string flagValue) }.

Definition getBool (name : string) (v : gmap string flagValue) : bool :=
  match v !! name with Some (FBool b) => b | _ => false end.
Definition getString (name : string) (v : gmap string flagValue) : string :=
  match v !! name with Some (FString s) => s | _ => "" end.
Definition getStrings (name : string) (v : gmap string flagValue) : list string :=
  match v !! name with Some (FStrings l) => l | _ => [] end.

Definition helpFlag : flag := mkFlag "help" "h" (FBool false).
Definition dataDirFlag : flag := mkFlag "data-dir" "" (FString "").

(** What a task comes to: it returns, the process ends in it, or it still
    runs when the fuel of its loops is used up. *)
Inductive taskEnd := Returned (err : option error) | Exited (code : Z) | Unfinished.

(** [strings.ReplaceAll] for a non-empty [old]. *)
Fixpoint replaceLoop (fuel : nat) (old new s : string) : string :=
  match fuel, s with
  | O, _ | _, EmptyString => s
  | S fuel', String a s' =>
      if HasPrefix s old then new +:+ replaceLoop fuel' old new (str_drop (slen old) s)
      else String a (replaceLoop fuel' old new s')
  end.
Definition ReplaceAll (s old new : string) : string := replaceLoop (slen s) old new s.

Definition commonNameTemplate : string := "CertDX Client: {name}".

Section Commands.
Context {W : Type} `{PF : Pflag} `{RT : Runtime W} `{PE : ProcessEnv W} `{FS : FileSystem W}.
Context `{PM : Pem} `{TK : !ToolCrypto W} `{LG : !Lego W} `{CC : CacheCodec}.

Definition task : Type := list string → W → taskEnd * W.

(** [os.Getenv("CERTDX_DATA_DIR")]. *)
Variable dataDirEnv : string.
(** The order of a map range and the clock readings of CertStore. *)
Variable cacheRange : gmap Key (option certStoreEntry) → list (Key * option certStoreEntry).
Variable nows : nat → Time.

(** An updater, as its task sees it: a receiver and its two methods. *)
Record updater := mkUpdater {
  Receiver : Type;
  receiver : Receiver;
  InitCertificateUpdater : Receiver → W → (Receiver * option error) * W;
  InvokeCertificateUpdate : Receiver → W → taskEnd * W;
}.
(** Their constructors, which Updaters defines. *)
Variable MakeTencentCloudCertificateUpdater : string → updater.
Variable MakeKubernetesReplaceCertificate : string → string → updater.

(** [applyDataDir]: the override that the paths functions use from then on. *)
Definition applyDataDir (flagValue : string) : string :=
  let dir := if String.eqb flagValue "" then dataDirEnv else flagValue in
  if negb (String.eqb dir "") then SetDataDir dir noOverride else noOverride.

(** The common frame of a task: parse, then the help text or the body. *)
Definition withFlags (flags : list flag) (body : gmap string flagValue → W → taskEnd * W) : task :=
  λ args w,
    match Parse (flags ++ [helpFlag]) args with
    | None => (Exited 2, w)
    | Some v => if getBool "help" v then (Returned None, w) else body v w
    end.

Definition wrap (msg : string) (r : option error * W) : taskEnd * W :=
  let '(err, w) := r in (Returned (EWrap msg <$> err), w).
Definition required (text : string) (w : W) : taskEnd * W := (Returned (Some (EText text)), w).

Definition makeCAFlags : list flag :=
  [mkFlag "organization" "o" (FString "CertDX Private");
   mkFlag "common-name" "c" (FString "CertDX Private Certificate Authority"); dataDirFlag].
Definition TaskMakeCA : task := withFlags makeCAFlags (λ v w,
  wrap "create CA: %w" (MakeCA (applyDataDir (getString "data-dir" v)) (getString "organization" v) (getString "common-name" v) 0 w)).

Definition makeServerFlags : list flag :=
  [mkFlag "name" "n" (FString ""); mkFlag "dns-names" "d" (FStrings []); mkFlag "organization" "o" (FString "CertDX Private");
   mkFlag "common-name" "c" (FString "CertDX Secret Discovery Service"); dataDirFlag].
Definition TaskMakeServer : task := withFlags makeServerFlags (λ v w,
  if String.eqb (getString "name" v) "" then required "--name is required" w
  else if bool_decide (getStrings "dns-names" v = []) then required "--dns-names is required" w
  else wrap "create server cert: %w" (MakeServerCert (applyDataDir (getString "data-dir" v)) (getString "name" v)
    (getString "organization" v) (getString "common-name" v) (getStrings "dns-names" v) w)).

Definition makeClientFlags : list flag :=
  [mkFlag "name" "n" (FString ""); mkFlag "dns-names" "d" (FStrings []); mkFlag "organization" "o" (FString "CertDX Private");
   mkFlag "common-name" "c" (FString commonNameTemplate); dataDirFlag].
Definition TaskMakeClient : task := withFlags makeClientFlags (λ v w,
  let name := getString "name" v in
  if String.eqb name "" then required "--name is required" w
  else wrap "create client cert: %w" (MakeClientCert (applyDataDir (getString "data-dir" v)) name
    (getString "organization" v) (ReplaceAll (getString "common-name" v) "{name}" name) (getStrings "dns-names" v) w)).

Definition googleAccountFlags : list flag :=
  [mkFlag "test-account" "t" (FBool false); mkFlag "email" "e" (FString ""); mkFlag "kid" "k" (FString "");
   mkFlag "hmac" "m" (FString "")].
(** This task has no --data-dir flag: the override stays unset. *)
Definition RegisterGoogleAccount : task := withFlags googleAccountFlags (λ v w,
  let '(email, keyID, hmac) := (getString "email" v, getString "kid" v, getString "hmac" v) in
  if String.eqb email "" || String.eqb keyID "" || String.eqb hmac ""
  then required "--email, --kid and --hmac are required" w
  else wrap "register account: %w"
    (RegisterAccount noOverride (if getBool "test-account" v then "googletest" else "google") email keyID hmac w)).

(** A panic of [Load] ends the process with code 2. *)
Definition ShowCerts : task := λ args w,
  match Parse [dataDirFlag; helpFlag] args with
  | None => (Exited 2, w)
  | Some v =>
      if getBool "help" v then (Returned None, w)
      else
        let '(path, w) := ServerCachePath (applyDataDir (getString "data-dir" v)) w in
        match NewCertStore path with
        | Err err => (Returned (Some (EWrap "init cert store: %w" err)), w)
        | Ok certStore =>
            match Load cacheRange nows certStore w with
            | Panic _ => (Exited 2, w)
            | Ret (_, Some err) => (Returned (Some (EWrap "load cert store: %w" err)), w)
            | Ret (_, None) => (Returned None, w)
            end
        end
  end.

Definition confFlag : flag := mkFlag "conf" "c" (FString "./client.toml").
Definition debugFlag : flag := mkFlag "debug" "d" (FBool false).

Definition runUpdater (msg : string) (u : updater) (w : W) : taskEnd * W :=
  let '((r, err), w) := InitCertificateUpdater u (receiver u) w in
  match err with
  | Some err => (Returned (Some (EWrap "init updater: %w" err)), w)
  | None =>
      let '(e, w) := InvokeCertificateUpdate u r w in
      (match e with Returned err => Returned (EWrap msg <$> err) | _ => e end, w)
  end.

Definition tencentCloudFlags : list flag := [confFlag; debugFlag].
Definition TencentCloudReplaceCertificate : task := withFlags tencentCloudFlags (λ v w,
  if String.eqb (getString "conf" v) "" then required "--conf is required" w
  else runUpdater "update certificates: %w" (MakeTencentCloudCertificateUpdater (getString "conf" v)) w).
Definition kubernetesFlags : list flag := [confFlag; mkFlag "k8sConf" "" (FString ""); debugFlag].
Definition KubernetesReplaceCertificate : task := withFlags kubernetesFlags (λ v w,
  if String.eqb (getString "conf" v) "" then required "--conf is required" w
  else runUpdater "update kubernetes certificates: %w"
    (MakeKubernetesReplaceCertificate (getString "conf" v) (getString "k8sConf" v)) w).

(** ** The registry *)

Record command := mkCommand { cmd_run : task; cmd_help : string; cmd_aliases : list string }.

Definition commands : list (string * command) :=
  [("show-certs", mkCommand ShowCerts "Show cached certificates on the server" []);
   ("google-account", mkCommand RegisterGoogleAccount "Register a Google ACME EAB account" []);
   ("make-ca", mkCommand TaskMakeCA "Generate mTLS CA certificate and key" []);
   ("make-server", mkCommand TaskMakeServer "Generate mTLS server certificate and key" []);
   ("make-client", mkCommand TaskMakeClient "Generate mTLS client certificate and key" []);
   ("tencent-cloud-certificate-updater", mkCommand TencentCloudReplaceCertificate
      "Update expiring Tencent Cloud certificates" ["tx-update"; "tencent-cloud-certificates-updater"]);
   ("kubernetes-certificate-updater", mkCommand KubernetesReplaceCertificate
      "Update annotated Kubernetes TLS secrets" ["k8s-update"; "k8s-certificate-updater"])].

Definition groups : list (string * list string) :=
  [("Certificate Inspection", ["show-certs"]); ("ACME", ["google-account"]);
   ("mTLS Setup", ["make-ca"; "make-server"; "make-client"]);
   ("Certificate Updaters", ["tencent-cloud-certificate-updater"; "kubernetes-certificate-updater"])].

(** [init]: the table of names and aliases, over some range of the registry. *)
Definition initLookup (l : list (string * command)) : gmap string string :=
  foldl (λ m '(name, cmd), foldl (λ m alias, <[ alias := name ]> m) (<[ name := name ]> m) (cmd_aliases cmd)) ∅ l.

Definition exitCode (e : taskEnd) : option Z :=
  match e with Returned None => Some 0 | Returned (Some _) => Some 1 | Exited code => Some code | Unfinished => None end.

(** [main]: the exit code, once there is one.  [commands[canonical]] of a missing key would be a
    nil function. *)
Definition main (lookup : gmap string string) (args : list string) (w : W) : outcome (option Z * W) :=
  match args with
  | [] => Ret (Some 0, w)
  | a :: rest =>
      if bool_decide (a ∈ ["-v"; "--version"; "-h"; "--help"]) then Ret (Some 0, w)
      else match lookup !! a with
      | None => Ret (Some 2, w)
      | Some canonical =>
          match (list_to_map commands : gmap string command) !! canonical with
          | None => Panic nil_deref
          | Some cmd => let '(e, w) := cmd_run cmd rest w in Ret (exitCode e, w)
          end
      end
  end.

(** ** Dispatch *)

Definition names (p : string * command) : list string := p.1 :: cmd_aliases p.2.
Definition bindings (l : list (string * command)) : list (string * string) := l ≫= λ p, (λ a, (a, p.1)) <$> names p.

Lemma initLookup_bindings l : initLookup l = foldl (λ m '(a, n), <[ a := n ]> m) ∅ (bindings l).
Proof.
  unfold initLookup. generalize (∅ : gmap string string). induction l as [|[n c] l IH]; intros m; [done|].
  unfold bindings in *. simpl. rewrite foldl_app, IH. f_equal.
  generalize (<[ n := n ]> m). induction (cmd_aliases c) as [|a as' IHa]; intros m'; [done|]. simpl. by rewrite IHa.
Qed.

Lemma bindings_names l : (bindings l).*1 = l ≫= names.
Proof.
  induction l as [|p l IH]; [done|]. change (bindings (p :: l)) with (((λ a, (a, p.1)) <$> names p) ++ bindings l).
  rewrite fmap_app, IH, <- list_fmap_compose. by rewrite list_fmap_id.
Qed.

Lemma commands_NoDup : NoDup (commands ≫= names).
Proof. simpl. apply (bool_decide_unpack _). vm_compute. exact I. Qed.

Lemma initLookup_perm l : l ≡ₚ commands → initLookup l = list_to_map (bindings commands).
Proof.
  intros Hl. assert (Hb : bindings l ≡ₚ bindings commands) by (unfold bindings; by rewrite Hl).
  assert (Hnd : NoDup (bindings l).*1) by (rewrite Hb, bindings_names; apply commands_NoDup).
  rewrite initLookup_bindings. apply map_eq. intros a. rewrite foldl_insert_NoDup, lookup_empty by done.
  rewrite <- (list_to_map_proper _ _ Hnd Hb). by destruct (list_to_map (bindings l) !! a).
Qed.

Lemma lookup_spec a n : (list_to_map (bindings commands) : gmap string string) !! a = Some n ↔
  ∃ c, (n, c) ∈ commands ∧ a ∈ names (n, c).
Proof.
  rewrite <- elem_of_list_to_map by (rewrite bindings_names; apply commands_NoDup).
  unfold bindings. rewrite list_elem_of_bind. split.
  - intros ([n' c]&Hin&Hp). apply list_elem_of_fmap in Hin as (a'&[= -> ->]&Hin). simpl in *. by exists c.
  - intros (c&Hin&Ha). exists (n, c). split; [|done]. apply list_elem_of_fmap. by exists a.
Qed.

Lemma command_lookup n c : (n, c) ∈ commands → (list_to_map commands : gmap string command) !! n = Some c.
Proof.
  intros Hin. apply elem_of_list_to_map; [|done]. apply (bool_decide_unpack _). vm_compute. exact I.
Qed.

(** Whatever order the registry is ranged over in, the command line means
    the same: no name or alias is claimed twice, [main] runs the task of the
    command that has the first argument as its name or as an alias, with the
    other arguments, and exits with 0 or 1 as the task succeeds or fails; any
    other first argument changes nothing and exits with 2.  The help text
    lists every command once. *)
Theorem tools_dispatch l a rest w :
  l ≡ₚ commands → a ∉ ["-v"; "--version"; "-h"; "--help"] →
  (∀ n c, (n, c) ∈ commands → a ∈ names (n, c) →
     main (initLookup l) (a :: rest) w = Ret (exitCode (cmd_run c rest w).1, (cmd_run c rest w).2)) ∧
  ((∀ n c, (n, c) ∈ commands → a ∉ names (n, c)) → main (initLookup l) (a :: rest) w = Ret (Some 2, w)) ∧
  concat groups.*2 ≡ₚ commands.*1.
Proof.
  intros Hl Ha. unfold main. rewrite bool_decide_false by done. rewrite (initLookup_perm l Hl). split_all.
  - intros n c Hin Hn. rewrite (proj2 (lookup_spec a n)) by eauto. rewrite (command_lookup n c Hin).
    by destruct (cmd_run c rest w).
  - intros Hno. destruct (list_to_map (bindings commands) !! a) as [n|] eqn:E; [|done].
    apply lookup_spec in E as (c&Hin&Hn). by destruct (Hno n c Hin).
  - simpl. apply (bool_decide_unpack _). vm_compute. exact I.
Qed.
End Commands.

(** ** A concrete command line *)

Module Demo.
Definition World : Type := Mtls.Demo.World.

(** A parser that takes every flag's default, and its first argument as the
    data directory. *)
#[export] Instance default_flags : Pflag := {
  Parse flags args :=
    let v := list_to_map ((λ f, (fl_name f, fl_default f)) <$> flags) in
    Some (match args with dir :: _ => <[ "data-dir" := FString dir ]> v | [] => v end);
}.

Definition nothing : updater (W := World) := mkUpdater unit tt (λ r w, ((r, None), w)) (λ r w, (Returned None, w)).
End Demo.

#[local] Existing Instances Mtls.Demo.demo_env Mtls.Demo.frame_pem Mtls.Demo.demo_tools Acme.Demo.demo_lego
  CertStore.Demo.bit_codec Demo.default_flags.

(** The registry in reverse: make-ca still makes the authority. *)
Lemma tools_dispatch_witness :
  let cmds := commands (W := Demo.World) "" CertStore.Demo.range (λ _, 0) (λ _, Demo.nothing) (λ _ _, Demo.nothing) in
  main "" CertStore.Demo.range (λ _, 0) (λ _, Demo.nothing) (λ _ _, Demo.nothing) (initLookup (reverse cmds))
    ["make-ca"; "/data"] Mtls.Demo.w0 =
    Ret (Some 0, snd (MakeCA "/data" "CertDX Private" "CertDX Private Certificate Authority" 0 Mtls.Demo.w0)).
Proof.
  intros cmds.
  destruct (tools_dispatch (W := Demo.World) "" CertStore.Demo.range (λ _, 0) (λ _, Demo.nothing) (λ _ _, Demo.nothing)
    (reverse cmds) "make-ca" ["/data"] Mtls.Demo.w0 (reverse_Permutation _) ltac:(set_solver)) as (H&_&_).
  rewrite (H "make-ca" (mkCommand (TaskMakeCA "") "Generate mTLS CA certificate and key" [])).
  - vm_compute. reflexivity.
  - unfold commands. do 2 right. left.
  - left.
Defined.
