(* ===== verification/Output.v ===== *)
(** What the programs print: the version line (pkg/cli/version.go), the help of
    the tools (exec/tools/main.go) and the saved certificates
    ([PrintCertInfo] of pkg/server/cert_store.go). *)

From Stdlib Require Import ZArith Lia Ascii.
From stdpp Require Import base option list gmap strings.
From S2P Require Import Prelude.
From S2P Require Import GoStd.
From S2P Require Import Sys.
From S2P Require Import Paths.
From S2P Require Import Retry.
From S2P Require Import Acme.
From S2P Require Import Mtls.
From S2P Require Import Logging.
From S2P Require Import Domain.
From S2P Require Import CertEntry.
From S2P Require Import CertStore.
From S2P Require Import Commands.

Open Scope Z_scope.
Open Scope string_scope.

(** ** The version *)

Record Version := mkVersion { v_Name : string; v_Tag : string; v_Date : string }.

Definition Version_String (v : Version) : string :=
  "Certdx " +:+ v_Name v +:+ " " +:+ v_Tag v +:+ ", built at " +:+ v_Date v.

Definition nl : string := String newline "".

Definition Version_Print (v : Version) : string := Version_String v +:+ nl.

(** ** Help *)

(** [%-38s] *)
Definition pad38 (s : string) : string := s +:+ String.concat "" (replicate (38 - slen s) " ").

Definition helpLine (name help : string) (aliases : list string) : string :=
  "    " +:+ pad38 name +:+ " " +:+ help +:+ nl +:+
  (match aliases with
   | [] => ""
   | _ => "    " +:+ pad38 "" +:+ " aliases: " +:+ Join aliases ", " +:+ nl
   end).

Section Help.
Context {W : Type}.
Variable commands : list (string * command (W := W)).

(** A name that is not registered has the zero command. *)
Definition commandLine (name : string) : string :=
  match (list_to_map commands : gmap string command) !! name with
  | Some cmd => helpLine name (cmd_help cmd) (cmd_aliases cmd)
  | None => helpLine name "" []
  end.

Definition groupText (g : string * list string) : string :=
  "  " +:+ g.1 +:+ ":" +:+ nl +:+ String.concat "" (commandLine <$> g.2).

Definition helpCommands : string := String.concat nl (groupText <$> groups).

Definition printHelp (exec : string) : string :=
  "Certdx tools" +:+ nl +:+ nl +:+ "Usage:" +:+ nl +:+
  "  " +:+ exec +:+ " <command> [options]" +:+ nl +:+
  "  " +:+ exec +:+ " --version" +:+ nl +:+
  "  " +:+ exec +:+ " --help" +:+ nl +:+ nl +:+ "Commands:" +:+ nl +:+
  helpCommands +:+ nl +:+ "Use " +:+ exec +:+ " <command> --help for command details." +:+ nl.
End Help.

(** ** The saved certificates *)

(** [timeString] is the text of a [time.Time], [range] some range of the map. *)
Definition PrintCertInfo (timeString : Time → string) (range : gmap Key certStoreEntry → list (Key * certStoreEntry))
    (s : CertStore) : string :=
  nl +:+
  (if bool_decide (cs_entries s = ∅) then "No valid cert in cache" +:+ nl
   else String.concat "" ((λ kv, nl +:+ "Domains:     " +:+ Join (se_Domains kv.2) ", " +:+ nl +:+
          "RenewAt:     " +:+ timeString (RenewAt (se_Cert kv.2)) +:+ nl +:+
          "ValidBefore: " +:+ timeString (ValidBefore (se_Cert kv.2)) +:+ nl) <$> range (cs_entries s))).

(** ** The help is complete *)

Definition within (s t : string) : Prop := ∃ a b, t = a +:+ s +:+ b.

Lemma within_trans s t u : within s t → within t u → within s u.
Proof. intros (a&b&->) (c&d&->). exists (c +:+ a), (b +:+ d). by rewrite !app_string_assoc. Qed.

Lemma within_tail s t u : within s u → within s (t +:+ u).
Proof. intros (a&b&->). exists (t +:+ a), b. by rewrite app_string_assoc. Qed.

Lemma within_head s u : within s (s +:+ u).
Proof. by exists "", u. Qed.

Lemma within_concat sep s l : s ∈ l → within s (String.concat sep l).
Proof.
  intros Hin. induction l as [|x l IH]; [by apply elem_of_nil in Hin|].
  destruct l as [|y l].
  - apply list_elem_of_singleton in Hin as ->. exists "", "". cbn [String.concat]. by rewrite app_nil_string, app_nil_r_string.
  - change (String.concat sep (x :: y :: l)) with (x +:+ (sep +:+ String.concat sep (y :: l))).
    apply elem_of_cons in Hin as [->|Hin]; [apply within_head|]. by apply within_tail, within_tail, IH.
Qed.

(** Every command has its line in the help, with what it does and all of its
    aliases. *)
Lemma help_line {W} (cmds : list (string * command (W := W))) n c exec :
  (list_to_map cmds : gmap string command) !! n = Some c → n ∈ concat groups.*2 →
  within (helpLine n (cmd_help c) (cmd_aliases c)) (printHelp cmds exec).
Proof.
  intros Hl Hin. apply list_elem_of_In, in_concat in Hin as (ns&Hns&Hn).
  apply list_elem_of_In, list_elem_of_fmap in Hns as (g&->&Hg). apply list_elem_of_In in Hn.
  apply within_trans with (helpCommands cmds).
  - apply within_trans with (groupText cmds g).
    + do 4 apply within_tail. apply within_concat, list_elem_of_fmap. exists n. split; [|done].
      unfold commandLine. by rewrite Hl.
    + apply within_concat, list_elem_of_fmap. by exists g.
  - unfold printHelp. repeat first [apply within_head|apply within_tail].
Qed.

Theorem help_complete {W} `{PF : Pflag} `{RT : Runtime W} `{PE : ProcessEnv W} `{FS : FileSystem W}
    `{PM : Pem} `{TK : !ToolCrypto W} `{LG : !Lego W} `{CC : CacheCodec} dataDirEnv cacheRange nows txc k8s exec n c :
  let cmds := Commands.commands (W := W) dataDirEnv cacheRange nows txc k8s in
  (n, c) ∈ cmds → within (helpLine n (cmd_help c) (cmd_aliases c)) (printHelp cmds exec).
Proof.
  intros cmds Hin. apply help_line; [by apply command_lookup|].
  assert (Hp : concat groups.*2 ≡ₚ cmds.*1) by (simpl; apply (bool_decide_unpack _); vm_compute; exact I).
  rewrite Hp. apply list_elem_of_fmap. by exists (n, c).
Qed.
