(* ===== verification/Startup.v ===== *)
(** Start-up: pkg/cli/config.go and log.go, the loading part of
    pkg/client/daemon.go, [Init] of pkg/server/server.go, the [init] functions
    of exec/server/main.go and exec/client/main.go with the branch of [main]
    they lead to, and [InitCertificateUpdater] of the two updaters.  The TOML
    decoder and the SDK constructors are interfaces. *)

From Stdlib Require Import ZArith Lia.
From stdpp Require Import base option list gmap strings.
From S2P Require Import Prelude.
From S2P Require Import GoStd.
From S2P Require Import Logging.
From S2P Require Import Sys.
From S2P Require Import Paths.
From S2P Require Import Domain.
From S2P Require Import Config.
From S2P Require Import Retry.
From S2P Require Import Acme.
From S2P Require Import CertEntry.
From S2P Require Import CertStore.
From S2P Require Import Server.
From S2P Require Import Http.
From S2P Require Import Handler.
From S2P Require Import Mtls.
From S2P Require Import Daemon.
From S2P Require Import HttpClient.
From S2P Require Import K8s.
From S2P Require Import Txc.
From S2P Require Import Shutdown.
From S2P Require Import Commands.

Open Scope Z_scope.

(** ** Configuration files and the log *)

(** [os.Open] for reading; what is read afterwards is [ReadFile]. *)
Class Opener (F : Type) := { Open : string → F → option error }.

(** The decoder fills in what the text sets; on an error it may have filled in
    a part. *)
Class Toml (T : Type) := { TomlUnmarshal : string → T → T * option error }.

Definition LoadTOML {T F} `{Toml T} `{FileSystem F} `{Opener F} (path : string) (target : T) (w : F)
    : T * option error :=
  match Open path w with
  | Some err => (target, Some (EWrap "open config %q: %w" err))
  | None =>
      match ReadFile path w with
      | Err err => (target, Some (EWrap "read config %q: %w" err))
      | Ok b =>
          let '(target, err) := TomlUnmarshal b target in
          (target, EWrap "parse config %q: %w" <$> err)
      end
  end.

Record LogConfig := mkLogConfig { lc_Path : string; lc_Debug : bool }.

Definition Bootstrap {F} `{LogFile F} (c : LogConfig) (l : logger) (w : F) : logger * F :=
  let '(l, w) := SetLogFile (lc_Path c) l w in (SetDebug (lc_Debug c) l, w).

(** What [init] comes to: the end of the process, a panic, or a program that
    is ready for [main]. *)
Inductive started (A : Type) := Exits (code : Z) | Crashes (msg : string) | Up (a : A).
Arguments Exits {A}.
Arguments Crashes {A}.
Arguments Up {A}.

Definition logFlag : flag := mkFlag "log" "l" (FString "").
Definition versionFlag : flag := mkFlag "version" "v" (FBool false).
Definition confPathFlag : flag := mkFlag "conf" "c" (FString "").
Definition testFlag : flag := mkFlag "test" "t" (FBool false).

(** The log is at its default when the process starts. *)
Definition logging : logger := mkLogger false None.

Definition flagLog (v : gmap string flagValue) : LogConfig :=
  mkLogConfig (getString "log" v) (getBool "debug" v).

(** ** The server *)

Section Server.
Context {W : Type} `{RT : Runtime W} `{LG : Lego W} `{PE : ProcessEnv W} `{FS : FileSystem W}.
Context `{OP : !Opener W} `{LF : !LogFile W} `{TS : Toml ServerConfig} `{PF : Pflag} `{CC : CacheCodec}.

(** The environment: CERTDX_DATA_DIR and CERTDX_MOCK_TAG; the microseconds the
    mock starts from; the orders of map ranges and the clock readings of
    [loadCertStore]. *)
Variables dataDirEnv mockTag : string.
Variable unixMicro : Z.
Variable cacheRange : gmap Key (option certStoreEntry) → list (Key * option certStoreEntry).
Variable rangeEntries : gmap Key certStoreEntry → list (Key * certStoreEntry).
Variable nows : nat → Time.

Record server := mkStarted { sv_server : CertDXServer; sv_acme : ObtainerImpl; sv_log : logger }.

(** [CertDXServer.Init]: a store that cannot be loaded is only logged. *)
Definition Init (dataDir : string) (s : CertDXServer) (w : W) : outcome (result (CertDXServer * ObtainerImpl) * W) :=
  match MakeACME dataDir mockTag unixMicro (sConfig s) w with
  | Panic m => Panic m
  | Ret (Err err, w) => Ret (Err (EWrap "initialize ACME: %w" err), w)
  | Ret (Ok acme, w) =>
      match loadCertStore cacheRange rangeEntries nows s w with
      | Panic m => Panic m
      | Ret (s, _) => Ret (Ok (s, acme), w)
      end
  end.

Definition with_config (c : ServerConfig) (s : CertDXServer) : CertDXServer := mkServer c (sCache s) (sStore s).

Definition serverFlags : list flag :=
  [logFlag; helpFlag; versionFlag; confPathFlag; debugFlag; dataDirFlag].

(** From the data directory on; [logging.Fatal] exits with 1. *)
Definition loadServer (log : logger) (dataDir confPath : string) (w : W) : started server * W :=
  let '(path, w) := ServerCachePath dataDir w in
  match MakeCertDXServer path with
  | Err _ => (Exits 1, w)
  | Ok s =>
      let '(c, err) := LoadTOML confPath (sConfig s) w in
      match err with
      | Some _ => (Exits 1, w)
      | None =>
          let '(c, err) := ServerConfig_Validate (λ p, FileExists p w) c in
          match err with
          | Some _ => (Exits 1, w)
          | None =>
              match Init dataDir (with_config c s) w with
              | Panic m => (Crashes m, w)
              | Ret (Err _, w) => (Exits 1, w)
              | Ret (Ok (s, acme), w) => (Up (mkStarted s acme log), w)
              end
          end
      end
  end.

(** [init] of exec/server/main.go. *)
Definition serverInit (args : list string) (w : W) : started server * W :=
  match Parse serverFlags args with
  | None => (Exits 2, w)
  | Some v =>
      if getBool "help" v then (Exits 0, w)
      else if getBool "version" v then (Exits 0, w)
      else
        let '(log, w) := Bootstrap (flagLog v) logging w in
        let dataDir := if String.eqb (getString "data-dir" v) "" then dataDirEnv else getString "data-dir" v in
        let dataDirOverride := if negb (String.eqb dataDir "") then SetDataDir dataDir noOverride else noOverride in
        if String.eqb (getString "conf" v) "" then (Exits 1, w)
        else loadServer log dataDirOverride (getString "conf" v) w
  end.

(** [main] of exec/server/main.go: the process it starts, with the store
    writer that [Init] has left behind. *)
Definition serverMain (s : server) (w : W) : process W :=
  let c := sConfig (sv_server s) in
  mkProcess None (mkWriter (sStore (sv_server s)) w Running false NoSave [] [] None)
    (if HttpEnabled (sc_HttpServer c) then SubServing else SubOff)
    (if GrpcEnabled (sc_GRPCSDSServer c) then SubServing else SubOff) ShWait 0%nat [] [] [].
End Server.
Arguments server W {_}.

(** ** The client *)

Section Client.
Context {W : Type} `{FS : FileSystem W} `{CR : !CommandRunner W}.
Context `{OP : !Opener W} `{LF : !LogFile W} `{TS : Toml ClientConfig} `{PF : Pflag}.

(** [CertDXClientDaemon], as far as start-up builds it. *)
Record clientDaemon := mkDaemon {
  d_Config : ClientConfig;
  d_ClientOpt : list (CertDXHttpClientOption W);
  d_certs : gmap Key (watchingCert W);
}.

Definition MakeCertDXClientDaemon : clientDaemon :=
  mkDaemon (ClientConfig_SetDefault zeroClientConfig) [] ∅.

Definition set_config (c : ClientConfig) (d : clientDaemon) : clientDaemon :=
  mkDaemon c (d_ClientOpt d) (d_certs d).

Definition LoadConfigurationAndValidateOpt (path : string) (options : list ValidatingOption) (d : clientDaemon) (w : W)
    : clientDaemon * option error :=
  let '(c, err) := LoadTOML path (d_Config d) w in
  match err with
  | Some err => (set_config c d, Some err)
  | None =>
      let '(c, err) := ClientConfig_Validate (λ p, FileExists p w) options c in (set_config c d, err)
  end.

Definition LoadConfigurationAndValidate (path : string) : clientDaemon → W → clientDaemon * option error :=
  LoadConfigurationAndValidateOpt path [].

Definition clientFlags : list flag :=
  [testFlag; logFlag; helpFlag; versionFlag; confPathFlag; debugFlag].

(** [init] of exec/client/main.go. *)
Definition clientInit (args : list string) (w : W) : started (clientDaemon * logger) * W :=
  match Parse clientFlags args with
  | None => (Exits 2, w)
  | Some v =>
      if getBool "help" v then (Exits 0, w)
      else if getBool "version" v then (Exits 0, w)
      else
        let '(log, w) := Bootstrap (flagLog v) logging w in
        if String.eqb (getString "conf" v) "" then (Exits 1, w)
        else
          let d := MakeCertDXClientDaemon in
          let d := if getBool "test" v
                   then mkDaemon (d_Config d) (d_ClientOpt d ++ [WithCertDXInsecure]) (d_certs d) else d in
          let '(d, err) := LoadConfigurationAndValidate (getString "conf" v) d w in
          match err with
          | Some _ => (Exits 1, w)
          | None =>
              (Up (mkDaemon (d_Config d) (d_ClientOpt d) (ClientInit (d_Config d) w (d_certs d)), log), w)
          end
  end.

(** [main] of exec/client/main.go. *)
Inductive clientRun := RunHttpMain | RunGRPCMain | RunFatal.

Definition clientMain (d : clientDaemon) : clientRun :=
  if String.eqb (Mode (Common (d_Config d))) CLIENT_MODE_HTTP then RunHttpMain
  else if String.eqb (Mode (Common (d_Config d))) CLIENT_MODE_GRPC then RunGRPCMain
  else RunFatal.

(** ** The updaters *)

Definition updaterOptions : list ValidatingOption :=
  [WithAcceptEmptyCertificateSavePath true; WithAcceptEmptyCertificatesList false].

(** The same function in either updater. *)
Definition initCertDX (conf : string) (w : W) : clientDaemon * option error :=
  let '(d, err) := LoadConfigurationAndValidateOpt conf updaterOptions MakeCertDXClientDaemon w in
  (d, EWrap "invalid certdx config: %w" <$> err).

(** clientcmd and client-go. *)
Class KubeBuilder := {
  RestConfig : Type;
  BuildConfigFromFlags : string → string → W → result RestConfig;
  NewForConfig : RestConfig → option error;
}.

Definition initKubernetesClient `{KubeBuilder} (k8sConfig : string) (w : W) : option error :=
  match BuildConfigFromFlags "" k8sConfig w with
  | Err err => Some (EWrap "build kubernetes config failed: %w" err)
  | Ok restConfig => EWrap "init kubernetes client failed: %w" <$> NewForConfig restConfig
  end.

Definition K8sInitCertificateUpdater `{KubeBuilder} (certdxConfig k8sConfig : string) (w : W)
    : clientDaemon * option error :=
  let '(d, err) := initCertDX certdxConfig w in
  match err with
  | Some err => (d, Some err)
  | None => (d, initKubernetesClient k8sConfig w)
  end.

Record TencentCloudConfig := mkTencentCloudConfig {
  tc_SecretID : string;
  tc_SecretKey : string;
  tc_Certifications : list Txc.ClientCertification;
}.

Definition zeroTencentCloudConfig : TencentCloudConfig := mkTencentCloudConfig "" "" [].

(** The constructor of the SDK client: credentials, endpoint, request timeout
    in seconds. *)
Class TxcBuilder := { NewTxcClient : string → string → string → Z → option error }.

(** The same file, decoded a second time. *)
Definition InitTencentCloud `{Toml TencentCloudConfig} `{TxcBuilder} (conf : string) (cfg : TencentCloudConfig) (w : W)
    : TencentCloudConfig * option error :=
  let '(cfg, err) := LoadTOML conf cfg w in
  match err with
  | Some err => (cfg, Some err)
  | None =>
      (cfg, EWrap "create tencent cloud client: %w" <$>
              NewTxcClient (tc_SecretID cfg) (tc_SecretKey cfg) "ssl.tencentcloudapi.com" 60)
  end.

Definition InitCertDX (conf : string) (w : W) : clientDaemon * option error :=
  let '(d, err) := LoadConfigurationAndValidateOpt conf updaterOptions MakeCertDXClientDaemon w in
  (d, EWrap "invalid certdx config: %w" <$> err).

Definition TxcInitCertificateUpdater `{Toml TencentCloudConfig} `{TxcBuilder} (conf : string) (w : W)
    : (clientDaemon * TencentCloudConfig) * option error :=
  let '(d, err) := InitCertDX conf w in
  match err with
  | Some err => ((d, zeroTencentCloudConfig), Some (EWrap "init certdx: %w" err))
  | None =>
      let '(cfg, err) := InitTencentCloud conf zeroTencentCloudConfig w in
      ((d, cfg), EWrap "init tencent cloud: %w" <$> err)
  end.

(** [InvokeCertificateUpdate] up to the wait: finished with an error, or
    waiting for the tasks it has registered while the client runs. *)
Definition TxcInvokeCertificateUpdate `{RT : Runtime W} `{TX : !TxcClient W} (fuel : nat) (d : clientDaemon)
    (cfg : TencentCloudConfig) (w : W) : option (outcome (error + list Txc.ClientCertification) * W) :=
  match GetCertificateToUpdate fuel (tc_Certifications cfg) w with
  | None => None
  | Some (Panic m, w) => Some (Panic m, w)
  | Some (Ret (Err err), w) => Some (Ret (inl (EWrap "get certificates to update: %w" err)), w)
  | Some (Ret (Ok tasks), w) =>
      match clientMain d with
      | RunFatal => Some (Ret (inl (EText ("unsupported mode: " +:+ Mode (Common (d_Config d))))), w)
      | _ => Some (Ret (inr tasks), w)
      end
  end.
End Client.
Arguments clientDaemon : clear implicits.
Arguments KubeBuilder : clear implicits.

(** ** What a started client can rely on *)

Section ClientTheorems.
Context {W : Type} `{FS : FileSystem W} `{CR : !CommandRunner W}.
Context `{OP : !Opener W} `{LF : !LogFile W} `{TS : Toml ClientConfig} `{PF : Pflag}.

(** The configurations the daemon keeps. *)
Definition usable (emptyPath : bool) (w : W) (c : ClientConfig) : Prop :=
  Certifications c ≠ [] ∧ Forall (cert_ok emptyPath) (Certifications c) ∧ mode_ok (λ p, FileExists p w) c.

Lemma validate_usable (w : W) opts c c' :
  ClientConfig_Validate (λ p, FileExists p w) opts c = (c', None) →
  acceptEmptyCertificatesList (applyOptions opts) = false →
  usable (acceptEmptyCertificateSavePath (applyOptions opts)) w c'.
Proof.
  intros E Hopt.
  assert (Hv : snd (ClientConfig_Validate (λ p, FileExists p w) opts c) = None) by by rewrite E.
  apply ClientConfig_Validate_spec in Hv as ([d Hd]&Hne&Hall&Hmode). rewrite Hopt in Hne.
  assert (Hc : c' = fst (client_parseDuration c)).
  { unfold ClientConfig_Validate in E. destruct (client_parseDuration c). by simplify_eq. }
  unfold client_parseDuration in Hc. rewrite Hd in Hc. simpl in Hc. subst c'.
  unfold usable, mode_ok in *. simpl. split_all; [naive_solver|done|done].
Qed.
(** A default value, text that is decoded into it, validation: what they give
    is usable. *)
Lemma load_usable path opts d d' (w : W) :
  LoadConfigurationAndValidateOpt path opts d w = (d', None) →
  acceptEmptyCertificatesList (applyOptions opts) = false →
  usable (acceptEmptyCertificateSavePath (applyOptions opts)) w (d_Config d') ∧
  d_ClientOpt d' = d_ClientOpt d ∧ d_certs d' = d_certs d.
Proof.
  unfold LoadConfigurationAndValidateOpt. destruct (LoadTOML path _ w) as [c [e|]]; [done|].
  destruct (ClientConfig_Validate _ opts c) as [c' [e|]] eqn:E; [done|]. intros [= <-] Ho.
  split_all; [by eapply validate_usable|done|done].
Qed.

Lemma usable_mode b (w : W) (d : clientDaemon W) : usable b w (d_Config d) →
  clientMain d ≠ RunFatal ∧ startCertDXDaemon (d_Config d) = None.
Proof.
  intros (_&_&Hm). unfold clientMain, startCertDXDaemon, CLIENT_MODE_HTTP, CLIENT_MODE_GRPC.
  destruct Hm as [(->&Hu&_)|(->&Hu&_)]; simpl; (split; [done|]); by rewrite (proj2 (String.eqb_neq _ _) Hu).
Qed.

Lemma certificationOf_in cfg k c : certificationOf cfg k = Some c → c ∈ Certifications cfg ∧ AsKey (cc_Domains c) = k.
Proof.
  unfold certificationOf. intros Hl. apply last_Some_elem_of, list_elem_of_filter in Hl. tauto.
Qed.

Lemma certificationOf_some cfg c : c ∈ Certifications cfg → is_Some (certificationOf cfg (AsKey (cc_Domains c))).
Proof.
  intros Hin. unfold certificationOf. apply last_is_Some. intros E.
  apply (not_elem_of_nil c). rewrite <- E. by apply list_elem_of_filter.
Qed.

(** The command line asks for the help text or the version. *)
Definition informs (flags : list flag) (args : list string) : Prop :=
  ∃ v, Parse flags args = Some v ∧ (getBool "help" v = true ∨ getBool "version" v = true).

(** What [main] and the goroutines it starts rely on. *)
Record ready (w : W) (d : clientDaemon W) : Prop := {
  rd_usable : usable false w (d_Config d);
  rd_main : clientMain d ≠ RunFatal;
  rd_watched : ∀ c, c ∈ Certifications (d_Config d) → is_Some (d_certs d !! AsKey (cc_Domains c));
  rd_certs : ∀ k wc, d_certs d !! k = Some wc →
    wc = initCert (wc_Config wc) w ∧ wc_Config wc ∈ Certifications (d_Config d) ∧ AsKey (cc_Domains (wc_Config wc)) = k ∧
    ∃ certPath keyPath, GetFullChainAndKeyPath (wc_Config wc) = Ok (certPath, keyPath) ∧ certPath ≠ keyPath;
}.

Lemma ready_init (w : W) (d : clientDaemon W) :
  usable false w (d_Config d) → ready w (mkDaemon (d_Config d) (d_ClientOpt d) (ClientInit (d_Config d) w ∅)).
Proof.
  intros Hu. split; simpl; [done|by apply (usable_mode false w)| |].
  - intros c Hin. rewrite clientInit_lookup. apply fmap_is_Some. by apply certificationOf_some.
  - intros k wc Hk. rewrite clientInit_lookup in Hk. apply fmap_Some in Hk as (c&[Hin Hkc]%certificationOf_in&->).
    destruct Hu as (_&Hall&_). rewrite Forall_forall in Hall.
    destruct (Hall c Hin) as (_&Hn&[Hp|Hp]); [|done]. split_all; [done|done|done|]. simpl.
    destruct (save_paths_distinct c) as [[_ [?|?]]|(p&q&E&Hne&_)]; [done|done|by exists p, q].
Qed.

(** The client either ends before [main], with 0 only when it was asked for
    the help text or the version, or it is ready: validation has left nothing
    to fail on later.  [main] finds a mode it supports, exactly the configured
    bundles are watched, each starts from its saved files, and each has two
    different files to be written to. *)
Theorem client_start args w :
  match clientInit args w with
  | (Exits code, _) => code = 0 ↔ informs clientFlags args
  | (Crashes _, _) => False
  | (Up (d, _), w') => ready w' d
  end.
Proof.
  unfold clientInit, informs. destruct (Parse clientFlags args) as [v|]; [|naive_solver lia].
  destruct (getBool "help" v) eqn:Eh; [naive_solver|]. destruct (getBool "version" v) eqn:Ev; [naive_solver|].
  assert (H1 : 1 = 0 ↔ ∃ v0, Some v = Some v0 ∧ (getBool "help" v0 = true ∨ getBool "version" v0 = true))
    by (split; [done|intros (v0&[= <-]&[?|?]); congruence]).
  destruct (Bootstrap _ _ w) as [log w1]. destruct (String.eqb (getString "conf" v) ""); [done|].
  set (d0 := if getBool "test" v then _ else _).
  assert (H0 : d_certs d0 = ∅) by (unfold d0; by destruct (getBool "test" v)).
  destruct (LoadConfigurationAndValidate _ d0 w1) as [d [e|]] eqn:El; [done|].
  apply load_usable in El as (Hu&_&Hc); [|done]. rewrite Hc, H0. by apply ready_init.
Qed.

(** An updater that is initialised has a mode its run supports, so that the
    run fails neither on the mode nor on a missing server, and an allow-list
    that is not empty. *)
Theorem updaters_start `{KubeBuilder W} `{Toml TencentCloudConfig} `{TxcBuilder} conf k8sConfig (w : W) d :
  (K8sInitCertificateUpdater conf k8sConfig w).1 = d ∧ (K8sInitCertificateUpdater conf k8sConfig w).2 = None ∨
  (TxcInitCertificateUpdater conf w).1.1 = d ∧ (TxcInitCertificateUpdater conf w).2 = None →
  Certifications (d_Config d) ≠ [] ∧ startCertDXDaemon (d_Config d) = None ∧ clientMain d ≠ RunFatal.
Proof.
  intros Hd. assert (Hi : ∃ d0, LoadConfigurationAndValidateOpt conf updaterOptions MakeCertDXClientDaemon w = (d0, None) ∧ d0 = d).
  { unfold K8sInitCertificateUpdater, TxcInitCertificateUpdater, InitCertDX, initCertDX in Hd.
    destruct (LoadConfigurationAndValidateOpt conf updaterOptions MakeCertDXClientDaemon w) as [d0 [e|]]; simpl in Hd.
    - destruct Hd as [[_ ?]|[_ ?]]; done.
    - exists d0. split; [done|]. destruct Hd as [[? _]|[Hd _]]; [done|].
      by destruct (InitTencentCloud conf zeroTencentCloudConfig w). }
  destruct Hi as (d0&Hl&<-). apply load_usable in Hl as (Hu&_&_); [|done].
  destruct (usable_mode _ _ _ Hu). destruct Hu. by split_all.
Qed.
End ClientTheorems.

(** ** Starting on a validated configuration *)

Section ValidatedServer.
Context {W : Type} `{RT : Runtime W} `{LG : Lego W} `{PE : ProcessEnv W} `{FS : FileSystem W}.

(** Validation changes nothing that it looks at. *)
Lemma validated_ok fe c c' : ServerConfig_Validate fe c = (c', None) → ServerConfig_ok fe c'.
Proof.
  intros E. assert (Hok : snd (ServerConfig_Validate fe c) = None) by by rewrite E.
  apply ServerConfig_accept_iff in Hok as [Ha Hc [d Hd] [d' Hd'] Hn Hm].
  unfold ServerConfig_Validate in E. destruct (parseDuration c) as [c1 e1] eqn:E1.
  unfold parseDuration in E1. simpl in E1. rewrite Hd, Hd' in E1. simplify_eq/=.
  destruct (HttpServer_Validate_keeps (sc_HttpServer c)) as (K1&K2&K3&_&K5&_).
  destruct (HttpServerConfig_Validate (sc_HttpServer c)) as [h e2]. simplify_eq/=.
  split; unfold challenge_ok, needsMTLS in *; simpl; rewrite ?K1, ?K2, ?K3, ?K5; eauto.
Qed.

Lemma SetChallenger_safe (a : ACME W) c (w : W) m : challenge_ok c → SetChallenger a c w ≠ Panic m.
Proof.
  intros [_ Hch]. unfold SetChallenger, getChallenger, ChallengeTypeDns01, ChallengeTypeHttp01.
  assert (Hmade : ∀ ty g r, made ty g = Ok r → r.1 = ty) by (intros ty g r; unfold made; case_match; naive_solver).
  destruct Hch as [(->&d&->&Hok)|(->&h&->&->&[s ->])]; simpl.
  - destruct Hok as [[-> _]|[-> _]]; simpl.
    + destruct (made "dns" _) as [[ty g]|] eqn:E; [|done]. apply Hmade in E. simpl in E. subst ty. simpl. by case_match.
    + destruct (made "dns" _) as [[ty g]|] eqn:E; [|done]. apply Hmade in E. simpl in E. subst ty. simpl. by case_match.
  - unfold s3_NewHTTPProvider, ChallengeTypeHttp01. destruct (String.eqb (S3Bucket s) ""); [done|].
    destruct (made "http" _) as [[ty g]|] eqn:E; [|done]. apply Hmade in E. simpl in E. subst ty. simpl. by case_match.
Qed.

(** The implementation fits the configuration. *)
Definition acme_for (c : ServerConfig) (i : ObtainerImpl) : Prop :=
  match i with
  | ImplMock _ => Provider (sc_ACME c) = "mock"
  | ImplACME a => challenge_ok c ∧ a_retry a = AcmeRetryCount (sc_ACME c) ∧ needNotAfter a = IsGoogle (Provider (sc_ACME c))
  end.

Lemma MakeACME_safe dataDir tag um c (w : W) : Provider (sc_ACME c) = "mock" ∨ challenge_ok c →
  match MakeACME dataDir tag um c w with
  | Panic _ => False
  | Ret (Err _, _) => True
  | Ret (Ok i, _) => acme_for c i
  end.
Proof.
  intros Hc. unfold MakeACME, IsMock, Mock. destruct (String.eqb_spec (Provider (sc_ACME c)) "mock") as [Hm|Hm]; [done|].
  destruct Hc as [|Hc]; [done|].
  destruct (makeACMEUser dataDir c w) as [[u|e] w1]; [|done]. destruct (NewClient _ u w1) as [[cl|e] w2]; [|done].
  set (a := mkACME cl _ _). pose proof (SetChallenger_safe a c w2) as Hs.
  destruct (SetChallenger a c w2) as [[[e|] w3]|m] eqn:E; [done|done|by eapply Hs].
Qed.
End ValidatedServer.

Section ServerTheorems.
Context {W : Type} `{RT : Runtime W} `{LG : Lego W} `{PE : ProcessEnv W} `{FS : FileSystem W}.
Context `{OP : !Opener W} `{LF : !LogFile W} `{TS : Toml ServerConfig} `{PF : Pflag} `{CC : CacheCodec}.
Variables dataDirEnv mockTag : string.
Variable unixMicro : Z.
Variable cacheRange : gmap Key (option certStoreEntry) → list (Key * option certStoreEntry).
Variable rangeEntries : gmap Key certStoreEntry → list (Key * certStoreEntry).
Variable nows : nat → Time.
Hypothesis cacheRange_all : ∀ m, cacheRange m ≡ₚ map_to_list m.
Hypothesis rangeEntries_all : ∀ m, rangeEntries m ≡ₚ map_to_list m.
Notation serverInit := (serverInit dataDirEnv mockTag unixMicro cacheRange rangeEntries nows).
Notation Init := (Init mockTag unixMicro cacheRange rangeEntries nows).

(** A JSON null in the cache file. *)
Definition null_cached (path : string) (w : W) : Prop :=
  FileExists path w = true ∧ ∃ b raw k, ReadFile path w = Ok b ∧ UnmarshalCache b = Ok raw ∧ raw !! k = Some None.

(** The cache of a server that has just loaded its store. *)
Definition loaded (s : CertDXServer) : Prop :=
  sCache s = loadedEntry <$> cs_entries (sStore s) ∧ well_keyed (cs_entries (sStore s)) ∧ cs_update (sStore s) = [].

Lemma loadCertStore_loaded s (w : W) : sCache s = ∅ → cs_entries (sStore s) = ∅ → cs_update (sStore s) = [] →
  match loadCertStore cacheRange rangeEntries nows s w with
  | Panic m => m = nil_deref ∧ null_cached (cs_path (sStore s)) w
  | Ret (s', _) => loaded s' ∧ sConfig s' = sConfig s ∧ cs_path (sStore s') = cs_path (sStore s)
  end.
Proof.
  intros Hc He Hq. destruct (Load cacheRange nows (sStore s) w) as [[st [err|]]|m] eqn:El.
  - unfold loadCertStore. rewrite El. assert (st = sStore s) as -> by (unfold Load in El; simp_match; done).
    assert (Hl : loaded (mkServer (sConfig s) (sCache s) (sStore s)))
      by (unfold loaded; simpl; rewrite Hc, He, fmap_empty; split_all; [done|by intros ???%lookup_empty_Some|done]).
    by destruct (osIsNotExist err).
  - assert (st = set_entries (cs_entries st) (sStore s) ∧ well_keyed (cs_entries st)) as [Hst Hk].
    { clear Hc. unfold Load in El. destruct (negb _); [done|]. destruct (ReadFile _ w) as [b|]; [|done].
      destruct (UnmarshalCache b) as [raw|]; [|done]. destruct (loadLoop nows 0 _ _) as [m|] eqn:E; [|done].
      injection El as <-. split; [done|]. simpl.
      eapply loadLoop_keyed; [|exact E]. rewrite He. by intros ???%lookup_empty_Some. }
    rewrite (loadCertStore_cache cacheRange rangeEntries rangeEntries_all nows s w st Hc El Hk).
    unfold loaded. simpl. rewrite Hst. by split_all.
  - unfold loadCertStore. rewrite El. unfold Load in El. unfold null_cached.
    destruct (FileExists _ w); [|done]. simpl in El. destruct (ReadFile _ w) as [b|]; [|done].
    destruct (UnmarshalCache b) as [raw|] eqn:Eu; [|done]. destruct (loadLoop nows 0 _ _) as [m'|m'] eqn:E; [done|].
    injection El as <-. apply loadLoop_panic in E as [-> [k Hk]]. split; [done|]. split; [done|].
    rewrite cacheRange_all in Hk. apply elem_of_map_to_list in Hk. by exists b, raw, k.
Qed.

Lemma Init_cases dataDir s (w : W) : (Provider (sc_ACME (sConfig s)) = "mock" ∨ challenge_ok (sConfig s)) →
  sCache s = ∅ → cs_entries (sStore s) = ∅ → cs_update (sStore s) = [] →
  match Init dataDir s w with
  | Panic m => m = nil_deref ∧ ∃ i w1, MakeACME dataDir mockTag unixMicro (sConfig s) w = Ret (Ok i, w1) ∧
      null_cached (cs_path (sStore s)) w1
  | Ret (Err _, _) => True
  | Ret (Ok (s', i), _) => loaded s' ∧ sConfig s' = sConfig s ∧ acme_for (sConfig s) i
  end.
Proof.
  intros Hc H1 H2 H3. unfold Startup.Init. pose proof (MakeACME_safe dataDir mockTag unixMicro (sConfig s) w Hc) as Hs.
  destruct (MakeACME _ _ _ _ w) as [[[i|e] w1]|m]; [|done|done].
  pose proof (loadCertStore_loaded s w1 H1 H2 H3) as Hl.
  destruct (loadCertStore _ _ _ s w1) as [[s' e]|m]; [naive_solver|]. destruct Hl. eauto 6.
Qed.

(** C35: a server ends before [main] with code 0 only when it was asked for the
    help text or the version; it panics only on a JSON null that its own cache
    file holds when the ACME account is ready, never on its configuration; and when it starts, its configuration is
    well-formed, the ACME implementation is the one configured with a complete
    challenge, the cache is exactly the loaded store, and [main] starts the
    process of Shutdown with the sub-servers that are enabled. *)
Theorem server_start args w :
  match serverInit args w with
  | (Exits code, _) => code = 0 ↔ informs serverFlags args
  | (Crashes m, _) => m = nil_deref ∧ ∃ dataDir w1 path w2 c i w3,
      ServerCachePath dataDir w1 = (Ok path, w2) ∧ MakeACME dataDir mockTag unixMicro c w2 = Ret (Ok i, w3) ∧
      null_cached path w3
  | (Up sv, w') =>
      let c := sConfig (sv_server sv) in
      (∃ w1 : W, ServerConfig_ok (λ p, FileExists p w1) c) ∧ acme_for c (sv_acme sv) ∧ loaded (sv_server sv) ∧
      pinit (sStore (sv_server sv)) w' (HttpEnabled (sc_HttpServer c)) (GrpcEnabled (sc_GRPCSDSServer c)) (serverMain sv w')
  end.
Proof.
  unfold Startup.serverInit, informs. destruct (Parse serverFlags args) as [v|]; [|naive_solver lia].
  destruct (getBool "help" v) eqn:Eh; [naive_solver|]. destruct (getBool "version" v) eqn:Ev; [naive_solver|].
  assert (H1 : 1 = 0 ↔ ∃ v0, Some v = Some v0 ∧ (getBool "help" v0 = true ∨ getBool "version" v0 = true))
    by (split; [done|intros (v0&[= <-]&[?|?]); congruence]).
  destruct (Bootstrap _ _ w) as [log w1]. destruct (String.eqb (getString "conf" v) ""); [done|].
  unfold loadServer. match goal with |- context [ServerCachePath ?d w1] => set (dd := d) end.
  destruct (ServerCachePath dd w1) as [path w2] eqn:Ep.
  destruct (MakeCertDXServer path) as [s|] eqn:Es; [|done].
  assert (sCache s = ∅ ∧ cs_entries (sStore s) = ∅ ∧ cs_update (sStore s) = [] ∧ path = Ok (cs_path (sStore s)))
    as (Hs1&Hs2&Hs3&Hs4) by (unfold MakeCertDXServer, NewCertStore in Es; destruct path; by simplify_eq/=).
  destruct (LoadTOML _ _ w2) as [c [e|]]; [done|].
  destruct (ServerConfig_Validate _ c) as [c' [e|]] eqn:Ec; [done|]. apply validated_ok in Ec.
  pose proof (Init_cases dd (with_config c' s) w2 (ok_challenge _ _ Ec) Hs1 Hs2 Hs3) as Hi.
  destruct (Startup.Init _ _ _ _ _ _ _ w2) as [[[[s' i]|e] w3]|m]; [|done|].
  - destruct Hi as (Hl&Hc&Ha). simpl. rewrite Hc. split_all; [by exists w2|done|done|].
    exists (mkWriter (sStore s') w3 Running false NoSave [] [] None). split; [by split; [apply Hl|]|].
    unfold serverMain. simpl. by rewrite Hc.
  - destruct Hi as [-> (i&w3&Hm&Hn)]. split; [done|]. subst path. by eexists dd, w1, _, w2, c', i, w3.
Qed.
End ServerTheorems.

(** ** What start-up leaves alone *)

(** Talking to the ACME server and to the SDKs does not touch local files. *)
Class LegoFiles (W : Type) `{Lego W} `{FileSystem W} := {
  newclient_files u a (w : W) r w' : NewClient u a w = (r, w') → same_except [] w w';
  dns01_files c g b (w : W) r w' : SetDNS01Provider c g b w = (r, w') → same_except [] w w';
  http01_files c g (w : W) r w' : SetHTTP01Provider c g w = (r, w') → same_except [] w w';
  resolve_files c (w : W) r w' : ResolveAccountByKey c w = (r, w') → same_except [] w w';
  register_files c (w : W) r w' : Register c w = (r, w') → same_except [] w w';
  registerEAB_files c k h (w : W) r w' : RegisterEAB c k h w = (r, w') → same_except [] w w';
  googleEAB_files m (w : W) r w' : GoogleEAB m w = (r, w') → same_except [] w w';
  generateKey_files (w : W) r w' : GenerateKey w = (r, w') → same_except [] w w';
}.

(** A file that can be read exists, and opening the log touches no other. *)
Class StartFiles (W : Type) `{FileSystem W} `{LogFile W} := {
  read_exists p (w : W) b : ReadFile p w = Ok b → FileExists p w = true;
  append_files p (w : W) r w' : OpenAppend p w = (r, w') → same_except [p] w w';
}.

Section Frames.
Context {W : Type} `{RT : Runtime W} `{LG : Lego W} `{PE : ProcessEnv W} `{FS : FileSystem W}.
Context `{FL : !FileSystemLaws W} `{LFi : !LegoFiles W}.

(** Only account keys may change. *)
Definition outside_keys (w w' : W) : Prop := ∀ q, HasSuffix q ".key" = false → ReadFile q w' = ReadFile q w.

Lemma outside_refl w : outside_keys w w.
Proof. by intros q _. Qed.

Lemma outside_step w w1 w2 : outside_keys w w1 → same_except [] w1 w2 → outside_keys w w2.
Proof. intros H1 H2 q Hq. rewrite (H2 q (not_elem_of_nil q)). by apply H1. Qed.

Lemma outside_key p w w1 w2 : HasSuffix p ".key" = true → outside_keys w w1 → same_except [p] w1 w2 → outside_keys w w2.
Proof.
  intros Hp H1 H2 q Hq. rewrite (H2 q); [by apply H1|]. rewrite list_elem_of_singleton. intros ->. congruence.
Qed.

Lemma ACMEPrivateKey_files dataDir email provider w0 w r w' : outside_keys w0 w →
  ACMEPrivateKey dataDir email provider w = (r, w') →
  outside_keys w0 w' ∧ ∀ p, r = Ok p → HasSuffix p ".key" = true.
Proof.
  intros H0. unfold ACMEPrivateKey. destruct (stateRoot dataDir w) as [root|]; [|by intros [= <- <-]].
  set (dir := PathJoin [root; ACMEPrivateKeyDir]). assert (Hd : dir ≠ "") by by apply PathJoin_ne.
  destruct (MkdirAll dir w) as [[e|] w1] eqn:E; intros [= <- <-]; apply mkdir_frame in E;
    (split; [by eapply outside_step|]); [done|]. intros p [= <-].
  destruct (PathJoin_suffix dir (email +:+ "_" +:+ provider) ".key" Hd) as [q Eq]; [simpl; lia|done|].
  rewrite !app_string_assoc in *. rewrite Eq. apply HasSuffix_spec. by exists q.
Qed.

Lemma RegisterAccount_files dataDir provider email kid hmac w0 w r w' : outside_keys w0 w →
  RegisterAccount dataDir provider email kid hmac w = (r, w') → outside_keys w0 w'.
Proof.
  intros H0. unfold RegisterAccount. destruct (ACMEPrivateKey _ _ _ w) as [[p|] w1] eqn:E1.
  2:{ intros [= <- <-]. by apply (ACMEPrivateKey_files _ _ _ w0) in E1 as [? _]. }
  apply (ACMEPrivateKey_files _ _ _ w0) in E1 as [H1 Hp]; [|done]. specialize (Hp p eq_refl).
  assert (Hrm : ∀ v, outside_keys w0 v → outside_keys w0 (removeQuietly p v)).
  { intros v Hv. unfold removeQuietly. destruct (Remove p v) as [o v'] eqn:E. apply remove_frame in E. by eapply outside_key. }
  destruct (GenerateKey w1) as [[k|] w2] eqn:E2; apply generateKey_files in E2;
    apply (outside_step w0) in E2; try done; [|by intros [= <- <-]].
  destruct (MarshalECPrivateKey k) as [pem|]; [|by intros [= <- <-]].
  destruct (WriteFile p pem w2) as [[e|] w3] eqn:E3; apply write_frame in E3;
    apply (outside_key p w0) in E3; try done; [by intros [= <- <-]|].
  destruct (NewClient _ _ w3) as [[c|] w4] eqn:E4; apply newclient_files in E4;
    apply (outside_step w0) in E4; try done; [|intros [= <- <-]; by apply Hrm].
  destruct (if negb _ && negb _ then _ else _) as [e w5] eqn:E5.
  assert (H5 : outside_keys w0 w5)
    by (eapply outside_step; [exact E4|]; case_match; [by eapply registerEAB_files|by eapply register_files]).
  destruct e; [intros [= <- <-]; by apply Hrm|].
  destruct (MarshalRegistration w5); intros [= <- <-]; [by apply Hrm|done].
Qed.

Lemma registerMissing_files dataDir c w0 w r w' : outside_keys w0 w →
  registerMissing dataDir c w = (r, w') → outside_keys w0 w'.
Proof.
  intros H0. unfold registerMissing. destruct (IsGoogle _); [|by apply RegisterAccount_files].
  destruct (GoogleEAB _ w) as [[[kid hmac]|e] w1] eqn:E; apply googleEAB_files in E; apply (outside_step w0) in E; try done.
  - by apply RegisterAccount_files.
  - by intros [= <- <-].
Qed.

Lemma loadACMEUser_files c keyPath w0 w r w' : outside_keys w0 w →
  loadACMEUser c keyPath w = (r, w') → outside_keys w0 w'.
Proof.
  intros H0. unfold loadACMEUser. destruct (ReadFile keyPath w); [|by intros [= <- <-]].
  destruct (ParsePEMPrivateKey _); [|by intros [= <- <-]].
  destruct (NewClient _ _ w) as [[cl|e] w1] eqn:E; apply newclient_files in E; apply (outside_step w0) in E; try done;
    [|by intros [= <- <-]].
  destruct (ResolveAccountByKey cl w1) as [e w2] eqn:E2. apply resolve_files in E2. apply (outside_step w0) in E2; [|done].
  destruct e; by intros [= <- <-].
Qed.

Lemma makeACMEUser_files dataDir c w r w' : makeACMEUser dataDir c w = (r, w') → outside_keys w w'.
Proof.
  unfold makeACMEUser. destruct (ACMEPrivateKey _ _ _ w) as [[p|] w1] eqn:E1;
    apply (ACMEPrivateKey_files _ _ _ w) in E1 as [H1 _]; try apply outside_refl; [|by intros [= <- <-]].
  destruct (Stat p w1) as [e|]; [|by apply loadACMEUser_files].
  destruct (errIs e ErrNotExist); [|by intros [= <- <-]].
  destruct (registerMissing dataDir c w1) as [e' w2] eqn:E2. apply (registerMissing_files _ _ w) in E2; [|done].
  destruct e'; [by intros [= <- <-]|by apply loadACMEUser_files].
Qed.

Lemma SetChallenger_files (a : ACME W) c w r w' : SetChallenger a c w = Ret (r, w') → same_except [] w w'.
Proof.
  unfold SetChallenger. destruct (getChallenger c) as [[[ty g]|e]|]; [|intros [= <- <-]; apply same_except_refl|done].
  destruct (String.eqb ty ChallengeTypeDns01).
  { destruct (sc_DnsProvider c); [|done]. destruct (SetDNS01Provider _ _ _ w) eqn:E. intros [= <- <-]. by eapply dns01_files. }
  destruct (String.eqb ty ChallengeTypeHttp01); [|intros [= <- <-]; apply same_except_refl].
  destruct (SetHTTP01Provider _ _ w) eqn:E. intros [= <- <-]. by eapply http01_files.
Qed.

(** Setting ACME up changes no files but account keys. *)
Lemma MakeACME_files dataDir tag um c w r w' : MakeACME dataDir tag um c w = Ret (r, w') → outside_keys w w'.
Proof.
  unfold MakeACME. destruct (IsMock _); [intros [= <- <-]; apply outside_refl|].
  destruct (makeACMEUser dataDir c w) as [[u|] w1] eqn:E1; apply makeACMEUser_files in E1; [|by intros [= <- <-]].
  destruct (NewClient _ u w1) as [[cl|] w2] eqn:E2; apply newclient_files in E2; apply (outside_step w) in E2; try done;
    [|by intros [= <- <-]].
  destruct (SetChallenger _ c w2) as [[o w3]|] eqn:E3; [|done]. apply SetChallenger_files in E3.
  apply (outside_step w) in E3; [|done]. destruct o; by intros [= <- <-].
Qed.

Lemma ServerCachePath_files dataDir w r w' : ServerCachePath dataDir w = (r, w') →
  same_except [] w w' ∧ ∀ p, r = Ok p → HasSuffix p ".key" = false.
Proof.
  unfold ServerCachePath. destruct (stateRoot dataDir w) as [root|]; [|intros [= <- <-]; split; [apply same_except_refl|done]].
  destruct (MkdirAll root w) as [[e|] w1] eqn:E; intros [= <- <-]; apply mkdir_frame in E; (split; [done|]); [done|].
  intros p [= <-]. destruct (decide (root = "")) as [->|Hr]; [by vm_compute|].
  destruct (PathJoin_suffix root "cache" ".json" Hr) as [q Eq]; [simpl; lia|done|].
  change ServerCacheFile with ("cache" +:+ ".json"). rewrite Eq.
  destruct (HasSuffix (q +:+ ".json") ".key") eqn:Es; [|done]. apply HasSuffix_spec in Es as [t Et].
  exfalso. clear -Et.
  apply (f_equal (λ s, str_drop (slen s - 4) s)) in Et.
  replace (q +:+ ".json") with ((q +:+ ".") +:+ "json") in Et by by rewrite <- app_string_assoc.
  rewrite (slen_app (q +:+ ".") "json"), (slen_app t ".key") in Et. simpl (slen "json") in Et. simpl (slen ".key") in Et.
  rewrite !Nat.add_sub, !str_drop_app in Et. done.
Qed.
End Frames.

(** ** A restart *)

Section Restart.
Context {W : Type} `{RT : Runtime W} `{LG : Lego W} `{PE : ProcessEnv W} `{FS : FileSystem W}.
Context `{OP : !Opener W} `{LF : !LogFile W} `{TS : Toml ServerConfig} `{PF : Pflag} `{CC : CacheCodec}.
Context `{FL : !FileSystemLaws W} `{LFi : !LegoFiles W} `{SF : !StartFiles W} `{CL : !CacheCodecLaws}.
Variables dataDirEnv mockTag : string.
Variable unixMicro : Z.
Variable cacheRange : gmap Key (option certStoreEntry) → list (Key * option certStoreEntry).
Variable rangeEntries : gmap Key certStoreEntry → list (Key * certStoreEntry).
Variable nows : nat → Time.
Hypothesis cacheRange_all : ∀ m, cacheRange m ≡ₚ map_to_list m.
Hypothesis rangeEntries_all : ∀ m, rangeEntries m ≡ₚ map_to_list m.
Notation serverInit := (serverInit dataDirEnv mockTag unixMicro cacheRange rangeEntries nows).

Lemma holds_frame s (w w' : W) : ReadFile (cs_path s) w' = ReadFile (cs_path s) w → holds s w → holds s w'.
Proof.
  intros E (_&b&Hm&Hr). rewrite <- E in Hr. split; [by eapply read_exists|]. by exists b.
Qed.

Lemma Bootstrap_files c l (w : W) l' w' q : Bootstrap c l w = (l', w') → lc_Path c ≠ q → ReadFile q w' = ReadFile q w.
Proof.
  unfold Bootstrap, SetLogFile. intros E Hq. destruct (String.eqb (lc_Path c) ""); [by injection E as _ <-|].
  destruct (OpenAppend _ w) as [e w1] eqn:Eo. apply append_files in Eo.
  destruct e; injection E as _ <-; apply Eo; rewrite list_elem_of_singleton; congruence.
Qed.

(** The world in which [loadCertStore] reads the cache. *)
Lemma serverInit_loads args (w : W) sv w' :
  serverInit args w = (Up sv, w') →
  (∀ v, Parse serverFlags args = Some v → getString "log" v ≠ cs_path (sStore (sv_server sv))) →
  ∃ s w1 e, sCache s = ∅ ∧ sStore s = mkCertStore (cs_path (sStore (sv_server sv))) ∅ [] ∧
    loadCertStore cacheRange rangeEntries nows s w1 = Ret (sv_server sv, e) ∧
    ReadFile (cs_path (sStore (sv_server sv))) w1 = ReadFile (cs_path (sStore (sv_server sv))) w.
Proof.
  unfold Startup.serverInit. destruct (Parse serverFlags args) as [v|]; [|done].
  destruct (getBool "help" v); [done|]. destruct (getBool "version" v); [done|].
  destruct (Bootstrap _ _ w) as [log wb] eqn:Eb. destruct (String.eqb (getString "conf" v) ""); [done|].
  unfold loadServer. destruct (ServerCachePath _ wb) as [[path|e] wp] eqn:Ep; [|done]. simpl.
  apply ServerCachePath_files in Ep as [Hp Hk]. specialize (Hk path eq_refl).
  destruct (LoadTOML _ _ wp) as [c [e|]]; [done|]. destruct (ServerConfig_Validate _ c) as [c' [e|]]; [done|].
  unfold Startup.Init. destruct (MakeACME _ _ _ _ wp) as [[[i|e] w1]|m] eqn:Ea; [|done|done].
  apply MakeACME_files in Ea. set (s := with_config _ _).
  pose proof (loadCertStore_loaded cacheRange rangeEntries nows cacheRange_all rangeEntries_all s w1 eq_refl eq_refl eq_refl) as Hl.
  destruct (loadCertStore _ _ _ s w1) as [[s' e]|m] eqn:El; [|done]. intros [= <- <-] Hlog. simpl in *.
  destruct Hl as (_&_&Hpath). rewrite Hpath in *. exists s, w1, e. split_all; [done..|].
  rewrite (Ea path Hk), (Hp path (not_elem_of_nil _)). eapply Bootstrap_files; [exact Eb|]. by apply Hlog.
Qed.

(** C5: a renewed certificate survives a restart: after a successful write of the
    store, a server that starts on the same cache file holds exactly the
    stored certificates that are still valid, each under the key of its
    domains, and answers a granted request for one of them with it at once,
    without contacting the ACME server or changing anything else, as long as
    it is valid. *)
Theorem restart_serves args s0 f0 t0 t1 (w w' : W) sv :
  save s0 f0 = (None, w) → well_keyed (cs_entries s0) →
  (∀ k x, cs_entries s0 !! k = Some x → utf8_names x) → (∀ i, t0 ≤ nows i ≤ t1) →
  serverInit args w = (Up sv, w') → cs_path (sStore (sv_server sv)) = cs_path s0 →
  (∀ v, Parse serverFlags args = Some v → getString "log" v ≠ cs_path s0) →
  (∀ k e, sCache (sv_server sv) !! k = Some e →
     ∃ x, cs_entries s0 !! k = Some x ∧ e = loadedEntry x ∧ t0 < ValidBefore (se_Cert x)) ∧
  ∀ k x, cs_entries s0 !! k = Some x → t1 < ValidBefore (se_Cert x) →
    sCache (sv_server sv) !! k = Some (loadedEntry x) ∧
    ∀ V `{RV : Runtime V} `{OB : !Obtainer V} `{UQ : !UpdateQueue V} `{AC : ApiCodec} r ds (v : V) b,
      granted (sv_server sv) r ds → AsKey ds = k → ctxErr v = None → timeNow v < ValidBefore (se_Cert x) →
      encodeResp (respOf (sv_server sv) (loadedEntry x)) = Ok b →
      ∃ s', apiWithTokenHandler (sv_server sv) r v = (mkResponse StatusOK "application/json" b, (s', v)).
Proof.
  intros Hs%save_holds Hk Hu Ht Hi Hp Hlog. rewrite <- Hp in Hlog.
  destruct (serverInit_loads args w sv w' Hi Hlog) as (s&w1&e&Hc&Hst&Hl&Hr). rewrite Hp in Hr, Hst.
  apply (holds_frame s0 w w1 Hr) in Hs.
  destruct (holds_loads cacheRange cacheRange_all nows t0 t1 s0 w1 Ht Hk Hu Hs) as (st&Hload&Hsub&Hv0&Hv1).
  rewrite <- Hst in Hload.
  assert (Hkst : well_keyed (cs_entries st)) by (intros k x Hx; apply Hk; by eapply lookup_weaken).
  rewrite (loadCertStore_cache cacheRange rangeEntries rangeEntries_all nows s w1 st Hc Hload Hkst) in Hl.
  injection Hl as <- _. simpl. split.
  - intros k en Hen. rewrite lookup_fmap in Hen. destruct (cs_entries st !! k) as [x|] eqn:Ex; [|done].
    injection Hen as <-. exists x. split_all; [by eapply lookup_weaken|done|by eapply Hv0].
  - intros k x Hx Hlt. rewrite lookup_fmap, (Hv1 k x Hx Hlt). split; [done|].
    intros V RV OB UQ AC r ds v b Hg Hds Hctx Hval Henc. rewrite (handleCertReq_granted _ r ds v Hg).
    unfold servedEntry. simpl. rewrite Hds, lookup_fmap, (Hv1 k x Hx Hlt). simpl.
    unfold renew. rewrite Hctx. simpl. unfold IsValid, Before. rewrite (proj2 (Z.ltb_lt _ _) Hval).
    rewrite Henc. by eexists.
Qed.
End Restart.

(** ** A concrete start *)

#[local] Existing Instances Acme.Demo.demo_env Acme.Demo.demo_lego CertStore.Demo.bit_codec CertStore.Demo.bit_codec_laws
  Server.Demo.sim_obtainer Server.Demo.sim_queue Http.Demo.text_codec Handler.Demo.run_disk.
Module Demo.
Definition World : Type := Acme.Demo.World.

(** Flags by position: the configuration, then the data directory. *)
#[export] Instance positional_flags : Pflag := {
  Parse flags args :=
    let v := list_to_map ((λ f, (fl_name f, fl_default f)) <$> flags) in
    Some (match args with
          | [conf] => <[ "conf" := FString conf ]> v
          | conf :: dir :: _ => <[ "conf" := FString conf ]> (<[ "data-dir" := FString dir ]> v)
          | [] => <[ "help" := FBool true ]> v
          end);
}.

#[export] Instance demo_opener : Opener World := { Open p w := Stat p w }.
#[export] Instance disk_opener : Opener Disk := { Open p w := Stat p w }.
#[export] Instance disk_log : LogFile Disk := { OpenAppend p w := (None, w) }.
#[export] Instance demo_log : LogFile World := { OpenAppend p w := (None, w) }.

(** A decoder that knows one configuration by its name. *)
#[export] Instance server_toml : Toml ServerConfig := {
  TomlUnmarshal b c :=
    if String.eqb b "mock" then
      (mkServerConfig (mkACMEConfig "dns" "" "mock" 5 "168h" "24h" ["example.com"] 0 0) ∅ None None ""
         (mkHttpServerConfig true ":10001" "/" "token" false [] "secret") (sc_GRPCSDSServer c), None)
    else (c, Some (EText "toml"));
}.

#[export] Instance client_toml : Toml ClientConfig := {
  TomlUnmarshal b c := if String.eqb b "client" then (Daemon.Demo.cfg, None) else (c, Some (EText "toml"));
}.

#[export] Instance txc_toml : Toml TencentCloudConfig := { TomlUnmarshal _ c := (c, None) }.
#[export] Instance demo_txc : TxcBuilder := { NewTxcClient _ _ _ _ := None }.
#[export] Instance demo_kube : KubeBuilder Disk := {
  RestConfig := unit; BuildConfigFromFlags _ _ _ := Ok (); NewForConfig _ := None;
}.

#[export] Instance demo_legofiles : LegoFiles World.
Proof. split; intros; simpl in *; simplify_eq; apply same_except_refl. Qed.

#[export] Instance demo_startfiles : StartFiles World.
Proof.
  split; intros p w; simpl; unfold FileExists; simpl.
  - intros b. by destruct (files w.2 !! p).
  - intros r w' [= <- <-]. apply same_except_refl.
Qed.

Definition conf : string := "/etc/certdx/server.toml".
Definition w0 : World :=
  ({| sim_now := 0; sim_cancel := None |},
   mkDisk (<[ conf := "mock" ]> (<[ "/etc/certdx/client.toml" := "client" ]> ∅)) []).

(** The disk after the previous server has stored its certificates. *)
Definition w1 : World := snd (save CertStore.Demo.loaded w0).

Definition request : Request :=
  mkRequest "POST" "/" (λ h, if String.eqb h "Authorization" then "Token secret" else "") "example.com".
Definition noon : Sim := {| sim_now := 200; sim_cancel := None |}.
End Demo.

Import (hints) Demo.

Definition demo_start (args : list string) (w : Demo.World) : started (server Demo.World) * Demo.World :=
  serverInit "" "" 0 CertStore.Demo.range Server.Demo.rangeEntries CertStore.Demo.clock args w.

(** What comes out of the start on the stored certificates. *)
Definition demo_server : CertDXServer :=
  mkServer (mkServerConfig Server.Demo.acme ∅ None None ""
      (mkHttpServerConfig true ":10001" "/" "token" false [] "secret") (mkGRPCServerConfig false ":10002"))
    (<[ AsKey ["example.com"] := loadedEntry CertStore.Demo.new_cert ]> ∅)
    (mkCertStore "/var/lib/certdx/cache.json" (<[ AsKey ["example.com"] := CertStore.Demo.new_cert ]> ∅) []).

Example demo_up : demo_start [Demo.conf] Demo.w1 =
  (Up (mkStarted demo_server (ImplMock (NewMockACME (168 * Hour) "" 0)) logging), Demo.w1).
Proof. vm_compute. reflexivity. Qed.

Lemma server_start_witness :
  pinit (sStore demo_server) Demo.w1 true false
    (serverMain (mkStarted demo_server (ImplMock (NewMockACME (168 * Hour) "" 0)) logging) Demo.w1).
Proof.
  pose proof (server_start "" "" 0 CertStore.Demo.range Server.Demo.rangeEntries CertStore.Demo.clock
    (λ m, reflexivity _) (λ m, reflexivity _) [Demo.conf] Demo.w1) as H.
  pose proof demo_up as E. unfold demo_start in E. rewrite E in H. exact (proj2 (proj2 (proj2 H))).
Defined.

Lemma restart_serves_witness :
  ∃ s', apiWithTokenHandler demo_server Demo.request Demo.noon =
    (mkResponse StatusOK "application/json" "c1|k1", (s', Demo.noon)).
Proof.
  assert (Hs : save CertStore.Demo.loaded Demo.w0 = (None, Demo.w1)) by (vm_compute; reflexivity).
  assert (Hlog : ∀ v, Parse serverFlags [Demo.conf] = Some v → getString "log" v ≠ cs_path CertStore.Demo.loaded)
    by (intros v [= <-]; vm_compute; discriminate).
  destruct (restart_serves "" "" 0 CertStore.Demo.range Server.Demo.rangeEntries CertStore.Demo.clock
    (λ m, reflexivity _) (λ m, reflexivity _) [Demo.conf] CertStore.Demo.loaded Demo.w0 100 100 Demo.w1 Demo.w1 _
    Hs loaded_keyed loaded_utf8 ltac:(unfold CertStore.Demo.clock; lia) demo_up eq_refl Hlog) as [_ H].
  destruct (H (AsKey ["example.com"]) CertStore.Demo.new_cert (lookup_insert_eq _ _ _) ltac:(vm_compute; reflexivity))
    as [_ Hserve].
  apply (Hserve Sim _ _ _ _ _ ["example.com"]); [split; vm_compute; reflexivity|reflexivity..].
Defined.

Lemma updaters_start_witness :
  startCertDXDaemon (d_Config (fst (K8sInitCertificateUpdater "/etc/certdx/client.toml" "" (snd Demo.w0)))) = None.
Proof.
  destruct (updaters_start "/etc/certdx/client.toml" "" (snd Demo.w0)
    (fst (K8sInitCertificateUpdater "/etc/certdx/client.toml" "" (snd Demo.w0)))) as (_&H&_); [|exact H].
  left. split; [reflexivity|]. vm_compute. reflexivity.
Defined.

Example client_up :
  match fst (clientInit (W := Disk) ["/etc/certdx/client.toml"] (snd Demo.w0)) with
  | Up (d, _) => clientMain d = RunHttpMain ∧ size (d_certs d) = 1%nat
  | _ => False
  end.
Proof. vm_compute. done. Qed.
