(* ===== verification/Updaters.v ===== *)
(** exec/tools, from the command line to the cloud: the receivers of the two
    updaters, [InitCertificateUpdater] and [InvokeCertificateUpdate] on them,
    with the wait during which the client runs, and the registry of Commands
    with these updaters in it.  What the environment does while a task waits
    is a schedule: deliveries of the client, what happens elsewhere, the end
    of the context, the wake-up of the waiting goroutine. *)

From Stdlib Require Import ZArith Lia.
From stdpp Require Import base option list gmap sets strings relations.
From S2P Require Import Prelude.
From S2P Require Import GoStd.
From S2P Require Import Logging.
From S2P Require Import Sys.
From S2P Require Import Paths.
From S2P Require Import Domain.
From S2P Require Import Config.
From S2P Require Import Retry.
From S2P Require Import Acme.
From S2P Require Import CertEntry.
From S2P Require Import CertStore.
From S2P Require Import Handler.
From S2P Require Import Mtls.
From S2P Require Import Daemon.
From S2P Require Import HttpClient.
From S2P Require Import K8s.
From S2P Require Import Txc.
From S2P Require Import Commands.
From S2P Require Import Startup.

Open Scope Z_scope.

(** ** What happens while a task waits *)

(** One event of the time between the start of the client and the return of
    the wait: the client hands a certificate to the handlers of a watched key;
    another goroutine or another program changes the world; the client calls
    [logging.Fatal]; the context of the wait is done, and the select takes
    that branch; the goroutine on the wait group looks at the counter.  A
    handler runs to its end in one event: handlers that run at the same time
    are those of different secrets or certificates. *)
Inductive event (W : Type) :=
| Delivered (k : Key) (fullchain key : string)
| Elsewhere (f : W → W)
| Fatal
| CtxDone
| Woken.
Arguments Delivered {W}.
Arguments Elsewhere {W}.
Arguments Fatal {W}.
Arguments CtxDone {W}.
Arguments Woken {W}.

(** ** Kubernetes *)

Section Kubernetes.
Context {W : Type} `{FS : FileSystem W} `{CR : !CommandRunner W}.
Context `{OP : !Opener W} `{LF : !LogFile W} `{TS : Toml ClientConfig} `{PF : Pflag}.
Context `{KB : !KubeBuilder W} `{KC : !KubeClient W}.

(** The run that follows the start of the client on a registration. *)
Variable schedule : registration → W → list (event W).

(** The receiver: the daemon is nil before [initCertDX], the client before
    [initKubernetesClient].  The wait group and the errors are in [run]. *)
Record KubernetesCertificateUpdater := mkKubernetesUpdater {
  ku_certdxConfig : string;
  ku_k8sConfig : string;
  ku_certDXDaemon : option (clientDaemon W);
  ku_kubeClient : bool;
}.

Definition MakeKubernetesReplaceCertificate (certdxConfig k8sConfig : string) : KubernetesCertificateUpdater :=
  mkKubernetesUpdater certdxConfig k8sConfig None false.

Definition KubernetesInit (r : KubernetesCertificateUpdater) (w : W)
    : (KubernetesCertificateUpdater * option error) * W :=
  let '(d, err) := K8sInitCertificateUpdater (ku_certdxConfig r) (ku_k8sConfig r) w in
  ((mkKubernetesUpdater (ku_certdxConfig r) (ku_k8sConfig r) (Some d)
      (match err with None => true | Some _ => ku_kubeClient r end), err), w).

(** A delivery: the handler of the watched secret, with its [sync.Once]. *)
Definition deliverSecret (reg : registration) (k : Key) (fullchain key : string) (r : run) (w : W) : run * W :=
  match rg_watch reg !! k with
  | None => (r, w)
  | Some i =>
      if bool_decide (i ∈ fired r) then (r, w)
      else match rg_tasks reg !! i with
      | None => (r, w)
      | Some (secret, _) =>
          let '(err, w) := replaceCertificateInKubernetes secret fullchain key w in
          (mkRun (wg r - 1) ({[ i ]} ∪ fired r)
             (taskErr r ++ option_list (EWrap (Namespace secret +:+ "/" +:+ SName secret +:+ ": %w") <$> err)), w)
      end
  end.

(** [waitReplaceTask] with the goroutines beside it. *)
Fixpoint awaitSecrets (reg : registration) (evs : list (event W)) (r : run) (w : W) : taskEnd * W :=
  match evs with
  | [] => (Unfinished, w)
  | Delivered k fullchain key :: evs =>
      let '(r, w) := deliverSecret reg k fullchain key r w in awaitSecrets reg evs r w
  | Elsewhere f :: evs => awaitSecrets reg evs r (f w)
  | Fatal :: _ => (Exited 1, w)
  | CtxDone :: _ => (Returned (Some (EText "timeout waiting for kubernetes secrets to be updated")), w)
  | Woken :: evs => if wg r =? 0 then (Returned (errorsJoin (taskErr r)), w) else awaitSecrets reg evs r w
  end.

(** The daemon is made before the client: one without the other is the nil
    pointer whose configuration is asked for. *)
Definition KubernetesInvoke (r : KubernetesCertificateUpdater) (w : W) : taskEnd * W :=
  match ku_certDXDaemon r with
  | None => if ku_kubeClient r then (Exited 2, w)
            else (Returned (Some (EText "kubernetes client is not initialized")), w)
  | Some d =>
      let '(s, w) := K8s.InvokeCertificateUpdate (ku_kubeClient r) (d_Config d) w in
      match s with
      | inl err => (Returned err, w)
      | inr reg => awaitSecrets reg (schedule reg w) (mkRun (rg_wg reg) ∅ []) w
      end
  end.

Definition kubernetesUpdater (certdxConfig k8sConfig : string) : updater :=
  mkUpdater KubernetesCertificateUpdater (MakeKubernetesReplaceCertificate certdxConfig k8sConfig)
    KubernetesInit KubernetesInvoke.
End Kubernetes.
Arguments KubernetesCertificateUpdater : clear implicits.

(** ** Tencent Cloud *)

Section TencentCloud.
Context {W : Type} `{FS : FileSystem W} `{CR : !CommandRunner W}.
Context `{OP : !Opener W} `{LF : !LogFile W} `{TS : Toml ClientConfig} `{PF : Pflag}.
Context `{RT : Runtime W} `{TX : !TxcClient W} `{TB : TxcBuilder} `{TT : Toml TencentCloudConfig}.

(** The rounds of [FetchTencentCloudCertificate] that are looked at. *)
Variable fuel : nat.
Variable schedule : list Txc.ClientCertification → W → list (event W).

Record TencentCloudCertificateUpdater := mkTencentCloudUpdater {
  tu_confPath : string;
  tu_cfg : TencentCloudConfig;
  tu_certDXDaemon : option (clientDaemon W);
}.

Definition MakeTencentCloudCertificateUpdater (confPath : string) : TencentCloudCertificateUpdater :=
  mkTencentCloudUpdater confPath zeroTencentCloudConfig None.

Definition TencentCloudInit (r : TencentCloudCertificateUpdater) (w : W)
    : (TencentCloudCertificateUpdater * option error) * W :=
  let '((d, cfg), err) := TxcInitCertificateUpdater (tu_confPath r) w in
  ((mkTencentCloudUpdater (tu_confPath r) cfg (Some d), err), w).

(** A delivery: the closure of [makeReplaceHandler], whose deferred [wg.Done]
    runs every time. *)
Definition deliverTxc (tasks : list Txc.ClientCertification) (k : Key) (fullchain key : string) (r : txcRun) (w : W)
    : txcRun * W :=
  match AddReplaceTask tasks !! k with
  | None => (r, w)
  | Some i =>
      match tasks !! i with
      | None => (r, w)
      | Some taskCert =>
          let '(err, w) := replaceHandler taskCert fullchain key w in
          (mkTxcRun (x_wg r - 1) (x_served r ++ [i]) (x_taskErr r ++ option_list err) (x_wg r - 1 <? 0), w)
      end
  end.

(** [WaitReplaceTask] with the goroutines beside it; a negative counter
    panics in the handler that makes it so. *)
Fixpoint awaitTxc (tasks : list Txc.ClientCertification) (evs : list (event W)) (r : txcRun) (w : W) : taskEnd * W :=
  match evs with
  | [] => (Unfinished, w)
  | Delivered k fullchain key :: evs =>
      let '(r, w) := deliverTxc tasks k fullchain key r w in
      if x_panic r then (Exited 2, w) else awaitTxc tasks evs r w
  | Elsewhere f :: evs => awaitTxc tasks evs r (f w)
  | Fatal :: _ => (Exited 1, w)
  | CtxDone :: evs =>
      match ctxErr w with
      | Some e => (Returned (Some (EWrap "wait for certificate replacement: %w" e)), w)
      | None => awaitTxc tasks evs r w
      end
  | Woken :: evs => if x_wg r =? 0 then (Returned (errorsJoin (x_taskErr r)), w) else awaitTxc tasks evs r w
  end.

Definition TencentCloudInvoke (r : TencentCloudCertificateUpdater) (w : W) : taskEnd * W :=
  match tu_certDXDaemon r with
  | None => (Exited 2, w)
  | Some d =>
      match TxcInvokeCertificateUpdate fuel d (tu_cfg r) w with
      | None => (Unfinished, w)
      | Some (Panic _, w) => (Exited 2, w)
      | Some (Ret (inl err), w) => (Returned (Some err), w)
      | Some (Ret (inr tasks), w) =>
          awaitTxc tasks (schedule tasks w) (mkTxcRun (Z.of_nat (length tasks)) [] [] false) w
      end
  end.

Definition tencentCloudUpdater (confPath : string) : updater :=
  mkUpdater TencentCloudCertificateUpdater (MakeTencentCloudCertificateUpdater confPath)
    TencentCloudInit TencentCloudInvoke.
End TencentCloud.
Arguments TencentCloudCertificateUpdater : clear implicits.

(** ** The registry *)

Section Tools.
Context {W : Type} `{FS : FileSystem W} `{CR : !CommandRunner W}.
Context `{OP : !Opener W} `{LF : !LogFile W} `{TS : Toml ClientConfig} `{PF : Pflag}.
Context `{KB : !KubeBuilder W} `{KC : !KubeClient W}.
Context `{RT : Runtime W} `{TX : !TxcClient W} `{TB : TxcBuilder} `{TT : Toml TencentCloudConfig}.
Context `{PE : ProcessEnv W} `{PM : Pem} `{TK : !ToolCrypto W} `{LG : !Lego W} `{CC : CacheCodec}.

Variable dataDirEnv : string.
Variable cacheRange : gmap Key (option certStoreEntry) → list (Key * option certStoreEntry).
Variable nows : nat → Time.
Variable k8sSchedule : registration → W → list (event W).
Variable fuel : nat.
Variable txcSchedule : list Txc.ClientCertification → W → list (event W).

(** certdx_tools with the updaters it is built with. *)
Definition toolCommands : list (string * command) :=
  commands dataDirEnv cacheRange nows (tencentCloudUpdater fuel txcSchedule) (kubernetesUpdater k8sSchedule).

Definition toolsMain : gmap string string → list string → W → outcome (option Z * W) :=
  main dataDirEnv cacheRange nows (tencentCloudUpdater fuel txcSchedule) (kubernetesUpdater k8sSchedule).
End Tools.

(** ** A cluster the updater alone writes to *)

(** What the API promises beyond [KubeLaws] while nobody else writes secrets:
    a list is complete, reading and a failed write leave the content alone,
    and the run of a retried closure that gives the result comes after failed
    runs only. *)
Class KubeQuiet (W : Type) `{KubeLaws W} := {
  list_all items w w' : listSecrets w = (Ok items, w') →
    stored w' = stored w ∧ (∀ s, s ∈ items ↔ stored w !! id_of s = Some s) ∧ NoDup (id_of <$> items);
  get_quiet ns n w : stored (snd (getSecret ns n w)) = stored w;
  update_failed s w e w' : updateSecret s w = (Some e, w') → stored w' = stored w;
  retry_from fn (P : W → Prop) w : P w → (∀ w, P w → fst (fn w) ≠ None → P (snd (fn w))) →
    ∃ w0, P w0 ∧ fn w0 = RetryOnConflict fn w;
}.

Section Quiet.
Context {W : Type} `{KC : KubeClient W} `{KL : !KubeLaws W} `{KQ : !KubeQuiet W}.

Lemma attempt_failed cert fullchain key (w w' : W) e :
  replaceAttempt cert fullchain key w = (Some e, w') → stored w' = stored w.
Proof.
  unfold replaceAttempt. pose proof (get_quiet (Namespace cert) (SName cert) w) as Hg.
  destruct (getSecret _ _ w) as [[s1|e1] w1]; simpl in Hg.
  - destruct (upToDate s1 fullchain key); [done|]. by intros ->%update_failed.
  - destruct (IsNotFound e1); [done|]. by intros [= _ <-].
Qed.

(** Where the retries end, the content is what it was. *)
Lemma retried cert fullchain key (w : W) :
  ∃ w0, stored w0 = stored w ∧ replaceAttempt cert fullchain key w0 = RetryOnConflict (replaceAttempt cert fullchain key) w.
Proof.
  apply (retry_from (replaceAttempt cert fullchain key) (λ w0, stored w0 = stored w)); [done|].
  intros w1 Hw Hf. destruct (replaceAttempt cert fullchain key w1) as [[e|] w2] eqn:E; [|done].
  simpl. by rewrite (attempt_failed _ _ _ _ _ _ E).
Qed.

Lemma replace_failed cert fullchain key (w w' : W) e :
  replaceCertificateInKubernetes cert fullchain key w = (Some e, w') → stored w' = stored w.
Proof.
  unfold replaceCertificateInKubernetes. destruct (_ || _); [by intros [= _ <-]|].
  destruct (retried cert fullchain key w) as (w0&Hs&Hr). intros H. rewrite <- Hr in H.
  by rewrite (attempt_failed _ _ _ _ _ _ H).
Qed.

Lemma replace_quiet cert fullchain key (w w' : W) :
  replaceCertificateInKubernetes cert fullchain key w = (None, w') →
  fullchain ≠ "" ∧ key ≠ "" ∧ (∀ id, id ≠ id_of cert → stored w' !! id = stored w !! id) ∧
  ∀ s1, stored w !! id_of cert = Some s1 → ∃ s, stored w' !! id_of cert = Some s ∧ renewedAs s1 s fullchain key.
Proof.
  intros (Hf&Hk&H)%replace_nonempty. destruct (retried cert fullchain key w) as (w0&Hs&Hr). rewrite <- Hr in H.
  apply replaceAttempt_spec in H as [Ho Hm]. rewrite get_quiet, Hs in Ho, Hm. split_all; [done..|].
  intros s1 E. rewrite E in Hm. destruct Hm as (s&?&?&_). by exists s.
Qed.

(** Every other secret is left alone, with or without success. *)
Lemma replace_others cert fullchain key (w : W) id : id ≠ id_of cert →
  stored (snd (replaceCertificateInKubernetes cert fullchain key w)) !! id = stored w !! id.
Proof.
  intros Hne. destruct (replaceCertificateInKubernetes cert fullchain key w) as [[e|] w'] eqn:E; simpl.
  - by rewrite (replace_failed _ _ _ _ _ _ E).
  - by apply replace_quiet in E as (_&_&Ho&_); apply Ho.
Qed.
End Quiet.

(** ** What a Kubernetes run leaves *)

(** A delivery is a step of the run, or nothing. *)
Lemma deliverSecret_step `{KC : KubeClient W} reg k fullchain key r (w : W) r' w' :
  deliverSecret reg k fullchain key r w = (r', w') → r' = r ∨ runStep reg r r'.
Proof.
  unfold deliverSecret. destruct (rg_watch reg !! k) as [i|] eqn:Ek; [|intros [= <- _]; by left].
  case_bool_decide as Hi; [intros [= <- _]; by left|].
  destruct (rg_tasks reg !! i) as [[s ds]|]; [|intros [= <- _]; by left].
  destruct (replaceCertificateInKubernetes s fullchain key w) as [e w1]. intros [= <- _]. right. by eapply r_first.
Qed.

(** What the wait returns is what [waitReplaceTask] of K8s allows in a state
    the run can reach. *)
Lemma await_refines `{KC : KubeClient W} reg evs : ∀ r (w : W) e w',
  reachable (runInit reg) (runStep reg) r → awaitSecrets reg evs r w = (Returned e, w') →
  ∃ r', reachable (runInit reg) (runStep reg) r' ∧
    (waitReplaceTask false r' e ∨ CtxDone ∈ evs ∧ waitReplaceTask true r' e).
Proof.
  induction evs as [|ev evs IH]; intros r w e w' Hr Ha; [done|].
  assert (Hl : ∀ r1 w1, reachable (runInit reg) (runStep reg) r1 → awaitSecrets reg evs r1 w1 = (Returned e, w') →
    ∃ r', reachable (runInit reg) (runStep reg) r' ∧
      (waitReplaceTask false r' e ∨ CtxDone ∈ ev :: evs ∧ waitReplaceTask true r' e)).
  { intros r1 w1 H1 H2. destruct (IH r1 w1 e w' H1 H2) as (r'&Hr'&[?|[? ?]]); exists r'; (split; [done|]); [by left|].
    right. split; [by right|done]. }
  destruct ev as [k fullchain key|f| | |]; simpl in Ha; [|by eapply Hl|done| |].
  - destruct (deliverSecret reg k fullchain key r w) as [r1 w1] eqn:Ed. apply (Hl r1 w1); [|done].
    destruct (deliverSecret_step _ _ _ _ _ _ _ _ Ed) as [->|Hs]; [done|by eapply reach_step].
  - injection Ha as <- _. exists r. split; [done|]. right. split; [by left|by apply wait_timeout].
  - destruct (Z.eqb_spec (wg r) 0) as [Hz|]; [|by eapply Hl].
    injection Ha as <- _. exists r. split; [done|]. left. by apply wait_done.
Qed.

Lemma registered_tasks cfg certs :
  rg_tasks (registerWatchAndHandlers cfg certs) = omap (λ s, (λ ds, (s, ds)) <$> accepted cfg s) certs.
Proof.
  unfold registerWatchAndHandlers.
  assert (H : ∀ reg, rg_tasks (foldl (λ reg s, match accepted cfg s with Some ds => register reg s ds | None => reg end) reg certs)
    = rg_tasks reg ++ omap (λ s, (λ ds, (s, ds)) <$> accepted cfg s) certs); [|apply (H (mkReg 0 [] ∅))].
  induction certs as [|s certs IH]; intros reg; simpl; [by rewrite app_nil_r|]. rewrite IH.
  destruct (accepted cfg s); simpl; [by rewrite <- app_assoc|done].
Qed.

Lemma accepted_task cfg certs s ds :
  (s, ds) ∈ rg_tasks (registerWatchAndHandlers cfg certs) ↔ s ∈ certs ∧ accepted cfg s = Some ds.
Proof.
  rewrite registered_tasks, list_elem_of_omap. split.
  - intros (s'&Hin&Hs). destruct (accepted cfg s') eqn:E; [|done]. by injection Hs as <- <-.
  - intros [Hin Ha]. exists s. by rewrite Ha.
Qed.

Section Ledger.
Context {W : Type} `{KC : KubeClient W} `{KL : !KubeLaws W} `{KQ : !KubeQuiet W}.
Variable reg : registration.
Hypothesis reg_ok : regInv reg.
Hypothesis distinct : ∀ i j t t', rg_tasks reg !! i = Some t → rg_tasks reg !! j = Some t' → id_of t.1 = id_of t'.1 → i = j.
(** The schedule, and the cluster's content at its start. *)
Variable evs0 : list (event W).
Variable content : gmap (string * string) Secret.

(** Task [t] has been served: its secret carries what was delivered for its
    domains. *)
Definition served (t : Secret * list string) (w : W) : Prop :=
  ∃ fullchain key s', Delivered (AsKey t.2) fullchain key ∈ evs0 ∧ fullchain ≠ "" ∧ key ≠ "" ∧
    stored w !! id_of t.1 = Some s' ∧ renewedAs t.1 s' fullchain key.

Record ledger (r : run) (w : W) : Prop := {
  lg_open i t : rg_tasks reg !! i = Some t → i ∉ fired r → stored w !! id_of t.1 = Some t.1;
  lg_done i t : taskErr r = [] → rg_tasks reg !! i = Some t → i ∈ fired r → served t w;
  lg_rest id : (∀ t, t ∈ rg_tasks reg → id_of t.1 ≠ id) → stored w !! id = content !! id;
}.

Lemma ledger_stored r w w' : stored w' = stored w → ledger r w → ledger r w'.
Proof. intros E [H1 H2 H3]. split; unfold served in *; setoid_rewrite E; done. Qed.

Lemma ledger_deliver k fullchain key r w r' w' : Delivered k fullchain key ∈ evs0 →
  ledger r w → deliverSecret reg k fullchain key r w = (r', w') → ledger r' w'.
Proof.
  intros Hin [H1 H2 H3] Hd. unfold deliverSecret in Hd. destruct (rg_watch reg !! k) as [i|] eqn:Ek; [|by injection Hd as <- <-].
  destruct (ri_watch _ reg_ok _ _ Ek) as (s&ds&Ht&Hk). rewrite Ht in Hd.
  case_bool_decide as Hi; [by injection Hd as <- <-|].
  pose proof (replace_others s fullchain key w) as Ho.
  destruct (replaceCertificateInKubernetes s fullchain key w) as [e w1] eqn:E. injection Hd as <- <-. simpl in Ho.
  assert (Hoth : ∀ j t, j ≠ i → rg_tasks reg !! j = Some t → stored w1 !! id_of t.1 = stored w !! id_of t.1).
  { intros j t Hj Hjt. apply Ho. intros Eid. by apply Hj, (distinct j i t (s, ds)). }
  split; simpl.
  - intros j t Hjt Hn. rewrite (Hoth j t) by (try done; set_solver). eapply H1; [done|set_solver].
  - intros j t He Hjt Hj. apply app_nil in He as [He0 He1].
    destruct (decide (j = i)) as [->|Hne].
    + rewrite Ht in Hjt. injection Hjt as <-. destruct e as [e|]; [done|].
      apply replace_quiet in E as (Hf&Hke&_&Hs). destruct (Hs s (H1 i (s, ds) Ht Hi)) as (s'&Hs'&Hr).
      exists fullchain, key, s'. simpl. by rewrite Hk.
    + assert (Hj' : j ∈ fired r) by set_solver.
      destruct (H2 j t He0 Hjt Hj') as (c&y&s'&?&?&?&?&?). exists c, y, s'. by rewrite (Hoth j t Hne Hjt).
  - intros id Hid. rewrite <- (H3 id Hid). apply Ho. intros ->. eapply (Hid (s, ds)); [by eapply list_elem_of_lookup_2|done].
Qed.

(** A wait that returns no error has served every task. *)
Lemma await_served evs : ∀ r w w', (∀ f w, Elsewhere f ∈ evs → stored (f w) = stored w) → evs ⊆ evs0 →
  reachable (runInit reg) (runStep reg) r → ledger r w → awaitSecrets reg evs r w = (Returned None, w') →
  ∃ r', reachable (runInit reg) (runStep reg) r' ∧ ledger r' w' ∧ wg r' = 0 ∧ taskErr r' = [].
Proof.
  induction evs as [|e evs IH]; intros r w w' Hq Hsub Hr Hl Ha; [done|].
  assert (Hq' : ∀ f w, Elsewhere f ∈ evs → stored (f w) = stored w) by (intros f w0 ?; apply Hq; by right).
  assert (Hsub' : evs ⊆ evs0) by (intros x Hx; apply Hsub; by right).
  destruct e as [k fullchain key|f| | |]; simpl in Ha; try done.
  - destruct (deliverSecret reg k fullchain key r w) as [r1 w1] eqn:Ed.
    apply (IH r1 w1 w'); [done..| | |done].
    + destruct (deliverSecret_step _ _ _ _ _ _ _ _ Ed) as [->|Hs]; [done|by eapply reach_step].
    + eapply ledger_deliver; [apply Hsub; by left|done|done].
  - apply (IH r (f w) w'); [done..| |done]. eapply ledger_stored; [|done]. apply Hq. by left.
  - destruct (Z.eqb_spec (wg r) 0) as [Hz|]; [|by apply (IH r w w')].
    injection Ha as He%errorsJoin_None <-. by exists r.
Qed.
End Ledger.

Section KubernetesRun.
Context {W : Type} `{FS : FileSystem W} `{CR : !CommandRunner W}.
Context `{OP : !Opener W} `{LF : !LogFile W} `{TS : Toml ClientConfig} `{PF : Pflag}.
Context `{KB : !KubeBuilder W} `{KC : !KubeClient W} `{KL : !KubeLaws W} `{KQ : !KubeQuiet W}.
Variable schedule : registration → W → list (event W).
(** Nobody else writes secrets. *)
Hypothesis schedule_quiet : ∀ reg w f w1, Elsewhere f ∈ schedule reg w → stored (f w1) = stored w1.

Lemma await_code reg evs : ∀ r (w : W) c w', awaitSecrets reg evs r w = (Exited c, w') → c = 1.
Proof.
  induction evs as [|e evs IH]; intros r w c w'; simpl; [done|]. destruct e as [k fc key|f| | |]; [|by apply IH| |done|].
  - destruct (deliverSecret reg k fc key r w). by apply IH.
  - by intros [= <- _].
  - destruct (wg r =? 0); [done|by apply IH].
Qed.

(** The ways the task comes to exit code 0. *)
Lemma kubernetes_success args (w : W) e w' :
  KubernetesReplaceCertificate (kubernetesUpdater schedule) args w = (e, w') → exitCode e = Some 0 →
  ∃ v, Parse (kubernetesFlags ++ [helpFlag]) args = Some v ∧
  (getBool "help" v = true ∧ w' = w ∨
   ∃ d items w1, initCertDX (getString "conf" v) w = (d, None) ∧ listSecrets w = (Ok items, w1) ∧
     let reg := registerWatchAndHandlers (d_Config d) (selectSecrets items) in
     (rg_tasks reg = [] ∧ w' = w1 ∨ awaitSecrets reg (schedule reg w1) (mkRun (rg_wg reg) ∅ []) w1 = (Returned None, w'))).
Proof.
  unfold KubernetesReplaceCertificate, withFlags. destruct (Parse _ args) as [v|]; [|by intros [= <- _]].
  intros Ht He. exists v. split; [done|]. destruct (getBool "help" v); [left; by injection Ht as _ <-|right].
  unfold required, runUpdater in Ht. destruct (String.eqb (getString "conf" v) ""); [by injection Ht as <- _|].
  simpl in Ht. unfold KubernetesInit, K8sInitCertificateUpdater in Ht. simpl in Ht.
  destruct (initCertDX (getString "conf" v) w) as [d [err|]]; [by injection Ht as <- _|].
  destruct (initKubernetesClient (getString "k8sConf" v) w) as [err|]; [by injection Ht as <- _|].
  unfold KubernetesInvoke, K8s.InvokeCertificateUpdate, getAllCertificatesFromKubernetes in Ht. simpl in Ht.
  destruct (listSecrets w) as [[items|err] w1]; [|by injection Ht as <- _].
  exists d, items, w1. split; [done|]. split; [done|]. cbn zeta. revert Ht.
  set (reg := registerWatchAndHandlers (d_Config d) (selectSecrets items)).
  destruct (length (rg_tasks reg) =? 0)%nat eqn:El.
  { intros [= _ <-]. left. split; [by apply nil_length_inv, Nat.eqb_eq|done]. }
  destruct (startCertDXDaemon (d_Config d)); [intros [= <- _]; done|].
  destruct (awaitSecrets reg _ _ w1) as [e1 w2] eqn:Ea. intros [= <- <-]. right.
  destruct e1 as [[err|]|c|]; [done|done| |done]. apply await_code in Ea as ->. done.
Qed.

Lemma selected_spec s items :
  s ∈ selectSecrets items ↔ s ∈ items ∧ SType s = SecretTypeTLS ∧ is_Some (Annotations s !! certDxDomainAnnotation).
Proof.
  unfold selectSecrets. rewrite !list_elem_of_In, filter_In, andb_true_iff, String.eqb_eq, bool_decide_eq_true. done.
Qed.

Lemma accepted_annotated cfg s ds : accepted cfg s = Some ds → is_Some (Annotations s !! certDxDomainAnnotation).
Proof. unfold accepted. destruct (Annotations s !! certDxDomainAnnotation); [eauto|done]. Qed.

(** The tasks of a run are the secrets of the cluster to be updated. *)
Lemma cluster_tasks cfg items (w w1 : W) s ds : listSecrets w = (Ok items, w1) →
  (s, ds) ∈ rg_tasks (registerWatchAndHandlers cfg (selectSecrets items)) ↔
  stored w !! id_of s = Some s ∧ SType s = SecretTypeTLS ∧ accepted cfg s = Some ds.
Proof.
  intros (_&Hi&_)%list_all. rewrite accepted_task, selected_spec, Hi. split; [naive_solver|].
  intros (?&?&Ha). split_all; [done|done|by eapply accepted_annotated|done].
Qed.

Lemma cluster_distinct cfg items (w w1 : W) i j t t' : listSecrets w = (Ok items, w1) →
  let tasks := rg_tasks (registerWatchAndHandlers cfg (selectSecrets items)) in
  tasks !! i = Some t → tasks !! j = Some t' → id_of t.1 = id_of t'.1 → i = j.
Proof.
  intros (_&_&Hn)%list_all tasks Hi Hj Hid.
  assert (Hs : (id_of ∘ fst <$> tasks) `sublist_of` (id_of <$> items)).
  { unfold tasks. rewrite registered_tasks. unfold selectSecrets. clear. induction items as [|s l IH]; [done|]. simpl.
    destruct (_ && _); simpl; [|by apply sublist_cons]. destruct (accepted cfg s); simpl; [by apply sublist_skip|by apply sublist_cons]. }
  apply (sublist_NoDup _ _ Hn) in Hs. apply (NoDup_lookup _ i j (id_of t.1) Hs); rewrite list_lookup_fmap.
  - by rewrite Hi.
  - by rewrite Hj, Hid.
Qed.

(** A run that has served everybody cannot have had two secrets with the
    same domains. *)
Lemma served_distinct reg r : regInv reg → reachable (runInit reg) (runStep reg) r → wg r = 0 → NoDup (keys reg).
Proof.
  intros Hok Hr Hz. pose proof (run_invariant reg Hok r Hr) as Hi.
  assert (H : ∀ i j k, keys reg !! i = Some k → keys reg !! j = Some k → (i < j)%nat → False).
  { intros i j k H1 H2 Hij. pose proof (shadowed_never reg Hok i j k r H1 H2 Hij Hi) as Hn.
    apply lookup_lt_Some in H1. unfold keys in H1. rewrite length_fmap in H1.
    pose proof (missing_task reg Hok r i Hi H1 Hn). lia. }
  apply NoDup_alt. intros i j k H1 H2. destruct (Nat.lt_trichotomy i j) as [?|[?|?]]; [|done|]; exfalso; eauto.
Qed.

(** C39: an exit code of 0 means what it says.  Unless the help text was asked
    for, the configuration was loaded, and in the end every TLS secret of the
    cluster that is annotated with domains the client may ask for carries a
    certificate and a key, neither empty, that the client delivered for
    exactly these domains; its annotations and its other data are as they
    were, and so is every other secret of the cluster.  No two of the updated
    secrets had the same domains.  (While nobody else writes secrets.) *)
Theorem kubernetes_exit_zero args (w : W) e w' :
  KubernetesReplaceCertificate (kubernetesUpdater schedule) args w = (e, w') → exitCode e = Some 0 →
  ∃ v, Parse (kubernetesFlags ++ [helpFlag]) args = Some v ∧
  (getBool "help" v = true ∧ w' = w ∨
   ∃ d reg w1, initCertDX (getString "conf" v) w = (d, None) ∧ NoDup (keys reg) ∧
     (∀ s ds, stored w !! id_of s = Some s → SType s = SecretTypeTLS → accepted (d_Config d) s = Some ds →
        served (schedule reg w1) (s, ds) w') ∧
     (∀ id, (∀ s, stored w !! id = Some s → SType s = SecretTypeTLS → accepted (d_Config d) s = None) →
        stored w' !! id = stored w !! id)).
Proof.
  intros Ht He. destruct (kubernetes_success args w e w' Ht He) as (v&Hv&[Hh|(d&items&w1&Hd&Hl&Hr)]); exists v; (split; [done|]); [by left|right].
  set (reg := registerWatchAndHandlers (d_Config d) (selectSecrets items)) in *.
  pose proof (cluster_tasks (d_Config d) items w w1) as Hc. fold reg in Hc.
  destruct (list_all _ _ _ Hl) as (Hst&_&_).
  exists d, reg, w1. split; [done|].
  assert (Hrest : ∀ id, (∀ s, stored w !! id = Some s → SType s = SecretTypeTLS → accepted (d_Config d) s = None) →
    ∀ t, t ∈ rg_tasks reg → id_of t.1 ≠ id).
  { intros id Hid [s ds] (Hs&Hty&Ha)%(Hc s ds Hl) <-. simpl in Hid. by rewrite (Hid s Hs Hty) in Ha. }
  destruct Hr as [[Hn ->]|Ha].
  { split_all; [unfold keys; rewrite Hn; apply NoDup_nil_2| |intros id _; by rewrite Hst].
    intros s ds Hs Hty Hacc. pose proof (proj2 (Hc s ds Hl) (conj Hs (conj Hty Hacc))) as Hin.
    rewrite Hn in Hin. by apply not_elem_of_nil in Hin. }
  assert (Hok : regInv reg) by apply registerWatchAndHandlers_inv.
  destruct (await_served reg Hok (λ i j t t', cluster_distinct (d_Config d) items w w1 i j t t' Hl)
    (schedule reg w1) (stored w) (schedule reg w1) (mkRun (rg_wg reg) ∅ []) w1 w') as (r&Hr&[H1 H2 H3]&Hz&Herr).
  - intros f w2. apply schedule_quiet.
  - done.
  - by apply reach_init.
  - split; simpl.
    + intros i [s ds] Hi _. rewrite Hst. simpl. apply list_elem_of_lookup_2, (Hc s ds Hl) in Hi. tauto.
    + intros i t _ _ Hi. by apply not_elem_of_empty in Hi.
    + intros id _. by rewrite Hst.
  - done.
  - split_all; [by eapply served_distinct| |intros id Hid; apply H3; by eapply Hrest].
    intros s ds Hs Hty Hacc. pose proof (proj2 (Hc s ds Hl) (conj Hs (conj Hty Hacc))) as Hin.
    apply list_elem_of_lookup in Hin as [i Hi]. apply (H2 i (s, ds)); [done|done|].
    destruct (decide (i ∈ fired r)) as [|Hnf]; [done|].
    pose proof (missing_task reg Hok r i (run_invariant reg Hok r Hr) (lookup_lt_Some _ _ _ Hi) Hnf). lia.
Qed.
End KubernetesRun.

(** ** What a Tencent Cloud run leaves *)

Section TencentCloudRun.
Context {W : Type} `{FS : FileSystem W} `{CR : !CommandRunner W}.
Context `{OP : !Opener W} `{LF : !LogFile W} `{TS : Toml ClientConfig} `{PF : Pflag}.
Context `{RT : Runtime W} `{TX : !TxcClient W} `{TB : TxcBuilder} `{TT : Toml TencentCloudConfig}.
Variable fuel : nat.
Variable schedule : list Txc.ClientCertification → W → list (event W).

(** The service has taken the certificate, or has it already. *)
Definition uploaded (taskCert : Txc.ClientCertification) (fullchain key : string) : Prop :=
  ∃ (w w' : W) r, UpdateCertificateInstance (updateRequest taskCert fullchain key) w = (r, w') ∧
    (r = None ∨ ∃ e, r = Some e ∧ isCertificateExists e = true).

Lemma replaceHandler_ok taskCert fullchain key (w w' : W) :
  replaceHandler taskCert fullchain key w = (None, w') → uploaded taskCert fullchain key.
Proof.
  unfold replaceHandler.
  destruct (Do_total updateRetryCount (updateAttempt (updateRequest taskCert fullchain key)) w) as [[e w1] E].
  rewrite E. intros [= -> ->]. apply Do_success in E as (_&w0&_&_&Ha). unfold updateAttempt in Ha.
  destruct (UpdateCertificateInstance _ w0) as [r w2] eqn:Eu. exists w0, w2, r. split; [done|].
  destruct r as [e|]; [|by left]. destruct (isCertificateExists e) eqn:Ex; [|done]. right. by exists e.
Qed.

Section Deliveries.
Variable tasks : list Txc.ClientCertification.
Variable evs0 : list (event W).

(** What the errors collected so far do not speak against. *)
Definition uploads (r : txcRun) : Prop :=
  x_taskErr r = [] → ∀ i, i ∈ x_served r → ∃ c fullchain key, tasks !! i = Some c ∧
    Delivered (AsKey (xc_Domains c)) fullchain key ∈ evs0 ∧ uploaded c fullchain key.

Lemma deliverTxc_step k fullchain key r (w : W) r' w' :
  Delivered k fullchain key ∈ evs0 → x_panic r = false → deliverTxc tasks k fullchain key r w = (r', w') →
  (r' = r ∨ txcStep tasks r r') ∧ (uploads r → uploads r').
Proof.
  intros Hin Hp. unfold deliverTxc. destruct (AddReplaceTask tasks !! k) as [i|] eqn:Ek; [|intros [= <- _]; by split; [left|]].
  destruct (AddReplaceTask_task _ _ _ Ek) as (c&Hc&Hk). rewrite Hc.
  destruct (replaceHandler c fullchain key w) as [e w1] eqn:Eh. intros [= <- _]. split; [right; by eapply x_deliver|].
  intros Hu He j Hj. simpl in He, Hj. apply app_nil in He as [He0 He1].
  apply elem_of_app in Hj as [Hj| ->%list_elem_of_singleton]; [by apply Hu|].
  exists c, fullchain, key. rewrite Hk. destruct e; [done|]. split_all; [done|done|by eapply replaceHandler_ok].
Qed.

Lemma awaitTxc_code evs : ∀ r (w : W) c w', awaitTxc tasks evs r w = (Exited c, w') → c ≠ 0.
Proof.
  induction evs as [|e evs IH]; intros r w c w'; simpl; [done|]. destruct e as [k fc key|f| | |]; [|by apply IH| | |].
  - destruct (deliverTxc tasks k fc key r w) as [r1 w1]. destruct (x_panic r1); [by intros [= <- _]|by apply IH].
  - by intros [= <- _].
  - destruct (ctxErr w); [done|by apply IH].
  - destruct (x_wg r =? 0); [done|by apply IH].
Qed.

Lemma await_uploads evs : ∀ r w w', evs ⊆ evs0 → x_panic r = false →
  reachable (txcInit tasks) (txcStep tasks) r → uploads r → awaitTxc tasks evs r w = (Returned None, w') →
  ∃ r', reachable (txcInit tasks) (txcStep tasks) r' ∧ uploads r' ∧ x_wg r' = 0 ∧ x_taskErr r' = [].
Proof.
  induction evs as [|e evs IH]; intros r w w' Hsub Hp Hr Hu Ha; [done|].
  assert (Hsub' : evs ⊆ evs0) by (intros x Hx; apply Hsub; by right).
  destruct e as [k fullchain key|f| | |]; simpl in Ha; [|by eapply IH|done| |].
  - destruct (deliverTxc tasks k fullchain key r w) as [r1 w1] eqn:Ed.
    destruct (x_panic r1) eqn:Ep; [done|].
    destruct (deliverTxc_step _ _ _ _ _ _ _ (Hsub _ ltac:(by left)) Hp Ed) as [Hs Hu'].
    apply (IH r1 w1 w'); [done|done| |by apply Hu'|done].
    destruct Hs as [->|Hs]; [done|by eapply reach_step].
  - destruct (ctxErr w); [done|by eapply IH].
  - destruct (Z.eqb_spec (x_wg r) 0) as [Hz|]; [|by eapply IH].
    injection Ha as He%errorsJoin_None _. by exists r.
Qed.
End Deliveries.

(** An exit code of 0: unless the help text was asked for, the expiring
    certificates were found, and as many deliveries as there are tasks were
    uploaded, each the delivery of a task's domains for the certificate this
    task replaces; all tasks, when none was served twice. *)
Theorem tencent_exit_zero args (w : W) e w' :
  TencentCloudReplaceCertificate (tencentCloudUpdater fuel schedule) args w = (e, w') → exitCode e = Some 0 →
  ∃ v, Parse (tencentCloudFlags ++ [helpFlag]) args = Some v ∧
  (getBool "help" v = true ∧ w' = w ∨
   ∃ d cfg tasks w1, TxcInitCertificateUpdater (getString "conf" v) w = ((d, cfg), None) ∧
     GetCertificateToUpdate fuel (tc_Certifications cfg) w = Some (Ret (Ok tasks), w1) ∧
     ∃ l, length l = length tasks ∧
       (∀ i, i ∈ l → ∃ c fullchain key, tasks !! i = Some c ∧
          Delivered (AsKey (xc_Domains c)) fullchain key ∈ schedule tasks w1 ∧ uploaded c fullchain key) ∧
       (NoDup l → ∀ i, (i < length tasks)%nat → i ∈ l)).
Proof.
  unfold TencentCloudReplaceCertificate, withFlags. destruct (Parse _ args) as [v|]; [|by intros [= <- _]].
  intros Ht He. exists v. split; [done|]. destruct (getBool "help" v); [left; by injection Ht as _ <-|right].
  unfold required, runUpdater in Ht. destruct (String.eqb (getString "conf" v) ""); [by injection Ht as <- _|].
  simpl in Ht. unfold TencentCloudInit in Ht. simpl in Ht.
  destruct (TxcInitCertificateUpdater (getString "conf" v) w) as [[d cfg] [err|]] eqn:Ei; [by injection Ht as <- _|].
  unfold TencentCloudInvoke, TxcInvokeCertificateUpdate in Ht. simpl in Ht.
  destruct (GetCertificateToUpdate fuel (tc_Certifications cfg) w) as [[[[tasks|err]|m] w1]|] eqn:Eg;
    [|by injection Ht as <- _..].
  exists d, cfg, tasks, w1. split; [done|]. split; [done|].
  assert (Ha : awaitTxc tasks (schedule tasks w1) (mkTxcRun (Z.of_nat (length tasks)) [] [] false) w1 = (Returned None, w')).
  { destruct (clientMain d); [| |by injection Ht as <- _];
      (destruct (awaitTxc tasks _ _ w1) as [[[err|]|c|] w2] eqn:Ea; injection Ht as <- <-; try done;
       apply awaitTxc_code in Ea; simpl in He; congruence). }
  destruct (await_uploads tasks (schedule tasks w1) (schedule tasks w1) (mkTxcRun (Z.of_nat (length tasks)) [] [] false) w1 w') as (r&Hr&Hu&Hz&Herr);
    [done|done|by apply reach_init|by intros _ i ?%not_elem_of_nil|done|].
  pose proof (txc_invariant tasks r Hr) as Hi. pose proof (ti_wg _ _ Hi). exists (x_served r).
  split_all; [lia|by apply Hu|]. intros Hn. by apply served_all.
Qed.
End TencentCloudRun.

(** ** A concrete cluster and a concrete account *)

#[local] Existing Instances Handler.Demo.run_disk Startup.Demo.positional_flags Startup.Demo.disk_opener
  Startup.Demo.disk_log Startup.Demo.client_toml Startup.Demo.demo_txc.

Module Demo.
(** The cluster beside the disk. *)
Definition World : Type := K8s.Demo.Cluster * Disk.

Definition lift {A} (f : K8s.Demo.Cluster → A * K8s.Demo.Cluster) (w : World) : A * World :=
  let '(r, c) := f w.1 in (r, (c, w.2)).

#[export] Instance run_world : CommandRunner World := { runCommand _ w := (None, w) }.
#[export] Instance world_opener : Opener World := { Open p w := Stat p w }.
#[export] Instance world_log : LogFile World := { OpenAppend _ w := (None, w) }.
#[export] Instance world_kube : KubeBuilder World := {
  RestConfig := unit; BuildConfigFromFlags _ _ _ := Ok (); NewForConfig _ := None;
}.
#[export] Instance world_cluster : KubeClient World := {
  listSecrets := lift (listSecrets (KubeClient := K8s.Demo.cluster));
  getSecret ns n := lift (getSecret (KubeClient := K8s.Demo.cluster) ns n);
  updateSecret s := lift (updateSecret (KubeClient := K8s.Demo.cluster) s);
  IsNotFound := IsNotFound (KubeClient := K8s.Demo.cluster);
  IsConflict := IsConflict (KubeClient := K8s.Demo.cluster);
  RetryOnConflict := K8s.Demo.retryLoop 5;
}.

Definition conf : string := "/etc/certdx/client.toml".
Definition plain : Secret := mkSecret "web" "other" 1 SecretTypeTLS ∅ (Some (<[ TLSCertKey := "mine" ]> ∅)).
Definition w0 : World :=
  (<[ ("web", "site") := K8s.Demo.s1 ]> (<[ ("web", "other") := plain ]> ∅), mkDisk (<[ conf := "client" ]> ∅) []).

(** The wait is looked at too early, then the certificate comes, and once
    more. *)
Definition schedule (reg : registration) (w : World) : list (event World) :=
  [Woken; Delivered (AsKey ["example.com"; "www.example.com"]) "chain" "key";
   Delivered (AsKey ["example.com"; "www.example.com"]) "newer chain" "newer key"; Woken].
End Demo.

Import (hints) Demo.

Lemma lift_spec {A} (f : K8s.Demo.Cluster → A * K8s.Demo.Cluster) w r w' :
  Demo.lift f w = (r, w') → f w.1 = (r, w'.1).
Proof. unfold Demo.lift. destruct (f w.1). by intros [= <- <-]. Qed.

#[export] Instance world_laws : KubeLaws Demo.World.
Proof.
  refine (Build_KubeLaws Demo.World _ (λ w, K8s.Demo.named w.1) _ _ _ _ (retry_last_demo 5)).
  - intros w. exact (stored_named (KubeLaws := K8s.demo_laws) w.1).
  - intros ns n w s w' E%lift_spec. exact (get_ok (KubeLaws := K8s.demo_laws) _ _ _ _ _ E).
  - intros ns n w e w' E%lift_spec. exact (get_missing (KubeLaws := K8s.demo_laws) _ _ _ _ _ E).
  - intros s w w' E%lift_spec. exact (update_ok (KubeLaws := K8s.demo_laws) _ _ _ E).
Defined.

Lemma retry_from_demo {X} n fn (P : X → Prop) w : P w → (∀ w, P w → fst (fn w) ≠ None → P (snd (fn w))) →
  ∃ w0, P w0 ∧ fn w0 = K8s.Demo.retryLoop n fn w.
Proof.
  revert w. induction n as [|n IH]; intros w Hw Hf; simpl; destruct (fn w) as [o w1] eqn:E.
  - exists w. split; [done|]. rewrite E. by destruct o as [[]|].
  - destruct o as [[|m| |]|]; try (exists w; by rewrite E).
    destruct (String.eqb m "conflict"); [|exists w; by rewrite E]. apply IH; [|done].
    specialize (Hf w Hw). rewrite E in Hf. by apply Hf.
Qed.

#[export] Instance world_quiet : KubeQuiet Demo.World.
Proof.
  split.
  - intros items w w' [= <- <-]. change (stored w) with (K8s.Demo.named w.1) at 2. split; [done|].
    assert (Hn : ∀ k s, K8s.Demo.named w.1 !! k = Some s → id_of s = k) by (by intros k s [_ H]%map_lookup_filter_Some).
    split.
    + intros s. rewrite list_elem_of_fmap. split.
      * intros ([k s']&->&Hin%elem_of_map_to_list). simpl. by rewrite (Hn k s' Hin).
      * intros Hs. exists (id_of s, s). split; [done|]. by apply elem_of_map_to_list.
    + assert (E : id_of <$> (map_to_list (K8s.Demo.named w.1)).*2 = (map_to_list (K8s.Demo.named w.1)).*1).
      { rewrite <- list_fmap_compose. apply list_fmap_ext. intros i [k s] Hi%list_elem_of_lookup_2%elem_of_map_to_list.
        by apply Hn. }
      rewrite E. apply NoDup_fst_map_to_list.
  - intros ns n w. simpl. unfold Demo.lift. simpl. by destruct (K8s.Demo.lookupSecret (ns, n) w.1).
  - intros s w e w'. simpl. unfold Demo.lift. simpl. destruct (w.1 !! id_of s) as [s0|]; [|by intros [= _ <-]].
    destruct (ResourceVersion s0 =? ResourceVersion s); by intros [= _ <-].
  - intros fn P w. apply retry_from_demo.
Defined.

Definition demo_k8s_update : taskEnd * Demo.World :=
  KubernetesReplaceCertificate (kubernetesUpdater Demo.schedule) [Demo.conf] Demo.w0.

Example demo_k8s_done : exitCode demo_k8s_update.1 = Some 0.
Proof. vm_compute. reflexivity. Qed.

(** The first delivery is in the secret, beside what else it held; the secret
    without an annotation is as it was. *)
Lemma kubernetes_exit_zero_witness :
  let w' := demo_k8s_update.2 in
  stored w' !! ("web", "other") = Some Demo.plain ∧
  ∃ fullchain key s', Delivered (W := Demo.World) (AsKey ["example.com"; "www.example.com"]) fullchain key ∈ Demo.schedule
      (registerWatchAndHandlers Daemon.Demo.cfg [K8s.Demo.s1]) Demo.w0 ∧
    stored w' !! ("web", "site") = Some s' ∧ carries s' fullchain key ∧ default ∅ (SData s') !! "ca.crt" = Some "ca".
Proof.
  cbn zeta. pose proof demo_k8s_done as He. destruct demo_k8s_update as [e w'] eqn:E. cbn [fst snd] in *.
  assert (Hq : ∀ reg (w : Demo.World) f w1, Elsewhere f ∈ Demo.schedule reg w → stored (f w1) = stored w1).
  { intros reg w f w1 Hf. exfalso. unfold Demo.schedule in Hf. apply list_elem_of_In in Hf. simpl in Hf.
    destruct Hf as [Hf|[Hf|[Hf|[Hf|[]]]]]; discriminate Hf. }
  destruct (kubernetes_exit_zero Demo.schedule Hq [Demo.conf] Demo.w0 e w' E He) as (v&Hv&H).
  injection Hv as <-. destruct H as [[Hh _]|(d&reg&w1&Hd&_&Hs&Hr)]; [vm_compute in Hh; discriminate Hh|].
  assert (Hc : d_Config d = fst (ClientConfig_Validate (λ p, FileExists p Demo.w0) updaterOptions Daemon.Demo.cfg)).
  { replace d with (fst (initCertDX Demo.conf Demo.w0)) by (exact (f_equal fst Hd)). vm_compute. reflexivity. }
  split.
  - rewrite (Hr ("web", "other")); [vm_compute; reflexivity|]. intros s Hst _. vm_compute in Hst. injection Hst as <-.
    vm_compute. reflexivity.
  - destruct (Hs K8s.Demo.s1 ["example.com"; "www.example.com"]) as (fc&key&s'&Hin&_&_&Hst&Hca&_&Hd').
    + vm_compute. reflexivity.
    + reflexivity.
    + rewrite Hc. vm_compute. reflexivity.
    + exists fc, key, s'. split; [exact Hin|]. split; [exact Hst|]. split; [exact Hca|].
      rewrite (Hd' "ca.crt"); [vm_compute; reflexivity|discriminate..].
Defined.

(** The account of Txc beside the disk of the start-up. *)
Module Account.
Definition World : Type := Sim * Disk.

#[export] Instance run_world : CommandRunner World := { runCommand _ w := (None, w) }.
#[export] Instance world_toml : Toml TencentCloudConfig := {
  TomlUnmarshal _ _ := (mkTencentCloudConfig "id" "key" Txc.Demo.configured, None);
}.
#[export] Instance world_account : TxcClient World := {
  DescribeCertificates req w := let '(r, s) := DescribeCertificates (TxcClient := Txc.Demo.account) req w.1 in (r, (s, w.2));
  UpdateCertificateInstance req w := (if String.eqb (CertificatePublicKey req) "chain" then None else Some (EText "sdk"), w);
  isCertificateExists := isCertificateExists (TxcClient := Txc.Demo.account);
}.

Definition schedule (tasks : list Txc.ClientCertification) (w : World) : list (event World) :=
  [Woken; Delivered (AsKey ["a.example.com"; "b.example.com"]) " chain " "key"; CtxDone; Woken].
End Account.

#[local] Existing Instances Startup.Demo.demo_opener Startup.Demo.demo_log Account.run_world Account.world_toml Account.world_account.

Definition demo_txc_update : taskEnd * Account.World :=
  TencentCloudReplaceCertificate (tencentCloudUpdater 3 Account.schedule) ["/etc/certdx/client.toml"] Startup.Demo.w0.

Example demo_txc_done : exitCode demo_txc_update.1 = Some 0.
Proof. vm_compute. reflexivity. Qed.

Lemma tencent_exit_zero_witness :
  ∃ fullchain key, uploaded (W := Account.World) Txc.Demo.ab fullchain key.
Proof.
  pose proof demo_txc_done as He. destruct demo_txc_update as [e w'] eqn:E.
  destruct (tencent_exit_zero 3 Account.schedule _ _ e w' E He) as (v&Hv&H).
  injection Hv as <-. destruct H as [[Hh _]|(d&cfg&tasks&w1&Hd&Hg&l&Hl&Hs&_)]; [vm_compute in Hh; discriminate Hh|].
  assert (Hc : tc_Certifications cfg = Txc.Demo.configured).
  { replace cfg with (snd (fst (TxcInitCertificateUpdater "/etc/certdx/client.toml" Startup.Demo.w0)))
      by (exact (f_equal (λ x, snd (fst x)) Hd)). vm_compute. reflexivity. }
  rewrite Hc in Hg. assert (Ht : tasks = [Txc.Demo.ab]) by (vm_compute in Hg; injection Hg as <- _; reflexivity).
  subst tasks. destruct l as [|i [|j l]]; [discriminate Hl| |discriminate Hl].
  destruct (Hs i ltac:(left)) as (c&fc&key&Hi&_&Hu). apply list_lookup_singleton_Some in Hi as [_ <-].
  exists fc, key. exact Hu.
Defined.
