(* ===== verification/ClientMain.v ===== *)
(** What runs the client: the body of HttpMain or GRPCMain as an interface, and
    the two hosts that run such a body against it: the client process ([main]
    of exec/client/main.go with [WaitForShutdown] of pkg/cli/signal.go), and
    the Caddy app ([Start] and [Stop] of exec/caddytls/certdx.go).  The bodies
    are in ClientProcess and GrpcProcess. *)

From Stdlib Require Import ZArith Lia.
From stdpp Require Import base option list strings relations.
From S2P Require Import Prelude.
From S2P Require Import GoStd.
From S2P Require Import Shutdown.

Open Scope Z_scope.

(** ** The interface *)

(** The steps of the client's own goroutines, what happens around them, the
    daemon's [Stop], the end of HttpMain or GRPCMain, and the states in which a
    goroutine may call [logging.Fatal], which ends the whole process. *)
Class ClientMain (D : Type) := {
  mainStep : D → D → Prop;
  mainEnv : D → D → Prop;
  mainStop : D → D;
  mainReturned : D → Prop;
  mainFatal : D → Prop;
}.

(** What a host relies on: an invariant, and that a stopped client uses up a
    measure and is never stuck. *)
Class ClientMainLaws (D : Type) `{ClientMain D} := {
  mainInv : D → Prop;
  mainStopped : D → Prop;
  mainWork : D → nat;
  main_step d d' : mainInv d → mainStep d d' → mainInv d';
  main_env d d' : mainInv d → mainEnv d d' → mainInv d';
  main_stop d : mainInv d → mainInv (mainStop d);
  main_stops d : mainStopped (mainStop d);
  main_stopped_step d d' : mainStopped d → mainStep d d' → mainStopped d';
  main_stopped_env d d' : mainStopped d → mainEnv d d' → mainStopped d';
  main_decreases d d' : mainInv d → mainStopped d → mainStep d d' → (mainWork d' < mainWork d)%nat;
  main_moves d : mainInv d → mainStopped d → mainReturned d ∨ ∃ d', mainStep d d';
}.

(** Once stopped, every run of its own steps is finite, and one of them ends
    it. *)
Definition shuts_down {D} `{ClientMain D} (d : D) : Prop :=
  sn mainStep d ∧ ∃ d', rtc mainStep d d' ∧ mainReturned d'.

Lemma main_shuts_down {D} `{CM : ClientMainLaws D} (d : D) : mainInv d → mainStopped d → shuts_down d.
Proof.
  intros Hi Hs. destruct (measured_run mainStep (λ d, mainInv d ∧ mainStopped d) mainReturned mainWork)
    with (a := d) as [? (d'&?&?&_)]; [| |done|split; [done|by exists d']].
  - intros a b [Ha Hsa] Hab. split_all; [by eapply main_step|by eapply main_stopped_step|by apply main_decreases].
  - intros a [Ha Hsa]. by apply main_moves.
Qed.

Section Hosts.
Context {D : Type} `{CM : ClientMainLaws D}.

(** ** The process *)

Record clientProcess := mkClientProcess {
  cp_exit : option Z;
  cp_daemon : D;
  cp_shutdown : shutdown;
  cp_signals : nat;
}.

Definition with_daemon (d : D) (p : clientProcess) : clientProcess :=
  mkClientProcess (cp_exit p) d (cp_shutdown p) (cp_signals p).
Definition with_shut (s : shutdown) (n : nat) (p : clientProcess) : clientProcess :=
  mkClientProcess (cp_exit p) (cp_daemon p) s n.
Definition exitWith (code : Z) (p : clientProcess) : clientProcess :=
  mkClientProcess (Some code) (cp_daemon p) (cp_shutdown p) (cp_signals p).

Inductive clientRun : clientProcess → clientProcess → Prop :=
| cr_daemon p d : mainStep (cp_daemon p) d → clientRun p (with_daemon d p)
| cr_env p d : mainEnv (cp_daemon p) d → clientRun p (with_daemon d p)
(* WaitForShutdown *)
| cr_signal p : (cp_signals p < 2)%nat → clientRun p (with_shut (cp_shutdown p) (S (cp_signals p)) p)
| cr_shut_begin p n : cp_shutdown p = ShWait → cp_signals p = S n → clientRun p (with_shut (ShSelect false) n p)
| cr_shut_stop p : cp_shutdown p = ShSelect false →
    clientRun p (with_daemon (mainStop (cp_daemon p)) (with_shut (ShSelect true) (cp_signals p) p))
| cr_shut_done p : cp_shutdown p = ShSelect true → clientRun p (with_shut ShReturned (cp_signals p) p)
| cr_shut_again p d n : cp_shutdown p = ShSelect d → cp_signals p = S n → clientRun p (exitWith 1 p)
| cr_shut_timeout p d : cp_shutdown p = ShSelect d → clientRun p (exitWith 1 p)
(* logging.Fatal in one of the client's goroutines *)
| cr_fatal p : mainFatal (cp_daemon p) → clientRun p (exitWith 1 p)
(* main: HttpMain or GRPCMain has returned *)
| cr_main p : mainReturned (cp_daemon p) → clientRun p (exitWith 0 p).

Definition clientProcStep (p p' : clientProcess) : Prop := cp_exit p = None ∧ clientRun p p'.

Definition clientProc (d : D) : clientProcess := mkClientProcess None d ShWait 0%nat.

Record pinv (p : clientProcess) : Prop := {
  pi_daemon : mainInv (cp_daemon p);
  pi_zero : cp_exit p = Some 0 → mainReturned (cp_daemon p);
  pi_code : ∀ code, cp_exit p = Some code →
    code = 0 ∨ code = 1 ∧ ((∃ d, cp_shutdown p = ShSelect d) ∨ mainFatal (cp_daemon p));
  pi_stopped : cp_shutdown p = ShSelect true ∨ cp_shutdown p = ShReturned → mainStopped (cp_daemon p);
}.

Lemma pinv_start d : mainInv d → pinv (clientProc d).
Proof. intros Hd. split; try done. by intros [?|?]. Qed.

Lemma pinv_step p p' : pinv p → clientProcStep p p' → pinv p'.
Proof.
  intros [Hd Hz Hc Hs] [He Hstep].
  destruct Hstep as [p d Hr|p d Hr|p Hlt|p n E1 E2|p E|p E|p d n E1 E2|p d E|p E|p E];
    (split; simpl; [|try congruence..]); try done.
  - by eapply main_step.
  - intros Hsel. eapply main_stopped_step; eauto.
  - by eapply main_env.
  - intros Hsel. eapply main_stopped_env; eauto.
  - intros [?|?]; done.
  - by apply main_stop.
  - intros _. apply main_stops.
  - intros _. apply Hs. by left.
  - intros code [= <-]. right. by eauto.
  - intros code [= <-]. right. by eauto.
  - intros code [= <-]. right. by eauto.
  - intros code [= <-]. by left.
Qed.

Lemma pinv_reachable init p : (∀ p, init p → pinv p) → reachable init clientProcStep p → pinv p.
Proof. intros Hi. apply reachable_invariant; [done|]. intros x y _. apply pinv_step. Qed.

(** ** The Caddy app *)

(** [Start] has started the goroutine; in [Stop], waiting for it; [Stop] has
    returned; a goroutine has ended the whole server by [logging.Fatal]. *)
Inductive appPhase := AppStarted | AppStopping | AppStopped | AppExited.

Record caddyApp := mkApp { app_phase : appPhase; app_main : D }.

Inductive appStep : caddyApp → caddyApp → Prop :=
| as_main ph d d' : ph ≠ AppExited → mainStep d d' → appStep (mkApp ph d) (mkApp ph d')
| as_env ph d d' : ph ≠ AppExited → mainEnv d d' → appStep (mkApp ph d) (mkApp ph d')
(* Stop: m.certDXDaemon.Stop(); m.wg.Wait() *)
| as_stop d : appStep (mkApp AppStarted d) (mkApp AppStopping (mainStop d))
| as_wait d : mainReturned d → appStep (mkApp AppStopping d) (mkApp AppStopped d)
| as_fatal ph d : ph ≠ AppExited → mainFatal d → appStep (mkApp ph d) (mkApp AppExited d).

Record ainv (a : caddyApp) : Prop := {
  ai_main : mainInv (app_main a);
  ai_stopped : app_phase a = AppStopping ∨ app_phase a = AppStopped → mainStopped (app_main a);
}.

Lemma ainv_reachable d a : mainInv d → reachable (eq (mkApp AppStarted d)) appStep a → ainv a.
Proof.
  intros Hd. apply reachable_invariant; [intros ? <-; split; [done|by intros [?|?]]|]. intros x y _ [Hm Hs] Hstep.
  destruct Hstep as [ph d1 d' _ Hr|ph d1 d' _ Hr|d1|d1 Hr|ph d1 _ _]; simpl in *; split; simpl; try done.
  - by eapply main_step.
  - intros Hp. eapply main_stopped_step; eauto.
  - by eapply main_env.
  - intros Hp. eapply main_stopped_env; eauto.
  - by apply main_stop.
  - intros _. apply main_stops.
  - intros _. apply Hs. by left.
  - by intros [?|?].
Qed.

(** Caddy can always unload the app, for a reload say: once [Stop] is called,
    every run of the client's goroutines is finite, and one of them lets [Stop]
    return (in another a fatal goroutine may end the whole server); and [Stop]
    returns only when the client's main has. *)
Theorem caddy_stop d a : mainInv d → reachable (eq (mkApp AppStarted d)) appStep a →
  (app_phase a = AppStopping → shuts_down (app_main a) ∧ ∃ a', rtc appStep a a' ∧ app_phase a' = AppStopped) ∧
  ∀ a', appStep a a' → app_phase a ≠ AppStopped → app_phase a' = AppStopped → mainReturned (app_main a').
Proof.
  intros Hd Ha. destruct (ainv_reachable d a Hd Ha) as [Hm Hs]. split.
  - intros Hp. assert (Hst : mainStopped (app_main a)) by (apply Hs; by left).
    pose proof (main_shuts_down (app_main a) Hm Hst) as Hsd. split; [done|]. destruct Hsd as [_ (d'&Hr&Hret)].
    exists (mkApp AppStopped d'). split; [|done]. destruct a as [ph d0]. simpl in *. subst ph.
    eapply rtc_r; [|by apply as_wait]. clear -Hr. induction Hr as [|x y z Hxy _ IH]; [done|].
    eapply rtc_l; [by apply as_main|done].
  - intros a' Hstep Hne He. destruct Hstep; simpl in *; congruence || done.
Qed.
End Hosts.
Arguments clientProcess : clear implicits.
Arguments caddyApp : clear implicits.
