(* ===== verification/ClientProcess.v ===== *)
(** The client as a process, in HTTP mode: [HttpMain] of
    pkg/client/http_poller.go with the watchers of pkg/client/daemon.go and
    their wait group, under [main] of exec/client/main.go and [WaitForShutdown]
    of pkg/cli/signal.go.  Each certificate has a watcher (Daemon) and a poll
    loop that feeds it, whose requests (HttpClient) end the process when a
    mutual-TLS bundle does not load. *)

From Stdlib Require Import ZArith Lia.
From stdpp Require Import base option list gmap strings relations.
From S2P Require Import Prelude.
From S2P Require Import GoStd.
From S2P Require Import Sys.
From S2P Require Import Domain.
From S2P Require Import Config.
From S2P Require Import Paths.
From S2P Require Import Handler.
From S2P Require Import Mtls.
From S2P Require Import HttpClient.
From S2P Require Import Daemon.
From S2P Require Import Shutdown.
From S2P Require Import ClientMain.

Open Scope Z_scope.

(** ** The daemon *)

(** [httpPollingCert]: requesting, sending what it got to the watcher, waiting
    for its timer, returned. *)
Inductive poller := PRequest | PSend (u : certData) | PSleep | PReturned.

(** [HttpMain]: waiting for the root context, for the wait group, returned. *)
Inductive mainPhase := MWaiting | MWgWait | MReturned.

Section Client.
Context {W : Type}.

(** The goroutines of one certificate. *)
Record lane := mkLane { ln_watch : watch (W := W); ln_poll : poller }.

Record daemon := mkClient {
  dm_root : bool;                (* rootCtx is done *)
  dm_wg : Z;
  dm_lanes : list lane;
  dm_main : mainPhase;
}.

(** A step of the watcher itself: not a send, and not something that happens
    around it. *)
Definition watcherStep (x x' : watch (W := W)) : Prop :=
  watchStep x x' ∧ wt_sent x' = wt_sent x ∧ wt_root x' = wt_root x ∧
  (wt_phase x', wt_chan x') ≠ (wt_phase x, wt_chan x).

(** Watchers that have returned have handed every change to every handler. *)
Lemma returned_calls {B} (f : B → watch (W := W)) cs l :
  Forall2 (λ c a, reachable (watchInit c) watchStep (f a)) cs l → Forall (λ a, wt_phase (f a) = WReturned) l →
  Forall2 (λ c a, wt_calls (f a) = fanout c (changes (material (Data c)) (wt_received (f a)))) cs l.
Proof.
  intros Hw Hr. induction Hw as [|c a cs l Hx _ IH]; [done|]. apply Forall_cons in Hr as [Hp Hr]. constructor; [|by apply IH].
  apply watch_invariant in Hx as [_ Hcalls _ _ _]. rewrite Hp in Hcalls. simpl in Hcalls. by rewrite app_nil_r in Hcalls.
Qed.

(** One step of the goroutines of a certificate, and how many of them it ends. *)
Inductive laneStep : lane → lane → Z → Prop :=
| ln_watcher x x' p : watcherStep x x' → wt_phase x' ≠ WReturned → laneStep (mkLane x p) (mkLane x' p) 0
| ln_watcher_exit x x' p : watcherStep x x' → wt_phase x' = WReturned → laneStep (mkLane x p) (mkLane x' p) 1
(* the request has ended, with a certificate or without one *)
| ln_response x u : cd_Domains u = cc_Domains (wc_Config (wt_cert x)) →
    laneStep (mkLane x PRequest) (mkLane x (PSend u)) 0
| ln_failure x : laneStep (mkLane x PRequest) (mkLane x PSleep) 0
| ln_send x x' u : watchStep x x' → wt_sent x' = wt_sent x ++ [u] → laneStep (mkLane x (PSend u)) (mkLane x' PSleep) 0
| ln_send_root x u : wt_root x = true → laneStep (mkLane x (PSend u)) (mkLane x PReturned) 1
| ln_sleep_root x : wt_root x = true → laneStep (mkLane x PSleep) (mkLane x PReturned) 1.

(** What happens around them: the timer, and changes of the world. *)
Inductive laneEnv : lane → lane → Prop :=
| le_timer x : laneEnv (mkLane x PSleep) (mkLane x PRequest)
| le_world x x' p : watchStep x x' → wt_sent x' = wt_sent x → wt_root x' = wt_root x →
    (wt_phase x', wt_chan x') = (wt_phase x, wt_chan x) → laneEnv (mkLane x p) (mkLane x' p).

Inductive daemonStep : daemon → daemon → Prop :=
| dm_lane r wg l1 a a' l2 m n : laneStep a a' n →
    daemonStep (mkClient r wg (l1 ++ a :: l2) m) (mkClient r (wg - n) (l1 ++ a' :: l2) m)
| dm_root_done wg l : daemonStep (mkClient true wg l MWaiting) (mkClient true wg l MWgWait)
| dm_wg_done r l : daemonStep (mkClient r 0 l MWgWait) (mkClient r 0 l MReturned).

Inductive daemonEnv : daemon → daemon → Prop :=
| de_lane r wg l1 a a' l2 m : laneEnv a a' →
    daemonEnv (mkClient r wg (l1 ++ a :: l2) m) (mkClient r wg (l1 ++ a' :: l2) m).

(** The root context is done for every watcher at once. *)
Definition stopWatch (x : watch (W := W)) : watch :=
  mkWatch (wt_cert x) (wt_phase x) (wt_chan x) true (wt_world x) (wt_sent x) (wt_received x) (wt_calls x).
Definition stopLane (a : lane) : lane := mkLane (stopWatch (ln_watch a)) (ln_poll a).
Definition stopDaemon (d : daemon) : daemon := mkClient true (dm_wg d) (stopLane <$> dm_lanes d) (dm_main d).

(** [HttpMain] has started a watcher and a poll loop for every certificate. *)
Definition startLane (c : watchingCert W) (w : W) : lane := mkLane (mkWatch c WIdle None false w [] [] []) PRequest.
Definition startHttp (certs : list (watchingCert W)) (w : W) : daemon :=
  mkClient false (2 * Z.of_nat (length certs)) ((λ c, startLane c w) <$> certs) MWaiting.

(** ** Counting the goroutines *)

Definition live_watch (p : wphase (W := W)) : Z := match p with WReturned => 0 | _ => 1 end.
Definition live_poll (p : poller) : Z := match p with PReturned => 0 | _ => 1 end.
Definition live (a : lane) : Z := live_watch (wt_phase (ln_watch a)) + live_poll (ln_poll a).
Definition alive (l : list lane) : Z := foldr (λ a n, live a + n) 0 l.

Lemma alive_app l1 l2 : alive (l1 ++ l2) = alive l1 + alive l2.
Proof. induction l1 as [|a l1 IH]; simpl; [done|]. rewrite IH. lia. Qed.

Lemma alive_nonneg l : 0 ≤ alive l.
Proof.
  induction l as [|a l IH]; simpl; [lia|]. unfold live, live_watch, live_poll.
  destruct (wt_phase (ln_watch a)), (ln_poll a); lia.
Qed.

(** Both goroutines of a certificate have returned. *)
Definition lane_returned (a : lane) : Prop := wt_phase (ln_watch a) = WReturned ∧ ln_poll a = PReturned.

Lemma alive_zero l : alive l = 0 → Forall lane_returned l.
Proof.
  induction l as [|a l IH]; simpl; intros E; constructor; pose proof (alive_nonneg l) as Hl;
    unfold live, live_watch, live_poll in E; unfold lane_returned.
  - destruct (wt_phase (ln_watch a)), (ln_poll a); (done || lia).
  - apply IH. destruct (wt_phase (ln_watch a)), (ln_poll a); lia.
Qed.

(** A watcher that has returned makes no step of its own. *)
Lemma watcherStep_live x x' : watcherStep x x' → wt_phase x ≠ WReturned.
Proof.
  intros (Hs&Hsent&Hroot&Hne) E. destruct Hs; simpl in *; try done; subst.
  - apply (f_equal length) in Hsent. rewrite length_app in Hsent. simpl in Hsent. lia.
Qed.

Lemma watch_send_same (x x' : watch (W := W)) u : watchStep x x' → wt_sent x' = wt_sent x ++ [u] →
  wt_phase x' = wt_phase x ∧ wt_root x' = wt_root x ∧ wt_chan x = None ∧ wt_chan x' = Some u ∧ wt_cert x' = wt_cert x.
Proof.
  assert (Hno : ∀ (s : list certData), s ≠ s ++ [u])
    by (intros s E; apply (f_equal length) in E; rewrite length_app in E; simpl in E; lia).
  intros Hs E. destruct Hs; simpl in *; try by apply Hno in E. apply app_inj_2 in E as [_ [= ->]]; done.
Qed.

Lemma laneStep_facts a a' n : laneStep a a' n →
  live a' = live a - n ∧ watchStep (ln_watch a) (ln_watch a') ∨
  live a' = live a - n ∧ ln_watch a' = ln_watch a.
Proof.
  intros Hs. destruct Hs as [x x' p Hw Hp|x x' p Hw Hp|x u Hu|x|x x' u Hw Hsent|x u Hr|x Hr]; unfold live; simpl.
  - left. split; [|apply Hw]. apply watcherStep_live in Hw. destruct (wt_phase x), (wt_phase x'); simpl; (done || lia).
  - left. split; [|apply Hw]. apply watcherStep_live in Hw. rewrite Hp. destruct (wt_phase x); simpl; (done || lia).
  - right. split; [lia|done].
  - right. split; [lia|done].
  - left. split; [|done]. destruct (watch_send_same _ _ _ Hw Hsent) as [-> _]. lia.
  - right. split; [lia|done].
  - right. split; [lia|done].
Qed.

Lemma laneStep_root a a' n : laneStep a a' n → wt_root (ln_watch a') = wt_root (ln_watch a).
Proof.
  intros Hs. destruct Hs as [x x' p Hw Hp|x x' p Hw Hp|x u Hu|x|x x' u Hw Hsent|x u Hr|x Hr]; simpl; try done.
  - apply Hw.
  - apply Hw.
  - by destruct (watch_send_same _ _ _ Hw Hsent) as (_&?&_).
Qed.

Lemma laneEnv_facts a a' : laneEnv a a' →
  live a' = live a ∧ wt_root (ln_watch a') = wt_root (ln_watch a) ∧
  (watchStep (ln_watch a) (ln_watch a') ∨ ln_watch a' = ln_watch a).
Proof.
  intros Hs. destruct Hs as [x|x x' p Hw Hsent Hr He]; unfold live; simpl; [by split_all; [..|right]|].
  injection He as -> _. split_all; [done..|by left].
Qed.

(** ** The invariant *)

Variable certs : list (watchingCert W).

(** Each watcher is one of those of Daemon; the wait group counts the
    goroutines. *)
Record dinv (d : daemon) : Prop := {
  di_watch : Forall2 (λ c a, reachable (watchInit c) watchStep (ln_watch a)) certs (dm_lanes d);
  di_root : Forall (λ a, wt_root (ln_watch a) = dm_root d) (dm_lanes d);
  di_wg : dm_wg d = alive (dm_lanes d);
  di_main : dm_main d = MReturned → dm_wg d = 0;
}.

Lemma dinv_start w : dinv (startHttp certs w).
Proof.
  split; simpl.
  - induction certs as [|c l IH]; simpl; constructor; [|done]. apply reach_init. by exists w.
  - induction certs; simpl; by constructor.
  - induction certs as [|c l IH]; [done|]. cbn [length fmap list_fmap alive foldr] in *. rewrite Nat2Z.inj_succ.
    change (live (startLane c w)) with 2. unfold alive in IH. lia.
  - done.
Qed.

(** Replacing one lane. *)
Lemma dinv_lane r wg l1 a a' l2 m n : dinv (mkClient r wg (l1 ++ a :: l2) m) →
  live a' = live a - n → 0 ≤ n → wt_root (ln_watch a') = wt_root (ln_watch a) →
  watchStep (ln_watch a) (ln_watch a') ∨ ln_watch a' = ln_watch a →
  dinv (mkClient r (wg - n) (l1 ++ a' :: l2) m).
Proof.
  intros [Hw Hr Hg Hm] Hl Hn Hroot Hstep. simpl in *. split; simpl.
  - apply Forall2_app_inv_r in Hw as (c1&c2&H1&H2&->). apply Forall2_app; [done|].
    apply Forall2_cons_inv_r in H2 as (c&c2'&Hc&H2&->). constructor; [|done].
    destruct Hstep as [Hs| ->]; [by eapply reach_step|done].
  - rewrite Forall_app, Forall_cons in *. by rewrite Hroot.
  - rewrite alive_app in *. simpl in *. lia.
  - intros Hmr. specialize (Hm Hmr). rewrite alive_app in Hg. simpl in Hg.
    pose proof (alive_nonneg l1). pose proof (alive_nonneg l2).
    assert (0 ≤ live a') by (unfold live; destruct (wt_phase (ln_watch a')), (ln_poll a'); simpl; lia).
    lia.
Qed.

Lemma laneStep_count a a' n : laneStep a a' n → 0 ≤ n.
Proof. destruct 1; lia. Qed.

Lemma dinv_step d d' : dinv d → daemonStep d d' → dinv d'.
Proof.
  intros Hi Hs. destruct Hs as [r wg l1 a a' l2 m n Hs|wg l|r l].
  - pose proof (laneStep_count _ _ _ Hs). pose proof (laneStep_root _ _ _ Hs).
    destruct (laneStep_facts _ _ _ Hs) as [[? ?]|[? ?]]; eapply dinv_lane; eauto.
  - destruct Hi as [? ? ? ?]. by split.
  - destruct Hi as [? ? ? ?]. by split.
Qed.

Lemma dinv_env d d' : dinv d → daemonEnv d d' → dinv d'.
Proof.
  intros Hi Hs. destruct Hs as [r wg l1 a a' l2 m Hs]. apply laneEnv_facts in Hs as (Hl&Hr&Hw).
  replace wg with (wg - 0) by lia. eapply dinv_lane; eauto; lia.
Qed.

Lemma dinv_stop d : dinv d → dinv (stopDaemon d).
Proof.
  intros [Hw Hr Hg Hm]. split; simpl; [| | |done].
  - apply Forall2_fmap_r. eapply Forall2_impl; [exact Hw|]. intros c a Hc. simpl.
    eapply reach_step; [exact Hc|]. destruct a as [[] p]. apply w_stop.
  - apply Forall_fmap. by apply Forall_true.
  - rewrite Hg. clear. induction (dm_lanes d) as [|a l IH]; simpl; [done|]. rewrite IH. done.
Qed.

(** ** The end *)

Definition chan_work (x : watch (W := W)) : nat := 2 + length (UpdateHandlers (wt_cert x)).

(** What is left to do after Stop. *)
Definition watch_work (x : watch (W := W)) : nat :=
  match wt_phase x with WIdle => 1 | WNotify _ hs => 2 + length hs | WReturned => 0 end +
  match wt_chan x with Some _ => chan_work x | None => 0 end.

Definition lane_work (a : lane) : nat :=
  let x := ln_watch a in
  watch_work x + match ln_poll a with PRequest => 3 + chan_work x | PSend _ => 2 + chan_work x | PSleep => 1 | PReturned => 0 end.

Definition main_work (m : mainPhase) : nat := match m with MWaiting => 2 | MWgWait => 1 | MReturned => 0 end.

Definition daemon_work (d : daemon) : nat := sum_list_with lane_work (dm_lanes d) + main_work (dm_main d).

Lemma watcherStep_work x x' : watcherStep x x' →
  (watch_work x' < watch_work x)%nat ∧ chan_work x' = chan_work x.
Proof.
  intros (Hs&Hsent&Hroot&Hne). unfold watch_work, chan_work. destruct Hs; simpl in *; try done; try (split; lia).
  apply (f_equal length) in Hsent. rewrite length_app in Hsent. simpl in Hsent. lia.
Qed.

Lemma laneStep_work a a' n : laneStep a a' n → (lane_work a' < lane_work a)%nat.
Proof.
  intros Hs. destruct Hs as [x x' p Hw _|x x' p Hw _|x u _|x|x x' u Hw Hsent|x u _|x _].
  1,2: unfold lane_work; simpl; apply watcherStep_work in Hw as [? ->]; lia.
  3: { destruct (watch_send_same _ _ _ Hw Hsent) as (Hp&_&Hc&Hc'&Hcert). unfold lane_work, watch_work, chan_work. simpl.
       rewrite Hp, Hc, Hc', Hcert. lia. }
  all: unfold lane_work; simpl; lia.
Qed.

Lemma daemonStep_work d d' : daemonStep d d' → (daemon_work d' < daemon_work d)%nat.
Proof.
  intros Hs. destruct Hs as [r wg l1 a a' l2 m n Hs|wg l|r l]; unfold daemon_work; simpl; [|lia..].
  apply laneStep_work in Hs. rewrite !sum_list_with_app. simpl. lia.
Qed.

(** After Stop, a goroutine that has not returned can move. *)
Lemma watcher_can_move x : wt_root x = true → wt_phase x ≠ WReturned → ∃ x', watcherStep x x'.
Proof.
  destruct x as [c ph ch r w s v k]. simpl. intros -> Hp. destruct ph as [|u [|h hs]|]; [| | |done].
  - eexists. split; [by apply w_exit|by split_all].
  - eexists. split; [by apply w_handled|by split_all].
  - eexists. split; [by apply w_handler|]. split_all; [done..|]. simpl.
    intros [= E]. apply (f_equal length) in E. simpl in E. lia.
Qed.

Lemma watcher_lane x x' p : watcherStep x x' → ∃ n, laneStep (mkLane x p) (mkLane x' p) n.
Proof.
  intros Hs. destruct (wt_phase x') eqn:E; eexists.
  1,2: apply ln_watcher; [done|congruence].
  by apply ln_watcher_exit.
Qed.

Lemma lane_can_move a : wt_root (ln_watch a) = true → live a ≠ 0 → ∃ a' n, laneStep a a' n.
Proof.
  destruct a as [x p]. unfold live. simpl. intros Hr Hl.
  destruct (wt_phase x) eqn:Ep; [| |destruct p as [|u| |]].
  1,2: destruct (watcher_can_move x Hr) as [x' Hs]; [congruence|];
    destruct (watcher_lane x x' p Hs) as [n ?]; by exists (mkLane x' p), n.
  - eexists _, _. by apply ln_failure.
  - eexists _, _. by apply ln_send_root.
  - eexists _, _. by apply ln_sleep_root.
  - done.
Qed.

Lemma daemon_can_move d : dinv d → dm_root d = true → dm_main d = MReturned ∨ ∃ d', daemonStep d d'.
Proof.
  destruct d as [r wg l m]. intros [_ Hr Hg _] Hroot. simpl in *. subst r.
  destruct m; [right; eexists; apply dm_root_done| |by left]. right.
  destruct (decide (Exists (λ a, live a ≠ 0) l)) as [He|He].
  - apply Exists_exists in He as (a&Hin&Hl). rewrite Forall_forall in Hr.
    destruct (lane_can_move a (Hr a Hin) Hl) as (a'&n&Hs). apply list_elem_of_split in Hin as (l1&l2&->).
    eexists. by apply dm_lane.
  - assert (E : alive l = 0).
    { clear -He. induction l as [|a l IH]; [done|]. simpl. rewrite IH by (intros Hx; apply He; by right).
      destruct (decide (live a = 0)) as [->|Hne]; [done|]. destruct He. by left. }
    rewrite Hg, E. eexists. apply dm_wg_done.
Qed.

(** ** The fatal exit *)

Context `{PM : Pem} `{TC : TlsCrypto} `{FS : FileSystem W}.
Variable cfg : ClientConfig.
Variable ClientOpt : list (CertDXHttpClientOption W).

(** [httpRequestCert] cannot build the client of a server it asks: each attempt
    at the main server builds one, and so does the turn to the standby. *)
Definition cannot_build (server : ClientHttpServer) (w : W) : Prop :=
  ∃ m, MakeCertDXHttpClient (ClientOpt ++ [WithCertDXServerInfo server]) w = Panic m.

Definition requestFatal (w : W) : Prop :=
  cannot_build (HttpMain cfg) w ∨ Url (HttpStandby cfg) ≠ "" ∧ cannot_build (HttpStandby cfg) w.

(** A poll loop is in its request. *)
Definition httpFatal (d : daemon) : Prop :=
  ∃ a, a ∈ dm_lanes d ∧ ln_poll a = PRequest ∧ requestFatal (wt_world (ln_watch a)).

Lemma insecure_builds opts server w : Forall (eq WithCertDXInsecure) opts → ClientAuthMethod server ≠ HTTP_AUTH_MTLS →
  ∃ c, MakeCertDXHttpClient (opts ++ [WithCertDXServerInfo server]) w = Ret c.
Proof.
  intros Ho Ha. unfold MakeCertDXHttpClient. generalize (mkHttpClient TDefault zeroHttpServer).
  induction Ho as [|o opts <- _ IH]; intros c; simpl; [|apply IH].
  unfold WithCertDXServerInfo. destruct (String.eqb_spec (ClientAuthMethod server) HTTP_AUTH_MTLS); [done|]. by eexists.
Qed.

(** Servers that do not ask for mutual TLS have no bundle to load. *)
Definition bundle_free : Prop := Forall (eq WithCertDXInsecure) ClientOpt ∧
  ClientAuthMethod (HttpMain cfg) ≠ HTTP_AUTH_MTLS ∧
  (Url (HttpStandby cfg) ≠ "" → ClientAuthMethod (HttpStandby cfg) ≠ HTTP_AUTH_MTLS).

Lemma bundle_free_request w : bundle_free → ¬ requestFatal w.
Proof.
  intros (Ho&Hm&Hs) [[m E]|[Hu [m E]]].
  - destruct (insecure_builds ClientOpt (HttpMain cfg) w Ho Hm) as [c Hc]. congruence.
  - destruct (insecure_builds ClientOpt (HttpStandby cfg) w Ho (Hs Hu)) as [c Hc]. congruence.
Qed.

#[export] Instance http_main : ClientMain daemon := {
  mainStep := daemonStep;
  mainEnv := daemonEnv;
  mainStop := stopDaemon;
  mainReturned d := dm_main d = MReturned;
  mainFatal := httpFatal;
}.

#[export] Instance http_main_laws : ClientMainLaws daemon.
Proof.
  apply (Build_ClientMainLaws daemon _ dinv (λ d, dm_root d = true) daemon_work).
  - apply dinv_step.
  - apply dinv_env.
  - apply dinv_stop.
  - done.
  - by destruct 2.
  - by destruct 2.
  - intros d d' _ _. apply daemonStep_work.
  - apply daemon_can_move.
Defined.

(** ** The process *)

Definition httpProcInit (p : clientProcess daemon) : Prop := ∃ w, p = clientProc (startHttp certs w).

(** C34: the client shuts down cleanly.  Once the root context is done every run
    of its goroutines is finite and some run ends [HttpMain]; and when the
    process exits with code 0, every watcher and poll loop has returned and
    every change received has been handed to every handler: no handler is cut
    short.  Any other exit is with code 1 and either a forced one, after Stop was
    asked for, or the fatal one of a request that cannot load the mutual-TLS
    bundle of a server; where no server asks for mutual TLS it is a forced
    one. *)
Theorem client_exit p :
  reachable httpProcInit clientProcStep p →
  (dm_root (cp_daemon p) = true → shuts_down (cp_daemon p)) ∧
  0 ≤ dm_wg (cp_daemon p) ∧
  (cp_exit p = Some 0 → Forall lane_returned (dm_lanes (cp_daemon p)) ∧
     Forall2 (λ c a, wt_calls (ln_watch a) = fanout c (changes (material (Data c)) (wt_received (ln_watch a))))
       certs (dm_lanes (cp_daemon p))) ∧
  (∀ code, cp_exit p = Some code →
     code = 0 ∨ code = 1 ∧ ((∃ d, cp_shutdown p = ShSelect d) ∨ httpFatal (cp_daemon p))) ∧
  (bundle_free → ∀ code, cp_exit p = Some code → code = 0 ∨ code = 1 ∧ ∃ d, cp_shutdown p = ShSelect d).
Proof.
  intros Hp. apply (pinv_reachable (CM := http_main_laws)) in Hp as [Hd Hz Hc _]; [|intros ? [w ->]; apply pinv_start, dinv_start].
  split_all; [by apply (main_shuts_down (CM := http_main_laws))| | |done|].
  - rewrite (di_wg _ Hd). apply alive_nonneg.
  - intros He. assert (Hret : Forall lane_returned (dm_lanes (cp_daemon p)))
      by (apply alive_zero; rewrite <- (di_wg _ Hd); apply (di_main _ Hd), Hz, He).
    split; [done|]. apply (returned_calls ln_watch); [apply Hd|]. eapply Forall_impl; [exact Hret|]. by intros a [? _].
  - intros Hb code He. destruct (Hc code He) as [?|(?&[?|(a&_&_&Hf)])]; [by left|by right|].
    by destruct (bundle_free_request _ Hb Hf).
Qed.

(** A bundle that does not load ends the process at the first request, and no
    Stop was asked for. *)
Lemma fatal_without_stop c w : c ∈ certs → requestFatal w →
  ∃ p, reachable httpProcInit clientProcStep p ∧ cp_exit p = Some 1 ∧ cp_shutdown p = ShWait.
Proof.
  intros Hin Hf. exists (exitWith 1 (clientProc (startHttp certs w))). split; [|done].
  eapply reach_step; [apply reach_init; by exists w|]. split; [done|]. apply cr_fatal.
  exists (startLane c w). split; [|done]. apply (list_elem_of_fmap_2 (λ c, startLane c w) certs c Hin).
Qed.
End Client.
Arguments lane : clear implicits.
Arguments daemon : clear implicits.

(** ** A concrete client *)

Module Demo.
Import Mtls.Demo.

Definition wc : watchingCert World :=
  mkWatching (mkCertData ["example.com"] "" "") (mkClientCertification "web" "" ["example.com"] "") [λ _ _ _ w, w].
Definition certs : list (watchingCert World) := [wc].
Definition config (auth : string) : ClientConfig :=
  mkClientConfig (mkClientCommonConfig 1 CLIENT_MODE_HTTP "10m" (10 * Minute))
    (mkClientHttpServer "https://main" auth "t" "/data/mtls/nobody.pem") (mkClientHttpServer "" "" "" "")
    (mkClientGRPCServer "" "") (mkClientGRPCServer "" "") [].

Notation proc := (clientProcess (daemon World)).
Notation main auth := (http_main (config auth) []).
Definition p0 : proc := clientProc (startHttp certs w2).
Definition p1 : proc := with_shut ShWait 1%nat p0.
Definition p2 : proc := with_shut (ShSelect false) 0%nat p1.
Definition p3 : proc := with_daemon (stopDaemon (cp_daemon p2)) (with_shut (ShSelect true) 0%nat p2).

Lemma p3_reachable : reachable (httpProcInit certs) (clientProcStep (H := main HTTP_AUTH_TOKEN)) p3.
Proof.
  assert (R0 : reachable (httpProcInit certs) (clientProcStep (H := main HTTP_AUTH_TOKEN)) p0) by (apply reach_init; by eexists).
  pose proof (reach_step _ _ _ _ R0 (conj eq_refl (cr_signal p0 Nat.lt_0_2))) as R1.
  pose proof (reach_step _ _ _ _ R1 (conj eq_refl (cr_shut_begin p1 0 eq_refl eq_refl))) as R2.
  exact (reach_step _ _ _ _ R2 (conj eq_refl (cr_shut_stop p2 eq_refl))).
Qed.
End Demo.

Import (hints) Mtls.Demo.

(** Stopped on a signal while its first request is under way. *)
Lemma client_exit_witness :
  dm_wg (cp_daemon Demo.p3) = 2 ∧ ∃ d, rtc daemonStep (cp_daemon Demo.p3) d ∧ dm_main d = MReturned.
Proof.
  split; [reflexivity|].
  destruct (client_exit Demo.certs (Demo.config HTTP_AUTH_TOKEN) [] Demo.p3 Demo.p3_reachable) as (H&_).
  exact (proj2 (H eq_refl)).
Defined.

(** With mutual TLS and no bundle the same client ends by itself. *)
Example missing_bundle_exits :
  ∃ p, reachable (httpProcInit Demo.certs) (clientProcStep (H := http_main (Demo.config HTTP_AUTH_MTLS) [])) p ∧
    cp_exit p = Some 1 ∧ cp_shutdown p = ShWait.
Proof.
  apply (fatal_without_stop _ _ _ Demo.wc Mtls.Demo.w2); [by left|]. left. eexists. vm_compute. reflexivity.
Qed.
