(* ===== verification/GrpcProcess.v ===== *)
(** The client in gRPC mode: [GRPCMain] and [newGRPCStreamer] of
    pkg/client/grpc_streamer.go, with the failover machine (Failover) and the
    watchers of pkg/client/daemon.go in one wait group, as a body for the hosts
    of ClientMain. *)

From Stdlib Require Import ZArith Lia.
From stdpp Require Import base option list gmap strings relations.
From S2P Require Import Prelude.
From S2P Require Import GoStd.
From S2P Require Import Sys.
From S2P Require Import Config.
From S2P Require Import Failover.
From S2P Require Import Mtls.
From S2P Require Import Handler.
From S2P Require Import Daemon.
From S2P Require Import Shutdown.
From S2P Require Import ClientMain.
From S2P Require Import ClientProcess.
From S2P Require Import Caddy.

Open Scope Z_scope.

(** ** Start *)

(** Sending MAIN comes first, then waiting for the root context. *)
Definition streamer0 (now : Time) : grpcStreamer :=
  mkStreamer None DWait [GSend GRPC_STATE_MAIN; GGrpcMain] false 0%nat ∅ false 0 0%nat now.

Definition standbyExists (cfg : ClientConfig) : bool := negb (String.eqb (GServer (GrpcStandby cfg)) "").

Section Start.
Context {W : Type} `{PM : Pem} `{TC : TlsCrypto} `{FS : FileSystem W}.

(** An error is fatal: the caller ends the process. *)
Definition MakeCertDXgRPCClient (server : ClientGRPCServer) (w : W) : result tlsConfig := LoadClient (GrpcPEM server) w.

(** Left: the exit code of [logging.Fatal]. *)
Definition newGRPCStreamer (cfg : ClientConfig) (now : Time) (w : W) : Z + grpcStreamer :=
  match MakeCertDXgRPCClient (GrpcMain cfg) w with
  | Err _ => inl 1
  | Ok _ =>
      if standbyExists cfg then
        match MakeCertDXgRPCClient (GrpcStandby cfg) w with
        | Err _ => inl 1
        | Ok _ => inr (streamer0 now)
        end
      else inr (streamer0 now)
  end.

(** The machine starts as Failover has it, once every bundle is loaded. *)
Lemma newGRPCStreamer_init cfg now w s : newGRPCStreamer cfg now w = inr s →
  s = streamer0 now ∧ (∃ tls, LoadClient (GrpcPEM (GrpcMain cfg)) w = Ok tls) ∧
  (standbyExists cfg = true → ∃ tls, LoadClient (GrpcPEM (GrpcStandby cfg)) w = Ok tls).
Proof.
  unfold newGRPCStreamer, MakeCertDXgRPCClient. destruct (LoadClient (GrpcPEM (GrpcMain cfg)) w) as [tls|]; [|done].
  destruct (standbyExists cfg); [destruct (LoadClient (GrpcPEM (GrpcStandby cfg)) w) as [tls'|]; [|done]|];
    intros [= <-]; split_all; eauto; done.
Qed.

(** Under Caddy the same call ends the whole server: [Start] checks the mode and
    the address only, and the goroutine it starts exits the process when a
    bundle does not load. *)
Theorem unloadable_bundle_ends_caddy cfg now w err :
  Mode (Common cfg) = CLIENT_MODE_GRPC → GServer (GrpcMain cfg) ≠ "" → LoadClient (GrpcPEM (GrpcMain cfg)) w = Err err →
  Caddy.Start cfg = None ∧ newGRPCStreamer cfg now w = inl 1.
Proof.
  intros Hm Hs Hl. unfold newGRPCStreamer, MakeCertDXgRPCClient. rewrite Hl. split; [|done].
  unfold Caddy.Start. rewrite Hm. simpl. by destruct (String.eqb_spec (GServer (GrpcMain cfg)) "").
Qed.
End Start.

(** ** The daemon *)

Section Grpc.
Context {W : Type}.
Variable cfg : ClientConfig.

Notation fstep := (Failover.step (RetryCount (Common cfg)) (standbyExists cfg)).
Notation own := (own (RetryCount (Common cfg)) (standbyExists cfg)).
Notation watch := (watch (W := W)).

Record grpcDaemon := mkGrpc {
  gd_streamer : grpcStreamer;      (* the failover machine, and GRPCMain until it waits *)
  gd_watchers : list watch;
  gd_returned : bool;              (* GRPCMain has returned *)
}.

Definition watch_returned (x : watch) : Prop := wt_phase x = WReturned.
#[local] Instance watch_returned_dec x : Decision (watch_returned x).
Proof. unfold watch_returned. destruct (wt_phase x); [by right..|by left]. Defined.

Inductive gdStep : grpcDaemon → grpcDaemon → Prop :=
| gd_own s s' l m : own s s' → rootDone s' = rootDone s → gdStep (mkGrpc s l m) (mkGrpc s' l m)
| gd_watch s l1 x x' l2 m : watcherStep x x' → gdStep (mkGrpc s (l1 ++ x :: l2) m) (mkGrpc s (l1 ++ x' :: l2) m)
(* r.wg.Wait() *)
| gd_wait s l : all_returned s → Forall watch_returned l → gdStep (mkGrpc s l false) (mkGrpc s l true).

(** Around it: messages and time; what the handlers of the streams send, which
    may outlive their stream; the world. *)
Inductive gdEnv : grpcDaemon → grpcDaemon → Prop :=
| ge_machine s s' l m : fstep s s' → rootDone s' = rootDone s → received s' ≠ received s ∨ now s' ≠ now s →
    gdEnv (mkGrpc s l m) (mkGrpc s' l m)
| ge_send s l1 x x' l2 m u : watchStep x x' → wt_sent x' = wt_sent x ++ [u] →
    gdEnv (mkGrpc s (l1 ++ x :: l2) m) (mkGrpc s (l1 ++ x' :: l2) m)
| ge_world s l1 x x' l2 m : watchStep x x' → wt_sent x' = wt_sent x → wt_root x' = wt_root x →
    (wt_phase x', wt_chan x') = (wt_phase x, wt_chan x) →
    gdEnv (mkGrpc s (l1 ++ x :: l2) m) (mkGrpc s (l1 ++ x' :: l2) m).

Definition gdStop (d : grpcDaemon) : grpcDaemon :=
  mkGrpc (set_root (gd_streamer d)) (stopWatch <$> gd_watchers d) (gd_returned d).

(** [startWatchers]. *)
Definition startGrpc (certs : list (watchingCert W)) (s : grpcStreamer) (w : W) : grpcDaemon :=
  mkGrpc s ((λ c, mkWatch c WIdle None false w [] [] []) <$> certs) false.

(** ** The invariant *)

Variable certs : list (watchingCert W).

Record gdInv (d : grpcDaemon) : Prop := {
  gi_streamer : reachable Failover.init fstep (gd_streamer d);
  gi_watch : Forall2 (λ c x, reachable (watchInit c) watchStep x) certs (gd_watchers d);
  gi_root : Forall (λ x, wt_root x = rootDone (gd_streamer d)) (gd_watchers d);
  gi_returned : gd_returned d = true → all_returned (gd_streamer d) ∧ Forall watch_returned (gd_watchers d);
}.

Lemma gdInv_start now w : gdInv (startGrpc certs (streamer0 now) w).
Proof.
  split; simpl; [|induction certs as [|c l IH]; simpl; constructor; [|done]..|done].
  - apply reach_init. by exists now.
  - apply reach_init. by exists w.
  - done.
Qed.

(** Nothing moves any more. *)
Lemma all_returned_step s s' : fstep s s' → all_returned s → all_returned s'.
Proof. intros Hs [Hd Hg]. destruct Hs as [| | | | | |s l g l' g' s' E Hs]; simpl in *; try done; try congruence.
  rewrite Hg in E. by destruct l. Qed.

Lemma gdInv_machine s s' l m : gdInv (mkGrpc s l m) → fstep s s' → rootDone s' = rootDone s → gdInv (mkGrpc s' l m).
Proof.
  intros [Hs Hw Hr Hm] Hstep Hroot. simpl in *. split; simpl; [by eapply reach_step|done|by rewrite Hroot|].
  intros E. specialize (Hm E). split; [|easy]. eapply all_returned_step; [done|easy].
Qed.

(** Replacing one watcher. *)
Lemma gdInv_watch s l1 x x' l2 m : gdInv (mkGrpc s (l1 ++ x :: l2) m) → watchStep x x' → wt_root x' = wt_root x →
  (watch_returned x → watch_returned x') → gdInv (mkGrpc s (l1 ++ x' :: l2) m).
Proof.
  intros [Hs Hw Hr Hm] Hstep Hroot Hret. simpl in *. split; simpl; [done|..].
  - apply Forall2_app_inv_r in Hw as (c1&c2&H1&H2&->). apply Forall2_app; [done|].
    apply Forall2_cons_inv_r in H2 as (c&c2'&Hc&H2&->). constructor; [|done]. by eapply reach_step.
  - rewrite Forall_app, Forall_cons in *. by rewrite Hroot.
  - rewrite Forall_app, Forall_cons in *. intros E. destruct (Hm E) as (?&?&?&?). by split_all; auto.
Qed.

Lemma gdInv_step d d' : gdInv d → gdStep d d' → gdInv d'.
Proof.
  intros Hi Hs. destruct Hs as [s s' l m Hs Hr|s l1 x x' l2 m Hs|s l Hs Hl].
  - eapply gdInv_machine; [done|apply Hs|done].
  - eapply gdInv_watch; [done|apply Hs|apply Hs|]. intros Hx. by apply watcherStep_live in Hs.
  - destruct Hi as [? ? ? _]. by split.
Qed.

Lemma gdInv_env d d' : gdInv d → gdEnv d d' → gdInv d'.
Proof.
  intros Hi Hs. destruct Hs as [s s' l m Hs Hr _|s l1 x x' l2 m u Hs Hu|s l1 x x' l2 m Hs Hsent Hr He].
  - by eapply gdInv_machine.
  - destruct (watch_send_same _ _ _ Hs Hu) as (Hp&Hr&_). eapply gdInv_watch; [done..|]. unfold watch_returned. congruence.
  - injection He as Hp _. eapply gdInv_watch; [done..|]. unfold watch_returned. congruence.
Qed.

Lemma gdInv_stop d : gdInv d → gdInv (gdStop d).
Proof.
  intros [Hs Hw Hr Hm]. split; simpl.
  - eapply reach_step; [done|]. apply s_stop.
  - apply Forall2_fmap_r. eapply Forall2_impl; [exact Hw|]. intros c x Hc. simpl.
    eapply reach_step; [exact Hc|]. destruct x. apply w_stop.
  - apply Forall_fmap. by apply Forall_true.
  - intros E. specialize (Hm E) as [Ha Hl]. split; [done|]. by apply Forall_fmap.
Qed.

(** ** The end *)

Definition gdWork (d : grpcDaemon) : nat :=
  (work (gd_streamer d) + sum_list_with watch_work (gd_watchers d) + if gd_returned d then 0 else 1)%nat.

Lemma gdStep_work d d' : rootDone (gd_streamer d) = true → gdStep d d' → (gdWork d' < gdWork d)%nat.
Proof.
  intros Hr Hs. destruct Hs as [s s' l m Hs _|s l1 x x' l2 m Hs|s l Hs Hl]; unfold gdWork; simpl in *; [| |lia].
  - apply own_work in Hs as [_ Hlt]; [|done]. lia.
  - apply watcherStep_work in Hs as [Hlt _]. rewrite !sum_list_with_app. simpl. lia.
Qed.

Lemma gd_can_move d : gdInv d → rootDone (gd_streamer d) = true → gd_returned d = true ∨ ∃ d', gdStep d d'.
Proof.
  destruct d as [s l m]. intros [_ _ Hr _] Hroot. simpl in *. destruct m; [by left|right].
  destruct (own_exists (RetryCount (Common cfg)) (standbyExists cfg) s Hroot) as [Ha|[s' Hs]].
  - destruct (decide (Exists (λ x, ¬ watch_returned x) l)) as [He|He].
    + apply Exists_exists in He as (x&Hin&Hx). rewrite Forall_forall in Hr.
      destruct (watcher_can_move x) as [x' Hs]; [by rewrite Hr|done|].
      apply list_elem_of_split in Hin as (l1&l2&->). eexists. by apply gd_watch.
    + eexists. apply gd_wait; [done|]. apply Forall_forall. intros x Hin.
      destruct (decide (watch_returned x)) as [|Hx]; [done|]. destruct He. apply Exists_exists. by exists x.
  - eexists. eapply gd_own; [exact Hs|]. rewrite Hroot. by apply own_work in Hs as [? _].
Qed.

(** Nothing is fatal any more once [newGRPCStreamer] has returned. *)
#[export] Instance grpc_main : ClientMain grpcDaemon := {
  mainStep := gdStep;
  mainEnv := gdEnv;
  mainStop := gdStop;
  mainReturned d := gd_returned d = true;
  mainFatal d := False;
}.

#[export] Instance grpc_main_laws : ClientMainLaws grpcDaemon.
Proof.
  apply (Build_ClientMainLaws grpcDaemon _ gdInv (λ d, rootDone (gd_streamer d) = true) gdWork).
  - apply gdInv_step.
  - apply gdInv_env.
  - apply gdInv_stop.
  - done.
  - intros d d' Hr Hs. destruct Hs as [s s' l m _ E|s l1 x x' l2 m _|s l _ _]; simpl in *; congruence.
  - intros d d' Hr Hs. destruct Hs as [s s' l m _ E _| |]; simpl in *; congruence.
  - intros d d' _. apply gdStep_work.
  - apply gd_can_move.
Defined.

(** ** The process *)

Context `{PM : Pem} `{TC : TlsCrypto} `{FS : FileSystem W}.

Definition grpcProcInit (p : clientProcess grpcDaemon) : Prop :=
  ∃ now s w, newGRPCStreamer cfg now w = inr s ∧ p = clientProc (startGrpc certs s w).

(** C28: the client in gRPC mode, once its bundles have loaded, runs the failover
    machine as long as it runs; it shuts down cleanly: once the root context is
    done, every run of its goroutines is finite, and some run ends [GRPCMain];
    and when the process exits with code 0, the machine with all its streams and
    every watcher has returned, and every change received has been handed to
    every handler.  Any other exit is a forced one, after Stop was asked for.
    (A bundle that does not load is fatal in [newGRPCStreamer], before all
    this.) *)
Theorem grpc_client_exit p :
  reachable grpcProcInit clientProcStep p →
  reachable Failover.init fstep (gd_streamer (cp_daemon p)) ∧
  (rootDone (gd_streamer (cp_daemon p)) = true → shuts_down (cp_daemon p)) ∧
  (cp_exit p = Some 0 → all_returned (gd_streamer (cp_daemon p)) ∧ Forall watch_returned (gd_watchers (cp_daemon p)) ∧
     Forall2 (λ c x, wt_calls x = fanout c (changes (material (Data c)) (wt_received x)))
       certs (gd_watchers (cp_daemon p))) ∧
  (∀ code, cp_exit p = Some code → code = 0 ∨ code = 1 ∧ ∃ d, cp_shutdown p = ShSelect d).
Proof.
  intros Hp. apply (pinv_reachable (CM := grpc_main_laws)) in Hp as [Hd Hz Hc _].
  2: { intros ? (now&s&w&Hs&->). apply newGRPCStreamer_init in Hs as [-> _]. apply pinv_start, gdInv_start. }
  split_all; [apply Hd|by apply (main_shuts_down (CM := grpc_main_laws))| |].
  2: { intros code He. destruct (Hc code He) as [?|(?&[?|[]])]; auto. }
  intros He. destruct (gi_returned _ Hd (Hz He)) as [Ha Hl]. split_all; [done..|].
  apply (returned_calls id); [apply Hd|done].
Qed.
End Grpc.
Arguments grpcDaemon : clear implicits.

(** ** A concrete client *)

Module Demo.
Import Mtls.Demo.

Definition cfg : ClientConfig :=
  mkClientConfig (mkClientCommonConfig 1 CLIENT_MODE_GRPC "10m" (10 * Minute)) (mkClientHttpServer "" "" "" "")
    (mkClientHttpServer "" "" "" "") (mkClientGRPCServer "main:10002" "/data/mtls/srv.pem")
    (mkClientGRPCServer "standby:10002" "/data/mtls/srv.pem") [].
Definition wc : watchingCert World :=
  mkWatching (mkCertData ["example.com"] "" "") (mkClientCertification "web" "" ["example.com"] "") [λ _ _ _ w, w].

Notation proc := (clientProcess (grpcDaemon World)).
Definition p0 : proc := clientProc (startGrpc [wc] (streamer0 0) w2).
Definition p1 : proc := with_shut ShWait 1%nat p0.
Definition p2 : proc := with_shut (ShSelect false) 0%nat p1.
Definition p3 : proc := with_daemon (gdStop (cp_daemon p2)) (with_shut (ShSelect true) 0%nat p2).

Lemma grpc_reachable : reachable (grpcProcInit cfg [wc]) (clientProcStep (H := grpc_main cfg)) p3.
Proof.
  assert (R0 : reachable (grpcProcInit cfg [wc]) (clientProcStep (H := grpc_main cfg)) p0).
  { apply reach_init. exists 0, (streamer0 0), w2. split; [vm_compute; reflexivity|done]. }
  pose proof (reach_step _ _ _ _ R0 (conj eq_refl (cr_signal p0 Nat.lt_0_2))) as R1.
  pose proof (reach_step _ _ _ _ R1 (conj eq_refl (cr_shut_begin p1 0 eq_refl eq_refl))) as R2.
  exact (reach_step _ _ _ _ R2 (conj eq_refl (cr_shut_stop p2 eq_refl))).
Qed.
End Demo.

(** Stopped on a signal before the first stream is open. *)
Lemma grpc_client_exit_witness :
  ∃ d, rtc (gdStep Demo.cfg) (cp_daemon Demo.p3) d ∧ gd_returned d = true.
Proof.
  destruct (grpc_client_exit Demo.cfg [Demo.wc] Demo.p3 Demo.grpc_reachable) as (_&H&_).
  exact (proj2 (H eq_refl)).
Defined.
